(* ===== verification/_CoqProject ===== *)
-Q . S2P
Prelude.v
CoreTypes.v
Handle.v
Actor.v
ActorConc.v
Router.v
Session.v
Registry.v
LoadBalancer.v
Discovery.v
System.v
NetMessage.v
TcpConn.v
ConnManager.v
Lifecycle.v
Container.v
GoText.v
GoCrypto.v
Crypt.v
Protocol.v
MsgServer.v
LoginServer.v
LoginExample.v
LoginClient.v
LoginProbe.v
ClusterNode.v
ClusterRemote.v
ClusterTransport.v
GoPath.v
Config.v
ConfigLoader.v
ConfigWatcher.v
TcpServer.v
TcpClient.v
Application.v
GoJson.v
GoTime.v
Envelope.v
SimpleDB.v
Agent.v
Hosting.v
Watchdog.v
Gate.v
EchoExample.v
SimpleClient.v
ExamplesApp.v
ClusterApp.v
BootstrapExample.v
ConfigDemo.v
EchoServer.v
EchoClient.v
