(* ===== verification/Prelude.v ===== *)
(** * A verification development for sngo

    sngo is an actor framework for game servers in Go: actors with mailboxes,
    routing by id, handle and service name, request sessions, a service registry
    with discovery and load balancing, a binary network protocol over TCP with a
    server and a client, login and message servers with their cryptography, a
    cluster layer, configuration with hot reload, and a bootstrap layer that
    starts and stops services in dependency order and injects dependencies, with
    example services (a gate, a watchdog with its agents, a database) on top. This
    library models the parts that carry that logic as
    executable definitions translated from the sources and proves what makes
    them correct, and where they are not, what they do instead.

    ** The parts, and the files that model them

    - [Prelude]: machine integers kept at their width, errors as values, calls
      that return, panic or wait for ever ([go]), time, buffered channels, and
      iteration over a map in any order the runtime may choose ([range_order]).
    - [CoreTypes]: src/core/types.go (messages, actor states, options).
    - [Handle]: src/core/handle.go. [HandleManager] keeps three maps and a 32-bit
      counter whose high byte is the node number.
    - [Actor]: src/core/actor.go as sequential functions (start, send, the message
      loop, drain, stop, call); [ActorConc]: the same code as an interleaving of
      goroutines, each atomic access of the source a step of the relation [step].
    - [Router]: src/core/router.go and the routing half of
      src/core/advanced_router.go. The actors behind it are reached through the
      class [ActorIface], the Go interface [Actor].
    - [Session]: the session half of src/core/advanced_router.go; sessions and
      their response channels live on a heap shared by the table and the waiters.
    - [Registry]: src/core/service_registry.go. Registered [ServiceInfo] objects
      are shared with the caller, so they live on a heap; watchers own channels.
    - [LoadBalancer] and [Discovery]: src/core/service_discovery.go. Discovery
      queries the registry and lets the balancer select among what it finds.
    - [System]: src/core/system.go. The actor system owns the router, discovery
      and the heap of actors; it instantiates [ActorIface] with the actors of
      [Actor]. [NewService] binds a name in the router, the handle table and
      discovery; [Shutdown] stops all actors.
    - [NetMessage]: src/network/message.go, the 32-byte big-endian header and the
      codec on bytes; [TcpConn]: src/network/tcp_connection.go, reads of a framed
      stream, the send queue, closing; [ConnManager]:
      src/network/connection_manager.go, which reaches connections through the
      class [ConnIface], the Go interface [Connection]; its module [Heartbeat] is
      the heartbeat goroutine as a step relation.
    - [TcpServer]: src/network/tcp_server.go, on the connections of [TcpConn]: the
      accept loop, the loops that hand connections to the program and a reader
      per connection; [TcpClient]: src/network/tcp_client.go, connecting,
      message loops and reconnection loops, and src/network/factory.go.
    - [GoText], [GoCrypto], [GoPath]: what the servers and the configuration use
      of Go's library: text encodings, sockets read in segments, DES, SHA-1, HMAC
      and MD5, paths.
    - [Crypt]: src/crypt/crypt.go; [Protocol]: src/protocol/protocol.go;
      [MsgServer]: src/msgserver/msgserver.go; [LoginServer]:
      src/loginserver/loginserver.go with the computations of its client;
      [LoginExample]: the handlers of that example, as instances of the classes
      [MsgHandler] and [LoginHandler] through which the servers reach them;
      [LoginClient]: its client on segmented sockets, with Go's buffered reader;
      [LoginProbe]: src/examples/login/simple_client against the login server.
    - [ClusterNode]: src/cluster/node.go, the data of src/cluster/interfaces.go
      and ClusterService of src/cluster/integration.go; [ClusterRemote]:
      src/cluster/service.go, remote calls and the registry of a node;
      [ClusterTransport]: src/cluster/transport.go, connections between nodes.
    - [Config]: src/config/types.go and errors.go; [ConfigLoader]:
      src/config/loader.go, files, environment and merging on a store of
      configurations; [ConfigWatcher]: src/config/watcher.go, debounced reloads.
    - [Lifecycle]: src/bootstrap/lifecycle.go; services are reached through the
      class [ServiceIface], the Go interface [Service].
    - [Container]: src/bootstrap/container.go; the Go interface [Container] is a
      record of operations, factories are trees of the calls they make.
    - [Application]: src/bootstrap/application.go puts the lifecycle manager, the
      container, an actor system and a TCP server together; its two core services
      and the program's own are an instance of [ServiceIface] over one world.
    - [GoJson]: what the examples use of encoding/json: values, the printer, the
      parser with Go's limits, and the decoding of commands into a struct;
      [GoTime]: Go's calendar and RFC 3339; [Envelope]: the JSON methods of
      message envelopes in src/core/handle.go.
    - [Hosting]: actors of several programs in one actor system; a message is
      queued by a send and handled in a turn that the host interprets.
    - [SimpleDB]: src/examples/simpledb; [Agent]: src/examples/agent;
      [Watchdog]: src/examples/watchdog, which makes agents in its actor system;
      [Gate]: src/examples/gate, with its accept loops and readers as steps and
      the read buffers as shared memory; [SimpleClient]: src/examples/client.
    - [EchoExample]: the handlers of src/examples/echo_server on the connections of
      [TcpConn]; [EchoServer]: the whole program, with [TcpServer] and [ConnManager]
      on one heap of connections, its handlers and heartbeat as steps;
      [EchoClient]: src/examples/echo_client on [TcpClient].
    - [ConfigDemo]: src/examples/config_demo on [ConfigLoader] and [ConfigWatcher].
    - [ExamplesApp]: src/examples/main.go, the three services on [Application];
      [ClusterApp]: ClusterApp of src/cluster/integration.go and
      src/examples/cluster_example on [Application] and [ClusterNode];
      [BootstrapExample]: src/bootstrap/example, an application driven by hand.

    Definitions keep the names of the source; where Go overloads a method name,
    a prefix tells the receiver ([reg_Register], [sys_Send], [ar_Register]).
    Fields carry a prefix per struct. A mutex that is held around a whole
    operation makes the operation one step; where the code leaves and takes it
    again, or calls out while holding it, the halves are separate definitions
    ([health_due], [Send_check] and [Send_select], [Resolve] under [Lock]).

    ** What the theorems show

    - Actors: mailbox order, finality and completion of [Stop], matching of
      responses to calls, under every interleaving of any number of goroutines
      ([mailbox_fifo], [stop_is_final], [stop_completes],
      [call_response_matches]); and a reachable panic of [Send] during [Stop].
    - Handles and routing: the handle manager refines a table of live handles;
      an envelope survives its JSON ([envelope_roundtrip]), and what panics;
      ids of different nodes differ; names bind, unbind and route to exactly
      their actor; no operation dereferences a missing handle.
    - Sessions: the state machine of a session, exact expiry, the round trip of
      an answer.
    - Registry, balancing, discovery: queries are exact for every iteration
      order, watchers see every change, round robin is fair, least connections
      is minimal, weights stay within bounds, discovery by name is correct; the
      weighted strategy can answer with another service, and a health check can
      undo an update.
    - System: a new service works end to end; shutdown stops everything; a call
      is delivered to its source; a refused service leaks an actor.
    - Network: encoding and decoding are inverse, decoding is bounded and total,
      framing survives any segmentation of the stream; cleanup of connections is
      exact, at most one heartbeat loop runs, and stopping it can deadlock. The
      server's count is its table and stays within its limit, and no connection
      is handed out twice ([server_accounting]); the client dials at most once at
      a time and gives up after its attempts ([client_dials_bounded]); a
      restarted server is dead, a disconnected client deaf, and reconnection
      loops pile up.
    - Login and messages: both ends of the key exchange derive the same secret;
      an honest client's token reaches the login step whatever the random keys
      ([login_end_to_end]); nobody is heard who has not authenticated
      ([heard_only_authenticated]); the handshake and a round of the message loop
      on every branch; the loop terminates; packing and unpacking are inverse;
      the binary frame is exact within its 16-bit length and what it does beyond.
      With a server that registers its game server the example's client logs in
      ([client_logs_in]) and its messages come back ([test_messages_echoed]), unless a
      response arrives in one segment; the example's own servers log nobody in and
      hear nobody.
    - Cluster: the registry never touches a closed channel and finds what was
      registered; a remote call is answered with its handler's result; the
      transport keeps the order of each connection and closes no queue twice; a
      dropped connection takes its successor with it; health is a majority.
    - Configuration: what a load returns is valid, and each field is the
      environment's, the file's or the default's by a table ([load_precedence]);
      the watcher's configuration is always a valid one, and a burst of writes is
      reloaded once; custom fields and environment variables leak into defaults.
    - Bootstrap: the start order is topological and found whenever there is one,
      stop reverses it, a failed start is not undone; resolving creates
      singletons; a factory that uses its container, and a scoped container,
      wait for ever.
    - Application: built, run and shut down, everything it made is stopped
      ([application_life]); run again it is dead, and configured again its
      container hands out the old actor system.
    - Examples: parsing what was printed gives a JSON value back; the database
      refines a map ([simpledb_refines_map]); the watchdog has exactly one agent
      per open socket ([watchdog_tracks_sockets]); the gate's table and its
      connections correspond whatever runs ([gate_owns_connections]), but its
      events reach nobody, forwarded data is overwritten by the next read and the
      kick of the watchdog is refused; an echo comes back, and the echo server's
      manager holds exactly the connections announced and not yet gone
      ([echo_manager_tracks]), which may be dead already; the echo client writes a
      prefix of what it was given ([client_sends_prefix]); the
      frames of the test client are read back up to its 16-bit length. The example
      application ([examples_application_starts]) and the cluster application
      start; the main function of the cluster example never gets to it
      ([cluster_example_never_runs]), and the bootstrap example starts everything
      and stops nothing ([demo_shutdown_stops_nothing]). The configuration demo
      reports changes between valid configurations, starting from the one it showed
      unless it watches another file ([config_demo_reports],
      [watch_starts_from_shown]).

    Theorems that quantify over states take every state reachable from the
    constructor by any sequence of operations ([reachable], [sm_reach],
    [reg_reach], [sys_reach], [sv_reach], [cl_reach], [mt_reach], [cm_reach],
    [echo_reach], or a
    list of operations run from the constructor).

    ** Bounds and fuel

    The definitions that recurse on something else than their data take fuel:
    [drainMailbox] the length of the queue plus one, [read_loop] the bytes
    wanted plus the segments that arrive, [read_string] twice what arrives plus
    what is buffered, [kahn] the number of services,
    [trim_left], [chunks], [unquote] and [fields_loop] the length of their bytes,
    the JSON parser four plus twice the length of its text. Each is proved enough
    where it is used: the theorems say that the call returns. The rounds of a
    message loop are steps; [message_loop_ends] bounds their number by the bytes
    and segments to arrive. The
    depth of [default_container] and [scoped_container] is the depth of nested
    calls of [Resolve]; two are always enough, since the inner call waits. The
    32-bit handle and actor counters wrap in the code; the theorems that need
    distinct ids assume that fewer were issued ([handles_left], [enough]).

    ** What is not modelled

    Scheduling fairness, real time (an operation is given what the clock reads)
    and data races on unsynchronised fields. The sockets, the random source, the
    conversion of a float64 that does not fit an int, JSON and YAML of arbitrary
    values, the file system and its notifications, the environment, the message
    handlers and the managed services are parameters. The heartbeat and failure
    detection of the cluster are empty functions in the source. Text that is only
    logged or formatted for display is left out, except in the demonstrations whose
    output is their result.

    Also left out: src/examples/simpledb/test, a copy of the test client that
    [SimpleDB] models, src/examples/client/test, which only calls what
    [SimpleClient] models, and Go interfaces that are method lists without a use here. *)

From stdpp Require Export gmap strings list pretty numbers fin_maps relations.
From Stdlib Require Export ZArith Lia.
From Corelib Require Export ssreflect.
#[global] Open Scope general_if_scope.

(** * Shared vocabulary of the development

    What the Go sources use of the language and of its standard library:
    machine integers, errors, panics, time, buffered channels, and iteration
    over maps in an unspecified order. *)

Declare Scope go_scope.
Delimit Scope go_scope with go.
#[global] Open Scope Z_scope.

(** ** Machine integers

    Go integers are kept as [Z] and wrapped at their width where the code
    computes with them. *)

Definition u8 (z : Z) : Z := z mod 2 ^ 8.
Definition u16 (z : Z) : Z := z mod 2 ^ 16.
Definition u32 (z : Z) : Z := z mod 2 ^ 32.
Definition u64 (z : Z) : Z := z mod 2 ^ 64.

(** Two's complement reading of the low 64 bits: Go's [int64], and [int] on
    the 64-bit platforms. *)
Definition i64 (z : Z) : Z := (z + 2 ^ 63) mod 2 ^ 64 - 2 ^ 63.

Definition max_int64 : Z := 2 ^ 63 - 1.
Definition min_int64 : Z := - 2 ^ 63.

Definition is_u32 (z : Z) : Prop := 0 <= z < 2 ^ 32.
Definition is_u64 (z : Z) : Prop := 0 <= z < 2 ^ 64.
Definition is_i64 (z : Z) : Prop := - 2 ^ 63 <= z < 2 ^ 63.

Ltac unfold_words :=
  unfold u8, u16, u32, u64, i64, is_u32, is_u64, is_i64, max_int64, min_int64 in *.

Lemma u32_id z : is_u32 z -> u32 z = z.
Proof. unfold_words. intros. by apply Z.mod_small. Qed.

Lemma u32_range z : is_u32 (u32 z).
Proof. unfold_words. apply Z.mod_pos_bound. lia. Qed.

Lemma u64_id z : is_u64 z -> u64 z = z.
Proof. unfold_words. intros. by apply Z.mod_small. Qed.

Lemma i64_id z : is_i64 z -> i64 z = z.
Proof. unfold_words. intros. rewrite Z.mod_small; lia. Qed.

Lemma i64_range z : is_i64 (i64 z).
Proof. unfold_words. pose proof (Z.mod_pos_bound (z + 2 ^ 63) (2 ^ 64)). lia. Qed.

(** ** Errors, results and panics

    A Go [error] is known to its users by the text [Error()] returns, so an
    error is its text; [%w] wrapping is concatenation. *)

Definition error := string.

(** The result pair [(v, err)] of a fallible function. *)
Inductive res (A : Type) : Type :=
| Ok (a : A)
| Err (e : error).
Arguments Ok {A} a.
Arguments Err {A} e.

(** How a call can end: it returns, it panics (send on a closed channel, close
    of a closed channel, index out of range, nil dereference), or it waits for
    ever (a lock its own goroutine holds). *)
Inductive go (A : Type) : Type :=
| Ret (a : A)
| Panic (why : string)
| Hang.
Arguments Ret {A} a.
Arguments Panic {A} why.
Arguments Hang {A}.

#[export] Instance res_ret : MRet res := fun A a => Ok a.
#[export] Instance res_bind : MBind res :=
  fun A B f r => match r with Ok a => f a | Err e => Err e end.
#[export] Instance go_ret : MRet go := fun A a => Ret a.
#[export] Instance go_bind : MBind go :=
  fun A B f r => match r with Ret a => f a | Panic w => Panic w | Hang => Hang end.

Definition is_ok {A} (r : res A) : bool := match r with Ok _ => true | Err _ => false end.
Definition returns {A} (r : go A) : Prop := exists a, r = Ret a.

(** [fmt.Errorf("<prefix>: %w", err)] *)
Definition wrap_err {A} (prefix : string) (r : res A) : res A :=
  match r with Ok a => Ok a | Err e => Err (prefix +:+ ": " +:+ e) end.

(** ** Time

    A [time.Time] is the instant in nanoseconds since the Unix epoch. *)

Definition time := Z.
Definition duration := Z.

Definition Second : duration := 1000000000.
Definition Millisecond : duration := 1000000.

(** The zero value of [time.Time]: January 1, year 1, 00:00:00 UTC. *)
Definition zero_time : time := - 62135596800 * Second.
Definition IsZero (t : time) : bool := t =? zero_time.

(** [Time.Sub] saturates at the limits of [time.Duration] (an int64). *)
Definition time_sub (t u : time) : duration := Z.max min_int64 (Z.min max_int64 (t - u)).

(** [Time.Unix] and [time.Unix(sec, 0)]. *)
Definition Unix (t : time) : Z := t / Second.
Definition unix_time (sec : Z) : time := sec * Second.

Lemma Unix_unix_time s : Unix (unix_time s) = s.
Proof. unfold Unix, unix_time. apply Z.div_mul. unfold Second. lia. Qed.

(** The wall clock as an operation sees it: the [n]th [time.Now()] of its text
    reads [clk n]. *)
Definition clock := nat -> time.

(** ** Buffered channels *)

Record chan (A : Type) : Type := mkChan {
  ch_buf : list A;
  ch_cap : nat;
  ch_closed : bool;
}.
Arguments mkChan {A} _ _ _.
Arguments ch_buf {A} _.
Arguments ch_cap {A} _.
Arguments ch_closed {A} _.

Definition make_chan {A} (cap : nat) : chan A := mkChan [] cap false.

(** [select { case ch <- x: ... default: ... }]: whether the value was queued,
    and the channel after it. *)
Definition try_send {A} (ch : chan A) (x : A) : go (bool * chan A) :=
  if ch_closed ch then Panic "send on closed channel"
  else if decide (length (ch_buf ch) < ch_cap ch)%nat
       then Ret (true, mkChan (ch_buf ch ++ [x]) (ch_cap ch) false)
       else Ret (false, ch).

Definition close_chan {A} (ch : chan A) : go (chan A) :=
  if ch_closed ch then Panic "close of closed channel"
  else Ret (mkChan (ch_buf ch) (ch_cap ch) true).

(** What a receive finds: a value, a closed and drained channel (the zero value
    of the element type), or nothing yet. *)
Inductive received (A : Type) : Type :=
| Got (x : A) (rest : chan A)
| GotClosed
| NotReady.
Arguments Got {A} _ _.
Arguments GotClosed {A}.
Arguments NotReady {A}.

Definition try_recv {A} (ch : chan A) : received A :=
  match ch_buf ch with
  | x :: rest => Got x (mkChan rest (ch_cap ch) (ch_closed ch))
  | [] => if ch_closed ch then GotClosed else NotReady
  end.

Definition chan_wf {A} (ch : chan A) : Prop := (length (ch_buf ch) <= ch_cap ch)%nat.

Lemma try_send_open {A} (ch : chan A) x :
  ch_closed ch = false ->
  try_send ch x =
    Ret (if decide (length (ch_buf ch) < ch_cap ch)%nat
         then (true, mkChan (ch_buf ch ++ [x]) (ch_cap ch) false) else (false, ch)).
Proof. unfold try_send. intros ->. by case_decide. Qed.

Lemma try_send_wf {A} (ch ch' : chan A) x b :
  chan_wf ch -> try_send ch x = Ret (b, ch') -> chan_wf ch'.
Proof.
  unfold try_send, chan_wf. intros ??.
  destruct (ch_closed ch); [done|]. case_decide; simplify_eq/=; [|done].
  rewrite length_app /=. lia.
Qed.

(** ** Iteration over a map

    Go visits the entries of a map in an order the language leaves open. An
    operation that ranges over a map takes the order of the keys as an
    argument, and its theorems hold for every order the runtime may choose. *)

Section range.
Context {K V : Type} `{Countable K}.

Definition keys (m : gmap K V) : list K := (map_to_list m).*1.

(** [ks] is an order in which the runtime may visit [m]. *)
Definition range_order (m : gmap K V) (ks : list K) : Prop := ks ≡ₚ keys m.

(** The values a loop over [m] sees in the order [ks]; an entry that is gone
    when the loop comes to it is not seen. *)
Definition range_vals (m : gmap K V) (ks : list K) : list V := omap (fun k => m !! k) ks.

Lemma range_order_keys m : range_order m (keys m).
Proof. done. Qed.

Lemma elem_of_range_order m ks k : range_order m ks -> k ∈ ks <-> is_Some (m !! k).
Proof.
  intros Hks. rewrite Hks /keys list_elem_of_fmap. split.
  - intros ([k' v] & -> & Hin). apply elem_of_map_to_list in Hin. by exists v.
  - intros [v Hv]. exists (k, v). by rewrite elem_of_map_to_list.
Qed.

Lemma NoDup_range_order m ks : range_order m ks -> NoDup ks.
Proof. intros ->. apply NoDup_fst_map_to_list. Qed.

(** A table that is written out: its keys, each once. *)
Lemma listed_keys m ks : NoDup ks -> (forall k, k ∈ ks <-> is_Some (m !! k)) -> range_order m ks.
Proof.
  intros Hnd Hks. apply NoDup_Permutation; [done|apply (NoDup_range_order m), range_order_keys|].
  intros k. by rewrite Hks (elem_of_range_order m _ k (range_order_keys m)).
Qed.

Lemma length_range_order m ks : range_order m ks -> length ks = size m.
Proof. intros ->. by rewrite /keys length_fmap length_map_to_list. Qed.

Lemma elem_of_range_vals m ks v :
  range_order m ks -> v ∈ range_vals m ks <-> exists k, m !! k = Some v.
Proof.
  intros Hks. rewrite /range_vals list_elem_of_omap. split.
  - intros (k & _ & Hk). by exists k.
  - intros [k Hk]. exists k. split; [|done]. apply (elem_of_range_order m); eauto.
Qed.

Lemma range_vals_cons_Some m k ks v :
  m !! k = Some v -> range_vals m (k :: ks) = v :: range_vals m ks.
Proof. intros Hk. by rewrite /range_vals /= Hk. Qed.

Lemma length_range_vals m ks : range_order m ks -> length (range_vals m ks) = size m.
Proof.
  intros Hks. rewrite -(length_range_order m ks Hks).
  assert (Forall (fun k => is_Some (m !! k)) ks) as Hall.
  { apply Forall_forall. intros k Hk. by apply (elem_of_range_order m ks k Hks). }
  clear Hks. induction Hall as [|k ks [v Hv] _ IH]; [done|].
  by rewrite (range_vals_cons_Some _ _ _ v) //= IH.
Qed.

(** Deleting a visited key does not change what the rest of the loop sees. *)
Lemma range_vals_delete_notin m k ks : k ∉ ks -> range_vals (delete k m) ks = range_vals m ks.
Proof.
  induction ks as [|k' ks IH]; [done|]. intros [? ?]%not_elem_of_cons.
  unfold range_vals in *. csimpl. rewrite lookup_delete_ne //. by rewrite IH.
Qed.

End range.

(** ** Lists and strings *)

Lemma NoDup_omap_inj {A B} (f : A -> option B) (l : list A) :
  NoDup l ->
  (forall x y b, f x = Some b -> f y = Some b -> x = y) ->
  NoDup (omap f l).
Proof.
  intros Hl Hinj. induction Hl as [|x l Hx Hl IH]; csimpl; [constructor|].
  destruct (f x) as [b|] eqn:Hb; [|done]. constructor; [|done].
  rewrite list_elem_of_omap. intros (y & Hy & Hyb). by rewrite (Hinj x y b Hb Hyb) in Hx.
Qed.

(** A computable test of string equality. *)
Definition eqs (a b : string) : bool := bool_decide (a = b).

Lemma eqs_true a b : eqs a b = true <-> a = b.
Proof. apply bool_decide_eq_true. Qed.

(** Go's [!= ""]. *)
Definition nonempty (s : string) : bool := negb (eqs s "").

Lemma nonempty_true s : nonempty s = true <-> s <> "".
Proof. rewrite /nonempty negb_true_iff. apply bool_decide_eq_false. Qed.

Lemma nonempty_false s : nonempty s = false <-> s = "".
Proof. rewrite /nonempty negb_false_iff. apply eqs_true. Qed.

(** ** Running a sequence of operations *)

Fixpoint run_ops {S O Op} (step : S -> Op -> S * O) (s : S) (ops : list Op) : S * list O :=
  match ops with
  | [] => (s, [])
  | op :: ops' =>
      let '(s1, o) := step s op in
      let '(s2, os) := run_ops step s1 ops' in (s2, o :: os)
  end.

Lemma run_ops_cons {S O Op} (step : S -> Op -> S * O) s op ops :
  run_ops step s (op :: ops) =
    ((run_ops step (step s op).1 ops).1, (step s op).2 :: (run_ops step (step s op).1 ops).2).
Proof. simpl. destruct (step s op) as [s1 o]. simpl. by destruct (run_ops step s1 ops). Qed.

(** An invariant that every operation keeps holds after any sequence of them. *)
Lemma run_ops_invariant {S O Op} (step : S -> Op -> S * O) (I : S -> Prop) s ops :
  I s -> (forall s op, I s -> I (step s op).1) -> I (run_ops step s ops).1.
Proof.
  intros Hs Hstep. revert s Hs. induction ops as [|op ops IH]; intros s Hs; [done|].
  rewrite run_ops_cons. apply IH, Hstep, Hs.
Qed.

(** ** Lists that grow at the end *)

Lemma lookup_snoc_inv {A} (l : list A) x i y : (l ++ [x]) !! i = Some y -> l !! i = Some y \/ i = length l /\ y = x.
Proof.
  intros [Hl|[Hge Hl]]%lookup_app_Some; [by left|right].
  apply list_lookup_singleton_Some in Hl as [Hi ->]. split; [lia|done].
Qed.

(** ** Proof automation *)

Create HintDb sngo.
#[export] Hint Resolve u32_range i64_range range_order_keys : sngo.

(** Split a goal by the tests and matches it computes with. *)
Ltac split_cases :=
  repeat (case_match || case_decide || case_bool_decide); simplify_eq/=.

(** Close a goal by map rewriting, arithmetic or first-order search. *)
Ltac sngo_solve :=
  first [ done | by simplify_map_eq | lia | by eauto with sngo | naive_solver (eauto with sngo lia) ].
