(* ===== verification/CoreTypes.v ===== *)
(** Data types of package core (src/core/types.go): actor identifiers, messages,
    the actor life cycle states, actor options and statistics. *)

From S2P Require Import Prelude.

(** [type ActorID uint32], [type MessageType uint8]: kept as [Z]. *)
Definition ActorID := Z.
Definition MessageType := Z.

(** Bytes are [Z] in [0, 256); a [[]byte] is the list of its bytes. *)
Definition bytes := list Z.

(** [[]byte(s)] of a Go string. *)
Fixpoint bytes_of_string (s : string) : bytes :=
  match s with
  | EmptyString => []
  | String c s' => Z.of_N (Ascii.N_of_ascii c) :: bytes_of_string s'
  end.

(** [string(b)] of a byte slice. *)
Fixpoint string_of_bytes (b : bytes) : string :=
  match b with
  | [] => EmptyString
  | z :: b' => String (Ascii.ascii_of_N (Z.to_N z)) (string_of_bytes b')
  end.

Lemma string_of_bytes_of_string s : string_of_bytes (bytes_of_string s) = s.
Proof.
  induction s as [|c s IH]; [done|]. simpl.
  by rewrite N2Z.id Ascii.ascii_N_embedding IH.
Qed.

Record Message := mkMessage {
  m_ID : Z;
  m_Type : MessageType;
  m_Source : ActorID;
  m_Target : ActorID;
  m_Session : Z;
  m_Data : bytes;
  m_Timestamp : time;
}.

#[export] Instance Message_eq_dec : EqDecision Message.
Proof. solve_decision. Defined.

(** The assignments [msg.Source = a], [msg.Target = a], [msg.Session = s]. *)
Definition set_Source (a : ActorID) (m : Message) : Message :=
  mkMessage (m_ID m) (m_Type m) a (m_Target m) (m_Session m) (m_Data m) (m_Timestamp m).
Definition set_Target (a : ActorID) (m : Message) : Message :=
  mkMessage (m_ID m) (m_Type m) (m_Source m) a (m_Session m) (m_Data m) (m_Timestamp m).
Definition set_Session (s : Z) (m : Message) : Message :=
  mkMessage (m_ID m) (m_Type m) (m_Source m) (m_Target m) s (m_Data m) (m_Timestamp m).

(** The state of an actor only ever holds one of these four, so that the
    "unknown" of its [String] does not occur. *)
Inductive ActorState :=
| ActorStateIdle
| ActorStateRunning
| ActorStateStopping
| ActorStateStopped.

#[export] Instance ActorState_eq_dec : EqDecision ActorState.
Proof. solve_decision. Defined.

Definition ActorState_String (s : ActorState) : string :=
  match s with
  | ActorStateIdle => "idle"
  | ActorStateRunning => "running"
  | ActorStateStopping => "stopping"
  | ActorStateStopped => "stopped"
  end.

Definition MessageTypeText : MessageType := 0.
Definition MessageTypeResponse : MessageType := 1.
Definition MessageTypeRequest : MessageType := 2.
Definition MessageTypeSystem : MessageType := 3.
Definition MessageTypeError : MessageType := 4.
Definition MessageTypeMulticast : MessageType := 5.

Definition MessageType_String (t : MessageType) : string :=
  if t =? MessageTypeText then "text"
  else if t =? MessageTypeResponse then "response"
  else if t =? MessageTypeRequest then "request"
  else if t =? MessageTypeSystem then "system"
  else if t =? MessageTypeError then "error"
  else if t =? MessageTypeMulticast then "multicast"
  else "unknown".

Record ActorOptions := mkActorOptions {
  o_MailboxSize : Z;
  o_Name : string;
  o_ProcessTimeout : duration;
}.

Definition DefaultActorOptions : ActorOptions := mkActorOptions 1000 "" (30 * Second).

Record ActorStats := mkActorStats {
  st_ID : ActorID;
  st_Name : string;
  st_State : ActorState;
  st_MessagesProcessed : Z;
  st_MailboxSize : Z;
  st_CreatedAt : time;
  st_LastMessageAt : time;
}.
