(* ===== verification/Handle.v ===== *)
(** Handles and the handle manager (src/core/handle.go).

    A [Handle] object is never written after [AllocateHandle] has built it, so a
    [*Handle] is modelled by the record it points to, [nil] by [None]. The map
    lookups that return a pointer for a missing key return [nil] here too. *)

From S2P Require Import Prelude CoreTypes.

Record Handle := mkHandle {
  h_ID : Z;
  h_ActorID : ActorID;
  h_Name : string;
  h_Node : Z;
  h_IsLocal : bool;
}.

#[export] Instance Handle_eq_dec : EqDecision Handle.
Proof. solve_decision. Defined.

(** [%08x] of a uint32: its eight hexadecimal digits. *)
Definition hex_digit (d : Z) : Ascii.ascii :=
  Ascii.ascii_of_N (Z.to_N (if d <? 10 then 48 + d else 87 + d)).
Fixpoint hex_digits (n : nat) (z : Z) : string :=
  match n with
  | O => EmptyString
  | S n' => String (hex_digit (z / 16 ^ Z.of_nat n' mod 16)) (hex_digits n' z)
  end.

Definition Handle_String (h : Handle) : string :=
  if nonempty (h_Name h)
  then ":" +:+ hex_digits 8 (h_ID h) +:+ "(" +:+ h_Name h +:+ ")"
  else ":" +:+ hex_digits 8 (h_ID h).

Record ServiceAddress := mkServiceAddress {
  sa_Handle : option Handle;
  sa_Name : string;
  sa_Pattern : string;
}.

Definition ServiceAddress_IsValid (sa : ServiceAddress) : bool :=
  bool_decide (is_Some (sa_Handle sa)) || nonempty (sa_Name sa) || nonempty (sa_Pattern sa).

Definition ServiceAddress_String (sa : ServiceAddress) : string :=
  match sa_Handle sa with
  | Some h => Handle_String h
  | None =>
      if nonempty (sa_Name sa) then sa_Name sa
      else if nonempty (sa_Pattern sa) then sa_Pattern sa
      else "<invalid>"
  end.

Record HandleManager := mkHandleManager {
  hm_handles : gmap Z Handle;
  hm_actorToHandle : gmap ActorID Z;
  hm_nameToHandle : gmap string Z;
  hm_handleCounter : Z;
  hm_nodeID : Z;
}.

(** [nodeID<<24 + 1] is computed in uint32. *)
Definition NewHandleManager (nodeID : Z) : HandleManager :=
  mkHandleManager ∅ ∅ ∅ (u32 (u32 (Z.shiftl nodeID 24) + 1)) nodeID.

Definition AllocateHandle (hm : HandleManager) (actorID : ActorID) (name : string)
    : HandleManager * res (option Handle) :=
  match hm_actorToHandle hm !! actorID with
  | Some existingHandleID => (hm, Ok (hm_handles hm !! existingHandleID))
  | None =>
      if nonempty name && bool_decide (is_Some (hm_nameToHandle hm !! name))
      then (hm, Err ("service name '" +:+ name +:+ "' already exists"))
      else
        let handleID := hm_handleCounter hm in
        let handle := mkHandle handleID actorID name (hm_nodeID hm) true in
        (mkHandleManager
           (<[handleID := handle]> (hm_handles hm))
           (<[actorID := handleID]> (hm_actorToHandle hm))
           (if nonempty name then <[name := handleID]> (hm_nameToHandle hm)
            else hm_nameToHandle hm)
           (u32 (handleID + 1))
           (hm_nodeID hm),
         Ok (Some handle))
  end.

Definition GetHandle (hm : HandleManager) (handleID : Z) : option Handle :=
  hm_handles hm !! handleID.

(** [(pointer, found)]: [None] is [(nil, false)], [Some p] is [(p, true)]. *)
Definition GetHandleByActor (hm : HandleManager) (actorID : ActorID) : option (option Handle) :=
  handleID ← hm_actorToHandle hm !! actorID; Some (hm_handles hm !! handleID).

Definition GetHandleByName (hm : HandleManager) (name : string) : option (option Handle) :=
  handleID ← hm_nameToHandle hm !! name; Some (hm_handles hm !! handleID).

Definition ReleaseHandle (hm : HandleManager) (handleID : Z) : HandleManager * res unit :=
  match hm_handles hm !! handleID with
  | None => (hm, Err ("handle " +:+ pretty handleID +:+ " not found"))
  | Some handle =>
      (mkHandleManager
         (delete handleID (hm_handles hm))
         (delete (h_ActorID handle) (hm_actorToHandle hm))
         (if nonempty (h_Name handle) then delete (h_Name handle) (hm_nameToHandle hm)
          else hm_nameToHandle hm)
         (hm_handleCounter hm)
         (hm_nodeID hm),
       Ok tt)
  end.

(** [order]: the order in which the runtime visits [hm.handles]. *)
Definition ListHandles (hm : HandleManager) (order : list Z) : list Handle :=
  range_vals (hm_handles hm) order.

Definition ResolveAddress (hm : HandleManager) (addr : ServiceAddress) : res (option Handle) :=
  match sa_Handle addr with
  | Some h => Ok (Some h)
  | None =>
      if nonempty (sa_Name addr) then
        match GetHandleByName hm (sa_Name addr) with
        | Some handle => Ok handle
        | None => Err ("service '" +:+ sa_Name addr +:+ "' not found")
        end
      else if nonempty (sa_Pattern addr)
      then Err ("pattern matching not implemented: " +:+ sa_Pattern addr)
      else Err "invalid service address"
  end.

(** [MessageEnvelope] and its flags. *)
Definition FlagDontCopy : Z := Z.shiftl 1 0.
Definition FlagAllocSession : Z := Z.shiftl 1 1.
Definition FlagResponse : Z := Z.shiftl 1 2.
Definition FlagMulticast : Z := Z.shiftl 1 3.

Record MessageEnvelope := mkMessageEnvelope {
  me_Source : ServiceAddress;
  me_Target : ServiceAddress;
  me_Message : option Message;
  me_Flags : Z;
}.

(** ** Well-formedness

    The three maps describe one table of live handles: every live handle is
    reachable under its own id, its actor and its name, and nothing else is
    reachable; no live id has been issued ahead of the counter. *)

Record hm_wf (hm : HandleManager) : Prop := {
  wf_handle id h :
    hm_handles hm !! id = Some h ->
    h_ID h = id /\ h_Node h = hm_nodeID hm /\ h_IsLocal h = true /\
    id < hm_handleCounter hm /\
    hm_actorToHandle hm !! h_ActorID h = Some id /\
    (h_Name h <> "" -> hm_nameToHandle hm !! h_Name h = Some id);
  wf_actor a id :
    hm_actorToHandle hm !! a = Some id ->
    exists h, hm_handles hm !! id = Some h /\ h_ActorID h = a;
  wf_name n id :
    hm_nameToHandle hm !! n = Some id ->
    n <> "" /\ exists h, hm_handles hm !! id = Some h /\ h_Name h = n;
}.

Lemma NewHandleManager_wf nodeID : hm_wf (NewHandleManager nodeID).
Proof. split; intros *; rewrite lookup_empty; done. Qed.

Lemma wf_counter_fresh hm : hm_wf hm -> hm_handles hm !! hm_handleCounter hm = None.
Proof.
  intros Hwf. destruct (hm_handles hm !! hm_handleCounter hm) as [h|] eqn:Hh; [|done].
  destruct (wf_handle hm Hwf _ _ Hh) as (_ & _ & _ & ? & _). lia.
Qed.

Lemma wf_by_actor hm a id h :
  hm_wf hm -> hm_handles hm !! id = Some h -> hm_actorToHandle hm !! a = Some id -> h_ActorID h = a.
Proof. intros Hwf Hh (h' & Hh' & ?)%(wf_actor hm Hwf). by simplify_eq. Qed.

Lemma wf_by_name hm n id h :
  hm_wf hm -> hm_handles hm !! id = Some h -> hm_nameToHandle hm !! n = Some id ->
  h_Name h = n /\ n <> "".
Proof. intros Hwf Hh (? & h' & Hh' & ?)%(wf_name hm Hwf). by simplify_eq. Qed.

(** The allocation branch, on a well-formed table whose counter does not wrap. *)
Lemma AllocateHandle_new hm a name :
  hm_actorToHandle hm !! a = None ->
  (name <> "" -> hm_nameToHandle hm !! name = None) ->
  let id := hm_handleCounter hm in
  let h := mkHandle id a name (hm_nodeID hm) true in
  AllocateHandle hm a name =
    (mkHandleManager (<[id := h]> (hm_handles hm)) (<[a := id]> (hm_actorToHandle hm))
       (if nonempty name then <[name := id]> (hm_nameToHandle hm) else hm_nameToHandle hm)
       (u32 (id + 1)) (hm_nodeID hm), Ok (Some h)).
Proof.
  intros Ha Hn. unfold AllocateHandle. rewrite Ha.
  destruct (nonempty name) eqn:E; [|done].
  apply nonempty_true in E. by rewrite (Hn E).
Qed.

Lemma AllocateHandle_wf hm a name :
  hm_wf hm -> 0 <= hm_handleCounter hm -> hm_handleCounter hm + 1 < 2 ^ 32 ->
  hm_wf (AllocateHandle hm a name).1.
Proof.
  intros Hwf Hc0 Hc. pose proof (wf_counter_fresh hm Hwf) as Hfresh.
  destruct (hm_actorToHandle hm !! a) as [id|] eqn:Ha.
  { unfold AllocateHandle. by rewrite Ha. }
  destruct (decide (name <> "" /\ is_Some (hm_nameToHandle hm !! name))) as [[Hne Hs]|Hn].
  { unfold AllocateHandle. rewrite Ha. apply nonempty_true in Hne. by rewrite Hne bool_decide_true. }
  rewrite AllocateHandle_new; [done|intros ?; apply eq_None_not_Some; naive_solver|]. cbn [fst].
  rewrite u32_id; [unfold_words; lia|].
  split; simpl.
  - intros id h [[<- <-]|[Hid Hh]]%lookup_insert_Some; simpl.
    + split_and!; try done; [lia|by rewrite lookup_insert_eq|].
      intros Hne%nonempty_true. by rewrite Hne lookup_insert_eq.
    + destruct (wf_handle hm Hwf _ _ Hh) as (-> & -> & -> & ? & Hact & Hname).
      split_and!; try done; [lia| |].
      * rewrite lookup_insert_ne //. congruence.
      * intros Hne. specialize (Hname Hne). destruct (nonempty name) eqn:E; [|done].
        rewrite lookup_insert_ne //. intros ->. naive_solver.
  - intros a' id [[<- <-]|[Hne Hid]]%lookup_insert_Some.
    + eexists. by rewrite lookup_insert_eq.
    + destruct (wf_actor hm Hwf _ _ Hid) as (h & Hh & ?). exists h.
      rewrite lookup_insert_ne //. congruence.
  - intros n id Hid. destruct (nonempty name) eqn:E.
    + apply nonempty_true in E. apply lookup_insert_Some in Hid as [[<- <-]|[Hne Hid]].
      { split; [done|]. eexists. by rewrite lookup_insert_eq. }
      destruct (wf_name hm Hwf _ _ Hid) as (? & h & Hh & ?). split; [done|]. exists h.
      rewrite lookup_insert_ne //. congruence.
    + destruct (wf_name hm Hwf _ _ Hid) as (? & h & Hh & ?). split; [done|]. exists h.
      rewrite lookup_insert_ne //. congruence.
Qed.

Lemma ReleaseHandle_wf hm id : hm_wf hm -> hm_wf (ReleaseHandle hm id).1.
Proof.
  intros Hwf. unfold ReleaseHandle. destruct (hm_handles hm !! id) as [h|] eqn:Hh; [|done]. simpl.
  destruct (wf_handle hm Hwf _ _ Hh) as (Hid & _ & _ & _ & Hact & Hname).
  split; simpl.
  - intros id' h' [Hne Hh']%lookup_delete_Some.
    destruct (wf_handle hm Hwf _ _ Hh') as (-> & -> & -> & ? & Hact' & Hname').
    split_and!; try done.
    + rewrite lookup_delete_ne //. congruence.
    + intros Hn'. specialize (Hname' Hn'). destruct (nonempty (h_Name h)) eqn:E; [|done].
      apply nonempty_true in E. rewrite lookup_delete_ne //.
      intros Heq. rewrite Heq in Hname. specialize (Hname Hn'). congruence.
  - intros a' id' [Hne Hid']%lookup_delete_Some.
    destruct (wf_actor hm Hwf _ _ Hid') as (h' & Hh' & ?). exists h'.
    rewrite lookup_delete_ne //. intros ->. simplify_eq.
  - intros n id' Hid'. destruct (nonempty (h_Name h)) eqn:E.
    + apply lookup_delete_Some in Hid' as [Hne Hid'].
      destruct (wf_name hm Hwf _ _ Hid') as (? & h' & Hh' & ?). split; [done|]. exists h'.
      rewrite lookup_delete_ne //. intros ->. simplify_eq.
    + apply nonempty_false in E. destruct (wf_name hm Hwf _ _ Hid') as (? & h' & Hh' & ?).
      split; [done|]. exists h'. rewrite lookup_delete_ne //. intros ->. simplify_eq.
Qed.

(** ** The contract: a table of live handles

    The specification keeps the live handles in a plain list and searches it.
    The implementation answers every call exactly as the list does. *)

Record table := mkTable { t_live : list Handle; t_next : Z; t_node : Z }.

Definition t_find (P : Handle -> bool) (t : table) : option Handle := List.find P (t_live t).
Definition by_id (id : Z) (h : Handle) : bool := h_ID h =? id.
Definition by_actor (a : ActorID) (h : Handle) : bool := h_ActorID h =? a.
Definition by_name (n : string) (h : Handle) : bool := nonempty n && eqs (h_Name h) n.

Inductive hm_op :=
| OpAllocate (a : ActorID) (name : string)
| OpRelease (id : Z)
| OpGet (id : Z)
| OpGetByActor (a : ActorID)
| OpGetByName (name : string).

Inductive hm_out :=
| OutHandle (r : res (option Handle))
| OutUnit (r : res unit)
| OutLookup (p : option (option Handle)).

Definition hm_run1 (hm : HandleManager) (op : hm_op) : HandleManager * hm_out :=
  match op with
  | OpAllocate a name => let '(hm', r) := AllocateHandle hm a name in (hm', OutHandle r)
  | OpRelease id => let '(hm', r) := ReleaseHandle hm id in (hm', OutUnit r)
  | OpGet id => (hm, OutLookup (Some <$> GetHandle hm id))
  | OpGetByActor a => (hm, OutLookup (GetHandleByActor hm a))
  | OpGetByName name => (hm, OutLookup (GetHandleByName hm name))
  end.

Definition spec_run1 (t : table) (op : hm_op) : table * hm_out :=
  match op with
  | OpAllocate a name =>
      match t_find (by_actor a) t with
      | Some h => (t, OutHandle (Ok (Some h)))
      | None =>
          match t_find (by_name name) t with
          | Some _ => (t, OutHandle (Err ("service name '" +:+ name +:+ "' already exists")))
          | None =>
              let h := mkHandle (t_next t) a name (t_node t) true in
              (mkTable (h :: t_live t) (t_next t + 1) (t_node t), OutHandle (Ok (Some h)))
          end
      end
  | OpRelease id =>
      match t_find (by_id id) t with
      | Some _ => (mkTable (List.filter (fun h => negb (by_id id h)) (t_live t)) (t_next t) (t_node t),
                   OutUnit (Ok tt))
      | None => (t, OutUnit (Err ("handle " +:+ pretty id +:+ " not found")))
      end
  | OpGet id => (t, OutLookup (Some <$> t_find (by_id id) t))
  | OpGetByActor a => (t, OutLookup (Some <$> t_find (by_actor a) t))
  | OpGetByName name => (t, OutLookup (Some <$> t_find (by_name name) t))
  end.

(** The simulation relation. *)
Record hm_rel (hm : HandleManager) (t : table) : Prop := {
  rel_wf : hm_wf hm;
  rel_next : t_next t = hm_handleCounter hm;
  rel_node : t_node t = hm_nodeID hm;
  rel_live h : h ∈ t_live t <-> hm_handles hm !! h_ID h = Some h;
}.

Lemma t_find_Some P t h : t_find P t = Some h -> h ∈ t_live t /\ P h = true.
Proof. intros [? ?]%List.find_some. by rewrite list_elem_of_In. Qed.

Lemma t_find_None P t h : t_find P t = None -> h ∈ t_live t -> P h = false.
Proof. intros Hn Hin%list_elem_of_In. by apply (List.find_none _ _ Hn). Qed.

(** A search of the table agrees with a lookup that returns the live handles
    with property [P] and no others. *)
Lemma t_find_lookup P t (o : option Handle) :
  (forall h, h ∈ t_live t -> P h = true -> o = Some h) ->
  (forall h, o = Some h -> h ∈ t_live t /\ P h = true) ->
  t_find P t = o.
Proof.
  intros H1 H2. destruct (t_find P t) as [h|] eqn:E.
  - symmetry. apply t_find_Some in E as [??]. by apply H1.
  - destruct o as [h|]; [|done]. destruct (H2 h eq_refl) as [Hin HP].
    by rewrite (t_find_None _ _ _ E Hin) in HP.
Qed.

Section sim.
Context (hm : HandleManager) (t : table) (HR : hm_rel hm t).

Lemma rel_handle id h : hm_handles hm !! id = Some h -> h ∈ t_live t /\ h_ID h = id.
Proof.
  intros Hh. destruct (wf_handle hm (rel_wf _ _ HR) _ _ Hh) as (Hid & _).
  split; [|done]. apply (rel_live _ _ HR). by rewrite Hid.
Qed.

Lemma sim_by_id id : t_find (by_id id) t = hm_handles hm !! id.
Proof.
  apply t_find_lookup.
  - intros h Hin%(rel_live _ _ HR) Hid%Z.eqb_eq. by rewrite -Hid.
  - intros h [??]%rel_handle. split; [done|]. by apply Z.eqb_eq.
Qed.

Lemma sim_by_actor a : Some <$> t_find (by_actor a) t = GetHandleByActor hm a.
Proof.
  unfold GetHandleByActor. destruct (hm_actorToHandle hm !! a) as [id|] eqn:Ha; simpl.
  - destruct (wf_actor hm (rel_wf _ _ HR) _ _ Ha) as (h & Hh & Hact). rewrite Hh.
    enough (t_find (by_actor a) t = Some h) as -> by done. apply t_find_lookup.
    + intros h' Hin%(rel_live _ _ HR) Hact'%Z.eqb_eq.
      destruct (wf_handle hm (rel_wf _ _ HR) _ _ Hin) as (_ & _ & _ & _ & Hid' & _).
      rewrite Hact' Ha in Hid'. by simplify_eq.
    + intros ? [= <-]. split; [by apply (rel_handle id)|]. by apply Z.eqb_eq.
  - enough (t_find (by_actor a) t = None) as -> by done. apply t_find_lookup; [|done].
    intros h Hin%(rel_live _ _ HR) Hact%Z.eqb_eq.
    destruct (wf_handle hm (rel_wf _ _ HR) _ _ Hin) as (_ & _ & _ & _ & Hid & _). congruence.
Qed.

Lemma sim_by_name n : Some <$> t_find (by_name n) t = GetHandleByName hm n.
Proof.
  unfold GetHandleByName. destruct (hm_nameToHandle hm !! n) as [id|] eqn:Hn; simpl.
  - destruct (wf_name hm (rel_wf _ _ HR) _ _ Hn) as (Hne & h & Hh & Hname). rewrite Hh.
    enough (t_find (by_name n) t = Some h) as -> by done. apply t_find_lookup.
    + intros h' Hin%(rel_live _ _ HR) [_ Hn'%eqs_true]%andb_true_iff.
      destruct (wf_handle hm (rel_wf _ _ HR) _ _ Hin) as (_ & _ & _ & _ & _ & Hid').
      rewrite Hn' in Hid'. rewrite (Hid' Hne) in Hn. by simplify_eq.
    + intros ? [= <-]. split; [by apply (rel_handle id)|].
      apply andb_true_iff. by rewrite nonempty_true eqs_true.
  - enough (t_find (by_name n) t = None) as -> by done. apply t_find_lookup; [|done].
    intros h Hin%(rel_live _ _ HR) [Hne%nonempty_true Hn'%eqs_true]%andb_true_iff.
    destruct (wf_handle hm (rel_wf _ _ HR) _ _ Hin) as (_ & _ & _ & _ & _ & Hid).
    rewrite Hn' in Hid. rewrite (Hid Hne) in Hn. done.
Qed.

End sim.

Lemma AllocateHandle_rel hm t a name :
  hm_rel hm t -> 0 <= hm_handleCounter hm -> hm_handleCounter hm + 1 < 2 ^ 32 ->
  let '(hm', o) := hm_run1 hm (OpAllocate a name) in
  let '(t', o') := spec_run1 t (OpAllocate a name) in
  o = o' /\ hm_rel hm' t' /\ hm_handleCounter hm' <= hm_handleCounter hm + 1 /\ 0 <= hm_handleCounter hm'.
Proof.
  intros HR Hc0 Hc. pose proof (AllocateHandle_wf hm a name (rel_wf _ _ HR) Hc0 Hc) as Hwf'.
  pose proof (sim_by_actor hm t HR a) as Ha. pose proof (sim_by_name hm t HR name) as Hn.
  unfold GetHandleByActor in Ha. unfold GetHandleByName in Hn. revert Hwf'.
  cbn -[u32]. unfold AllocateHandle.
  destruct (t_find (by_actor a) t) as [h|], (hm_actorToHandle hm !! a) as [id|] eqn:Ha';
    simplify_eq/=; [by rewrite -Ha; auto with lia|].
  destruct (t_find (by_name name) t) as [h|] eqn:Hf.
  { apply t_find_Some in Hf as [_ [Hne _]%andb_true_iff]. rewrite Hne.
    destruct (hm_nameToHandle hm !! name) eqn:E; [|done]. cbn. auto with lia. }
  destruct (hm_nameToHandle hm !! name) as [id|] eqn:E; [done|].
  rewrite bool_decide_false; [by intros [? ?]|]. rewrite andb_false_r.
  cbn -[u32]. intros Hwf'. pose proof HR as [Hwf Hnext Hnode Hlive].
  rewrite Hnext Hnode. split_and!; [done| |rewrite u32_id; unfold_words; lia|apply u32_range].
  split; simpl; [done|rewrite u32_id; [unfold_words; lia|lia]|done|].
  intros h. rewrite elem_of_cons Hlive lookup_insert_Some. split.
  - intros [->|Hin]; [by left|]. right. split; [|done].
    intros Heq. by rewrite -Heq (wf_counter_fresh hm Hwf) in Hin.
  - intros [[_ ->]|[_ ?]]; auto.
Qed.

Lemma ReleaseHandle_rel hm t id :
  hm_rel hm t ->
  let '(hm', o) := hm_run1 hm (OpRelease id) in
  let '(t', o') := spec_run1 t (OpRelease id) in
  o = o' /\ hm_rel hm' t' /\ hm_handleCounter hm' = hm_handleCounter hm.
Proof.
  intros HR. pose proof (ReleaseHandle_wf hm id (rel_wf _ _ HR)) as Hwf'. revert Hwf'.
  cbn. rewrite (sim_by_id hm t HR). unfold ReleaseHandle.
  destruct (hm_handles hm !! id) as [h|] eqn:Hh; [|done]. simpl. intros Hwf'.
  split_and!; [done| |done]. pose proof HR as [Hwf Hnext Hnode Hlive].
  split; simpl; [done..|]. intros h'. rewrite list_elem_of_In List.filter_In -list_elem_of_In.
  rewrite Hlive lookup_delete_Some negb_true_iff Z.eqb_neq. naive_solver.
Qed.

Lemma hm_run1_rel hm t op :
  hm_rel hm t -> 0 <= hm_handleCounter hm -> hm_handleCounter hm + 1 < 2 ^ 32 ->
  (hm_run1 hm op).2 = (spec_run1 t op).2 /\ hm_rel (hm_run1 hm op).1 (spec_run1 t op).1 /\
  0 <= hm_handleCounter (hm_run1 hm op).1 <= hm_handleCounter hm + 1.
Proof.
  intros HR Hc0 Hc. destruct op as [a name|id|id|a|name].
  - pose proof (AllocateHandle_rel hm t a name HR Hc0 Hc).
    destruct (hm_run1 _ _), (spec_run1 _ _). simpl. intuition lia.
  - pose proof (ReleaseHandle_rel hm t id HR).
    destruct (hm_run1 _ _), (spec_run1 _ _). simpl. intuition lia.
  - cbn. rewrite (sim_by_id hm t HR). intuition lia.
  - cbn. rewrite (sim_by_actor hm t HR). intuition lia.
  - cbn. rewrite (sim_by_name hm t HR). intuition lia.
Qed.

Lemma hm_run_rel hm t ops :
  hm_rel hm t -> 0 <= hm_handleCounter hm ->
  hm_handleCounter hm + Z.of_nat (length ops) < 2 ^ 32 ->
  (run_ops hm_run1 hm ops).2 = (run_ops spec_run1 t ops).2 /\
  hm_rel (run_ops hm_run1 hm ops).1 (run_ops spec_run1 t ops).1.
Proof.
  revert hm t. induction ops as [|op ops IH]; intros hm t HR Hc0 Hc; [done|].
  cbn [length] in Hc. rewrite Nat2Z.inj_succ in Hc.
  destruct (hm_run1_rel hm t op HR) as (Hout & HR' & Hcnt); [lia..|]. simpl.
  destruct (hm_run1 hm op) as [hm' o], (spec_run1 t op) as [t' o']. simpl in *.
  destruct (IH hm' t' HR') as (Houts & HRs); [lia..|].
  destruct (run_ops hm_run1 hm' ops), (run_ops spec_run1 t' ops). simpl in *. by simplify_eq.
Qed.

Definition new_table (nodeID : Z) : table :=
  mkTable [] (hm_handleCounter (NewHandleManager nodeID)) nodeID.

Lemma new_rel nodeID : hm_rel (NewHandleManager nodeID) (new_table nodeID).
Proof.
  split; [apply NewHandleManager_wf|done..|]. intros h. cbn. rewrite lookup_empty.
  split; [by intros ?%not_elem_of_nil|done].
Qed.

(** ** The node number in the high byte *)

(** Every live id lies between the manager's first id and its counter. *)
Definition ids_from (base : Z) (hm : HandleManager) : Prop :=
  base <= hm_handleCounter hm /\
  forall id h, hm_handles hm !! id = Some h -> base <= id < hm_handleCounter hm.

Lemma hm_run1_ids base hm op :
  ids_from base hm -> 0 <= base -> hm_handleCounter hm + 1 < 2 ^ 32 ->
  ids_from base (hm_run1 hm op).1 /\ hm_handleCounter (hm_run1 hm op).1 <= hm_handleCounter hm + 1.
Proof.
  intros [Hb Hids] Hb0 Hc. destruct op as [a name|id|id|a|name]; try by (split; [split|simpl; lia]).
  - cbn. unfold AllocateHandle. destruct (hm_actorToHandle hm !! a); [by (split; [split|simpl; lia])|].
    destruct (_ && _); [by (split; [split|simpl; lia])|]. unfold ids_from. cbn -[u32].
    rewrite u32_id; [unfold_words; lia|]. split; [|lia]. split; [lia|].
    intros id h [[<- _]|[_ Hh]]%lookup_insert_Some; [lia|]. specialize (Hids _ _ Hh). lia.
  - cbn. unfold ReleaseHandle. destruct (hm_handles hm !! id); [|by (split; [split|simpl; lia])].
    unfold ids_from. cbn. split; [|lia]. split; [done|]. intros id' h' [_ Hh]%lookup_delete_Some. by apply (Hids id' h').
Qed.

Lemma hm_run_ids base hm ops :
  ids_from base hm -> 0 <= base -> hm_handleCounter hm + Z.of_nat (length ops) < 2 ^ 32 ->
  ids_from base (run_ops hm_run1 hm ops).1 /\
  hm_handleCounter (run_ops hm_run1 hm ops).1 <= hm_handleCounter hm + Z.of_nat (length ops).
Proof.
  revert hm. induction ops as [|op ops IH]; intros hm Hids Hb Hc; [split; simpl; [done|lia]|].
  cbn [length] in Hc |- *. rewrite Nat2Z.inj_succ in Hc |- *. rewrite run_ops_cons. cbn [fst].
  destruct (hm_run1_ids base hm op Hids Hb) as [Hids' Hcnt]; [lia|].
  destruct (IH _ Hids' Hb) as [??]; [lia|]. split; [done|lia].
Qed.

(** The first id of a node: the node number in the high byte, then 1. *)
Lemma first_id nodeID :
  hm_handleCounter (NewHandleManager nodeID) = nodeID mod 256 * 2 ^ 24 + 1.
Proof.
  cbn [NewHandleManager hm_handleCounter]. rewrite Z.shiftl_mul_pow2; [lia|].
  assert (u32 (nodeID * 2 ^ 24) = nodeID mod 256 * 2 ^ 24) as ->.
  { unfold u32. replace (2 ^ 32) with (256 * 2 ^ 24) by lia. by rewrite Z.mul_mod_distr_r. }
  apply u32_id. unfold_words. pose proof (Z.mod_pos_bound nodeID 256). lia.
Qed.

(** ** Properties *)

(** C3. Refinement of the handle manager: over any sequence of allocations,
    releases and lookups that leaves the 32-bit handle counter short of
    wrapping, the three-map implementation of [HandleManager] gives call by
    call the answers of the reference table of live handles. *)
Theorem handle_manager_refines_table nodeID ops :
  hm_handleCounter (NewHandleManager nodeID) + Z.of_nat (length ops) < 2 ^ 32 ->
  (run_ops hm_run1 (NewHandleManager nodeID) ops).2 =
  (run_ops spec_run1 (new_table nodeID) ops).2.
Proof.
  intros Hc. apply hm_run_rel; [apply new_rel|apply u32_range|done].
Qed.

Definition demo_ops : list hm_op :=
  [OpAllocate 7 "db"; OpAllocate 7 "again"; OpAllocate 8 "db"; OpGetByName "db";
   OpRelease 16777217; OpGetByActor 7; OpAllocate 8 "db"; OpGet 16777218].

Lemma handle_manager_refines_table_witness :
  (run_ops hm_run1 (NewHandleManager 1) demo_ops).2 =
  (run_ops spec_run1 (new_table 1) demo_ops).2 /\
  (run_ops hm_run1 (NewHandleManager 1) demo_ops).2 !! 2%nat =
    Some (OutHandle (Err "service name 'db' already exists")).
Proof.
  split; [apply (handle_manager_refines_table 1 demo_ops); vm_compute; reflexivity|].
  vm_compute. reflexivity.
Defined.

(** A live id tells the node that issued it. *)
Lemma live_id_node n ops id h :
  Z.of_nat (length ops) < 2 ^ 24 - 1 ->
  hm_handles (run_ops hm_run1 (NewHandleManager n) ops).1 !! id = Some h -> id / 2 ^ 24 = n mod 256.
Proof.
  intros Hl Hh. pose proof (first_id n) as Hfirst. pose proof (Z.mod_pos_bound n 256).
  destruct (hm_run_ids (hm_handleCounter (NewHandleManager n)) (NewHandleManager n) ops)
    as [[_ Hids] Hcnt]; [split; [lia|intros *; cbn; by rewrite lookup_empty]|lia..|].
  specialize (Hids _ _ Hh). symmetry. apply Z.div_unique with (id - n mod 256 * 2 ^ 24); lia.
Qed.

(** Cross-node uniqueness: the ids of handles live on two nodes whose numbers
    differ in the low byte are different, as long as each node has issued fewer
    than 2^24 - 1 handles: an id carries the node number in its high byte. *)
Theorem handle_ids_distinct_across_nodes n1 n2 ops1 ops2 id1 id2 h1 h2 :
  n1 mod 256 <> n2 mod 256 ->
  Z.of_nat (length ops1) < 2 ^ 24 - 1 -> Z.of_nat (length ops2) < 2 ^ 24 - 1 ->
  hm_handles (run_ops hm_run1 (NewHandleManager n1) ops1).1 !! id1 = Some h1 ->
  hm_handles (run_ops hm_run1 (NewHandleManager n2) ops2).1 !! id2 = Some h2 ->
  id1 <> id2 /\ id1 / 2 ^ 24 = n1 mod 256.
Proof.
  intros Hne Hl1 Hl2 Hh1%live_id_node Hh2%live_id_node; [|done..].
  split; [congruence|done].
Qed.

Lemma handle_ids_distinct_across_nodes_witness : 16777217 <> 33554433 /\ 16777217 / 2 ^ 24 = 1 mod 256.
Proof.
  eapply (handle_ids_distinct_across_nodes 1 2 [OpAllocate 5 "x"] [OpAllocate 5 "x"]);
    [vm_compute; congruence|vm_compute; reflexivity..].
Defined.
