(* ===== verification/Actor.v ===== *)
(** The actor (src/core/actor.go): its mailbox, its life cycle and its
    request-response bookkeeping.

    The operations are split at their atomic actions (loads and stores of
    [state], channel operations, [sync.Map] operations), so that the interleaved
    semantics of ActorConc.v runs the same definitions that the sequential
    compositions here are made of.

    The handler is the user's: it is a parameter with a state of its own that
    may also write to the message it is given. *)

From S2P Require Import Prelude CoreTypes.

Section actor.
Context {H : Type}.
Context (HandleMessage : H -> Message -> H * Message * option error).

(** [mailbox chan *Message]: a [nil] message can be sent. Response channels are
    shared by [pendingCalls] and the goroutine that waits in [Call]: they live
    in [a_respChans] and are referred to by number. [a_ctxDone]: [a.ctx] is
    cancelled; [a_wg]: the counter of the wait group. *)
Record actor := mkActor {
  a_id : ActorID;
  a_name : string;
  a_handler : H;
  a_mailbox : chan (option Message);
  a_ctxDone : bool;
  a_wg : nat;
  a_state : ActorState;
  a_messagesProcessed : Z;
  a_createdAt : time;
  a_lastMessageAt : Z;
  a_pendingCalls : gmap Z nat;
  a_respChans : gmap nat (chan Message);
  a_sessionCounter : Z;
  a_opts : ActorOptions;
}.

Definition with_state (s : ActorState) (a : actor) : actor :=
  mkActor (a_id a) (a_name a) (a_handler a) (a_mailbox a) (a_ctxDone a) (a_wg a) s
    (a_messagesProcessed a) (a_createdAt a) (a_lastMessageAt a) (a_pendingCalls a)
    (a_respChans a) (a_sessionCounter a) (a_opts a).
Definition with_mailbox (mb : chan (option Message)) (a : actor) : actor :=
  mkActor (a_id a) (a_name a) (a_handler a) mb (a_ctxDone a) (a_wg a) (a_state a)
    (a_messagesProcessed a) (a_createdAt a) (a_lastMessageAt a) (a_pendingCalls a)
    (a_respChans a) (a_sessionCounter a) (a_opts a).
Definition with_lifecycle (done : bool) (wg : nat) (a : actor) : actor :=
  mkActor (a_id a) (a_name a) (a_handler a) (a_mailbox a) done wg (a_state a)
    (a_messagesProcessed a) (a_createdAt a) (a_lastMessageAt a) (a_pendingCalls a)
    (a_respChans a) (a_sessionCounter a) (a_opts a).
Definition with_handler (h : H) (processed last : Z) (a : actor) : actor :=
  mkActor (a_id a) (a_name a) h (a_mailbox a) (a_ctxDone a) (a_wg a) (a_state a)
    processed (a_createdAt a) last (a_pendingCalls a)
    (a_respChans a) (a_sessionCounter a) (a_opts a).
Definition with_calls (pend : gmap Z nat) (chans : gmap nat (chan Message)) (ctr : Z) (a : actor)
    : actor :=
  mkActor (a_id a) (a_name a) (a_handler a) (a_mailbox a) (a_ctxDone a) (a_wg a) (a_state a)
    (a_messagesProcessed a) (a_createdAt a) (a_lastMessageAt a) pend chans ctr (a_opts a).

(** [make(chan *Message, n)] panics for a negative [n]. *)
Definition NewActor (id : ActorID) (handler : H) (opts : ActorOptions) (clk : clock) : go actor :=
  if o_MailboxSize opts <? 0 then Panic "makechan: size out of range"
  else Ret (mkActor id (o_Name opts) handler (make_chan (Z.to_nat (o_MailboxSize opts)))
              false 0 ActorStateIdle 0 (clk 0%nat) 0 ∅ ∅ 0 opts).

(** [Start] adds the message loop to the wait group; the loop itself is a
    goroutine (ActorConc.v). The context argument is not used by the code. *)
Definition actor_Start (a : actor) : actor * res unit :=
  if decide (a_state a = ActorStateIdle)
  then (with_lifecycle (a_ctxDone a) (S (a_wg a)) a, Ok tt)
  else (a, Err ("actor " +:+ pretty (a_id a) +:+ " is already started (state: "
                  +:+ ActorState_String (a_state a) +:+ ")")).

(** The atomic actions of [Stop]: two compare-and-swaps, the cancellation, the
    wait (enabled when the wait group is at zero) and the final store. *)
Definition Stop_CAS (expected : ActorState) (a : actor) : option actor :=
  if decide (a_state a = expected) then Some (with_state ActorStateStopping a) else None.
Definition Stop_refused (a : actor) : error :=
  "actor " +:+ pretty (a_id a) +:+ " cannot be stopped from state "
    +:+ ActorState_String (a_state a).
Definition Stop_cancel (a : actor) : actor := with_lifecycle true (a_wg a) a.
Definition Stop_finish (a : actor) : actor := with_state ActorStateStopped a.

(** [Stop] of an actor with no other goroutine running: with a message loop
    alive ([a_wg > 0]) it would wait for it. *)
Definition actor_Stop (a : actor) : go (actor * res unit) :=
  match Stop_CAS ActorStateIdle a with
  | Some a' => if decide (a_wg a = 0%nat) then Ret (Stop_finish (Stop_cancel a'), Ok tt) else Hang
  | None =>
      match Stop_CAS ActorStateRunning a with
      | Some a' => if decide (a_wg a = 0%nat) then Ret (Stop_finish (Stop_cancel a'), Ok tt) else Hang
      | None => Ret (a, Err (Stop_refused a))
      end
  end.

(** [Send], first the check of the state. *)
Definition Send_check (a : actor) : option error :=
  if decide (a_state a = ActorStateStopped \/ a_state a = ActorStateStopping)
  then Some ("actor " +:+ pretty (a_id a) +:+ " is not running (state: "
               +:+ ActorState_String (a_state a) +:+ ")")
  else None.

(** Then the [select]. When the send and the cancellation are both ready, the
    runtime chooses: [pick = true] is the send. A send on a closed channel is
    ready, and panics. *)
Definition Send_shutdown (a : actor) : error :=
  "actor " +:+ pretty (a_id a) +:+ " is shutting down".
Definition Send_select (pick : bool) (msg : option Message) (a : actor) : go (actor * res unit) :=
  let room := bool_decide (length (ch_buf (a_mailbox a)) < ch_cap (a_mailbox a))%nat in
  if (ch_closed (a_mailbox a) || room) && (pick || negb (a_ctxDone a))
  then '(_, mb) ← try_send (a_mailbox a) msg; Ret (with_mailbox mb a, Ok tt)
  else if a_ctxDone a then Ret (a, Err (Send_shutdown a))
  else Ret (a, Err ("actor " +:+ pretty (a_id a) +:+ " mailbox is full")).

Definition actor_Send (pick : bool) (msg : option Message) (a : actor) : go (actor * res unit) :=
  match Send_check a with
  | Some e => Ret (a, Err e)
  | None => Send_select pick msg a
  end.

(** [Call] up to its [Send]: a session number, a response channel of capacity
    one, registered under the session. *)
Definition fresh_ref {A} (m : gmap nat A) : nat := fresh (dom m).
Definition Call_begin (msg : Message) (a : actor) : actor * Message * nat :=
  let session := u32 (a_sessionCounter a + 1) in
  let ref := fresh_ref (a_respChans a) in
  (with_calls (<[session := ref]> (a_pendingCalls a))
     (<[ref := make_chan 1]> (a_respChans a)) session a,
   set_Session session msg, ref).

(** The deferred [pendingCalls.Delete(session)]. *)
Definition Call_end (session : Z) (a : actor) : actor :=
  with_calls (delete session (a_pendingCalls a)) (a_respChans a) (a_sessionCounter a) a.

(** The final [select] of [Call]: which of the three cases are ready, and what
    each gives. [ctxErr] is [ctx.Err()] of the caller's context once it is
    done. *)
Inductive call_case := CaseResponse | CaseCtx | CaseActor.
Definition Call_select (c : call_case) (ref : nat) (ctxErr : option error) (a : actor)
    : option (actor * res Message) :=
  match c with
  | CaseResponse =>
      ch ← a_respChans a !! ref;
      match try_recv ch with
      | Got resp ch' =>
          Some (with_calls (a_pendingCalls a) (<[ref := ch']> (a_respChans a))
                  (a_sessionCounter a) a, Ok resp)
      | _ => None
      end
  | CaseCtx => e ← ctxErr; Some (a, Err e)
  | CaseActor => if a_ctxDone a then Some (a, Err (Send_shutdown a)) else None
  end.

(** [sendResponse]: the answer goes to the channel registered for the session,
    if any, and is dropped if that channel already holds one. *)
Definition response (now : time) (a : actor) (originalMsg : Message) (err : option error) : Message :=
  match err with
  | None => mkMessage 0 MessageTypeResponse (a_id a) (m_Source originalMsg)
              (m_Session originalMsg) [] now
  | Some e => mkMessage 0 MessageTypeError (a_id a) (m_Source originalMsg)
                (m_Session originalMsg) (bytes_of_string e) now
  end.

Definition sendResponse (now : time) (originalMsg : Message) (err : option error) (a : actor)
    : go actor :=
  match a_pendingCalls a !! m_Session originalMsg with
  | None => Ret a
  | Some ref =>
      match a_respChans a !! ref with
      | None => Ret a
      | Some ch =>
          '(_, ch') ← try_send ch (response now a originalMsg err);
          Ret (with_calls (a_pendingCalls a) (<[ref := ch']> (a_respChans a))
                 (a_sessionCounter a) a)
      end
  end.

(** [processMessage]: the stores of [state] around the handler, the
    statistics, the handler, and the answer to a call. *)
Definition process_enter (a : actor) : actor := with_state ActorStateRunning a.
Definition process_handle (now : time) (msg : Message) (a : actor) : actor * Message * option error :=
  let '(h', msg', err) := HandleMessage (a_handler a) msg in
  (with_handler h' (u64 (a_messagesProcessed a + 1)) (Unix now) a, msg', err).
Definition process_respond (now : time) (msg : Message) (err : option error) (a : actor) : go actor :=
  if m_Session msg =? 0 then Ret a else sendResponse now msg err a.
Definition process_exit (a : actor) : actor := with_state ActorStateIdle a.

Definition processMessage (clk : clock) (msg : Message) (a : actor) : go actor :=
  let '(a', msg', err) := process_handle (clk 0%nat) msg (process_enter a) in
  a'' ← process_respond (clk 1%nat) msg' err a';
  Ret (process_exit a'').

(** One turn of [drainMailbox], and whether the loop goes on: an empty queue
    ends it, and so does a [nil] message. *)
Definition drain1 (now : time) (a : actor) : go (actor * bool) :=
  match try_recv (a_mailbox a) with
  | Got (Some msg) mb =>
      if m_Session msg =? 0 then Ret (with_mailbox mb a, true)
      else a' ← sendResponse now msg (Some (Send_shutdown a)) (with_mailbox mb a); Ret (a', true)
  | Got None mb => Ret (with_mailbox mb a, false)
  | GotClosed => Ret (a, false)
  | NotReady => Ret (a, false)
  end.

Fixpoint drain_loop (fuel i : nat) (clk : clock) (a : actor) : go actor :=
  match fuel with
  | O => Hang
  | S fuel' =>
      '(a', more) ← drain1 (clk i) a;
      if more : bool then drain_loop fuel' (S i) clk a' else Ret a'
  end.

(** Every turn takes one message out, so the length of the queue bounds the
    number of turns when nothing is queued meanwhile. *)
Definition drainMailbox (clk : clock) (a : actor) : go actor :=
  drain_loop (S (length (ch_buf (a_mailbox a)))) 0 clk a.

Definition actor_Stats (a : actor) : ActorStats :=
  mkActorStats (a_id a) (a_name a) (a_state a) (a_messagesProcessed a)
    (Z.of_nat (length (ch_buf (a_mailbox a)))) (a_createdAt a)
    (if 0 <? a_lastMessageAt a then unix_time (a_lastMessageAt a) else zero_time).

(** [Send] keeps the identity of the actor. *)
Lemma actor_Send_id pick msg (a a' : actor) e : actor_Send pick msg a = Ret (a', e) -> a_id a' = a_id a.
Proof.
  unfold actor_Send, Send_select. destruct (Send_check a); [by intros [= <- _]|].
  destruct (_ && _); [|destruct (a_ctxDone a); by intros [= <- _]].
  destruct (try_send _ _) as [[? ?]| |]; [|done..]. by intros [= <- _].
Qed.

(** ** Response channels are never closed *)

Definition resp_open (a : actor) : Prop :=
  forall ref ch, a_respChans a !! ref = Some ch -> ch_closed ch = false.

Lemma resp_open_upd a pend ctr ref ch :
  resp_open a -> ch_closed ch = false ->
  resp_open (with_calls pend (<[ref := ch]> (a_respChans a)) ctr a).
Proof.
  intros Ha Hch ref' ch'. cbn. intros [[_ <-]|[_ Hch']]%lookup_insert_Some; [done|]. by apply (Ha ref').
Qed.

(** What an answer changes: response channels, and nothing else of the actor. *)
Lemma sendResponse_spec now msg err a :
  resp_open a ->
  exists chans, sendResponse now msg err a =
      Ret (with_calls (a_pendingCalls a) chans (a_sessionCounter a) a) /\
    resp_open (with_calls (a_pendingCalls a) chans (a_sessionCounter a) a).
Proof.
  intros Ha. unfold sendResponse.
  assert (exists chans, Ret a = Ret (with_calls (a_pendingCalls a) chans (a_sessionCounter a) a) /\
    resp_open (with_calls (a_pendingCalls a) chans (a_sessionCounter a) a)) as Hid.
  { exists (a_respChans a). by destruct a. }
  destruct (a_pendingCalls a !! m_Session msg) as [ref|]; [|done].
  destruct (a_respChans a !! ref) as [ch|] eqn:Hch; [|done].
  pose proof (Ha _ _ Hch) as Hopen. rewrite (try_send_open _ _ Hopen).
  case_decide; eexists; (split; [done|]); by apply resp_open_upd.
Qed.

Lemma process_respond_spec now msg err a :
  resp_open a ->
  exists chans, process_respond now msg err a =
      Ret (with_calls (a_pendingCalls a) chans (a_sessionCounter a) a) /\
    resp_open (with_calls (a_pendingCalls a) chans (a_sessionCounter a) a).
Proof.
  intros Ha. unfold process_respond. destruct (m_Session msg =? 0); [|by apply sendResponse_spec].
  exists (a_respChans a). by destruct a.
Qed.

(** One turn of the drain: what it takes out of the queue. *)
Lemma drain1_spec now a :
  resp_open a ->
  exists a' more, drain1 now a = Ret (a', more) /\ resp_open a' /\
    a_ctxDone a' = a_ctxDone a /\ a_wg a' = a_wg a /\ a_state a' = a_state a /\
    ch_cap (a_mailbox a') = ch_cap (a_mailbox a) /\
    ch_closed (a_mailbox a') = ch_closed (a_mailbox a) /\
    match ch_buf (a_mailbox a) with
    | [] => more = false /\ a' = a
    | x :: rest => ch_buf (a_mailbox a') = rest /\ more = bool_decide (is_Some x)
    end.
Proof.
  intros Ha. unfold drain1, try_recv.
  destruct (ch_buf (a_mailbox a)) as [|[m|] rest] eqn:Hbuf.
  - exists a, false. by destruct (ch_closed (a_mailbox a)).
  - destruct (m_Session m =? 0); [by eexists _, true|].
    set (a0 := with_mailbox _ a). destruct (sendResponse_spec now m (Some (Send_shutdown a)) a0 Ha)
      as (chans & -> & Hopen). by eexists _, true.
  - by eexists _, false.
Qed.

(** The sequential drain ends, without a panic, with the messages up to and
    including the first [nil] taken out. *)
Fixpoint after_nil (buf : list (option Message)) : list (option Message) :=
  match buf with
  | [] => []
  | None :: rest => rest
  | Some _ :: rest => after_nil rest
  end.

Lemma drain_loop_spec fuel i clk a :
  resp_open a -> (length (ch_buf (a_mailbox a)) < fuel)%nat ->
  exists a', drain_loop fuel i clk a = Ret a' /\
    ch_buf (a_mailbox a') = after_nil (ch_buf (a_mailbox a)) /\ resp_open a'.
Proof.
  revert i a. induction fuel as [|fuel IH]; intros i a Ha Hlen; [lia|]. simpl.
  destruct (drain1_spec (clk i) a Ha) as (a1 & more & -> & Ha1 & _ & _ & _ & _ & _ & Hbuf). simpl.
  destruct (ch_buf (a_mailbox a)) as [|x rest] eqn:E.
  - destruct Hbuf as [-> ->]. exists a. by rewrite E.
  - destruct Hbuf as [Hrest ->]. destruct x as [m|]; simpl.
    + destruct (IH (S i) a1 Ha1) as (a' & ? & Hb & ?); [rewrite Hrest; simpl in Hlen; lia|].
      exists a'. rewrite Hb Hrest. done.
    + exists a1. done.
Qed.

End actor.

Arguments actor : clear implicits.
