(* ===== verification/ActorConc.v ===== *)
(** The actor under interleaving (src/core/actor.go): the message loop goroutine
    and any number of goroutines in [Send], [Call] and [Stop], stepping through
    the atomic actions of Actor.v in any order.

    A configuration holds the shared actor, where the message loop stands, where
    each client goroutine stands, and the history of the mailbox: the messages
    [Send] accepted, those the loop took to process, those it drained during
    shutdown and those it gave to the handler. It starts with an actor whose
    [Start] has returned: one message loop is running, and [Start] is not called
    again. A goroutine does not write to a message after it has sent it, so that
    messages are values; the handler returns, its own sends being those of some
    client goroutine. *)

From S2P Require Import Prelude CoreTypes Actor.

Section conc.
Context {H : Type}.
Context (HandleMessage : H -> Message -> H * Message * option error).
Notation actor := (actor H).

(** Program points of [messageLoop], [processMessage] and [drainMailbox]. *)
Inductive loop_pc :=
| LSelect
| LEnter (m : Message)
| LHandle (m : Message)
| LRespond (m : Message) (err : option error)
| LExit
| LDrain
| LClose
| LWgDone
| LExited.

(** Program points of the client goroutines. *)
Inductive thread :=
| SendLoad (m : option Message)
| SendSelect (m : option Message)
| SendRet (r : res unit)
| StopCAS1
| StopCAS2
| StopLoad
| StopCancel
| StopWait
| StopStore
| StopRet (r : res unit)
| CallBegin (m : Message)
| CallLoad (m : Message) (ref : nat)
| CallSelect (m : Message) (ref : nat)
| CallWait (session : Z) (ref : nat)
| CallEnd (session : Z) (r : res Message)
| CallRet (session : Z) (r : res Message).

Record conf := mkConf {
  c_act : actor;
  c_loop : loop_pc;
  c_thr : gmap nat thread;
  c_accepted : list (option Message);
  c_taken : list (option Message);
  c_drained : list (option Message);
  c_handled : list Message;
}.

Definition set_thr (t : nat) (th : thread) (a : actor) (c : conf) : conf :=
  mkConf a (c_loop c) (<[t := th]> (c_thr c)) (c_accepted c) (c_taken c) (c_drained c) (c_handled c).
Definition set_loop (l : loop_pc) (a : actor) (c : conf) : conf :=
  mkConf a l (c_thr c) (c_accepted c) (c_taken c) (c_drained c) (c_handled c).
Definition accept (m : option Message) (r : res unit) (c : conf) : conf :=
  mkConf (c_act c) (c_loop c) (c_thr c)
    (if is_ok r then c_accepted c ++ [m] else c_accepted c) (c_taken c) (c_drained c) (c_handled c).
Definition take_msg (m : option Message) (c : conf) : conf :=
  mkConf (c_act c) (c_loop c) (c_thr c) (c_accepted c) (c_taken c ++ [m]) (c_drained c) (c_handled c).
Definition drain_msgs (ms : list (option Message)) (c : conf) : conf :=
  mkConf (c_act c) (c_loop c) (c_thr c) (c_accepted c) (c_taken c) (c_drained c ++ ms) (c_handled c).
Definition handle_msg (m : Message) (c : conf) : conf :=
  mkConf (c_act c) (c_loop c) (c_thr c) (c_accepted c) (c_taken c) (c_drained c) (c_handled c ++ [m]).

(** A goroutine enters an operation. *)
Definition entry (th : thread) : bool :=
  match th with SendLoad _ | StopCAS1 | CallBegin _ => true | _ => false end.

(** The steps of the client goroutines. *)
Inductive client_step : conf -> conf -> Prop :=
| step_spawn c t th :
    c_thr c !! t = None -> entry th = true -> client_step c (set_thr t th (c_act c) c)
(* Send *)
| step_send_load c t m :
    c_thr c !! t = Some (SendLoad m) ->
    client_step c (set_thr t (match Send_check (c_act c) with
                       | Some e => SendRet (Err e) | None => SendSelect m end) (c_act c) c)
| step_send_select c t m pick a' r :
    c_thr c !! t = Some (SendSelect m) -> Send_select pick m (c_act c) = Ret (a', r) ->
    client_step c (accept m r (set_thr t (SendRet r) a' c))
(* Stop *)
| step_stop_cas1 c t :
    c_thr c !! t = Some StopCAS1 ->
    client_step c (match Stop_CAS ActorStateIdle (c_act c) with
            | Some a' => set_thr t StopCancel a' c | None => set_thr t StopCAS2 (c_act c) c end)
| step_stop_cas2 c t :
    c_thr c !! t = Some StopCAS2 ->
    client_step c (match Stop_CAS ActorStateRunning (c_act c) with
            | Some a' => set_thr t StopCancel a' c | None => set_thr t StopLoad (c_act c) c end)
| step_stop_load c t :
    c_thr c !! t = Some StopLoad ->
    client_step c (set_thr t (StopRet (Err (Stop_refused (c_act c)))) (c_act c) c)
| step_stop_cancel c t :
    c_thr c !! t = Some StopCancel -> client_step c (set_thr t StopWait (Stop_cancel (c_act c)) c)
| step_stop_wait c t :
    c_thr c !! t = Some StopWait -> a_wg (c_act c) = 0%nat ->
    client_step c (set_thr t StopStore (c_act c) c)
| step_stop_store c t :
    c_thr c !! t = Some StopStore ->
    client_step c (set_thr t (StopRet (Ok tt)) (Stop_finish (c_act c)) c)
(* Call *)
| step_call_begin c t m a' m' ref :
    c_thr c !! t = Some (CallBegin m) -> Call_begin m (c_act c) = (a', m', ref) ->
    client_step c (set_thr t (CallLoad m' ref) a' c)
| step_call_load c t m ref :
    c_thr c !! t = Some (CallLoad m ref) ->
    client_step c (set_thr t (match Send_check (c_act c) with
                       | Some e => CallEnd (m_Session m) (Err e)
                       | None => CallSelect m ref end) (c_act c) c)
| step_call_select c t m ref pick a' r :
    c_thr c !! t = Some (CallSelect m ref) -> Send_select pick (Some m) (c_act c) = Ret (a', r) ->
    client_step c (accept (Some m) r
              (set_thr t (match r with Err e => CallEnd (m_Session m) (Err e)
                          | Ok _ => CallWait (m_Session m) ref end) a' c))
| step_call_wait c t s ref k ctxErr a' r :
    c_thr c !! t = Some (CallWait s ref) -> Call_select k ref ctxErr (c_act c) = Some (a', r) ->
    client_step c (set_thr t (CallEnd s r) a' c)
| step_call_end c t s r :
    c_thr c !! t = Some (CallEnd s r) -> client_step c (set_thr t (CallRet s r) (Call_end s (c_act c)) c).

(** The steps of the message loop. *)
Inductive loop_step : conf -> conf -> Prop :=
| step_loop_recv c m mb :
    c_loop c = LSelect -> try_recv (a_mailbox (c_act c)) = Got (Some m) mb ->
    loop_step c (take_msg (Some m) (set_loop (LEnter m) (with_mailbox mb (c_act c)) c))
| step_loop_recv_nil c mb :
    c_loop c = LSelect -> try_recv (a_mailbox (c_act c)) = Got None mb ->
    loop_step c (take_msg None (set_loop LSelect (with_mailbox mb (c_act c)) c))
| step_loop_ctx c :
    c_loop c = LSelect -> a_ctxDone (c_act c) = true -> loop_step c (set_loop LDrain (c_act c) c)
| step_loop_enter c m :
    c_loop c = LEnter m -> loop_step c (set_loop (LHandle m) (process_enter (c_act c)) c)
| step_loop_handle c m now a' m' err :
    c_loop c = LHandle m -> process_handle HandleMessage now m (c_act c) = (a', m', err) ->
    loop_step c (handle_msg m (set_loop (LRespond m' err) a' c))
| step_loop_respond c m err now a' :
    c_loop c = LRespond m err -> process_respond now m err (c_act c) = Ret a' ->
    loop_step c (set_loop LExit a' c)
| step_loop_exit c :
    c_loop c = LExit -> loop_step c (set_loop LSelect (process_exit (c_act c)) c)
| step_loop_drain c now a' more :
    c_loop c = LDrain -> drain1 now (c_act c) = Ret (a', more) ->
    loop_step c (drain_msgs (take 1 (ch_buf (a_mailbox (c_act c))))
              (set_loop (if more then LDrain else LClose) a' c))
| step_loop_close c mb :
    c_loop c = LClose -> close_chan (a_mailbox (c_act c)) = Ret mb ->
    loop_step c (set_loop LWgDone (with_mailbox mb (c_act c)) c)
| step_loop_done c :
    c_loop c = LWgDone ->
    loop_step c (set_loop LExited (with_lifecycle (a_ctxDone (c_act c)) (pred (a_wg (c_act c))) (c_act c)) c).

Definition step (c c' : conf) : Prop := client_step c c' \/ loop_step c c'.

(** A goroutine is about to panic. *)
Definition about_to_panic (c : conf) : Prop :=
  (exists t m why, c_thr c !! t = Some (SendSelect m) /\ Send_select true m (c_act c) = Panic why) \/
  (exists t m ref why, c_thr c !! t = Some (CallSelect m ref) /\
     Send_select true (Some m) (c_act c) = Panic why).

(** The configuration right after [Start] returned on a new actor. *)
Definition started (id : ActorID) (h : H) (opts : ActorOptions) (now : time) : conf :=
  mkConf (mkActor id (o_Name opts) h (make_chan (Z.to_nat (o_MailboxSize opts)))
            false 1 ActorStateIdle 0 now 0 ∅ ∅ 0 opts)
    LSelect ∅ [] [] [] [].

(** The mailbox is buffered: without a buffer a send succeeds only while the
    loop waits to receive, and the system never asks for that (it takes a size
    of zero for the default). *)
Definition reachable (id : ActorID) (h : H) (opts : ActorOptions) (now : time) (c : conf) : Prop :=
  0 < o_MailboxSize opts /\ rtc step (started id h opts now) c.

(** [started] is what [NewActor] and [Start] build. *)
Lemma started_correct id h opts now a :
  NewActor id h opts (fun _ => now) = Ret a ->
  c_act (started id h opts now) = (actor_Start a).1 /\ (actor_Start a).2 = Ok tt.
Proof. unfold NewActor. destruct (_ <? _); [done|]. by intros [= <-]. Qed.

(** ** The invariant *)

Definition pending (l : loop_pc) : list Message :=
  match l with LEnter m | LHandle m => [m] | _ => [] end.
Definition shutting (l : loop_pc) : bool :=
  match l with LDrain | LClose | LWgDone | LExited => true | _ => false end.
Definition closed_pc (l : loop_pc) : bool :=
  match l with LWgDone | LExited => true | _ => false end.
Definition stop_passed (th : thread) : bool :=
  match th with StopStore | StopRet (Ok _) => true | _ => false end.
Definition stop_cancelled (th : thread) : bool :=
  match th with StopWait | StopStore | StopRet (Ok _) => true | _ => false end.
Definition stop_returned (th : thread) : bool :=
  match th with StopRet (Ok _) => true | _ => false end.

Record inv (c : conf) : Prop := {
  inv_queue : c_accepted c = c_taken c ++ c_drained c ++ ch_buf (a_mailbox (c_act c));
  inv_handled : omap id (c_taken c) = c_handled c ++ pending (c_loop c);
  inv_drained : shutting (c_loop c) = false -> c_drained c = [];
  inv_room : chan_wf (a_mailbox (c_act c));
  inv_closed : ch_closed (a_mailbox (c_act c)) = closed_pc (c_loop c);
  inv_ctx : shutting (c_loop c) = true -> a_ctxDone (c_act c) = true;
  inv_wg : a_wg (c_act c) = match c_loop c with LExited => 0%nat | _ => 1%nat end;
  inv_stop t th : c_thr c !! t = Some th -> stop_passed th = true -> c_loop c = LExited;
  inv_final t th : c_thr c !! t = Some th -> stop_returned th = true ->
    a_state (c_act c) = ActorStateStopped;
  inv_wait t th : c_thr c !! t = Some th -> stop_cancelled th = true -> a_ctxDone (c_act c) = true;
  inv_resp : resp_open (c_act c);
}.

Lemma inv_started id h opts now : inv (started id h opts now).
Proof. split; cbn; try done; try (intros *; by rewrite lookup_empty). unfold chan_wf. simpl. lia. Qed.

(** A client goroutine that moves without touching the mailbox, the wait group
    or the response channels. *)
Lemma inv_set_thr c t th a' :
  inv c ->
  a_mailbox a' = a_mailbox (c_act c) -> a_wg a' = a_wg (c_act c) ->
  (a_ctxDone (c_act c) = true -> a_ctxDone a' = true) -> resp_open a' ->
  (stop_cancelled th = true -> a_ctxDone a' = true) ->
  (stop_passed th = true -> c_loop c = LExited) ->
  (stop_returned th = true -> a_state a' = ActorStateStopped) ->
  ((exists t' th', c_thr c !! t' = Some th' /\ stop_returned th' = true) ->
     a_state a' = ActorStateStopped) ->
  inv (set_thr t th a' c).
Proof.
  intros [] Hmb Hwg Hctx Hresp Hcan Hstop Hret Hfin. split; cbn; rewrite ?Hmb ?Hwg; try done; [auto|..].
  - intros t' th' [[_ <-]|[_ Hth']]%lookup_insert_Some; [done|]. by apply (inv_stop0 t').
  - intros t' th' [[_ <-]|[_ Hth']]%lookup_insert_Some; [done|]. intros. apply Hfin. eauto.
  - intros t' th' [[_ <-]|[_ Hth']]%lookup_insert_Some; [done|]. eauto.
Qed.

Lemma inv_final_ex c :
  inv c -> (exists t th, c_thr c !! t = Some th /\ stop_returned th = true) ->
  a_state (c_act c) = ActorStateStopped.
Proof. intros Hc (t & th & Hth & Hr). by apply (inv_final c Hc t th). Qed.

(** A client goroutine that moves and leaves the actor alone. *)
Lemma inv_set_thr_same c t th :
  inv c -> stop_cancelled th = false -> inv (set_thr t th (c_act c) c).
Proof.
  intros Hc Hw. apply inv_set_thr; try done; try congruence;
    [apply Hc|by destruct th as [| | | | | | | | |[]| | | | | |]..|by apply inv_final_ex].
Qed.

(** The [select] of [Send], on a mailbox that is not closed or not chosen. *)
Lemma Send_select_inv pick m (a a' : actor) r :
  Send_select pick m a = Ret (a', r) ->
  (exists e, r = Err e /\ a' = a) \/
  (r = Ok tt /\ ch_closed (a_mailbox a) = false /\
   (length (ch_buf (a_mailbox a)) < ch_cap (a_mailbox a))%nat /\
   a' = with_mailbox (mkChan (ch_buf (a_mailbox a) ++ [m]) (ch_cap (a_mailbox a)) false) a).
Proof.
  unfold Send_select, try_send. destruct (ch_closed (a_mailbox a)) eqn:Hcl; simpl.
  - destruct (pick || negb (a_ctxDone a)); [done|]. destruct (a_ctxDone a); intros [= <- <-]; eauto.
  - case_bool_decide; simpl; [destruct (pick || negb (a_ctxDone a)); simpl|].
    + rewrite decide_True //. intros [= <- <-]. eauto 6.
    + destruct (a_ctxDone a); intros [= <- <-]; eauto.
    + destruct (a_ctxDone a); intros [= <- <-]; eauto.
Qed.

Lemma inv_send_select c t th pick m a' r :
  inv c -> Send_select pick m (c_act c) = Ret (a', r) -> stop_cancelled th = false ->
  inv (accept m r (set_thr t th a' c)).
Proof.
  intros Hc Hsel Hp. assert (stop_returned th = false /\ stop_passed th = false) as [Hr Hp']
    by (by destruct th as [| | | | | | | | |[]| | | | | |]).
  destruct (Send_select_inv _ _ _ _ _ Hsel) as [(e & -> & ->)|(-> & Hcl & Hroom & ->)].
  { by apply (inv_set_thr_same c t th). }
  pose proof Hc as []. split; cbn; try done.
  - by rewrite inv_queue0 -!assoc_L.
  - unfold chan_wf. cbn. rewrite length_app /=. lia.
  - by rewrite -inv_closed0.
  - intros t' th' [[_ <-]|[_ Hth']]%lookup_insert_Some; [congruence|by apply (inv_stop0 t')].
  - intros t' th' [[_ <-]|[_ Hth']]%lookup_insert_Some; [congruence|by apply (inv_final0 t')].
  - intros t' th' [[_ <-]|[_ Hth']]%lookup_insert_Some; [congruence|by apply (inv_wait0 t')].
Qed.

(** When the loop is at a point from which it still runs, no [Stop] has passed
    its wait. *)
Lemma inv_set_loop c l a' taken drained handled :
  inv c -> c_loop c <> LExited ->
  c_accepted c = taken ++ drained ++ ch_buf (a_mailbox a') ->
  omap id taken = handled ++ pending l ->
  (shutting l = false -> drained = []) ->
  chan_wf (a_mailbox a') -> ch_closed (a_mailbox a') = closed_pc l ->
  (shutting l = true -> a_ctxDone a' = true) ->
  a_wg a' = match l with LExited => 0%nat | _ => 1%nat end ->
  (a_ctxDone (c_act c) = true -> a_ctxDone a' = true) ->
  resp_open a' ->
  inv (mkConf a' l (c_thr c) (c_accepted c) taken drained handled).
Proof.
  intros Hc Hl. intros. split; cbn; try done.
  - intros t th Hth Hp. by destruct Hl; apply (inv_stop c Hc t th).
  - intros t th Hth Hr. destruct Hl. apply (inv_stop c Hc t th); [done|].
    by destruct th as [| | | | | | | | |[]| | | | | |].
  - intros t th Hth Hw. pose proof (inv_wait c Hc t th Hth Hw). auto.
Qed.

Lemma inv_client_step c c' : inv c -> client_step c c' -> inv c'.
Proof.
  intros Hc Hstep. pose proof (inv_final_ex c Hc) as Hfin.
  destruct Hstep as [c t th Hth Hen|c t m Hth|c t m pick a' r Hth Hsel|c t Hth|c t Hth|c t Hth|c t Hth
    |c t Hth Hwg|c t Hth|c t m a' m' ref Hth Hcb|c t m ref Hth|c t m ref pick a' r Hth Hsel
    |c t s ref k ctxErr a' r Hth Hsel|c t s r Hth].
  - apply inv_set_thr_same; by destruct th.
  - destruct (Send_check (c_act c)); by apply inv_set_thr_same.
  - eapply inv_send_select; [done|exact Hsel|done].
  - unfold Stop_CAS. case_decide as Hst; [|by apply inv_set_thr_same].
    apply inv_set_thr; try done; [apply Hc|]. intros ?%Hfin. congruence.
  - unfold Stop_CAS. case_decide as Hst; [|by apply inv_set_thr_same].
    apply inv_set_thr; try done; [apply Hc|]. intros ?%Hfin. congruence.
  - by apply inv_set_thr_same.
  - apply inv_set_thr; try done. apply Hc.
  - apply inv_set_thr; try done; [apply Hc|intros _; by apply (inv_wait c Hc t StopWait)|].
    intros _. pose proof (inv_wg c Hc) as Hw. rewrite Hwg in Hw. by destruct (c_loop c).
  - apply inv_set_thr; try done; [apply Hc|intros _; by apply (inv_wait c Hc t StopStore)|].
    intros _. by apply (inv_stop c Hc t StopStore).
  - injection Hcb as <- <- <-. apply inv_set_thr; try done. apply resp_open_upd; [apply Hc|done].
  - destruct (Send_check (c_act c)); by apply inv_set_thr_same.
  - eapply inv_send_select; [done|exact Hsel|by destruct r].
  - unfold Call_select in Hsel. destruct k.
    + apply bind_Some in Hsel as (ch & Hch & Hsel). unfold try_recv in Hsel.
      pose proof (inv_resp c Hc _ _ Hch) as Hopen. rewrite Hopen in Hsel.
      destruct (ch_buf ch); [done|]. injection Hsel as <- <-.
      apply inv_set_thr; try done. by apply resp_open_upd; [apply Hc|].
    + apply bind_Some in Hsel as (e & _ & [= <- <-]). by apply inv_set_thr_same.
    + destruct (a_ctxDone (c_act c)); [|done]. injection Hsel as <- <-. by apply inv_set_thr_same.
  - apply inv_set_thr; try done. apply Hc.
Qed.

(** What a receive leaves in the mailbox. *)
Lemma try_recv_Got {A} (ch : chan A) x ch' :
  try_recv ch = Got x ch' ->
  ch_buf ch = x :: ch_buf ch' /\ ch_cap ch' = ch_cap ch /\ ch_closed ch' = ch_closed ch.
Proof. unfold try_recv. destruct (ch_buf ch); [by destruct (ch_closed ch)|]. by intros [= <- <-]. Qed.

(** Open the invariant at the loop's program point and reduce a step of the
    loop to what the step changes. *)
Ltac loop_case c Hc Hl :=
  let Hc' := fresh in
  pose proof Hc as Hc'; destruct Hc';
  repeat match goal with
  | Hi : context [c_loop c] |- _ => lazymatch type of Hi with c_loop c = _ => fail | _ => rewrite Hl in Hi end
  end;
  cbn in *; apply (inv_set_loop c); cbn; rewrite ?Hl; try done; eauto.

Lemma inv_loop_recv c l x mb :
  inv c -> c_loop c = LSelect -> try_recv (a_mailbox (c_act c)) = Got x mb ->
  pending l = option_list x -> shutting l = false ->
  inv (take_msg x (set_loop l (with_mailbox mb (c_act c)) c)).
Proof.
  intros Hc Hl (Hbuf & Hcap & Hclosed)%try_recv_Got Hp Hs.
  loop_case c Hc Hl.
  - rewrite inv_queue0 inv_drained0 // Hbuf -assoc_L //.
  - rewrite omap_app inv_handled0 Hp app_nil_r. by destruct x.
  - unfold chan_wf in *. rewrite Hcap. rewrite Hbuf /= in inv_room0. lia.
  - rewrite Hclosed inv_closed0. by destruct l.
  - congruence.
  - by destruct l.
Qed.

Lemma inv_loop_drain c now a' more :
  inv c -> c_loop c = LDrain -> drain1 now (c_act c) = Ret (a', more) ->
  inv (drain_msgs (take 1 (ch_buf (a_mailbox (c_act c))))
        (set_loop (if more then LDrain else LClose) a' c)).
Proof.
  intros Hc Hl Hd. destruct (drain1_spec now (c_act c) (inv_resp c Hc))
    as (a1 & more1 & Hd1 & Hopen & Hctx & Hwg & Hst & Hcap & Hclosed & Hbuf).
  rewrite Hd in Hd1. injection Hd1 as <- <-.
  loop_case c Hc Hl.
  - rewrite inv_queue0. do 1 f_equal. rewrite -assoc_L. f_equal.
    destruct (ch_buf (a_mailbox (c_act c))) eqn:E; [destruct Hbuf as [_ ->]; by rewrite E|].
    by destruct Hbuf as [-> _].
  - rewrite inv_handled0. by destruct more.
  - by destruct more.
  - unfold chan_wf in *. rewrite Hcap.
    destruct (ch_buf (a_mailbox (c_act c))) eqn:E; [destruct Hbuf as [_ ->]; rewrite E /=; lia|].
    destruct Hbuf as [-> _]. simpl in inv_room0. lia.
  - rewrite Hclosed inv_closed0. by destruct more.
  - rewrite Hwg inv_wg0. by destruct more.
Qed.

Lemma inv_loop_step c c' : inv c -> loop_step c c' -> inv c'.
Proof.
  intros Hc Hstep.
  destruct Hstep as [c m mb Hl Hrecv|c mb Hl Hrecv|c Hl Hdone|c m Hl
    |c m now a' m' err Hl Hh|c m err now a' Hl Hr|c Hl|c now a' more Hl Hd|c mb Hl Hcl|c Hl].
  - by apply inv_loop_recv.
  - by apply inv_loop_recv.
  - loop_case c Hc Hl.
  - loop_case c Hc Hl.
  - unfold process_handle in Hh. destruct (HandleMessage _ _) as [[h' m1] e1]. injection Hh as <- <- <-.
    loop_case c Hc Hl. by rewrite inv_handled0 app_nil_r.
  - destruct (process_respond_spec now m err (c_act c) (inv_resp c Hc)) as (chans & Hr' & Hopen).
    rewrite Hr in Hr'. injection Hr' as ->. loop_case c Hc Hl.
  - loop_case c Hc Hl.
  - by apply inv_loop_drain with now.
  - unfold close_chan in Hcl. destruct (ch_closed _) eqn:E; [done|]. injection Hcl as <-.
    loop_case c Hc Hl.
  - loop_case c Hc Hl. by rewrite inv_wg0.
Qed.

Lemma inv_reachable id h opts now c : reachable id h opts now c -> inv c.
Proof.
  intros [_ Hr]. pose proof (inv_started id h opts now) as Hi.
  induction Hr as [c|c1 c2 c3 [Hs|Hs] _ IH]; [done| |];
    apply IH; eauto using inv_client_step, inv_loop_step.
Qed.

(** ** After the loop has exited *)

Lemma exited_step c c' :
  c_loop c = LExited -> step c c' ->
  c_loop c' = LExited /\ c_taken c' = c_taken c /\ c_handled c' = c_handled c.
Proof.
  intros Hl [Hs|Hs]; [|destruct Hs; congruence].
  destruct Hs; try done; cbn; try (unfold Stop_CAS; case_decide); done.
Qed.

(** A [Stop] that has returned stays returned. *)
Lemma stop_returned_step c c' t r :
  c_thr c !! t = Some (StopRet r) -> step c c' -> c_thr c' !! t = Some (StopRet r).
Proof.
  assert (forall t' th a c, c_thr c !! t = Some (StopRet r) ->
    c_thr c !! t' <> Some (StopRet r) -> c_thr (set_thr t' th a c) !! t = Some (StopRet r)) as Hupd.
  { intros t' th a c0 Hth Hne. cbn. rewrite lookup_insert_ne //. congruence. }
  intros Hth [Hs|Hs]; [|by destruct Hs].
  destruct Hs; try (apply Hupd; congruence);
    unfold Stop_CAS; case_decide; apply Hupd; congruence.
Qed.

Lemma stop_returned_final c c' t :
  inv c -> c_thr c !! t = Some (StopRet (Ok tt)) -> rtc step c c' ->
  c_thr c' !! t = Some (StopRet (Ok tt)) /\ c_loop c' = LExited /\
  c_taken c' = c_taken c /\ c_handled c' = c_handled c.
Proof.
  intros Hc Hth Hs. pose proof (inv_stop c Hc t _ Hth eq_refl) as Hl. clear Hc.
  induction Hs as [c|c c1 c2 Hs _ IH]; [done|].
  destruct (exited_step c c1 Hl Hs) as (Hl1 & Ht1 & Hh1).
  rewrite -Ht1 -Hh1. apply IH; [by apply (stop_returned_step c c1)|done].
Qed.

(** ** The loop comes to its end once the context is cancelled *)

Definition finishes (c : conf) : Prop :=
  exists c', rtc loop_step c c' /\ c_loop c' = LExited /\ c_thr c' = c_thr c.

Lemma finishes_step c c' : loop_step c c' -> c_thr c' = c_thr c -> finishes c' -> finishes c.
Proof.
  intros Hs Hthr (c1 & Hr & Hl & Ht). exists c1. split; [by apply (rtc_l _ c c')|]. by rewrite Ht Hthr.
Qed.

Lemma finishes_wg c : c_loop c = LWgDone -> finishes c.
Proof. intros Hl. eexists. split; [by apply rtc_once, step_loop_done|done]. Qed.

Lemma finishes_close c : inv c -> c_loop c = LClose -> finishes c.
Proof.
  intros Hc Hl. pose proof (inv_closed c Hc) as Hcl. rewrite Hl in Hcl.
  eapply finishes_step; [eapply step_loop_close; [done|]|done|by apply finishes_wg].
  unfold close_chan. rewrite Hcl. done.
Qed.

Lemma finishes_drain n c :
  inv c -> c_loop c = LDrain -> length (ch_buf (a_mailbox (c_act c))) = n -> finishes c.
Proof.
  revert c. induction n as [|n IH]; intros c Hc Hl Hlen;
    destruct (drain1_spec 0 (c_act c) (inv_resp c Hc))
      as (a' & more & Hd & _ & _ & _ & _ & _ & _ & Hbuf).
  - destruct (ch_buf (a_mailbox (c_act c))); [|done]. destruct Hbuf as [-> ->].
    pose proof (step_loop_drain c 0 _ _ Hl Hd) as Hs. apply (finishes_step _ _ Hs eq_refl).
    eapply finishes_close; [|done]. exact (inv_loop_step _ _ Hc Hs).
  - pose proof (step_loop_drain c 0 _ _ Hl Hd) as Hs. apply (finishes_step _ _ Hs eq_refl).
    pose proof (inv_loop_step _ _ Hc Hs) as Hc'.
    destruct (ch_buf (a_mailbox (c_act c))) as [|x rest] eqn:E; [done|]. destruct Hbuf as [Hrest _].
    destruct more; [|by apply finishes_close]. apply IH; [done..|]. cbn. rewrite Hrest.
    simpl in Hlen. lia.
Qed.

Lemma finishes_select c :
  inv c -> a_ctxDone (c_act c) = true -> c_loop c = LSelect -> finishes c.
Proof.
  intros Hc Hctx Hl. pose proof (step_loop_ctx c Hl Hctx) as Hs. apply (finishes_step _ _ Hs eq_refl).
  eapply finishes_drain; [exact (inv_loop_step _ _ Hc Hs)|done..].
Qed.

Lemma finishes_exit c :
  inv c -> a_ctxDone (c_act c) = true -> c_loop c = LExit -> finishes c.
Proof.
  intros Hc Hctx Hl. pose proof (step_loop_exit c Hl) as Hs. apply (finishes_step _ _ Hs eq_refl).
  apply finishes_select; [exact (inv_loop_step _ _ Hc Hs)|done..].
Qed.

Lemma finishes_respond c m err :
  inv c -> a_ctxDone (c_act c) = true -> c_loop c = LRespond m err -> finishes c.
Proof.
  intros Hc Hctx Hl. destruct (process_respond_spec 0 m err (c_act c) (inv_resp c Hc)) as (chans & Hr & _).
  pose proof (step_loop_respond c m err 0 _ Hl Hr) as Hs. apply (finishes_step _ _ Hs eq_refl).
  apply finishes_exit; [exact (inv_loop_step _ _ Hc Hs)|done..].
Qed.

Lemma finishes_handle c m :
  inv c -> a_ctxDone (c_act c) = true -> c_loop c = LHandle m -> finishes c.
Proof.
  intros Hc Hctx Hl.
  destruct (process_handle HandleMessage 0 m (c_act c)) as [[a' m'] err] eqn:Hh.
  pose proof (step_loop_handle c m 0 _ _ _ Hl Hh) as Hs. apply (finishes_step _ _ Hs eq_refl).
  eapply finishes_respond; [exact (inv_loop_step _ _ Hc Hs)| |done]. cbn.
  unfold process_handle in Hh. destruct (HandleMessage _ _) as [[? ?] ?]. by injection Hh as <- _ _.
Qed.

Lemma cancelled_finishes c : inv c -> a_ctxDone (c_act c) = true -> finishes c.
Proof.
  intros Hc Hctx. destruct (c_loop c) eqn:Hl.
  - by apply finishes_select.
  - pose proof (step_loop_enter c m Hl) as Hs. apply (finishes_step _ _ Hs eq_refl).
    eapply finishes_handle; [exact (inv_loop_step _ _ Hc Hs)|done..].
  - by apply (finishes_handle c m).
  - by apply (finishes_respond c m err).
  - by apply finishes_exit.
  - by apply (finishes_drain _ c Hc Hl eq_refl).
  - by apply finishes_close.
  - by apply finishes_wg.
  - exists c. split; [apply rtc_refl|done].
Qed.

Lemma rtc_loop_step c c' : rtc loop_step c c' -> rtc step c c'.
Proof. apply rtc_subrel. intros ? ? ?. by right. Qed.

Lemma inv_rtc_loop c c' : inv c -> rtc loop_step c c' -> inv c'.
Proof. intros Hc Hs. induction Hs; eauto using inv_loop_step. Qed.

(** ** Request and response

    Every response channel belongs to one session, its owner; a response
    carries the session of the channel it is in. *)

Record owned (owner : nat -> Z) (c : conf) : Prop := {
  own_pending s ref : a_pendingCalls (c_act c) !! s = Some ref ->
    owner ref = s /\ is_Some (a_respChans (c_act c) !! ref);
  own_buf ref ch x : a_respChans (c_act c) !! ref = Some ch -> x ∈ ch_buf ch ->
    m_Session x = owner ref /\ m_Source x = a_id (c_act c);
  own_call t m ref :
    c_thr c !! t = Some (CallLoad m ref) \/ c_thr c !! t = Some (CallSelect m ref) ->
    owner ref = m_Session m /\ is_Some (a_respChans (c_act c) !! ref);
  own_wait t s ref : c_thr c !! t = Some (CallWait s ref) ->
    owner ref = s /\ is_Some (a_respChans (c_act c) !! ref);
  own_ret t s r : c_thr c !! t = Some (CallEnd s (Ok r)) \/ c_thr c !! t = Some (CallRet s (Ok r)) ->
    m_Session r = s /\ m_Source r = a_id (c_act c);
}.

Lemma response_session now (a : actor) m err :
  m_Session (response now a m err) = m_Session m /\ m_Source (response now a m err) = a_id a.
Proof. by destruct err. Qed.

(** An actor whose calls differ from those of [c] at most by answers queued
    under the sessions they answer. *)
Record answers (a a' : actor) : Prop := {
  ans_id : a_id a' = a_id a;
  ans_pending : a_pendingCalls a' = a_pendingCalls a;
  ans_chans ref : match a_respChans a !! ref, a_respChans a' !! ref with
    | Some ch, Some ch' => forall x, x ∈ ch_buf ch' -> x ∈ ch_buf ch \/
        (exists s, a_pendingCalls a !! s = Some ref /\ m_Session x = s /\ m_Source x = a_id a)
    | None, None => True
    | _, _ => False
    end;
}.

Lemma answers_refl (a a' : actor) :
  a_id a' = a_id a -> a_pendingCalls a' = a_pendingCalls a -> a_respChans a' = a_respChans a ->
  answers a a'.
Proof.
  intros Hid Hp Hch. split; [done..|]. intros ref. rewrite Hch.
  destruct (a_respChans a !! ref); auto.
Qed.

Lemma sendResponse_answers now m err (a a' : actor) :
  resp_open a -> sendResponse now m err a = Ret a' -> answers a a'.
Proof.
  intros Hopen. unfold sendResponse.
  destruct (a_pendingCalls a !! m_Session m) as [ref|] eqn:Hp; [|intros [= <-]; by apply answers_refl].
  destruct (a_respChans a !! ref) as [ch|] eqn:Hch; [|intros [= <-]; by apply answers_refl].
  rewrite (try_send_open _ _ (Hopen _ _ Hch)). intros Heq.
  split; [case_decide; by injection Heq as <-..|]. intros ref'.
  destruct (decide (ref = ref')) as [<-|Hne].
  - rewrite Hch. case_decide; injection Heq as <-; cbn; rewrite lookup_insert_eq; [|auto].
    cbn. intros x [?| ->%list_elem_of_singleton]%elem_of_app; [by left|]. right.
    exists (m_Session m). by destruct (response_session now a m err).
  - case_decide; injection Heq as <-; cbn; rewrite lookup_insert_ne //;
      destruct (a_respChans a !! ref'); auto.
Qed.

Lemma drain1_answers now (a a' : actor) more :
  resp_open a -> drain1 now a = Ret (a', more) -> answers a a'.
Proof.
  intros Hopen. unfold drain1, try_recv. destruct (ch_buf (a_mailbox a)) as [|[m|] rest].
  - destruct (ch_closed _); intros [= <- _]; by apply answers_refl.
  - destruct (m_Session m =? 0); [intros [= <- _]; by apply answers_refl|].
    destruct (sendResponse_spec now m (Some (Send_shutdown a))
      (with_mailbox (mkChan rest (ch_cap (a_mailbox a)) (ch_closed (a_mailbox a))) a) Hopen)
      as (chans & Hs & _). pose proof Hs as Ha%sendResponse_answers; [|exact Hopen].
    rewrite Hs. intros [= <- _]. by destruct Ha as [? ? ?].
  - intros [= <- _]. by apply answers_refl.
Qed.

Lemma owned_answers owner c a' l taken drained handled accepted :
  owned owner c -> answers (c_act c) a' ->
  owned owner (mkConf a' l (c_thr c) accepted taken drained handled).
Proof.
  intros Ho [Hid Hp Hch].
  assert (forall ref, is_Some (a_respChans (c_act c) !! ref) -> is_Some (a_respChans a' !! ref)) as Hsome.
  { intros ref [ch Hr]. specialize (Hch ref). rewrite Hr in Hch. by destruct (a_respChans a' !! ref). }
  destruct Ho. split; cbn; rewrite ?Hid ?Hp; try done.
  - intros s ref Hs. destruct (own_pending0 s ref Hs). auto.
  - intros ref ch' x Hr Hx. specialize (Hch ref). rewrite Hr in Hch.
    destruct (a_respChans (c_act c) !! ref) as [ch|] eqn:E; [|done].
    destruct (Hch x Hx) as [?|(s & Hs & <- & ->)]; [by apply (own_buf0 ref ch)|].
    by destruct (own_pending0 _ _ Hs) as [-> _].
  - intros t m ref Ht. destruct (own_call0 t m ref Ht). auto.
  - intros t s ref Ht. destruct (own_wait0 t s ref Ht). auto.
Qed.

(** A goroutine that moves to a point that holds no channel and no answer. *)
Definition no_call (th : thread) : bool :=
  match th with
  | CallLoad _ _ | CallSelect _ _ | CallWait _ _ | CallEnd _ (Ok _) | CallRet _ (Ok _) => false
  | _ => true
  end.

Lemma owned_set_thr owner c t th a' accepted :
  owned owner c -> answers (c_act c) a' ->
  (forall m ref, th = CallLoad m ref \/ th = CallSelect m ref ->
     owner ref = m_Session m /\ is_Some (a_respChans (c_act c) !! ref)) ->
  (forall s ref, th = CallWait s ref -> owner ref = s /\ is_Some (a_respChans (c_act c) !! ref)) ->
  (forall s r, th = CallEnd s (Ok r) \/ th = CallRet s (Ok r) ->
     m_Session r = s /\ m_Source r = a_id (c_act c)) ->
  owned owner (mkConf a' (c_loop c) (<[t := th]> (c_thr c)) accepted (c_taken c) (c_drained c) (c_handled c)).
Proof.
  intros Ho Ha H1 H2 H3. pose proof (owned_answers owner c a' (c_loop c) (c_taken c)
    (c_drained c) (c_handled c) accepted Ho Ha) as [].
  assert (forall ref, is_Some (a_respChans (c_act c) !! ref) -> is_Some (a_respChans a' !! ref)) as Hsome.
  { intros ref [ch Hr]. destruct Ha as [_ _ Hch]. specialize (Hch ref). rewrite Hr in Hch.
    by destruct (a_respChans a' !! ref). }
  split; cbn in *; try done.
  - intros t' m ref [Ht|Ht]; apply lookup_insert_Some in Ht as [[_ ->]|[_ Ht]].
    + destruct (H1 m ref); auto.
    + apply (own_call0 t'). auto.
    + destruct (H1 m ref); auto.
    + apply (own_call0 t'). auto.
  - intros t' s ref [[_ ->]|[_ Ht]]%lookup_insert_Some; [|by apply (own_wait0 t')].
    destruct (H2 s ref); auto.
  - rewrite (ans_id _ _ Ha). intros t' s r [Ht|Ht]; apply lookup_insert_Some in Ht as [[_ ->]|[_ Ht]];
      auto; rewrite -(ans_id _ _ Ha); apply (own_ret0 t'); auto.
Qed.

Lemma owned_set_thr_plain owner c t th a' accepted :
  owned owner c -> no_call th = true -> answers (c_act c) a' ->
  owned owner (mkConf a' (c_loop c) (<[t := th]> (c_thr c)) accepted (c_taken c) (c_drained c) (c_handled c)).
Proof.
  intros Ho Hn Ha. apply owned_set_thr; [done..| | |].
  - intros m ref [-> | ->]; done.
  - intros s ref ->. done.
  - intros s r [-> | ->]; done.
Qed.

Lemma Call_begin_owned owner c t m a' m' ref :
  owned owner c -> Call_begin m (c_act c) = (a', m', ref) ->
  owned (fun r => if decide (r = ref) then m_Session m' else owner r)
    (set_thr t (CallLoad m' ref) a' c).
Proof.
  intros [] [= <- <- <-]. set (ref := fresh_ref _). set (a := c_act c) in *.
  assert (a_respChans a !! ref = None) as Hnew.
  { apply not_elem_of_dom. apply is_fresh. }
  assert (forall r, is_Some (a_respChans a !! r) -> r <> ref) as Hold.
  { intros r [ch Hr] ->. congruence. }
  split; cbn -[u32 fresh_ref]; fold ref.
  - intros s r [[<- <-]|[_ Hs]]%lookup_insert_Some.
    + rewrite decide_True // lookup_insert_eq. eauto.
    + destruct (own_pending0 s r Hs) as [<- Hr]. rewrite decide_False; [by apply Hold|].
      rewrite lookup_insert_ne; [by apply not_eq_sym, Hold|done].
  - intros r ch x [[<- <-]|[Hne Hr]]%lookup_insert_Some; [by intros ?%not_elem_of_nil|].
    rewrite decide_False; [by apply not_eq_sym|]. apply (own_buf0 r ch x Hr).
  - intros t' m1 r1 Ht. assert ((m1 = set_Session (u32 (a_sessionCounter a + 1)) m /\ r1 = ref) \/
      (c_thr c !! t' = Some (CallLoad m1 r1) \/ c_thr c !! t' = Some (CallSelect m1 r1))) as [[-> ->]|Ht'].
    { destruct Ht as [Ht|Ht]; apply lookup_insert_Some in Ht as [[_ Ht]|[_ Ht]]; simplify_eq; auto. }
    + rewrite decide_True // lookup_insert_eq. eauto.
    + destruct (own_call0 t' m1 r1 Ht') as [<- Hr]. rewrite decide_False; [by apply Hold|].
      rewrite lookup_insert_ne; [by apply not_eq_sym, Hold|done].
  - intros t' s r1 [[_ Ht]|[_ Ht]]%lookup_insert_Some; [done|].
    destruct (own_wait0 t' s r1 Ht) as [<- Hr]. rewrite decide_False; [by apply Hold|].
    rewrite lookup_insert_ne; [by apply not_eq_sym, Hold|done].
  - intros t' s r [Ht|Ht]; apply lookup_insert_Some in Ht as [[_ Ht]|[_ Ht]]; try done;
      apply (own_ret0 t'); auto.
Qed.

Lemma owned_call_wait owner c t s ref k ctxErr a' r :
  owned owner c -> c_thr c !! t = Some (CallWait s ref) ->
  Call_select k ref ctxErr (c_act c) = Some (a', r) -> owned owner (set_thr t (CallEnd s r) a' c).
Proof.
  intros Ho Hth Hsel. destruct k; cbn in Hsel.
  - apply bind_Some in Hsel as (ch & Hch & Hsel). unfold try_recv in Hsel.
    destruct (ch_buf ch) as [|x rest] eqn:Hbuf; [by destruct (ch_closed ch)|]. injection Hsel as <- <-.
    apply owned_set_thr; [done| |naive_solver..|].
    + split; [done..|]. cbn. intros r. destruct (decide (ref = r)) as [<-|Hne].
      * rewrite Hch lookup_insert_eq. cbn. intros y Hy. left. rewrite Hbuf. by right.
      * rewrite lookup_insert_ne //. destruct (a_respChans (c_act c) !! r); auto.
    + intros s' r' [[= <- <-]|?]; [|done]. destruct (own_wait _ _ Ho _ _ _ Hth) as [<- _].
      apply (own_buf _ _ Ho ref ch x Hch). rewrite Hbuf. by left.
  - apply bind_Some in Hsel as (e & _ & [= <- <-]). by apply owned_set_thr_plain, answers_refl.
  - destruct (a_ctxDone (c_act c)); [|done]. injection Hsel as <- <-.
    by apply owned_set_thr_plain, answers_refl.
Qed.

Lemma owned_client_step c c' :
  (exists owner, owned owner c) -> client_step c c' -> exists owner, owned owner c'.
Proof.
  intros [owner Ho] Hstep.
  destruct Hstep as [c t th Hth Hen|c t m Hth|c t m pick a' r Hth Hsel|c t Hth|c t Hth|c t Hth|c t Hth
    |c t Hth Hwg|c t Hth|c t m a' m' ref Hth Hcb|c t m ref Hth|c t m ref pick a' r Hth Hsel
    |c t s ref k ctxErr a' r Hth Hsel|c t s r Hth];
    try by (exists owner; apply (owned_set_thr_plain owner c t), answers_refl).
  - exists owner. apply (owned_set_thr_plain owner c t); [done|by destruct th|by apply answers_refl].
  - exists owner. destruct (Send_check _); by apply (owned_set_thr_plain owner c t), answers_refl.
  - exists owner. destruct (Send_select_inv _ _ _ _ _ Hsel) as [(e & -> & ->)|(-> & _ & _ & ->)];
      by apply (owned_set_thr_plain owner c t), answers_refl.
  - exists owner. unfold Stop_CAS. case_decide; by apply (owned_set_thr_plain owner c t), answers_refl.
  - exists owner. unfold Stop_CAS. case_decide; by apply (owned_set_thr_plain owner c t), answers_refl.
  - eexists. by apply (Call_begin_owned owner c t m).
  - exists owner. destruct (Send_check _); [by apply (owned_set_thr_plain owner c t), answers_refl|].
    apply (owned_set_thr owner c t); [done|by apply answers_refl| |naive_solver..].
    intros m1 r1 [?|[= <- <-]]; [done|]. apply (own_call _ _ Ho t). auto.
  - exists owner. destruct (Send_select_inv _ _ _ _ _ Hsel) as [(e & -> & ->)|(-> & _ & _ & ->)];
      [by apply (owned_set_thr_plain owner c t), answers_refl|].
    apply (owned_set_thr owner c t); [done|by apply answers_refl|naive_solver| |naive_solver].
    intros s1 r1 [= <- <-]. apply (own_call _ _ Ho t). auto.
  - exists owner. by apply (owned_call_wait owner c t s ref k ctxErr).
  - exists owner. destruct Ho. split; cbn; try done.
    + intros s1 r1 [_ Hs]%lookup_delete_Some. by apply own_pending0.
    + intros t1 m1 r1 Ht. apply (own_call0 t1). destruct Ht as [Ht|Ht];
        apply lookup_insert_Some in Ht as [[_ Ht]|[_ Ht]]; auto; done.
    + intros t1 s1 r1 [[_ Ht]|[_ Ht]]%lookup_insert_Some; [done|]. by apply (own_wait0 t1).
    + intros t1 s1 r1 [Ht|Ht]; apply lookup_insert_Some in Ht as [[<- Ht]|[_ Ht]];
        simplify_eq; try (apply (own_ret0 t1); by auto). apply (own_ret0 t). auto.
Qed.

Lemma owned_loop_step c c' :
  inv c -> (exists owner, owned owner c) -> loop_step c c' -> exists owner, owned owner c'.
Proof.
  intros Hc [owner Ho] Hstep. exists owner.
  destruct Hstep as [c m mb Hl Hrecv|c mb Hl Hrecv|c Hl Hdone|c m Hl
    |c m now a' m' err Hl Hh|c m err now a' Hl Hr|c Hl|c now a' more Hl Hd|c mb Hl Hcl|c Hl];
    apply (owned_answers owner c); try done; try by apply answers_refl.
  - unfold process_handle in Hh. destruct (HandleMessage _ _) as [[h' m1] e1]. injection Hh as <- _ _.
    by apply answers_refl.
  - unfold process_respond in Hr. destruct (m_Session m =? 0);
      [injection Hr as <-; by apply answers_refl|].
    by apply sendResponse_answers in Hr; [|apply Hc].
  - by apply drain1_answers in Hd; [|apply Hc].
Qed.

Lemma owned_reachable id h opts now c : reachable id h opts now c -> exists owner, owned owner c.
Proof.
  intros Hr. pose proof (inv_started id h opts now) as Hi.
  assert (exists owner, owned owner (started id h opts now)) as Ho.
  { exists (fun _ => 0). split; cbn; intros *; rewrite ?lookup_empty; naive_solver. }
  destruct Hr as [_ Hr]. induction Hr as [c|c1 c2 c3 [Hs|Hs] _ IH]; [done| |];
    apply IH; eauto using inv_client_step, inv_loop_step, owned_client_step, owned_loop_step.
Qed.

(** ** Properties *)

(** C1. Mailbox order: whatever goroutines send, call and stop, the messages
    given to the handler are, in order and without repetition or invention, the
    first ones of those [Send] accepted; every accepted message is accounted
    for (taken by the loop, drained at shutdown, or still queued); and the
    queue never exceeds its capacity. *)
Theorem mailbox_fifo id0 h opts now c :
  reachable id0 h opts now c ->
  c_handled c `prefix_of` omap id (c_accepted c) /\
  c_accepted c = c_taken c ++ c_drained c ++ ch_buf (a_mailbox (c_act c)) /\
  (length (ch_buf (a_mailbox (c_act c))) <= ch_cap (a_mailbox (c_act c)))%nat.
Proof.
  intros Hc%inv_reachable. destruct Hc. split_and!; [|done..].
  rewrite inv_queue0 omap_app inv_handled0 -!assoc_L. by apply prefix_app_r.
Qed.

(** C2. Finality of [Stop]: once a call of [Stop] has returned without an error,
    in every later configuration the state is Stopped, the message loop has
    exited, the mailbox is closed, and no further message is taken or handled. *)
Theorem stop_is_final id0 h opts now c c' t :
  reachable id0 h opts now c -> c_thr c !! t = Some (StopRet (Ok tt)) -> rtc step c c' ->
  a_state (c_act c') = ActorStateStopped /\ c_loop c' = LExited /\
  ch_closed (a_mailbox (c_act c')) = true /\
  c_taken c' = c_taken c /\ c_handled c' = c_handled c.
Proof.
  intros Hr Hth Hs. pose proof (inv_reachable _ _ _ _ _ Hr) as Hc.
  assert (inv c') as Hc' by (apply (inv_reachable id0 h opts now); destruct Hr; split; [done|by trans c]).
  destruct (stop_returned_final c c' t Hc Hth Hs) as (Hth' & Hl & ? & ?).
  split_and!; [by apply (inv_final c' Hc' t (StopRet (Ok tt)))|done| |done..].
  by rewrite (inv_closed c' Hc') Hl.
Qed.

(** C37. [Stop] does not wait for ever: from any configuration in which a [Stop]
    waits for the message loop, the loop can run to its end (the handler being
    given back control) and this [Stop] return without an error. *)
Theorem stop_completes id0 h opts now c t :
  reachable id0 h opts now c -> c_thr c !! t = Some StopWait ->
  exists c', rtc step c c' /\ c_thr c' !! t = Some (StopRet (Ok tt)).
Proof.
  intros Hr Hth. pose proof (inv_reachable _ _ _ _ _ Hr) as Hc.
  pose proof (inv_wait c Hc t StopWait Hth eq_refl) as Hctx.
  destruct (cancelled_finishes c Hc Hctx) as (c1 & Hs1 & Hl1 & Ht1).
  pose proof (inv_wg c1 (inv_rtc_loop c c1 Hc Hs1)) as Hwg. rewrite Hl1 in Hwg.
  eexists. split.
  - trans c1; [by apply rtc_loop_step, Hs1|].
    eapply rtc_l; [left; apply (step_stop_wait c1 t); [by rewrite Ht1|done]|].
    apply rtc_once. left. apply (step_stop_store _ t). cbn. by rewrite lookup_insert_eq.
  - cbn. by rewrite lookup_insert_eq.
Qed.

(** C36. Request and response match: a [Call] that returns a response returns
    one that the called actor sent for the session of this very call. *)
Theorem call_response_matches id0 h opts now c t session resp :
  reachable id0 h opts now c -> c_thr c !! t = Some (CallRet session (Ok resp)) ->
  m_Session resp = session /\ m_Source resp = a_id (c_act c).
Proof.
  intros [owner Ho]%owned_reachable Hth. apply (own_ret owner c Ho t). auto.
Qed.

End conc.

(** Run one given step of a concrete execution, and compute the configuration
    it leads to. *)
Ltac norm_conf :=
  cbn [set_thr set_loop accept take_msg drain_msgs handle_msg is_ok
       c_act c_loop c_thr c_accepted c_taken c_drained c_handled
       with_state with_mailbox with_lifecycle with_handler with_calls
       Stop_cancel Stop_finish process_enter process_exit
       a_id a_name a_handler a_mailbox a_ctxDone a_wg a_state a_messagesProcessed a_createdAt
       a_lastMessageAt a_pendingCalls a_respChans a_sessionCounter a_opts
       ch_buf ch_cap ch_closed app take].
Tactic Notation "run_client" uconstr(s) := eapply rtc_l; [left; eapply s; reflexivity|norm_conf].
Tactic Notation "run_loop" uconstr(s) := eapply rtc_l; [right; eapply s; reflexivity|norm_conf].

(** A panic is reachable: [processMessage] stores Idle over the Stopping of
    a [Stop] that waits for it, so that after the loop has closed the mailbox a
    new [Send] still passes the check of the state, and its [select] may choose
    the send on the closed channel. *)
Theorem send_can_panic_during_stop {H} (HandleMessage : H -> Message -> H * Message * option error)
    id0 h now (m msg : Message) :
  exists c, reachable HandleMessage id0 h (mkActorOptions 1 "a" (30 * Second)) now c /\
    c_thr c !! 1%nat = Some StopWait /\ Send_check (c_act c) = None /\
    Send_select true (Some msg) (c_act c) = Panic "send on closed channel".
Proof.
  destruct (HandleMessage h m) as [[h' m'] err] eqn:Hh.
  eexists. split_and!.
  - split; [done|]. unfold started.
    run_client (step_spawn _ 0%nat (SendLoad (Some m))).
    run_client (step_send_load _ 0%nat (Some m)).
    run_client (step_send_select _ 0%nat (Some m) true).
    run_loop (step_loop_recv HandleMessage _ m).
    run_loop (step_loop_enter HandleMessage _ m).
    run_client (step_spawn _ 1%nat StopCAS1).
    run_client (step_stop_cas1 _ 1%nat).
    run_client (step_stop_cas2 _ 1%nat).
    run_client (step_stop_cancel _ 1%nat).
    eapply rtc_l; [right; apply (step_loop_handle HandleMessage _ m 0); [done|]|norm_conf].
    { unfold process_handle. cbn. rewrite Hh. done. }
    eapply rtc_l; [right; eapply (step_loop_respond HandleMessage _ m' err 0); [done|]|norm_conf].
    { unfold process_respond, sendResponse. cbn. rewrite lookup_empty.
      destruct (m_Session m' =? 0); done. }
    run_loop (step_loop_exit HandleMessage).
    run_loop (step_loop_ctx HandleMessage).
    run_loop (step_loop_drain HandleMessage _ 0).
    run_loop (step_loop_close HandleMessage).
    apply rtc_refl.
  - done.
  - done.
  - done.
Qed.

(** ** Executions the properties apply to *)

(** A handler that accepts every message and counts them. *)
Definition count_handler (n : nat) (m : Message) : nat * Message * option error := (S n, m, None).
Definition demo_opts : ActorOptions := mkActorOptions 4 "demo" (30 * Second).
Definition demo_msg : Message := mkMessage 0 MessageTypeText 3 9 0 [104; 105] 0.
Notation demo_reachable := (reachable count_handler 9 0%nat demo_opts 0).

(** A call that is answered, then a [Stop] that waits for the loop. *)
Definition demo_answer : Message := mkMessage 0 MessageTypeResponse 9 3 1 [] 5.

Lemma demo_call_then_stop :
  exists c, demo_reachable c /\ c_handled c = [set_Session 1 demo_msg] /\
    c_thr c !! 0%nat = Some (CallRet 1 (Ok demo_answer)) /\
    c_thr c !! 1%nat = Some StopWait.
Proof.
  pose (m := set_Session 1 demo_msg). eexists. split_and!.
  - split; [done|]. unfold started.
    run_client (step_spawn _ 0%nat (CallBegin demo_msg)).
    run_client (step_call_begin _ 0%nat demo_msg _ m 0%nat).
    run_client (step_call_load _ 0%nat m 0%nat).
    run_client (step_call_select _ 0%nat m 0%nat true).
    run_loop (step_loop_recv count_handler _ m).
    run_loop (step_loop_enter count_handler _ m).
    run_loop (step_loop_handle count_handler _ m 4 _ m None).
    run_loop (step_loop_respond count_handler _ m None 5).
    run_client (step_call_wait _ 0%nat 1 0%nat CaseResponse None).
    run_client (step_call_end _ 0%nat 1 (Ok demo_answer)).
    run_loop (step_loop_exit count_handler _).
    run_client (step_spawn _ 1%nat StopCAS1).
    run_client (step_stop_cas1 _ 1%nat).
    run_client (step_stop_cancel _ 1%nat).
    apply rtc_refl.
  - done.
  - done.
  - done.
Qed.

(** A [Stop] that returns, followed by a [Send] that is refused. *)
Lemma demo_stop_then_send :
  exists c c', demo_reachable c /\ c_thr c !! 0%nat = Some (StopRet (Ok tt)) /\
    rtc (step count_handler) c c' /\
    c_thr c' !! 1%nat = Some (SendRet (Err "actor 9 is not running (state: stopped)")).
Proof.
  eexists _, _. split_and!.
  - split; [done|]. unfold started.
    run_client (step_spawn _ 0%nat StopCAS1).
    run_client (step_stop_cas1 _ 0%nat).
    run_client (step_stop_cancel _ 0%nat).
    run_loop (step_loop_ctx count_handler _).
    run_loop (step_loop_drain count_handler _ 0).
    run_loop (step_loop_close count_handler _).
    run_loop (step_loop_done count_handler _).
    run_client (step_stop_wait _ 0%nat).
    run_client (step_stop_store _ 0%nat).
    apply rtc_refl.
  - done.
  - run_client (step_spawn _ 1%nat (SendLoad None)).
    run_client (step_send_load _ 1%nat None).
    apply rtc_refl.
  - done.
Qed.

Lemma mailbox_fifo_witness :
  exists c : conf (H := nat), c_handled c = [set_Session 1 demo_msg] /\
    c_handled c `prefix_of` omap id (c_accepted c).
Proof.
  destruct demo_call_then_stop as (c & Hr & Hh & _). exists c. split; [done|].
  apply (mailbox_fifo count_handler 9 0%nat demo_opts 0 c Hr).
Defined.

Lemma stop_is_final_witness :
  exists c' : conf (H := nat),
    c_thr c' !! 1%nat = Some (SendRet (Err "actor 9 is not running (state: stopped)")) /\
    a_state (c_act c') = ActorStateStopped /\ c_loop c' = LExited.
Proof.
  destruct demo_stop_then_send as (c & c' & Hr & Ht & Hs & Hsend). exists c'. split; [done|].
  destruct (stop_is_final count_handler 9 0%nat demo_opts 0 c c' 0%nat Hr Ht Hs)
    as (? & ? & _). done.
Defined.

Lemma stop_completes_witness :
  exists c' : conf (H := nat), c_thr c' !! 1%nat = Some (StopRet (Ok tt)).
Proof.
  destruct demo_call_then_stop as (c & Hr & _ & _ & Ht).
  destruct (stop_completes count_handler 9 0%nat demo_opts 0 c 1%nat Hr Ht) as (c' & _ & ?).
  by exists c'.
Defined.

Lemma call_response_matches_witness :
  exists c : conf (H := nat), m_Session demo_answer = 1 /\ m_Source demo_answer = a_id (c_act c).
Proof.
  destruct demo_call_then_stop as (c & Hr & _ & Ht & _). exists c.
  apply (call_response_matches count_handler 9 0%nat demo_opts 0 c 0%nat 1 demo_answer Hr Ht).
Defined.
