(* ===== verification/Router.v ===== *)
(** The routers (src/core/router.go, and the routing half of
    src/core/advanced_router.go).

    A router holds references to actors and calls [ID] and [Send] on them. What
    it needs of an actor is the class [ActorIface]: the actors live in a world
    [W] that [Send] updates, and a reference keeps its id for ever. The theorems
    are proved against the class; [actor_world] below is its instance for the
    actors of Actor.v. *)

From S2P Require Import Prelude CoreTypes Handle Actor.

Class ActorIface (W Ref : Type) := {
  act_ID : W -> Ref -> ActorID;
  act_Send : Ref -> Message -> W -> go (W * res unit);
  act_Send_ID ref msg w w' r ref' :
    act_Send ref msg w = Ret (w', r) -> act_ID w' ref' = act_ID w ref';
}.

Section router.
Context {W Ref : Type} `{!ActorIface W Ref}.

(** ** The basic router *)

Record router := mkRouter {
  r_actors : gmap ActorID Ref;
  r_idCounter : Z;
}.

Definition NewRouter : router := mkRouter ∅ 0.

Definition Register (w : W) (actor : option Ref) (r : router) : router * res unit :=
  match actor with
  | None => (r, Err "cannot register nil actor")
  | Some a =>
      let id := act_ID w a in
      match r_actors r !! id with
      | Some _ => (r, Err ("actor with ID " +:+ pretty id +:+ " already registered"))
      | None => (mkRouter (<[id := a]> (r_actors r)) (r_idCounter r), Ok tt)
      end
  end.

Definition Unregister (id : ActorID) (r : router) : router * res unit :=
  match r_actors r !! id with
  | None => (r, Err ("actor with ID " +:+ pretty id +:+ " not found"))
  | Some _ => (mkRouter (delete id (r_actors r)) (r_idCounter r), Ok tt)
  end.

(** A [*Message] is the message or [nil]. *)
Definition Route (msg : option Message) (r : router) (w : W) : go (W * res unit) :=
  match msg with
  | None => Ret (w, Err "cannot route nil message")
  | Some m =>
      match r_actors r !! m_Target m with
      | None => Ret (w, Err ("target actor " +:+ pretty (m_Target m) +:+ " not found"))
      | Some a => act_Send a m w
      end
  end.

Definition Lookup (id : ActorID) (r : router) : option Ref := r_actors r !! id.

(** [order]: the order in which [sync.Map.Range] visits the table. *)
Definition List_ids (order : list ActorID) (r : router) : list ActorID :=
  List.filter (fun id => bool_decide (is_Some (r_actors r !! id))) order.

Definition NextID (r : router) : router * ActorID :=
  let id := u32 (r_idCounter r + 1) in (mkRouter (r_actors r) id, id).

(** ** The advanced router

    Its table of remote nodes is a placeholder that no code reads or writes. *)

Record advancedRouter := mkAdvancedRouter {
  ar_router : router;
  ar_handleManager : HandleManager;
  ar_nodeID : Z;
}.

Definition NewAdvancedRouter (nodeID : Z) : advancedRouter :=
  mkAdvancedRouter NewRouter (NewHandleManager nodeID) nodeID.

Definition with_router (r : router) (ar : advancedRouter) : advancedRouter :=
  mkAdvancedRouter r (ar_handleManager ar) (ar_nodeID ar).
Definition with_handles (hm : HandleManager) (ar : advancedRouter) : advancedRouter :=
  mkAdvancedRouter (ar_router ar) hm (ar_nodeID ar).

(** [RegisterService]; [actor] is not [nil] once [Register] has accepted it. *)
Definition RegisterService (w : W) (actor : option Ref) (name : string) (ar : advancedRouter)
    : advancedRouter * res (option Handle) :=
  match Register w actor (ar_router ar), actor with
  | (_, Err e), _ => (ar, Err e)
  | (r', Ok _), Some a =>
      let '(hm', h) := AllocateHandle (ar_handleManager ar) (act_ID w a) name in
      (with_handles hm' (with_router r' ar), h)
  | (_, Ok _), None => (ar, Ok None)
  end.

(** [advancedRouter.Register]: the same with no name, the handle dropped. *)
Definition ar_Register (w : W) (actor : option Ref) (ar : advancedRouter)
    : advancedRouter * res unit :=
  match Register w actor (ar_router ar), actor with
  | (_, Err e), _ => (ar, Err e)
  | (r', Ok _), Some a =>
      let '(hm', h) := AllocateHandle (ar_handleManager ar) (act_ID w a) "" in
      (with_handles hm' (with_router r' ar), match h with Ok _ => Ok tt | Err e => Err e end)
  | (_, Ok _), None => (ar, Ok tt)
  end.

(** [handle.ID] of a [nil] handle panics. *)
Definition nil_deref {A} : go A :=
  Panic "runtime error: invalid memory address or nil pointer dereference".

Definition ar_Unregister (id : ActorID) (ar : advancedRouter) : go (advancedRouter * res unit) :=
  hm' ← match GetHandleByActor (ar_handleManager ar) id with
        | Some (Some handle) => Ret (ReleaseHandle (ar_handleManager ar) (h_ID handle)).1
        | Some None => nil_deref
        | None => Ret (ar_handleManager ar)
        end;
  let '(r', e) := Unregister id (ar_router ar) in
  Ret (with_handles hm' (with_router r' ar), e).

Definition UnregisterService (name : string) (ar : advancedRouter)
    : go (advancedRouter * res unit) :=
  match GetHandleByName (ar_handleManager ar) name with
  | None => Ret (ar, Err ("service '" +:+ name +:+ "' not found"))
  | Some None => nil_deref
  | Some (Some handle) =>
      match Unregister (h_ActorID handle) (ar_router ar) with
      | (_, Err e) => Ret (ar, Err e)
      | (r', Ok _) =>
          let '(hm', e) := ReleaseHandle (ar_handleManager ar) (h_ID handle) in
          Ret (with_handles hm' (with_router r' ar), e)
      end
  end.

Definition routeToRemoteNode (targetHandle : Handle) : error :=
  "remote routing not implemented (target node: " +:+ pretty (h_Node targetHandle) +:+ ")".

(** [RouteByHandle] and [RouteByName] write to the caller's message: they also
    return it as they leave it. *)
Definition RouteByHandle (envelope : option MessageEnvelope) (ar : advancedRouter) (w : W)
    : go (W * option Message * res unit) :=
  match envelope with
  | None => Ret (w, None, Err "invalid message envelope")
  | Some env =>
      match me_Message env with
      | None => Ret (w, None, Err "invalid message envelope")
      | Some m =>
          match ResolveAddress (ar_handleManager ar) (me_Target env) with
          | Err e => Ret (w, Some m, Err ("failed to resolve target: " +:+ e))
          | Ok None => nil_deref
          | Ok (Some targetHandle) =>
              if h_IsLocal targetHandle then
                let m' := set_Target (h_ActorID targetHandle) m in
                '(w', e) ← Route (Some m') (ar_router ar) w; Ret (w', Some m', e)
              else Ret (w, Some m, Err (routeToRemoteNode targetHandle))
          end
      end
  end.

(** The first half of [RouteByName]: the source, when one is named. *)
Definition resolve_source (source : string) (msg : option Message) (ar : advancedRouter)
    : go (option Message * res unit) :=
  if nonempty source then
    match GetHandleByName (ar_handleManager ar) source, msg with
    | None, _ => Ret (msg, Err ("source service '" +:+ source +:+ "' not found"))
    | Some (Some sourceHandle), Some m => Ret (Some (set_Source (h_ActorID sourceHandle) m), Ok tt)
    | _, _ => nil_deref
    end
  else Ret (msg, Ok tt).

Definition RouteByName (source target : string) (msg : option Message) (ar : advancedRouter) (w : W)
    : go (W * option Message * res unit) :=
  '(msg', e) ← resolve_source source msg ar;
  match e with
  | Err e => Ret (w, msg', Err e)
  | Ok _ =>
      match GetHandleByName (ar_handleManager ar) target, msg' with
      | None, _ => Ret (w, msg', Err ("target service '" +:+ target +:+ "' not found"))
      | Some (Some targetHandle), Some m =>
          let m' := set_Target (h_ActorID targetHandle) m in
          '(w', e) ← Route (Some m') (ar_router ar) w; Ret (w', Some m', e)
      | _, _ => nil_deref
      end
  end.

Definition LookupService (name : string) (ar : advancedRouter) : option (option Handle) :=
  GetHandleByName (ar_handleManager ar) name.

(** ** Runs of the router *)

Inductive ar_op :=
| OpRegister (actor : option Ref)
| OpRegisterService (actor : option Ref) (name : string)
| OpUnregister (id : ActorID)
| OpUnregisterService (name : string)
| OpNextID
| OpRoute (msg : option Message)
| OpRouteByHandle (env : option MessageEnvelope)
| OpRouteByName (source target : string) (msg : Message).

Definition ar_step (s : W * advancedRouter) (op : ar_op) : go (W * advancedRouter) :=
  let '(w, ar) := s in
  match op with
  | OpRegister a => Ret (w, (ar_Register w a ar).1)
  | OpRegisterService a name => Ret (w, (RegisterService w a name ar).1)
  | OpUnregister id => '(ar', _) ← ar_Unregister id ar; Ret (w, ar')
  | OpUnregisterService name => '(ar', _) ← UnregisterService name ar; Ret (w, ar')
  | OpNextID => Ret (w, with_router (NextID (ar_router ar)).1 ar)
  | OpRoute msg => '(w', _) ← Route msg (ar_router ar) w; Ret (w', ar)
  | OpRouteByHandle env => '(w', _, _) ← RouteByHandle env ar w; Ret (w', ar)
  | OpRouteByName src tgt msg => '(w', _, _) ← RouteByName src tgt (Some msg) ar w; Ret (w', ar)
  end.

Fixpoint ar_run (s : W * advancedRouter) (ops : list ar_op) : go (W * advancedRouter) :=
  match ops with
  | [] => Ret s
  | op :: ops' => s' ← ar_step s op; ar_run s' ops'
  end.

(** ** The invariant

    The handle table is well formed, actors are registered under their own id,
    and every live handle belongs to a registered actor. *)

Record ar_inv (s : W * advancedRouter) : Prop := {
  ari_hm : hm_wf (ar_handleManager s.2);
  ari_cnt : 0 <= hm_handleCounter (ar_handleManager s.2);
  ari_id id a : r_actors (ar_router s.2) !! id = Some a -> act_ID s.1 a = id;
  ari_live id h : hm_handles (ar_handleManager s.2) !! id = Some h ->
    is_Some (r_actors (ar_router s.2) !! h_ActorID h);
}.

Lemma NewAdvancedRouter_inv w nodeID : ar_inv (w, NewAdvancedRouter nodeID).
Proof.
  split; cbn -[NewHandleManager].
  - apply NewHandleManager_wf.
  - apply u32_range.
  - intros *. by rewrite lookup_empty.
  - intros *. cbn. by rewrite lookup_empty.
Qed.

(** The lookups of a well-formed table never return [nil] for a found key. *)
Lemma by_name_live hm n p : hm_wf hm -> GetHandleByName hm n = Some p ->
  exists h, p = Some h /\ hm_handles hm !! h_ID h = Some h /\ h_Name h = n /\ n <> "".
Proof.
  intros Hwf. unfold GetHandleByName. destruct (hm_nameToHandle hm !! n) as [id|] eqn:Hn; [|done].
  intros [= <-]. destruct (wf_name hm Hwf _ _ Hn) as (Hne & h & Hh & Hname).
  destruct (wf_handle hm Hwf _ _ Hh) as (<- & _). exists h. done.
Qed.

Lemma by_actor_live hm a p : hm_wf hm -> GetHandleByActor hm a = Some p ->
  exists h, p = Some h /\ hm_handles hm !! h_ID h = Some h /\ h_ActorID h = a.
Proof.
  intros Hwf. unfold GetHandleByActor. destruct (hm_actorToHandle hm !! a) as [id|] eqn:Ha; [|done].
  intros [= <-]. destruct (wf_actor hm Hwf _ _ Ha) as (h & Hh & Hact).
  destruct (wf_handle hm Hwf _ _ Hh) as (<- & _). exists h. done.
Qed.

(** What an allocation and a release do to the live handles. *)
Lemma AllocateHandle_live hm a n id h :
  hm_handles (AllocateHandle hm a n).1 !! id = Some h ->
  hm_handles hm !! id = Some h \/ h_ActorID h = a.
Proof.
  unfold AllocateHandle. destruct (hm_actorToHandle hm !! a); [by left|].
  destruct (_ && _); [by left|]. cbn -[u32].
  intros [[_ <-]|[_ ?]]%lookup_insert_Some; [by right|by left].
Qed.

Lemma AllocateHandle_counter hm a n :
  0 <= hm_handleCounter hm -> hm_handleCounter hm + 1 < 2 ^ 32 ->
  hm_handleCounter hm <= hm_handleCounter (AllocateHandle hm a n).1 <= hm_handleCounter hm + 1.
Proof.
  intros. unfold AllocateHandle. destruct (hm_actorToHandle hm !! a); [cbn; lia|].
  destruct (_ && _); cbn -[u32]; [lia|]. rewrite u32_id; unfold_words; lia.
Qed.

Lemma ReleaseHandle_live hm id id' h :
  hm_handles (ReleaseHandle hm id).1 !! id' = Some h -> hm_handles hm !! id' = Some h /\ id' <> id.
Proof.
  unfold ReleaseHandle. destruct (hm_handles hm !! id) as [h0|] eqn:E; cbn; [|naive_solver].
  intros [? ?]%lookup_delete_Some. split; congruence.
Qed.

Lemma ReleaseHandle_counter hm id : hm_handleCounter (ReleaseHandle hm id).1 = hm_handleCounter hm.
Proof. unfold ReleaseHandle. by destruct (hm_handles hm !! id). Qed.

(** Sends change the world and no id. *)
Lemma ar_inv_world w w' ar : (forall r, act_ID w' r = act_ID w r) -> ar_inv (w, ar) -> ar_inv (w', ar).
Proof. intros Hid [????]. split; simpl in *; try done. intros. rewrite Hid. eauto. Qed.

Lemma Route_ID msg r w w' e : Route msg r w = Ret (w', e) -> forall ref, act_ID w' ref = act_ID w ref.
Proof.
  unfold Route. destruct msg as [m|]; [|naive_solver].
  destruct (r_actors r !! m_Target m) as [a|]; [|naive_solver]. intros Hs ref. exact (act_Send_ID _ _ _ _ _ ref Hs).
Qed.

(** A new actor under its own id, with a handle. *)
Lemma register_inv w a n ar :
  ar_inv (w, ar) -> hm_handleCounter (ar_handleManager ar) + 1 < 2 ^ 32 ->
  ar_inv (w, with_handles (AllocateHandle (ar_handleManager ar) (act_ID w a) n).1
    (with_router (mkRouter (<[act_ID w a := a]> (r_actors (ar_router ar))) (r_idCounter (ar_router ar))) ar)).
Proof.
  intros [Hwf Hc Hid Hlive] Hc1. simpl in *. split; simpl.
  - by apply AllocateHandle_wf.
  - pose proof (AllocateHandle_counter (ar_handleManager ar) (act_ID w a) n Hc Hc1). lia.
  - intros id b [[<- <-]|[_ ?]]%lookup_insert_Some; eauto.
  - intros id h Hh%AllocateHandle_live. apply lookup_insert_is_Some'.
    destruct Hh as [Hh| ->]; [right; eauto|by left].
Qed.

(** An actor leaves the table together with its handle. *)
Lemma unregister_inv w ar id hm :
  ar_inv (w, ar) ->
  hm_wf hm -> hm_handleCounter hm = hm_handleCounter (ar_handleManager ar) ->
  (forall i h, hm_handles hm !! i = Some h ->
     hm_handles (ar_handleManager ar) !! i = Some h /\ h_ActorID h <> id) ->
  ar_inv (w, with_handles hm (with_router (mkRouter (delete id (r_actors (ar_router ar)))
                                             (r_idCounter (ar_router ar))) ar)).
Proof.
  intros [Hwf Hc Hid Hlive] Hwf' Hcnt Hhm. simpl in *. split; simpl; [done|lia| |].
  - intros i a [_ ?]%lookup_delete_Some. eauto.
  - intros i h [Hh Hne]%Hhm. rewrite lookup_delete_ne; [congruence|]. eauto.
Qed.

(** Releasing the handle of an actor leaves no other handle for it. *)
Lemma release_actor hm h :
  hm_wf hm -> hm_handles hm !! h_ID h = Some h ->
  forall i h', hm_handles (ReleaseHandle hm (h_ID h)).1 !! i = Some h' ->
    hm_handles hm !! i = Some h' /\ h_ActorID h' <> h_ActorID h.
Proof.
  intros Hwf Hh i h' [Hh' Hne]%ReleaseHandle_live. split; [done|]. intros Heq.
  destruct (wf_handle hm Hwf _ _ Hh) as (_ & _ & _ & _ & Ha & _).
  destruct (wf_handle hm Hwf _ _ Hh') as (_ & _ & _ & _ & Ha' & _). congruence.
Qed.

Lemma ar_Unregister_inv w id ar :
  ar_inv (w, ar) -> exists ar' e, ar_Unregister id ar = Ret (ar', e) /\ ar_inv (w, ar') /\
    hm_handleCounter (ar_handleManager ar') = hm_handleCounter (ar_handleManager ar).
Proof.
  intros Hinv. pose proof Hinv as [Hwf Hc Hid Hlive]. simpl in *. unfold ar_Unregister.
  destruct (GetHandleByActor (ar_handleManager ar) id) as [p|] eqn:Hp.
  - destruct (by_actor_live _ _ _ Hwf Hp) as (h & -> & Hh & Hact). cbn.
    destruct (Hlive _ _ Hh) as [a Ha]. rewrite Hact in Ha. unfold Unregister. rewrite Ha.
    eexists _, _. split_and!; [done| |by apply ReleaseHandle_counter].
    apply unregister_inv; [done|by apply ReleaseHandle_wf|apply ReleaseHandle_counter|].
    rewrite -Hact. by apply release_actor.
  - cbn. unfold Unregister. destruct (r_actors (ar_router ar) !! id) eqn:Ha; eexists _, _;
      (split_and!; [done| |done]); [|by destruct ar].
    apply unregister_inv; [done..|]. intros i h Hh. split; [done|]. intros <-.
    destruct (wf_handle _ Hwf _ _ Hh) as (_ & _ & _ & _ & Ha' & _).
    unfold GetHandleByActor in Hp. by rewrite Ha' in Hp.
Qed.

Lemma UnregisterService_inv w n ar :
  ar_inv (w, ar) -> exists ar' e, UnregisterService n ar = Ret (ar', e) /\ ar_inv (w, ar') /\
    hm_handleCounter (ar_handleManager ar') = hm_handleCounter (ar_handleManager ar).
Proof.
  intros Hinv. pose proof Hinv as [Hwf Hc Hid Hlive]. simpl in *. unfold UnregisterService.
  destruct (GetHandleByName (ar_handleManager ar) n) as [p|] eqn:Hp; [|by eexists _, _].
  destruct (by_name_live _ _ _ Hwf Hp) as (h & -> & Hh & _).
  destruct (Hlive _ _ Hh) as [a Ha]. unfold Unregister. rewrite Ha.
  destruct (ReleaseHandle (ar_handleManager ar) (h_ID h)) as [hm' e] eqn:Hr.
  replace hm' with (ReleaseHandle (ar_handleManager ar) (h_ID h)).1 by by rewrite Hr.
  eexists _, _. split_and!; [done| |by apply ReleaseHandle_counter].
  apply unregister_inv; [done|by apply ReleaseHandle_wf|apply ReleaseHandle_counter|].
  by apply release_actor.
Qed.

Lemma Register_cases w actor r :
  (exists e, Register w actor r = (r, Err e)) \/
  (exists a, actor = Some a /\ r_actors r !! act_ID w a = None /\
     Register w actor r = (mkRouter (<[act_ID w a := a]> (r_actors r)) (r_idCounter r), Ok tt)).
Proof.
  unfold Register. destruct actor as [a|]; [|by left; eexists].
  destruct (r_actors r !! act_ID w a) eqn:E; [by left; eexists|]. right. by exists a.
Qed.

Lemma RegisterService_inv w actor n ar :
  ar_inv (w, ar) -> hm_handleCounter (ar_handleManager ar) + 1 < 2 ^ 32 ->
  ar_inv (w, (RegisterService w actor n ar).1) /\
  hm_handleCounter (ar_handleManager (RegisterService w actor n ar).1) <=
    hm_handleCounter (ar_handleManager ar) + 1.
Proof.
  intros Hinv Hc. unfold RegisterService.
  destruct (Register_cases w actor (ar_router ar)) as [[e ->]|(a & -> & Hn & ->)].
  { split; [done|simpl; lia]. }
  pose proof (register_inv w a n ar Hinv Hc).
  pose proof (AllocateHandle_counter (ar_handleManager ar) (act_ID w a) n (ari_cnt _ Hinv) Hc).
  destruct (AllocateHandle _ _ _). split; [done|simpl in *; lia].
Qed.

Lemma ar_Register_same w actor ar : (ar_Register w actor ar).1 = (RegisterService w actor "" ar).1.
Proof.
  unfold ar_Register, RegisterService.
  destruct (Register_cases w actor (ar_router ar)) as [[e ->]|(a & -> & Hn & ->)]; [done|].
  by destruct (AllocateHandle _ _ _).
Qed.

(** Either the world is left alone, or one [Send] decides the call. *)
Definition one_send (w : W) (x : go (W * option Message * res unit)) : Prop :=
  (exists m e, x = Ret (w, m, e)) \/
  (exists a m, x = ('(w', e) ← act_Send a m w; Ret (w', Some m, e))).

Lemma Route_one_send m r w :
  one_send w ('(w', e) ← Route (Some m) r w; Ret (w', Some m, e)).
Proof.
  unfold Route. destruct (r_actors r !! m_Target m) as [a|]; [right; by exists a, m|].
  left. cbn. by eexists _, _.
Qed.

Lemma RouteByHandle_one_send env ar w :
  hm_wf (ar_handleManager ar) -> one_send w (RouteByHandle env ar w).
Proof.
  intros Hwf. unfold RouteByHandle. destruct env as [env|]; [|left; by eexists _, _].
  destruct (me_Message env) as [m|]; [|left; by eexists _, _].
  destruct (ResolveAddress _ _) as [[h|]|e] eqn:Hr; [| |left; by eexists _, _].
  - destruct (h_IsLocal h); [apply Route_one_send|left; by eexists _, _].
  - exfalso. unfold ResolveAddress in Hr. destruct (sa_Handle (me_Target env)); [done|].
    destruct (nonempty (sa_Name _)); [|by destruct (nonempty _)].
    destruct (GetHandleByName _ _) as [p|] eqn:Hp; [|done]. simplify_eq.
    by destruct (by_name_live _ _ _ Hwf Hp) as (? & ? & _).
Qed.

Lemma RouteByName_one_send src tgt m ar w :
  hm_wf (ar_handleManager ar) -> one_send w (RouteByName src tgt (Some m) ar w).
Proof.
  intros Hwf. unfold RouteByName, resolve_source.
  assert (forall m, one_send w
    match GetHandleByName (ar_handleManager ar) tgt, Some m with
    | None, _ => Ret (w, Some m, Err ("target service '" +:+ tgt +:+ "' not found"))
    | Some (Some h), Some m0 => '(w', e) ← Route (Some (set_Target (h_ActorID h) m0)) (ar_router ar) w;
                        Ret (w', Some (set_Target (h_ActorID h) m0), e)
    | _, _ => nil_deref end) as Htgt.
  { intros m'. destruct (GetHandleByName _ tgt) as [p|] eqn:Hp; [|left; by eexists _, _].
    destruct (by_name_live _ _ _ Hwf Hp) as (h & -> & _). apply Route_one_send. }
  destruct (nonempty src); [|apply Htgt].
  destruct (GetHandleByName _ src) as [p|] eqn:Hp; [|left; by eexists _, _].
  destruct (by_name_live _ _ _ Hwf Hp) as (h & -> & _). apply Htgt.
Qed.

Lemma one_send_inv w ar x w' m e :
  one_send w x -> x = Ret (w', m, e) -> ar_inv (w, ar) -> ar_inv (w', ar).
Proof.
  intros [(m' & e' & ->)|(a & m' & ->)] Hx; [by simplify_eq|].
  destruct (act_Send a m' w) as [[w1 e1]| |] eqn:Hs; simplify_eq/=.
  apply ar_inv_world. intros r. exact (act_Send_ID _ _ _ _ _ r Hs).
Qed.

(** Every step of the router keeps the invariant and issues at most one handle. *)
Lemma ar_step_inv s op s' :
  ar_inv s -> hm_handleCounter (ar_handleManager s.2) + 1 < 2 ^ 32 -> ar_step s op = Ret s' ->
  ar_inv s' /\ hm_handleCounter (ar_handleManager s'.2) <= hm_handleCounter (ar_handleManager s.2) + 1.
Proof.
  destruct s as [w ar]. simpl. intros Hinv Hc. pose proof (ari_hm _ Hinv) as Hwf. simpl in Hwf.
  destruct op as [a|a n|id|n| |m|env|src tgt m]; simpl; intros Hs.
  - simplify_eq. rewrite ar_Register_same. by apply RegisterService_inv.
  - simplify_eq. by apply RegisterService_inv.
  - destruct (ar_Unregister_inv w id ar Hinv) as (ar' & e & Heq & ? & Hcnt).
    rewrite Heq in Hs. simplify_eq/=. split; [done|lia].
  - destruct (UnregisterService_inv w n ar Hinv) as (ar' & e & Heq & ? & Hcnt).
    rewrite Heq in Hs. simplify_eq/=. split; [done|lia].
  - simplify_eq/=. split; [|lia]. by destruct Hinv.
  - destruct (Route m (ar_router ar) w) as [[w' e]| |] eqn:Hr; simplify_eq/=. split; [|lia].
    by apply (ar_inv_world w); [apply (Route_ID m (ar_router ar) w w' e)|].
  - destruct (RouteByHandle env ar w) as [[[w' m] e]| |] eqn:Hr; simplify_eq/=. split; [|lia].
    by apply (one_send_inv w ar _ w' m e (RouteByHandle_one_send env ar w Hwf) Hr).
  - destruct (RouteByName src tgt (Some m) ar w) as [[[w' m'] e]| |] eqn:Hr; simplify_eq/=.
    split; [|lia].
    by apply (one_send_inv w ar _ w' m' e (RouteByName_one_send src tgt m ar w Hwf) Hr).
Qed.

(** Handles left before the 32-bit counter wraps. *)
Definition handles_left (ops : list ar_op) (s : W * advancedRouter) : Prop :=
  hm_handleCounter (ar_handleManager s.2) + Z.of_nat (length ops) < 2 ^ 32.

Lemma ar_run_inv s ops s' :
  ar_inv s -> handles_left ops s -> ar_run s ops = Ret s' -> ar_inv s'.
Proof.
  unfold handles_left. revert s. induction ops as [|op ops IH]; intros s Hinv Hc; [by intros [= <-]|].
  cbn [length] in Hc. rewrite Nat2Z.inj_succ in Hc. simpl.
  destruct (ar_step s op) as [s1| |] eqn:Hs; [|done..].
  destruct (ar_step_inv s op s1) as [Hinv1 Hc1]; [done|lia|done|]. apply IH; [done|lia].
Qed.

(** ** What a name stands for *)

(** The actor that [name] is bound to. *)
Definition service (name : string) (ar : advancedRouter) : option Ref :=
  h ← mjoin (LookupService name ar); Lookup (h_ActorID h) (ar_router ar).

Lemma service_bound w ar n :
  ar_inv (w, ar) ->
  match service n ar with
  | Some a => exists h, GetHandleByName (ar_handleManager ar) n = Some (Some h) /\
      h_ActorID h = act_ID w a /\ r_actors (ar_router ar) !! h_ActorID h = Some a
  | None => GetHandleByName (ar_handleManager ar) n = None
  end.
Proof.
  intros [Hwf Hc Hid Hlive]. simpl in *. unfold service, LookupService, Lookup.
  destruct (GetHandleByName _ n) as [p|] eqn:Hp; [|done].
  destruct (by_name_live _ _ _ Hwf Hp) as (h & -> & Hh & _). cbn.
  destruct (Hlive _ _ Hh) as [a Ha]. rewrite Ha. exists h. split_and!; [done| |done].
  symmetry. by apply Hid.
Qed.

(** A registered actor has a handle only while it is registered. *)
Lemma unregistered_no_handle w ar id :
  ar_inv (w, ar) -> r_actors (ar_router ar) !! id = None ->
  hm_actorToHandle (ar_handleManager ar) !! id = None.
Proof.
  intros [Hwf _ _ Hlive] Hn. simpl in *.
  destruct (hm_actorToHandle _ !! id) as [i|] eqn:Ha; [|done].
  destruct (wf_actor _ Hwf _ _ Ha) as (h & Hh & <-). destruct (Hlive _ _ Hh). congruence.
Qed.

(** Names keep their actor when the tables grow. *)
Lemma service_frame ar ar' n w :
  ar_inv (w, ar) ->
  hm_nameToHandle (ar_handleManager ar') !! n = hm_nameToHandle (ar_handleManager ar) !! n ->
  (forall id h, hm_nameToHandle (ar_handleManager ar) !! n = Some id ->
     hm_handles (ar_handleManager ar) !! id = Some h ->
     hm_handles (ar_handleManager ar') !! id = Some h /\
     r_actors (ar_router ar') !! h_ActorID h = r_actors (ar_router ar) !! h_ActorID h) ->
  service n ar' = service n ar.
Proof.
  intros [Hwf _ _ _] Hn Hh. simpl in *.
  unfold service, LookupService, GetHandleByName, Lookup. rewrite Hn.
  destruct (hm_nameToHandle (ar_handleManager ar) !! n) as [id|] eqn:E; [|done].
  destruct (wf_name _ Hwf _ _ E) as (_ & h & Hid & _).
  destruct (Hh id h eq_refl Hid) as [H1 H2]. cbn. by rewrite H1 Hid /= H2.
Qed.

(** The name table after a registration that went through. *)
Lemma register_service_new w a n ar :
  ar_inv (w, ar) -> n <> "" ->
  r_actors (ar_router ar) !! act_ID w a = None -> service n ar = None ->
  exists ar' h, RegisterService w (Some a) n ar = (ar', Ok (Some h)) /\
    LookupService n ar' = Some (Some h) /\ h_Name h = n /\ h_ActorID h = act_ID w a /\
    service n ar' = Some a /\ forall n', n' <> n -> service n' ar' = service n' ar.
Proof.
  intros Hinv Hne Hact Hsrv. pose proof (ari_hm _ Hinv) as Hwf. simpl in Hwf.
  pose proof (unregistered_no_handle w ar _ Hinv Hact) as Hah.
  pose proof (service_bound w ar n Hinv) as Hn. rewrite Hsrv in Hn.
  assert (hm_nameToHandle (ar_handleManager ar) !! n = None) as Hnn.
  { unfold GetHandleByName in Hn. by destruct (hm_nameToHandle (ar_handleManager ar) !! n). }
  pose proof (wf_counter_fresh _ Hwf) as Hfresh. pose proof (proj2 (nonempty_true n) Hne) as Hne'.
  unfold RegisterService, Register. rewrite Hact AllocateHandle_new; [done|done|].
  eexists _, _. split_and!; [reflexivity| |done|done| |].
  - unfold LookupService, GetHandleByName. cbn -[u32]. by rewrite Hne' lookup_insert_eq /= lookup_insert_eq.
  - unfold service, LookupService, GetHandleByName, Lookup. cbn -[u32].
    by rewrite Hne' lookup_insert_eq /= lookup_insert_eq /= lookup_insert_eq.
  - intros n' Hn'. apply (service_frame _ _ _ w Hinv); cbn -[u32].
    + by rewrite Hne' lookup_insert_ne; [congruence|].
    + intros id h _ Hh. destruct (ari_live _ Hinv _ _ Hh) as [b Hb]. simpl in Hb.
      rewrite !lookup_insert_ne //; congruence.
Qed.

(** A registration without a name binds none. *)
Lemma register_anonymous w a ar :
  ar_inv (w, ar) -> r_actors (ar_router ar) !! act_ID w a = None ->
  exists ar' h, RegisterService w (Some a) "" ar = (ar', Ok (Some h)) /\ h_Name h = "" /\
    forall n, service n ar' = service n ar.
Proof.
  intros Hinv Hact. pose proof (wf_counter_fresh _ (ari_hm _ Hinv)) as Hfresh. simpl in Hfresh.
  pose proof (unregistered_no_handle w ar _ Hinv Hact) as Hah.
  unfold RegisterService, Register. rewrite Hact AllocateHandle_new; [done|done|].
  eexists _, _. split_and!; [reflexivity|done|].
  intros n. apply (service_frame _ _ _ w Hinv); [done|]. cbn -[u32]. intros id h _ Hh.
  destruct (ari_live _ Hinv _ _ Hh) as [b Hb]. simpl in Hb. rewrite !lookup_insert_ne //; congruence.
Qed.

(** ... and after one that the name table refuses. *)
Lemma register_service_taken w a n ar :
  ar_inv (w, ar) ->
  r_actors (ar_router ar) !! act_ID w a = None -> is_Some (service n ar) ->
  exists ar', RegisterService w (Some a) n ar =
      (ar', Err ("service name '" +:+ n +:+ "' already exists")) /\
    Lookup (act_ID w a) (ar_router ar') = Some a /\ forall n', service n' ar' = service n' ar.
Proof.
  intros Hinv Hact [b Hsrv]. pose proof (ari_hm _ Hinv) as Hwf. simpl in Hwf.
  pose proof (unregistered_no_handle w ar _ Hinv Hact) as Hah.
  pose proof (service_bound w ar n Hinv) as Hn. rewrite Hsrv in Hn. destruct Hn as (h & Hn & _).
  destruct (by_name_live _ _ _ Hwf Hn) as (_ & _ & _ & _ & Hne).
  assert (is_Some (hm_nameToHandle (ar_handleManager ar) !! n)) as Hs.
  { unfold GetHandleByName in Hn. by destruct (hm_nameToHandle (ar_handleManager ar) !! n). }
  unfold RegisterService, Register. rewrite Hact. unfold AllocateHandle.
  rewrite Hah (proj2 (nonempty_true n) Hne) bool_decide_true //. cbn.
  eexists. split_and!; [done|by rewrite /Lookup lookup_insert_eq|].
  intros n'. apply (service_frame _ _ _ w Hinv); [done|]. cbn. intros id h' _ Hh. split; [done|].
  destruct (ari_live _ Hinv _ _ Hh) as [c Hc]. simpl in Hc. rewrite lookup_insert_ne //. congruence.
Qed.

(** ** Properties *)

Section props.
Context (w0 : W) (nodeID : Z) (ops : list ar_op) (w : W) (ar : advancedRouter).
Context (Hrun : ar_run (w0, NewAdvancedRouter nodeID) ops = Ret (w, ar)).
Context (Hleft : handles_left ops (w0, NewAdvancedRouter nodeID)).

Lemma reached_inv : ar_inv (w, ar).
Proof. by apply (ar_run_inv (w0, NewAdvancedRouter nodeID) ops); [apply NewAdvancedRouter_inv|..]. Qed.

(** C24. Naming: whatever was registered, unregistered and routed before (the
    32-bit handle counter not having wrapped), registering a new actor under a
    free name succeeds, binds that name to it and leaves every other name alone;
    under a taken name it is refused and no binding changes, but the actor stays
    in the routing table under its id. *)
Theorem register_service_binds a name :
  name <> "" -> Lookup (act_ID w a) (ar_router ar) = None ->
  match service name ar with
  | None => exists ar' h, RegisterService w (Some a) name ar = (ar', Ok h) /\
      service name ar' = Some a /\ (forall n, n <> name -> service n ar' = service n ar)
  | Some _ => exists ar' e, RegisterService w (Some a) name ar = (ar', Err e) /\
      Lookup (act_ID w a) (ar_router ar') = Some a /\ (forall n, service n ar' = service n ar)
  end.
Proof.
  intros Hne Hl. pose proof reached_inv as Hinv. destruct (service name ar) eqn:Hs.
  - destruct (register_service_taken w a name ar) as (ar' & ? & ? & ?); eauto.
  - destruct (register_service_new w a name ar) as (ar' & h & ? & _ & _ & _ & ? & ?); eauto.
Qed.

(** Unregistering a bound name unbinds it, removes its actor from the
    routing table and leaves every other name alone; a name that is not bound is
    an error and changes nothing. *)
Theorem unregister_service_unbinds name :
  match service name ar with
  | None => UnregisterService name ar = Ret (ar, Err ("service '" +:+ name +:+ "' not found"))
  | Some a => exists ar', UnregisterService name ar = Ret (ar', Ok tt) /\
      service name ar' = None /\ Lookup (act_ID w a) (ar_router ar') = None /\
      (forall n, n <> name -> service n ar' = service n ar)
  end.
Proof.
  pose proof reached_inv as Hinv. pose proof (ari_hm _ Hinv) as Hwf. simpl in Hwf.
  pose proof (service_bound w ar name Hinv) as Hn. unfold UnregisterService.
  destruct (service name ar) as [a|]; [|by rewrite Hn].
  destruct Hn as (h & Hn & Hid & Ha). rewrite Hn. unfold Unregister. rewrite Ha.
  destruct (by_name_live _ _ _ Hwf Hn) as (? & [= <-] & Hh & Hname & Hne).
  unfold ReleaseHandle. rewrite Hh Hname (proj2 (nonempty_true name) Hne).
  eexists. split_and!; [reflexivity| |by rewrite /Lookup -Hid lookup_delete_eq|].
  - unfold service, LookupService, GetHandleByName. cbn. by rewrite lookup_delete_eq.
  - intros n Hnn. apply (service_frame _ _ _ w Hinv); cbn; [rewrite lookup_delete_ne; congruence|].
    intros id h' Hn' Hh'. destruct (wf_handle _ Hwf _ _ Hh) as (_ & _ & _ & _ & Hact & _).
    destruct (wf_handle _ Hwf _ _ Hh') as (_ & _ & _ & _ & Hact' & _).
    destruct (wf_by_name _ _ _ _ Hwf Hh' Hn') as [Hname' _].
    rewrite !lookup_delete_ne //; [|congruence]. intros Heq. rewrite Heq in Hact. congruence.
Qed.

(** Delivery by name: [RouteByName] gives the message, with its target set
    to that actor's id and its source to the source's, to exactly the actor the
    target name is bound to, and answers what that actor's [Send] answers; an
    unbound target is an error and nothing is sent. *)
Theorem route_by_name_delivers source target m m1 :
  (source = "" /\ m1 = m \/ exists sa, service source ar = Some sa /\ m1 = set_Source (act_ID w sa) m) ->
  RouteByName source target (Some m) ar w =
    match service target ar with
    | None => Ret (w, Some m1, Err ("target service '" +:+ target +:+ "' not found"))
    | Some a => '(w', e) ← act_Send a (set_Target (act_ID w a) m1) w;
                Ret (w', Some (set_Target (act_ID w a) m1), e)
    end.
Proof.
  intros Hsrc. pose proof reached_inv as Hinv.
  assert (resolve_source source (Some m) ar = Ret (Some m1, Ok tt)) as Hres.
  { unfold resolve_source. destruct Hsrc as [[-> ->]|(sa & Hs & ->)]; [done|].
    pose proof (service_bound w ar source Hinv) as Hn. rewrite Hs in Hn.
    destruct Hn as (h & Hn & Hid & _).
    destruct (by_name_live _ _ _ (ari_hm _ Hinv) Hn) as (_ & _ & _ & _ & Hne).
    by rewrite (proj2 (nonempty_true source) Hne) Hn Hid. }
  unfold RouteByName. rewrite Hres. cbn. pose proof (service_bound w ar target Hinv) as Hn.
  destruct (service target ar) as [a|]; [|by rewrite Hn].
  destruct Hn as (h & -> & Hid & Ha). unfold Route. cbn. by rewrite Ha Hid.
Qed.

End props.

(** The router never dereferences a [nil] handle: when no actor's [Send]
    panics, no sequence of registrations, removals and routings of messages
    panics, from any node number, while the handle counter does not wrap. *)
Theorem router_never_panics w0 nodeID ops :
  (forall a m w, returns (act_Send a m w)) ->
  handles_left ops (w0, NewAdvancedRouter nodeID) ->
  returns (ar_run (w0, NewAdvancedRouter nodeID) ops).
Proof.
  intros Hsend. generalize (NewAdvancedRouter_inv w0 nodeID). unfold handles_left.
  generalize (w0, NewAdvancedRouter nodeID). induction ops as [|op ops IH]; intros s Hinv Hc; [by eexists|].
  cbn [length] in Hc. rewrite Nat2Z.inj_succ in Hc. simpl.
  assert (returns (ar_step s op)) as [s' Hs].
  { clear IH. destruct s as [w ar]. pose proof (ari_hm _ Hinv) as Hwf. simpl in Hwf.
    assert (forall x, one_send w x -> exists w' m e, x = Ret (w', m, e)) as Hone.
    { intros x [(m & e & ->)|(a & m & ->)]; [by eexists _, _, _|].
      destruct (Hsend a m w) as [[w' e] ->]. by eexists _, _, _. }
    destruct op as [a|a n|id|n| |m|env|src tgt m]; simpl; try by eexists.
    - destruct (ar_Unregister_inv w id ar Hinv) as (? & ? & -> & _). by eexists.
    - destruct (UnregisterService_inv w n ar Hinv) as (? & ? & -> & _). by eexists.
    - unfold Route. destruct m as [m|]; [|by eexists].
      destruct (r_actors (ar_router ar) !! m_Target m) as [a|]; [|by eexists].
      destruct (Hsend a m w) as [[w' e] ->]. by eexists.
    - destruct (Hone _ (RouteByHandle_one_send env ar w Hwf)) as (? & ? & ? & ->). by eexists.
    - destruct (Hone _ (RouteByName_one_send src tgt m ar w Hwf)) as (? & ? & ? & ->). by eexists. }
  rewrite Hs /=. destruct (ar_step_inv s op s' Hinv) as [Hinv' Hc']; [lia|done|].
  apply IH; [done|lia].
Qed.

End router.
Arguments router : clear implicits.
Arguments advancedRouter : clear implicits.

(** ** The actors of Actor.v behind the interface

    References are addresses of actor objects; [pick] is the choice of the
    [select] in [Send]. *)
Definition actor_world {H : Type} (pick : bool) : ActorIface (gmap nat (actor H)) nat.
Proof.
  refine {| act_ID w ref := from_option a_id 0 (w !! ref);
            act_Send ref msg w :=
              match w !! ref with
              | None => nil_deref
              | Some a => '(a', e) ← actor_Send pick (Some msg) a; Ret (<[ref := a']> w, e)
              end |}.
  intros ref msg w w' r ref'. destruct (w !! ref) as [a|] eqn:Ha; [|done].
  destruct (actor_Send pick (Some msg) a) as [[a' e]| |] eqn:Hs; [|done..]. intros [= <- <-].
  destruct (decide (ref' = ref)) as [->|]; [|rewrite lookup_insert_ne; congruence].
  rewrite lookup_insert_eq Ha /=. by apply (actor_Send_id pick (Some msg) a a' e).
Defined.

(** ** Runs the properties apply to *)

(** Two actors, a registration, a delivery and a refused registration. *)
Definition demo_actor (id : ActorID) : actor unit :=
  mkActor id "demo" tt (make_chan 2) false 1 ActorStateIdle 0 0 0 ∅ ∅ 0 DefaultActorOptions.
Definition demo_world : gmap nat (actor unit) := {[1%nat := demo_actor 10; 2%nat := demo_actor 20]}.
#[local] Instance demo_iface : ActorIface (gmap nat (actor unit)) nat := actor_world true.
Definition demo_mail : Message := mkMessage 1 MessageTypeText 0 0 0 [1; 2] 0.
Definition demo_log : list (ar_op (Ref := nat)) :=
  [OpRegisterService (Some 1%nat) "db"; OpRouteByName "" "db" demo_mail].
Definition demo_ar : gmap nat (actor unit) * advancedRouter nat :=
  match ar_run (demo_world, NewAdvancedRouter 1) demo_log with
  | Ret s => s | _ => (demo_world, NewAdvancedRouter 1) end.

Lemma demo_ran : ar_run (demo_world, NewAdvancedRouter 1) demo_log = Ret (demo_ar.1, demo_ar.2).
Proof. vm_compute. reflexivity. Qed.
Lemma demo_left : handles_left demo_log (demo_world, NewAdvancedRouter 1).
Proof. vm_compute. reflexivity. Qed.

Lemma register_service_binds_witness :
  service "db" demo_ar.2 = Some 1%nat /\
  exists ar' e, RegisterService demo_ar.1 (Some 2%nat) "db" demo_ar.2 = (ar', Err e) /\
    Lookup 20 (ar_router ar') = Some 2%nat.
Proof.
  split; [vm_compute; reflexivity|].
  destruct (register_service_binds demo_world 1 demo_log demo_ar.1 demo_ar.2 demo_ran demo_left
              2%nat "db") as (ar' & e & H1 & H2 & _); [done|vm_compute; reflexivity|].
  exists ar', e. split; [exact H1|exact H2].
Defined.

Lemma unregister_service_unbinds_witness :
  exists ar', UnregisterService "db" demo_ar.2 = Ret (ar', Ok tt) /\ service "db" ar' = None.
Proof.
  destruct (unregister_service_unbinds demo_world 1 demo_log demo_ar.1 demo_ar.2 demo_ran demo_left "db")
    as (ar' & H1 & H2 & _). exists ar'. split; [exact H1|exact H2].
Defined.

Lemma route_by_name_delivers_witness :
  RouteByName "" "db" (Some demo_mail) demo_ar.2 demo_ar.1 =
    ('(w', e) ← act_Send 1%nat (set_Target 10 demo_mail) demo_ar.1;
     Ret (w', Some (set_Target 10 demo_mail), e)).
Proof.
  exact (route_by_name_delivers demo_world 1 demo_log demo_ar.1 demo_ar.2 demo_ran demo_left
           "" "db" demo_mail demo_mail (or_introl (conj eq_refl eq_refl))).
Defined.

(** Actors that record what they are sent. *)
Definition log_world : ActorIface (list (Z * Message)) Z.
Proof.
  refine {| act_ID _ ref := ref; act_Send ref msg w := Ret (w ++ [(ref, msg)], Ok tt) |}.
  done.
Defined.

Lemma router_never_panics_witness :
  returns (ar_run (ActorIface0 := log_world) ([], NewAdvancedRouter 1)
    [OpRegisterService (Some 7) "db"; OpRegisterService (Some 8) "db"; OpUnregister 8;
     OpRouteByName "" "db" demo_mail; OpUnregisterService "db"; OpUnregister 7]).
Proof.
  apply (router_never_panics (ActorIface0 := log_world) [] 1).
  - intros a m w. eexists. reflexivity.
  - vm_compute. reflexivity.
Defined.
