(* ===== verification/Session.v ===== *)
(** Request-response sessions (the second half of src/core/advanced_router.go):
    [MessageSession] and [SessionManager].

    A session object is shared by the manager's map and by the goroutine that
    waits for its response, so sessions live in a heap [sm_heap] and the map
    refers to them by address. Every operation runs under the manager's lock,
    the wait aside, which only receives from the session's channel. *)

From S2P Require Import Prelude CoreTypes.

Record MessageSession := mkMessageSession {
  ms_ID : Z;
  ms_Source : ActorID;
  ms_Target : ActorID;
  ms_CreatedAt : time;
  ms_Timeout : duration;
  ms_Response : chan (option Message);
}.

Definition with_Response (ch : chan (option Message)) (s : MessageSession) : MessageSession :=
  mkMessageSession (ms_ID s) (ms_Source s) (ms_Target s) (ms_CreatedAt s) (ms_Timeout s) ch.

Record SessionManager := mkSessionManager {
  sm_sessions : gmap Z nat;
  sm_counter : Z;
  sm_heap : gmap nat MessageSession;
}.

(** The cleanup goroutine it starts is the operation [cleanup_tick]. *)
Definition NewSessionManager : SessionManager := mkSessionManager ∅ 0 ∅.

Definition CreateSession (source target : ActorID) (timeout : duration) (now : time)
    (sm : SessionManager) : SessionManager * nat :=
  let sessionID := u32 (sm_counter sm + 1) in
  let loc := fresh (dom (sm_heap sm)) in
  let session := mkMessageSession sessionID source target now timeout (make_chan 1) in
  (mkSessionManager (<[sessionID := loc]> (sm_sessions sm)) sessionID
     (<[loc := session]> (sm_heap sm)), loc).

Definition GetSession (sessionID : Z) (sm : SessionManager) : option nat := sm_sessions sm !! sessionID.

(** The object a live session number refers to. *)
Definition live_session (sessionID : Z) (sm : SessionManager) : option (nat * MessageSession) :=
  loc ← sm_sessions sm !! sessionID; s ← sm_heap sm !! loc; Some (loc, s).

(** [delete(sm.sessions, sessionID)] after the session's channel became [ch]. *)
Definition retire (sessionID : Z) (loc : nat) (s : MessageSession) (ch : chan (option Message))
    (sm : SessionManager) : SessionManager :=
  mkSessionManager (delete sessionID (sm_sessions sm)) (sm_counter sm)
    (<[loc := with_Response ch s]> (sm_heap sm)).

Definition CompleteSession (sessionID : Z) (response : option Message) (sm : SessionManager)
    : go (SessionManager * res unit) :=
  match live_session sessionID sm with
  | None => Ret (sm, Err ("session " +:+ pretty sessionID +:+ " not found"))
  | Some (loc, s) =>
      '(sent, ch) ← try_send (ms_Response s) response;
      Ret (retire sessionID loc s ch sm,
           if sent : bool then Ok tt
           else Err ("session " +:+ pretty sessionID +:+ " response channel is full"))
  end.

Definition CleanupSession (sessionID : Z) (sm : SessionManager) : go SessionManager :=
  match live_session sessionID sm with
  | None => Ret sm
  | Some (loc, s) => ch ← close_chan (ms_Response s); Ret (retire sessionID loc s ch sm)
  end.

(** One tick of [cleanupExpiredSessions] at time [now], visiting the map in the
    order [ids]. *)
Definition expired (now : time) (s : MessageSession) : bool :=
  ms_Timeout s <? time_sub now (ms_CreatedAt s).

Definition tick1 (now : time) (sessionID : Z) (sm : SessionManager) : go SessionManager :=
  match live_session sessionID sm with
  | None => Ret sm
  | Some (loc, s) =>
      if expired now s
      then ch ← close_chan (ms_Response s); Ret (retire sessionID loc s ch sm)
      else Ret sm
  end.

Fixpoint cleanup_tick (now : time) (ids : list Z) (sm : SessionManager) : go SessionManager :=
  match ids with
  | [] => Ret sm
  | sessionID :: ids' => sm' ← tick1 now sessionID sm; cleanup_tick now ids' sm'
  end.

(** [WaitForResponse]: the case of its [select] that the runtime takes, with
    [ctx.Err()]; [None] when that case is not ready. The timer of a session may
    fire at any time after the wait began. *)
Inductive wait_case := WaitResponse | WaitCtx (err : error) | WaitTimeout.

Definition WaitForResponse (c : wait_case) (loc : nat) (sm : SessionManager)
    : option (SessionManager * res Message) :=
  s ← sm_heap sm !! loc;
  match c with
  | WaitResponse =>
      match try_recv (ms_Response s) with
      | Got (Some m) ch => Some (mkSessionManager (sm_sessions sm) (sm_counter sm)
                                   (<[loc := with_Response ch s]> (sm_heap sm)), Ok m)
      | Got None ch => Some (mkSessionManager (sm_sessions sm) (sm_counter sm)
                               (<[loc := with_Response ch s]> (sm_heap sm)),
                             Err ("session " +:+ pretty (ms_ID s) +:+ " was closed"))
      | GotClosed => Some (sm, Err ("session " +:+ pretty (ms_ID s) +:+ " was closed"))
      | NotReady => None
      end
  | WaitCtx e => Some (sm, Err e)
  | WaitTimeout => Some (sm, Err ("session " +:+ pretty (ms_ID s) +:+ " timeout"))
  end.

(** ** Runs *)

Inductive sm_op :=
| OpCreate (source target : ActorID) (timeout : duration) (now : time)
| OpComplete (sessionID : Z) (response : option Message)
| OpCleanup (sessionID : Z)
| OpTick (now : time) (ids : list Z)
| OpWait (c : wait_case) (loc : nat).

(** A wait that is not ready has no step. *)
Definition sm_step (sm : SessionManager) (op : sm_op) : go SessionManager :=
  match op with
  | OpCreate src tgt timeout now => Ret (CreateSession src tgt timeout now sm).1
  | OpComplete id r => '(sm', _) ← CompleteSession id r sm; Ret sm'
  | OpCleanup id => CleanupSession id sm
  | OpTick now ids => cleanup_tick now ids sm
  | OpWait c loc => Ret (match WaitForResponse c loc sm with Some (sm', _) => sm' | None => sm end)
  end.

(** A tick visits the sessions of the moment, each once. *)
Definition op_ok (sm : SessionManager) (op : sm_op) : Prop :=
  match op with OpTick _ ids => range_order (sm_sessions sm) ids | _ => True end.

Inductive sm_reach : SessionManager -> Prop :=
| reach_new : sm_reach NewSessionManager
| reach_step sm op sm' : sm_reach sm -> op_ok sm op -> sm_step sm op = Ret sm' -> sm_reach sm'.

(** ** The invariant

    A session in the map is there under one number only, its own, and its
    channel is open and empty. *)

Definition idle_chan : chan (option Message) := make_chan 1.

Record sm_inv (sm : SessionManager) : Prop := {
  smi_live id loc : sm_sessions sm !! id = Some loc ->
    exists s, sm_heap sm !! loc = Some s /\ ms_ID s = id /\ ms_Response s = idle_chan;
  smi_inj id id' loc : sm_sessions sm !! id = Some loc -> sm_sessions sm !! id' = Some loc -> id = id';
}.

Lemma NewSessionManager_inv : sm_inv NewSessionManager.
Proof. split; intros *; by rewrite lookup_empty. Qed.

Lemma live_session_Some sm id loc s :
  sm_inv sm -> live_session id sm = Some (loc, s) ->
  sm_sessions sm !! id = Some loc /\ sm_heap sm !! loc = Some s /\ ms_ID s = id /\
  ms_Response s = idle_chan.
Proof.
  intros Hinv. unfold live_session. destruct (sm_sessions sm !! id) as [l|] eqn:Hid; [|done]. cbn.
  destruct (smi_live sm Hinv _ _ Hid) as (s' & Hs & HID & Hch). rewrite Hs. cbn.
  intros [= <- <-]. done.
Qed.

Lemma live_session_None sm id :
  sm_inv sm -> live_session id sm = None -> sm_sessions sm !! id = None.
Proof.
  intros Hinv. unfold live_session. destruct (sm_sessions sm !! id) as [l|] eqn:Hid; [|done]. cbn.
  destruct (smi_live sm Hinv _ _ Hid) as (s' & Hs & _). by rewrite Hs.
Qed.

Lemma CreateSession_inv src tgt timeout now sm :
  sm_inv sm -> sm_inv (CreateSession src tgt timeout now sm).1.
Proof.
  intros Hinv. pose proof (is_fresh (dom (sm_heap sm))) as Hf%not_elem_of_dom.
  assert (forall id l, sm_sessions sm !! id = Some l -> l <> fresh (dom (sm_heap sm))) as Hne.
  { intros id l Hl ->. destruct (smi_live sm Hinv _ _ Hl) as (s & ? & _). congruence. }
  split; cbn -[u32].
  - intros id loc [[<- <-]|[_ Hid]]%lookup_insert_Some.
    + eexists. by rewrite lookup_insert_eq.
    + destruct (smi_live sm Hinv _ _ Hid) as (s & Hs & ?). exists s.
      rewrite lookup_insert_ne; [specialize (Hne _ _ Hid); congruence|done].
  - intros id id' loc [[<- <-]|[_ Hid]]%lookup_insert_Some [[<- Heq]|[_ Hid']]%lookup_insert_Some;
      [done| | |by apply (smi_inj sm Hinv _ _ loc)].
    + by destruct (Hne _ _ Hid').
    + by destruct (Hne _ _ Hid).
Qed.

Lemma retire_inv sm id loc s ch :
  sm_inv sm -> sm_sessions sm !! id = Some loc -> sm_inv (retire id loc s ch sm).
Proof.
  intros Hinv Hid. split; cbn.
  - intros id' loc' [Hne Hid']%lookup_delete_Some.
    destruct (smi_live sm Hinv _ _ Hid') as (s' & ? & ?). exists s'. split; [|done].
    rewrite lookup_insert_ne; [|done]. intros <-. by apply Hne, (smi_inj sm Hinv _ _ loc).
  - intros id1 id2 l [_ ?]%lookup_delete_Some [_ ?]%lookup_delete_Some.
    by apply (smi_inj sm Hinv _ _ l).
Qed.

(** ** The life of a session *)

Inductive session_status :=
| Pending
| Answered (r : option Message)
| Closed
| Over.

#[export] Instance session_status_eq_dec : EqDecision session_status.
Proof. solve_decision. Defined.

Definition status (loc : nat) (sm : SessionManager) : option session_status :=
  s ← sm_heap sm !! loc;
  Some (if ch_closed (ms_Response s) then Closed
        else match ch_buf (ms_Response s) with
             | r :: _ => Answered r
             | [] => if decide (sm_sessions sm !! ms_ID s = Some loc) then Pending else Over
             end).

(** What one operation may do to the session at [loc]. A pending session whose
    number the 32-bit counter comes back to is lost: its entry is overwritten. *)
Inductive moves (sm : SessionManager) (loc : nat)
    : sm_op -> option session_status -> option session_status -> Prop :=
| moves_same op st : moves sm loc op st st
| moves_created src tgt timeout now :
    moves sm loc (OpCreate src tgt timeout now) None (Some Pending)
| moves_answered id r :
    sm_sessions sm !! id = Some loc -> moves sm loc (OpComplete id r) (Some Pending) (Some (Answered r))
| moves_cleaned id :
    sm_sessions sm !! id = Some loc -> moves sm loc (OpCleanup id) (Some Pending) (Some Closed)
| moves_expired now ids s :
    sm_heap sm !! loc = Some s -> expired now s = true ->
    moves sm loc (OpTick now ids) (Some Pending) (Some Closed)
| moves_taken r : moves sm loc (OpWait WaitResponse loc) (Some (Answered r)) (Some Over)
| moves_lost src tgt timeout now :
    sm_sessions sm !! u32 (sm_counter sm + 1) = Some loc ->
    moves sm loc (OpCreate src tgt timeout now) (Some Pending) (Some Over).

Lemma status_live sm id loc :
  sm_inv sm -> sm_sessions sm !! id = Some loc -> status loc sm = Some Pending.
Proof.
  intros Hinv Hid. destruct (smi_live sm Hinv _ _ Hid) as (s & Hs & <- & Hch).
  unfold status. rewrite Hs. cbn. rewrite Hch. cbn. by rewrite decide_True.
Qed.

(** Only the retired session's status changes. *)
Lemma status_retire sm id loc s ch loc' :
  sm_inv sm -> sm_sessions sm !! id = Some loc -> loc' <> loc ->
  status loc' (retire id loc s ch sm) = status loc' sm.
Proof.
  intros Hinv Hid Hne. unfold status. cbn. rewrite lookup_insert_ne; [congruence|].
  destruct (sm_heap sm !! loc') as [s'|]; [|done]. cbn.
  destruct (ch_closed _); [done|]. destruct (ch_buf _); [|done].
  destruct (decide (ms_ID s' = id)) as [->|Hne'].
  - rewrite lookup_delete_eq. by rewrite (decide_False (P := sm_sessions sm !! id = Some loc')); [congruence|].
  - rewrite lookup_delete_ne; [congruence|done].
Qed.

Lemma status_retired sm id loc s ch :
  ms_ID s = id ->
  status loc (retire id loc s ch sm) =
    Some (if ch_closed ch then Closed else match ch_buf ch with r :: _ => Answered r | [] => Over end).
Proof.
  intros <-. unfold status. cbn. rewrite lookup_insert_eq. cbn. destruct (ch_closed ch); [done|].
  destruct (ch_buf ch); [|done]. by rewrite lookup_delete_eq.
Qed.

Lemma CreateSession_moves src tgt timeout now sm loc :
  sm_inv sm ->
  moves sm loc (OpCreate src tgt timeout now) (status loc sm)
    (status loc (CreateSession src tgt timeout now sm).1).
Proof.
  intros Hinv. pose proof (is_fresh (dom (sm_heap sm))) as Hf%not_elem_of_dom.
  destruct (decide (loc = fresh (dom (sm_heap sm)))) as [->|Hne].
  { unfold status at 1. rewrite Hf. unfold status. cbn -[u32].
    rewrite lookup_insert_eq /= lookup_insert_eq. rewrite decide_True //. constructor. }
  destruct (decide (sm_sessions sm !! u32 (sm_counter sm + 1) = Some loc)) as [Hl|Hl].
  { rewrite (status_live sm _ loc Hinv Hl). destruct (smi_live sm Hinv _ _ Hl) as (s & Hs & HID & Hch).
    unfold status. cbn -[u32]. rewrite lookup_insert_ne; [congruence|]. rewrite Hs. cbn -[u32]. rewrite Hch HID lookup_insert_eq.
    cbn. rewrite decide_False; [congruence|]. by constructor. }
  enough (status loc (CreateSession src tgt timeout now sm).1 = status loc sm) as -> by constructor.
  unfold status. cbn -[u32]. rewrite lookup_insert_ne; [congruence|].
  destruct (sm_heap sm !! loc) as [s|]; [|done]. cbn -[u32].
  destruct (decide (ms_ID s = u32 (sm_counter sm + 1))) as [->|Hid].
  - rewrite lookup_insert_eq. rewrite (decide_False (P := Some _ = Some loc)); [congruence|].
    by rewrite (decide_False (P := sm_sessions sm !! _ = Some loc)).
  - rewrite lookup_insert_ne; [congruence|done].
Qed.

(** Completing a live session always succeeds. *)
Lemma CompleteSession_live sm id loc s r :
  sm_inv sm -> live_session id sm = Some (loc, s) ->
  CompleteSession id r sm = Ret (retire id loc s (mkChan [r] 1 false) sm, Ok tt).
Proof.
  intros Hinv Hl. unfold CompleteSession. rewrite Hl.
  destruct (live_session_Some sm id loc s Hinv Hl) as (_ & _ & _ & ->). done.
Qed.

Lemma close_live sm id loc s :
  sm_inv sm -> live_session id sm = Some (loc, s) ->
  close_chan (ms_Response s) = Ret (mkChan [] 1 true).
Proof.
  intros Hinv Hl. by destruct (live_session_Some sm id loc s Hinv Hl) as (_ & _ & _ & ->).
Qed.

(** A tick, session by session. *)
Definition tick_session (now : time) (loc : nat) (sm : SessionManager) : option session_status :=
  match status loc sm, sm_heap sm !! loc with
  | Some Pending, Some s => Some (if expired now s then Closed else Pending)
  | st, _ => st
  end.

Definition same_life (loc : nat) (sm sm' : SessionManager) : Prop :=
  status loc sm' = status loc sm /\ sm_heap sm' !! loc = sm_heap sm !! loc.

Lemma tick1_spec now id sm :
  sm_inv sm ->
  exists sm', tick1 now id sm = Ret sm' /\ sm_inv sm' /\
    (forall i, i <> id -> sm_sessions sm' !! i = sm_sessions sm !! i) /\
    (forall loc, sm_sessions sm !! id = Some loc -> status loc sm' = tick_session now loc sm) /\
    (forall loc, sm_sessions sm !! id <> Some loc -> same_life loc sm sm').
Proof.
  intros Hinv. unfold tick1. destruct (live_session id sm) as [[loc s]|] eqn:Hl.
  - destruct (live_session_Some sm id loc s Hinv Hl) as (Hid & Hs & HID & Hch).
    assert (tick_session now loc sm = Some (if expired now s then Closed else Pending)) as Htick.
    { unfold tick_session. by rewrite (status_live sm id loc Hinv Hid) Hs. }
    destruct (expired now s) eqn:Hexp.
    + rewrite (close_live sm id loc s Hinv Hl) /=. eexists. split_and!; [done|by apply retire_inv|..].
      * intros i Hi. cbn. rewrite lookup_delete_ne; [congruence|done].
      * intros ? [= <-]%(eq_trans (eq_sym Hid)). by rewrite Htick status_retired.
      * intros loc' Hne. assert (loc' <> loc) by congruence.
        split; [by apply status_retire|]. cbn. rewrite lookup_insert_ne; [congruence|done].
    + exists sm. split_and!; [done..| |done]. intros ? [= <-]%(eq_trans (eq_sym Hid)).
      by rewrite Htick (status_live sm id loc Hinv Hid).
  - exists sm. split_and!; [done..| |done]. intros loc Hid.
    by rewrite (live_session_None sm id Hinv Hl) in Hid.
Qed.

Lemma same_life_tick now loc sm sm' :
  same_life loc sm sm' -> tick_session now loc sm' = tick_session now loc sm.
Proof. unfold tick_session. by intros [-> ->]. Qed.

Lemma cleanup_tick_spec now ids sm :
  sm_inv sm -> NoDup ids ->
  exists sm', cleanup_tick now ids sm = Ret sm' /\ sm_inv sm' /\
    (forall id loc, id ∈ ids -> sm_sessions sm !! id = Some loc ->
       status loc sm' = tick_session now loc sm) /\
    (forall loc, (forall id, id ∈ ids -> sm_sessions sm !! id <> Some loc) -> same_life loc sm sm').
Proof.
  intros Hinv Hnd. revert sm Hinv. induction Hnd as [|id ids Hin Hnd IH]; intros sm Hinv.
  { exists sm. split_and!; [done..| |done]. intros ??[]%not_elem_of_nil. }
  simpl. destruct (tick1_spec now id sm Hinv) as (sm1 & -> & Hinv1 & Hother & Hthis & Hlife). simpl.
  destruct (IH sm1 Hinv1) as (sm' & -> & Hinv' & Hl' & Ho'). exists sm'. split_and!; [done..| |].
  - intros id' loc [->|Hin']%elem_of_cons Hid'.
    + rewrite -(Hthis loc Hid'). apply Ho'. intros i Hi Hi1.
      rewrite Hother in Hi1; [congruence|]. apply Hin. by rewrite (smi_inj sm Hinv id i loc).
    + assert (id' <> id) as Hne by congruence. rewrite (Hl' id' loc Hin'); [by rewrite Hother|].
      apply same_life_tick, Hlife. intros Hid. by apply Hne, (smi_inj sm Hinv _ _ loc).
  - intros loc Hno. unfold same_life. destruct (Hlife loc) as [<- <-]; [apply Hno; by left|]. apply Ho'.
    intros i Hi. rewrite Hother; [congruence|]. apply Hno. by right.
Qed.

Lemma WaitForResponse_inv c loc sm sm' r :
  sm_inv sm -> WaitForResponse c loc sm = Some (sm', r) -> sm_inv sm'.
Proof.
  intros Hinv. unfold WaitForResponse. destruct (sm_heap sm !! loc) as [s|] eqn:Hs; [|done]. cbn.
  destruct c; [|by intros [= <- _]..]. unfold try_recv.
  destruct (ch_buf (ms_Response s)) as [|x rest] eqn:Hb; [by destruct (ch_closed _); intros [= <- _]|].
  assert (forall id, sm_sessions sm !! id <> Some loc) as Hne.
  { intros id Hid. destruct (smi_live sm Hinv _ _ Hid) as (s' & Hs' & _ & Hch). simplify_eq.
    by rewrite Hch in Hb. }
  assert (sm_inv (mkSessionManager (sm_sessions sm) (sm_counter sm)
    (<[loc := with_Response (mkChan rest (ch_cap (ms_Response s)) (ch_closed (ms_Response s))) s]>
       (sm_heap sm)))) as H'.
  { split; cbn; [|by apply (smi_inj sm Hinv)]. intros id l Hid.
    rewrite lookup_insert_ne; [by intros ->; apply (Hne id)|]. by apply (smi_live sm Hinv). }
  destruct x; by intros [= <- _].
Qed.

(** A channel that holds an answer holds one. *)
Definition answered_once (sm : SessionManager) : Prop :=
  forall loc s, sm_heap sm !! loc = Some s -> (length (ch_buf (ms_Response s)) <= 1)%nat /\
    (ch_closed (ms_Response s) = true -> ch_buf (ms_Response s) = []).

Lemma answered_once_upd sm sessions counter loc s ch :
  answered_once sm -> (length (ch_buf ch) <= 1)%nat -> (ch_closed ch = true -> ch_buf ch = []) ->
  answered_once (mkSessionManager sessions counter (<[loc := with_Response ch s]> (sm_heap sm))).
Proof.
  intros Ha ?? loc' s'. cbn. intros [[_ <-]|[_ ?]]%lookup_insert_Some; [done|]. by apply (Ha loc').
Qed.

Lemma tick1_once now id sm sm' :
  sm_inv sm -> answered_once sm -> tick1 now id sm = Ret sm' -> answered_once sm'.
Proof.
  intros Hinv Ha. unfold tick1. destruct (live_session id sm) as [[loc s]|] eqn:Hl; [|by intros [= <-]].
  destruct (expired now s); [|by intros [= <-]]. rewrite (close_live sm id loc s Hinv Hl).
  intros [= <-]. apply answered_once_upd; cbn; [done|lia|done].
Qed.

Lemma cleanup_tick_once now ids sm sm' :
  sm_inv sm -> answered_once sm -> cleanup_tick now ids sm = Ret sm' -> answered_once sm'.
Proof.
  revert sm. induction ids as [|id ids IH]; intros sm Hinv Ha; [by intros [= <-]|]. simpl.
  destruct (tick1_spec now id sm Hinv) as (sm1 & Ht & Hinv1 & _). rewrite Ht. simpl.
  apply IH; [done|]. by apply (tick1_once now id sm).
Qed.

Lemma sm_step_inv sm op sm' :
  sm_inv sm -> answered_once sm -> op_ok sm op -> sm_step sm op = Ret sm' ->
  sm_inv sm' /\ answered_once sm'.
Proof.
  intros Hinv Ha Hok. destruct op as [src tgt to now|id r|id|now ids|c loc]; simpl.
  - intros [= <-]. split; [by apply (CreateSession_inv src tgt to now)|].
    intros loc s. cbn. intros [[_ <-]|[_ ?]]%lookup_insert_Some; [cbn; split; [lia|done]|by apply (Ha loc)].
  - destruct (live_session id sm) as [[loc s]|] eqn:Hl.
    + rewrite (CompleteSession_live sm id loc s r Hinv Hl). intros [= <-].
      destruct (live_session_Some sm id loc s Hinv Hl) as (Hid & _).
      split; [by apply retire_inv|]. apply answered_once_upd; [done|cbn; lia|done].
    + unfold CompleteSession. rewrite Hl. by intros [= <-].
  - unfold CleanupSession. destruct (live_session id sm) as [[loc s]|] eqn:Hl; [|by intros [= <-]].
    rewrite (close_live sm id loc s Hinv Hl). intros [= <-].
    destruct (live_session_Some sm id loc s Hinv Hl) as (Hid & _).
    split; [by apply retire_inv|]. apply answered_once_upd; cbn; [done|lia|done].
  - intros Ht. simpl in Hok. destruct (cleanup_tick_spec now ids sm Hinv) as (sm1 & Ht' & Hinv' & _).
    { by apply (NoDup_range_order (sm_sessions sm)). }
    rewrite Ht in Ht'. simplify_eq. split; [done|]. by apply (cleanup_tick_once now ids sm).
  - intros [= <-]. destruct (WaitForResponse c loc sm) as [[sm1 r]|] eqn:Hw; [|done].
    split; [by apply (WaitForResponse_inv c loc sm sm1 r)|].
    unfold WaitForResponse in Hw. destruct (sm_heap sm !! loc) as [s|] eqn:Hs; [|done]. cbn in Hw.
    destruct c; [|by simplify_eq..]. unfold try_recv in Hw. destruct (Ha loc s Hs) as [Hlen Hc].
    destruct (ch_buf (ms_Response s)) as [|x rest]; [by destruct (ch_closed _); simplify_eq|].
    simpl in Hlen. destruct rest; [|simpl in Hlen; lia].
    destruct x; simplify_eq; (apply answered_once_upd; [done|cbn; lia|done]).
Qed.

Lemma sm_reach_inv sm : sm_reach sm -> sm_inv sm /\ answered_once sm.
Proof.
  induction 1 as [|sm op sm' _ [Hinv Ha] Hok Hs]; [|by apply (sm_step_inv sm op)].
  split; [apply NewSessionManager_inv|]. intros loc s. cbn. by rewrite lookup_empty.
Qed.

Lemma WaitForResponse_moves c loc sm sm' r loc' :
  sm_inv sm -> answered_once sm -> WaitForResponse c loc sm = Some (sm', r) ->
  moves sm loc' (OpWait c loc) (status loc' sm) (status loc' sm').
Proof.
  intros Hinv Ha. unfold WaitForResponse. destruct (sm_heap sm !! loc) as [s|] eqn:Hs; [|done]. cbn.
  destruct c; [|by intros [= <- _]; constructor..]. unfold try_recv. destruct (Ha loc s Hs) as [Hlen Hc].
  destruct (ch_buf (ms_Response s)) as [|x rest] eqn:Hb; [destruct (ch_closed _); by intros [= <- _]; constructor|].
  assert (rest = []) as -> by (destruct rest; [done|simpl in Hlen; lia]).
  assert (ch_closed (ms_Response s) = false) as Hopen.
  { destruct (ch_closed (ms_Response s)); [|done]. by discriminate Hc. }
  assert (moves sm loc' (OpWait WaitResponse loc) (status loc' sm) (status loc'
    (mkSessionManager (sm_sessions sm) (sm_counter sm)
      (<[loc := with_Response (mkChan [] (ch_cap (ms_Response s)) (ch_closed (ms_Response s))) s]>
         (sm_heap sm))))) as Hm; [|destruct x; by intros [= <- _]].
  unfold status. cbn. destruct (decide (loc' = loc)) as [->|Hne].
  - rewrite Hs lookup_insert_eq. cbn. rewrite Hopen Hb.
    rewrite decide_False; [|apply moves_taken]. intros Hl.
    destruct (smi_live sm Hinv _ _ Hl) as (s' & Hs' & _ & Hch). simplify_eq. by rewrite Hch in Hb.
  - rewrite lookup_insert_ne; [congruence|]. constructor.
Qed.

Lemma retire_moves sm id loc s ch op loc' st :
  sm_inv sm -> live_session id sm = Some (loc, s) ->
  Some (if ch_closed ch then Closed else match ch_buf ch with r :: _ => Answered r | [] => Over end) = st ->
  moves sm loc op (Some Pending) st ->
  moves sm loc' op (status loc' sm) (status loc' (retire id loc s ch sm)).
Proof.
  intros Hinv Hl <- Hm. destruct (live_session_Some sm id loc s Hinv Hl) as (Hid & _ & HID & _).
  destruct (decide (loc' = loc)) as [->|Hne].
  - by rewrite (status_live sm id loc Hinv Hid) status_retired.
  - rewrite status_retire //. constructor.
Qed.

(** A tick closes the expired sessions and no others. *)
Lemma cleanup_tick_all now ids sm :
  sm_inv sm -> range_order (sm_sessions sm) ids ->
  exists sm', cleanup_tick now ids sm = Ret sm' /\
    forall loc, status loc sm' = tick_session now loc sm.
Proof.
  intros Hinv Hr.
  destruct (cleanup_tick_spec now ids sm Hinv) as (sm' & Ht & _ & Hl & Ho).
  { by apply (NoDup_range_order (sm_sessions sm)). }
  exists sm'. split; [done|]. intros loc.
  destruct (status loc sm) as [st|] eqn:Hst; [destruct (decide (st = Pending)) as [->|Hne]|].
  - assert (exists id, sm_sessions sm !! id = Some loc) as [id Hid].
    { unfold status in Hst. destruct (sm_heap sm !! loc) as [s|]; [|done]. cbn in Hst.
      destruct (ch_closed _); [done|]. destruct (ch_buf _); [|done].
      case_decide; [by exists (ms_ID s)|done]. }
    apply (Hl id); [|done]. by apply (elem_of_range_order (sm_sessions sm) ids id Hr).
  - destruct (Ho loc) as [-> _].
    { intros id _ Hid. rewrite (status_live sm id loc Hinv Hid) in Hst. congruence. }
    unfold tick_session. rewrite Hst. by destruct st.
  - destruct (Ho loc) as [-> _].
    { intros id _ Hid. by rewrite (status_live sm id loc Hinv Hid) in Hst. }
    unfold tick_session. by rewrite Hst.
Qed.

(** ** Properties *)

(** C23. The life of a session: in every state the manager can reach, every
    operation returns (no channel is closed twice or sent to after it was
    closed), and a session goes from pending to answered (by its own
    completion), or from pending to closed (by its cleanup or by a tick after
    its timeout), and from answered to over when its answer is received; nothing
    else changes it, so it is answered at most once. *)
Theorem session_life sm op :
  sm_reach sm -> op_ok sm op ->
  exists sm', sm_step sm op = Ret sm' /\ forall loc, moves sm loc op (status loc sm) (status loc sm').
Proof.
  intros [Hinv Ha]%sm_reach_inv Hok. destruct op as [src tgt to now|id r|id|now ids|c loc]; simpl.
  - eexists. split; [done|]. intros loc. by apply CreateSession_moves.
  - destruct (live_session id sm) as [[l s]|] eqn:Hl.
    + rewrite (CompleteSession_live sm id l s r Hinv Hl). eexists. split; [done|]. intros loc.
      eapply retire_moves; [done..|]. constructor. by apply (live_session_Some sm id l s Hinv Hl).
    + unfold CompleteSession. rewrite Hl. eexists. split; [done|]. constructor.
  - unfold CleanupSession. destruct (live_session id sm) as [[l s]|] eqn:Hl.
    + rewrite (close_live sm id l s Hinv Hl). eexists. split; [done|]. intros loc.
      eapply retire_moves; [done..|]. constructor. by apply (live_session_Some sm id l s Hinv Hl).
    + eexists. split; [done|]. constructor.
  - destruct (cleanup_tick_all now ids sm Hinv Hok) as (sm' & -> & Hst). exists sm'. split; [done|].
    intros loc. rewrite Hst. unfold tick_session. destruct (status loc sm) as [[]|] eqn:E; try constructor.
    destruct (sm_heap sm !! loc) as [s|] eqn:Hs; [|constructor].
    destruct (expired now s) eqn:Hexp; [|constructor]. by apply (moves_expired _ _ _ _ s).
  - eexists. split; [done|]. intros loc'.
    destruct (WaitForResponse c loc sm) as [[sm' r]|] eqn:Hw; [|constructor].
    by apply (WaitForResponse_moves c loc sm sm' r).
Qed.

(** Expiry is exact: a tick, in whatever order the map is visited, closes
    every pending session that is older than its timeout and touches no other. *)
Theorem cleanup_exact sm now ids :
  sm_reach sm -> range_order (sm_sessions sm) ids ->
  exists sm', cleanup_tick now ids sm = Ret sm' /\
    forall loc s, sm_heap sm !! loc = Some s ->
      status loc sm' = if decide (status loc sm = Some Pending /\ ms_Timeout s < time_sub now (ms_CreatedAt s))
                       then Some Closed else status loc sm.
Proof.
  intros [Hinv _]%sm_reach_inv Hr. destruct (cleanup_tick_all now ids sm Hinv Hr) as (sm' & Ht & Hst).
  exists sm'. split; [done|]. intros loc s Hs. rewrite Hst. unfold tick_session, expired. rewrite Hs.
  destruct (Z.ltb_spec (ms_Timeout s) (time_sub now (ms_CreatedAt s))) as [Hlt|Hge].
  - destruct (status loc sm) as [[]|]; case_decide; naive_solver.
  - rewrite decide_False; [lia|]. by destruct (status loc sm) as [[]|].
Qed.

(** Round trip of an answer: completing a live session succeeds and its
    waiter receives exactly that response, once; a second completion is refused,
    and a second wait finds nothing. *)
Theorem session_answer_roundtrip sm id loc m r :
  sm_reach sm -> GetSession id sm = Some loc ->
  exists sm1 sm2, CompleteSession id (Some m) sm = Ret (sm1, Ok tt) /\
    CompleteSession id r sm1 = Ret (sm1, Err ("session " +:+ pretty id +:+ " not found")) /\
    WaitForResponse WaitResponse loc sm1 = Some (sm2, Ok m) /\
    WaitForResponse WaitResponse loc sm2 = None.
Proof.
  intros [Hinv _]%sm_reach_inv Hid. unfold GetSession in Hid.
  destruct (smi_live sm Hinv _ _ Hid) as (s & Hs & HID & Hch).
  assert (live_session id sm = Some (loc, s)) as Hl by (unfold live_session; by rewrite Hid /= Hs).
  eexists _, _. split_and!.
  - by rewrite (CompleteSession_live sm id loc s (Some m) Hinv Hl).
  - unfold CompleteSession, live_session. cbn. by rewrite lookup_delete_eq.
  - unfold WaitForResponse. cbn. rewrite lookup_insert_eq. cbn. reflexivity.
  - unfold WaitForResponse. cbn. by rewrite lookup_insert_eq.
Qed.

(** ** Runs the properties apply to *)

Definition demo_sm : SessionManager :=
  (CreateSession 3 4 (5 * Second) 100 (CreateSession 1 2 (60 * Second) 0 NewSessionManager).1).1.

Lemma demo_sm_reach : sm_reach demo_sm.
Proof.
  apply (reach_step _ (OpCreate 3 4 (5 * Second) 100)
           _ (reach_step _ (OpCreate 1 2 (60 * Second) 0) _ reach_new I eq_refl) I). reflexivity.
Qed.

Lemma session_life_witness :
  exists sm', sm_step demo_sm (OpComplete 1 None) = Ret sm' /\
    moves demo_sm 0%nat (OpComplete 1 None) (Some Pending) (status 0%nat sm').
Proof.
  destruct (session_life demo_sm (OpComplete 1 None) demo_sm_reach I) as (sm' & H1 & H2).
  exists sm'. split; [exact H1|exact (H2 0%nat)].
Defined.

Lemma cleanup_exact_witness :
  exists sm', cleanup_tick (30 * Second) [2; 1] demo_sm = Ret sm' /\
    status 1%nat sm' = Some Closed /\ status 0%nat sm' = Some Pending.
Proof.
  assert (range_order (sm_sessions demo_sm) [2; 1]) as Hr.
  { vm_compute. first [reflexivity | apply Permutation_swap]. }
  destruct (cleanup_exact demo_sm (30 * Second) [2; 1] demo_sm_reach Hr) as (sm' & H1 & H2).
  exists sm'. split; [exact H1|]. split; [erewrite H2; [|reflexivity]|erewrite H2; [|reflexivity]];
    vm_compute; reflexivity.
Defined.

Lemma session_answer_roundtrip_witness :
  exists sm1 sm2, CompleteSession 2 (Some (mkMessage 0 0 1 2 2 [9] 0)) demo_sm = Ret (sm1, Ok tt) /\
    WaitForResponse WaitResponse 1%nat sm1 = Some (sm2, Ok (mkMessage 0 0 1 2 2 [9] 0)).
Proof.
  destruct (session_answer_roundtrip demo_sm 2 1%nat (mkMessage 0 0 1 2 2 [9] 0) None demo_sm_reach eq_refl)
    as (sm1 & sm2 & H1 & _ & H2 & _).
  exists sm1, sm2. split; [exact H1|exact H2].
Defined.
