(* ===== verification/Registry.v ===== *)
(** The local service registry (src/core/service_registry.go).

    A [*ServiceInfo] is shared by its creator, the registry, the events and
    everyone [Get] or [Discover] handed it to, and its metadata map is shared by
    whoever holds the map: both live in heaps ([lr_info], [lr_meta]) and are
    referred to by address, and so are the channels of the watchers. Holders of
    a registered object only read it; in particular its handle stays set. Each
    operation runs under the registry's lock; [performHealthChecks] is not
    atomic and is split at its lock boundaries. *)

From S2P Require Import Prelude CoreTypes Handle.

(** [ServiceStatusOther]: the values of the uint8 that have no name. *)
Inductive ServiceStatus :=
| ServiceStatusUnknown
| ServiceStatusHealthy
| ServiceStatusUnhealthy
| ServiceStatusMaintenance
| ServiceStatusDraining
| ServiceStatusOther (n : Z).

#[export] Instance ServiceStatus_eq_dec : EqDecision ServiceStatus.
Proof. solve_decision. Defined.

Definition ServiceStatus_String (s : ServiceStatus) : string :=
  match s with
  | ServiceStatusUnknown => "unknown"
  | ServiceStatusHealthy => "healthy"
  | ServiceStatusUnhealthy => "unhealthy"
  | ServiceStatusMaintenance => "maintenance"
  | ServiceStatusDraining => "draining"
  | ServiceStatusOther _ => "invalid"
  end.

(** [si_Metadata]: the address of the map, [None] for a [nil] map. *)
Record ServiceInfo := mkServiceInfo {
  si_Handle : option Handle;
  si_Description : string;
  si_Version : string;
  si_Tags : list string;
  si_Status : ServiceStatus;
  si_Metadata : option nat;
  si_RegisteredAt : time;
  si_LastHealthCheck : time;
  si_HealthCheckInterval : duration;
}.

#[export] Instance ServiceInfo_eq_dec : EqDecision ServiceInfo.
Proof. solve_decision. Defined.

Record ServiceQuery := mkServiceQuery {
  q_Name : string;
  q_Pattern : string;
  q_Tags : list string;
  q_Status : list ServiceStatus;
  q_Metadata : gmap string string;
  q_Node : Z;
  q_Limit : Z;
}.

Inductive ServiceEventType :=
| ServiceEventRegister
| ServiceEventUnregister
| ServiceEventStatusChange
| ServiceEventMetadataChange
| ServiceEventOther (n : Z).

Definition ServiceEventType_String (t : ServiceEventType) : string :=
  match t with
  | ServiceEventRegister => "register"
  | ServiceEventUnregister => "unregister"
  | ServiceEventStatusChange => "status_change"
  | ServiceEventMetadataChange => "metadata_change"
  | ServiceEventOther _ => "unknown"
  end.

(** The event carries the address of the service. *)
Record ServiceEvent := mkServiceEvent {
  ev_Type : ServiceEventType;
  ev_Service : nat;
  ev_Timestamp : time;
}.

Record localServiceRegistry := mkRegistry {
  lr_services : gmap string nat;
  lr_watchers : gmap Z nat;
  lr_watcherID : Z;
  lr_info : gmap nat ServiceInfo;
  lr_meta : gmap nat (gmap string string);
  lr_chans : gmap nat (chan ServiceEvent);
}.

Definition NewServiceRegistry : localServiceRegistry := mkRegistry ∅ ∅ 0 ∅ ∅ ∅.

Definition with_services (m : gmap string nat) (r : localServiceRegistry) : localServiceRegistry :=
  mkRegistry m (lr_watchers r) (lr_watcherID r) (lr_info r) (lr_meta r) (lr_chans r).
Definition with_info (loc : nat) (si : ServiceInfo) (r : localServiceRegistry) : localServiceRegistry :=
  mkRegistry (lr_services r) (lr_watchers r) (lr_watcherID r) (<[loc := si]> (lr_info r)) (lr_meta r)
    (lr_chans r).
Definition with_meta (loc : nat) (m : gmap string string) (r : localServiceRegistry)
    : localServiceRegistry :=
  mkRegistry (lr_services r) (lr_watchers r) (lr_watcherID r) (lr_info r) (<[loc := m]> (lr_meta r))
    (lr_chans r).
Definition with_chan (loc : nat) (ch : chan ServiceEvent) (r : localServiceRegistry)
    : localServiceRegistry :=
  mkRegistry (lr_services r) (lr_watchers r) (lr_watcherID r) (lr_info r) (lr_meta r)
    (<[loc := ch]> (lr_chans r)).

(** [notifyWatchers]: a non-blocking send to each watcher, visited in the order
    [ids]. *)
Fixpoint notifyWatchers (event : ServiceEvent) (ids : list Z) (r : localServiceRegistry)
    : go localServiceRegistry :=
  match ids with
  | [] => Ret r
  | id :: ids' =>
      match lr_watchers r !! id with
      | None => notifyWatchers event ids' r
      | Some loc =>
          match lr_chans r !! loc with
          | None => notifyWatchers event ids' r
          | Some ch => '(_, ch') ← try_send ch event; notifyWatchers event ids' (with_chan loc ch' r)
          end
      end
  end.

(** The assignments of [Register] to the fields that are not set; a fresh
    metadata map is made for a [nil] one. *)
Definition register_defaults (now : time) (loc : nat) (si : ServiceInfo) (r : localServiceRegistry)
    : localServiceRegistry :=
  let mloc := fresh (dom (lr_meta r)) in
  let si' := mkServiceInfo (si_Handle si) (si_Description si) (si_Version si) (si_Tags si)
    (if decide (si_Status si = ServiceStatusUnknown) then ServiceStatusHealthy else si_Status si)
    (match si_Metadata si with None => Some mloc | m => m end)
    (if IsZero (si_RegisteredAt si) then now else si_RegisteredAt si)
    (si_LastHealthCheck si)
    (if si_HealthCheckInterval si =? 0 then 30 * Second else si_HealthCheckInterval si) in
  with_info loc si' (match si_Metadata si with None => with_meta mloc ∅ r | _ => r end).

(** [order]: the order in which the watchers are visited. *)
Definition reg_Register (info : option nat) (clk : clock) (order : list Z) (r : localServiceRegistry)
    : go (localServiceRegistry * res unit) :=
  match (loc ← info; si ← lr_info r !! loc; h ← si_Handle si; Some (loc, si, h)) with
  | None => Ret (r, Err "invalid service info")
  | Some (loc, si, h) =>
      if negb (nonempty (h_Name h)) then Ret (r, Err "service name cannot be empty")
      else
        match lr_services r !! h_Name h with
        | Some _ => Ret (r, Err ("service '" +:+ h_Name h +:+ "' already registered"))
        | None =>
            let r1 := register_defaults (clk 0%nat) loc si r in
            let r2 := with_services (<[h_Name h := loc]> (lr_services r1)) r1 in
            r3 ← notifyWatchers (mkServiceEvent ServiceEventRegister loc (clk 1%nat)) order r2;
            Ret (r3, Ok tt)
        end
  end.

Definition reg_Unregister (name : string) (clk : clock) (order : list Z) (r : localServiceRegistry)
    : go (localServiceRegistry * res unit) :=
  match lr_services r !! name with
  | None => Ret (r, Err ("service '" +:+ name +:+ "' not found"))
  | Some loc =>
      r' ← notifyWatchers (mkServiceEvent ServiceEventUnregister loc (clk 0%nat)) order
             (with_services (delete name (lr_services r)) r);
      Ret (r', Ok tt)
  end.

(** [matchesQuery]. A handle is read only by the tests that need it. *)
Definition meta_get (r : localServiceRegistry) (si : ServiceInfo) (k : string) : string :=
  from_option id "" (m ← (l ← si_Metadata si; lr_meta r !! l); m !! k).

Definition handle_name (si : ServiceInfo) : string := from_option h_Name "" (si_Handle si).

Definition matchesQuery (r : localServiceRegistry) (si : ServiceInfo) (query : ServiceQuery) : bool :=
  if nonempty (q_Name query) && negb (eqs (handle_name si) (q_Name query)) then false
  else if nonempty (q_Pattern query) && negb (eqs (handle_name si) (q_Pattern query)) then false
  else if (0 <? length (q_Status query))%nat
          && negb (existsb (fun st => bool_decide (si_Status si = st)) (q_Status query)) then false
  else if negb (forallb (fun tag => existsb (fun t => eqs t tag) (si_Tags si)) (q_Tags query)) then false
  else if negb (forallb (fun '(k, v) => eqs (meta_get r si k) v) (map_to_list (q_Metadata query))) then false
  else if negb (q_Node query =? 0) && negb (from_option h_Node 0 (si_Handle si) =? q_Node query) then false
  else true.

(** The loop of [Discover] over the registered services in the order visited;
    the limit is tested after every service. *)
Fixpoint discover_loop (r : localServiceRegistry) (query : ServiceQuery) (locs results : list nat)
    : list nat :=
  match locs with
  | [] => results
  | loc :: locs' =>
      let results' := match lr_info r !! loc with
                      | Some si => if matchesQuery r si query then results ++ [loc] else results
                      | None => results
                      end in
      if (0 <? q_Limit query) && (q_Limit query <=? Z.of_nat (length results')) then results'
      else discover_loop r query locs' results'
  end.

Definition Discover (query : ServiceQuery) (order : list string) (r : localServiceRegistry)
    : res (list nat) :=
  Ok (discover_loop r query (range_vals (lr_services r) order) []).

Definition reg_Get (name : string) (r : localServiceRegistry) : res nat :=
  match lr_services r !! name with
  | None => Err ("service '" +:+ name +:+ "' not found")
  | Some loc => Ok loc
  end.

Definition reg_List (order : list string) (r : localServiceRegistry) : res (list nat) :=
  Ok (range_vals (lr_services r) order).

Definition set_status (status : ServiceStatus) (now : time) (si : ServiceInfo) : ServiceInfo :=
  mkServiceInfo (si_Handle si) (si_Description si) (si_Version si) (si_Tags si) status
    (si_Metadata si) (si_RegisteredAt si) now (si_HealthCheckInterval si).

Definition UpdateStatus (name : string) (status : ServiceStatus) (clk : clock) (order : list Z)
    (r : localServiceRegistry) : go (localServiceRegistry * res unit) :=
  match (loc ← lr_services r !! name; si ← lr_info r !! loc; Some (loc, si)) with
  | None => Ret (r, Err ("service '" +:+ name +:+ "' not found"))
  | Some (loc, si) =>
      let r1 := with_info loc (set_status status (clk 0%nat) si) r in
      r2 ← (if decide (si_Status si = status) then Ret r1
            else notifyWatchers (mkServiceEvent ServiceEventStatusChange loc (clk 1%nat)) order r1);
      Ret (r2, Ok tt)
  end.

Definition set_Metadata (m : option nat) (si : ServiceInfo) : ServiceInfo :=
  mkServiceInfo (si_Handle si) (si_Description si) (si_Version si) (si_Tags si) (si_Status si)
    m (si_RegisteredAt si) (si_LastHealthCheck si) (si_HealthCheckInterval si).

(** The metadata map is written in place; the entries of the argument win. *)
Definition merge_metadata (loc : nat) (si : ServiceInfo) (metadata : gmap string string)
    (r : localServiceRegistry) : localServiceRegistry :=
  match si_Metadata si with
  | Some mloc => with_meta mloc (metadata ∪ default ∅ (lr_meta r !! mloc)) r
  | None =>
      let mloc := fresh (dom (lr_meta r)) in
      with_meta mloc metadata (with_info loc (set_Metadata (Some mloc) si) r)
  end.

Definition UpdateMetadata (name : string) (metadata : gmap string string) (clk : clock)
    (order : list Z) (r : localServiceRegistry) : go (localServiceRegistry * res unit) :=
  match (loc ← lr_services r !! name; si ← lr_info r !! loc; Some (loc, si)) with
  | None => Ret (r, Err ("service '" +:+ name +:+ "' not found"))
  | Some (loc, si) =>
      r' ← notifyWatchers (mkServiceEvent ServiceEventMetadataChange loc (clk 0%nat)) order
             (merge_metadata loc si metadata r);
      Ret (r', Ok tt)
  end.

(** [Watch] returns the channel; the goroutine that waits for the context then
    runs [Watch_done]. *)
Definition Watch (r : localServiceRegistry) : localServiceRegistry * (Z * nat) :=
  let watcherID := u64 (lr_watcherID r + 1) in
  let loc := fresh (dom (lr_chans r)) in
  (mkRegistry (lr_services r) (<[watcherID := loc]> (lr_watchers r)) watcherID (lr_info r) (lr_meta r)
     (<[loc := make_chan 100]> (lr_chans r)), (watcherID, loc)).

Definition Watch_done (watcherID : Z) (eventChan : nat) (r : localServiceRegistry)
    : go localServiceRegistry :=
  match lr_chans r !! eventChan with
  | None => Ret r
  | Some ch =>
      ch' ← close_chan ch;
      Ret (with_chan eventChan ch'
             (mkRegistry (lr_services r) (delete watcherID (lr_watchers r)) (lr_watcherID r) (lr_info r)
                (lr_meta r) (lr_chans r)))
  end.

(** The body of the loop of [performHealthChecks]: the fields are read without
    the lock ([health_due]), then [UpdateStatus] is called with what was read. *)
Definition health_due (now : time) (loc : nat) (r : localServiceRegistry)
    : option (string * ServiceStatus) :=
  si ← lr_info r !! loc;
  if si_HealthCheckInterval si <? time_sub now (si_LastHealthCheck si)
  then Some (handle_name si, si_Status si) else None.

(** Its turn [i] reads the clock as [clk i], and visits the watchers in the
    order [order i]. *)
Fixpoint health_loop (i : nat) (clk : nat -> clock) (order : nat -> list Z) (locs : list nat)
    (r : localServiceRegistry) : go localServiceRegistry :=
  match locs with
  | [] => Ret r
  | loc :: locs' =>
      r' ← match health_due (clk i 0%nat) loc r with
           | Some (name, status) =>
               '(r', _) ← UpdateStatus name status (fun n => clk i (S n)) (order i) r; Ret r'
           | None => Ret r
           end;
      health_loop (S i) clk order locs' r'
  end.

(** [performHealthChecks] with nothing else running. *)
Definition performHealthChecks (clk : nat -> clock) (names : list string) (order : nat -> list Z)
    (r : localServiceRegistry) : go localServiceRegistry :=
  health_loop 0 clk order (range_vals (lr_services r) names) r.

(** ** Runs

    [RAlloc]: a client builds a [ServiceInfo]; [RWatchDone]: the context of a
    live watcher is done; [RRecv]: a client receives from a watcher's channel. *)
Inductive reg_op :=
| RAlloc (si : ServiceInfo)
| RRegister (info : option nat) (clk : clock) (order : list Z)
| RUnregister (name : string) (clk : clock) (order : list Z)
| RUpdateStatus (name : string) (status : ServiceStatus) (clk : clock) (order : list Z)
| RUpdateMetadata (name : string) (metadata : gmap string string) (clk : clock) (order : list Z)
| RWatch
| RWatchDone (watcherID : Z) (eventChan : nat)
| RRecv (eventChan : nat).

Definition reg_step (r : localServiceRegistry) (op : reg_op) : go (localServiceRegistry * res unit) :=
  match op with
  | RAlloc si => Ret (with_info (fresh (dom (lr_info r))) si r, Ok tt)
  | RRegister info clk order => reg_Register info clk order r
  | RUnregister name clk order => reg_Unregister name clk order r
  | RUpdateStatus name status clk order => UpdateStatus name status clk order r
  | RUpdateMetadata name metadata clk order => UpdateMetadata name metadata clk order r
  | RWatch => Ret ((Watch r).1, Ok tt)
  | RWatchDone id loc => r' ← Watch_done id loc r; Ret (r', Ok tt)
  | RRecv loc =>
      Ret (match try_recv <$> lr_chans r !! loc with
           | Some (Got _ ch) => with_chan loc ch r
           | _ => r
           end, Ok tt)
  end.

(** Watchers are visited once each; a watcher's context is done once. *)
Definition reg_ok (r : localServiceRegistry) (op : reg_op) : Prop :=
  match op with
  | RRegister _ _ order | RUnregister _ _ order | RUpdateStatus _ _ _ order
  | RUpdateMetadata _ _ _ order => range_order (lr_watchers r) order
  | RWatchDone id loc => lr_watchers r !! id = Some loc
  | _ => True
  end.

Inductive reg_reach : localServiceRegistry -> Prop :=
| rreach_new : reg_reach NewServiceRegistry
| rreach_step r op r' e :
    reg_reach r -> reg_ok r op -> reg_step r op = Ret (r', e) -> reg_reach r'.

(** ** The invariant

    Services are registered under the name in their handle; every watcher has
    an open channel of its own. *)
Record reg_inv (r : localServiceRegistry) : Prop := {
  ri_service n loc : lr_services r !! n = Some loc ->
    n <> "" /\ exists si h, lr_info r !! loc = Some si /\ si_Handle si = Some h /\ h_Name h = n;
  ri_watcher id loc : lr_watchers r !! id = Some loc ->
    exists ch, lr_chans r !! loc = Some ch /\ ch_closed ch = false;
  ri_watcher_inj id id' loc : lr_watchers r !! id = Some loc -> lr_watchers r !! id' = Some loc -> id = id';
}.

Lemma NewServiceRegistry_inv : reg_inv NewServiceRegistry.
Proof. split; intros *; by rewrite lookup_empty. Qed.

Definition with_chans (m : gmap nat (chan ServiceEvent)) (r : localServiceRegistry) : localServiceRegistry :=
  mkRegistry (lr_services r) (lr_watchers r) (lr_watcherID r) (lr_info r) (lr_meta r) m.

(** A non-blocking send on an open channel. *)
Definition push (event : ServiceEvent) (ch : chan ServiceEvent) : chan ServiceEvent :=
  if decide (length (ch_buf ch) < ch_cap ch)%nat
  then mkChan (ch_buf ch ++ [event]) (ch_cap ch) (ch_closed ch) else ch.

Lemma try_send_push event ch :
  ch_closed ch = false -> exists b, try_send ch event = Ret (b, push event ch).
Proof.
  intros Hopen. rewrite (try_send_open _ _ Hopen). unfold push. rewrite Hopen.
  case_decide; by eexists.
Qed.

Lemma push_closed event ch : ch_closed (push event ch) = ch_closed ch.
Proof. unfold push. by case_decide. Qed.

Definition watched (r : localServiceRegistry) (ids : list Z) (loc : nat) : Prop :=
  exists id, id ∈ ids /\ lr_watchers r !! id = Some loc.

(** Every watcher visited gets the event once, if it has room. *)
Lemma notifyWatchers_spec event ids r :
  reg_inv r -> NoDup ids ->
  exists chans, notifyWatchers event ids r = Ret (with_chans chans r) /\
    (forall loc, watched r ids loc -> chans !! loc = push event <$> lr_chans r !! loc) /\
    (forall loc, ~ watched r ids loc -> chans !! loc = lr_chans r !! loc).
Proof.
  intros Hinv Hnd. revert r Hinv. induction Hnd as [|id ids Hin Hnd IH]; intros r Hinv.
  { exists (lr_chans r). split_and!; [by destruct r|by intros loc (? & ?%not_elem_of_nil & _)|done]. }
  simpl. destruct (lr_watchers r !! id) as [l|] eqn:Hw.
  - destruct (ri_watcher r Hinv id l Hw) as (ch & Hch & Hopen). rewrite Hch.
    destruct (try_send_push event ch Hopen) as [b ->]. cbn [mbind go_bind].
    assert (reg_inv (with_chan l (push event ch) r)) as Hinv'.
    { split; cbn; [apply (ri_service r Hinv)| |apply (ri_watcher_inj r Hinv)]. intros i l' Hi.
      destruct (decide (l' = l)) as [->|Hne].
      - exists (push event ch). by rewrite lookup_insert_eq push_closed.
      - rewrite lookup_insert_ne; [congruence|]. by apply (ri_watcher r Hinv i). }
    destruct (IH _ Hinv') as (chans & -> & Hyes & Hno). exists chans. split_and!; [by destruct r|..].
    + intros loc (i & [->|Hi]%elem_of_cons & Hl).
      * simplify_eq. rewrite Hno; [|cbn; by rewrite lookup_insert_eq Hch].
        intros (i' & Hi' & Hl'). cbn in Hl'. by rewrite (ri_watcher_inj r Hinv id i' _ Hw Hl') in Hin.
      * rewrite Hyes; [by exists i|]. cbn. rewrite lookup_insert_ne; [|done].
        intros ->. by rewrite (ri_watcher_inj r Hinv id i loc Hw Hl) in Hin.
    + intros loc Hnw. rewrite Hno; [intros (i & Hi & Hl); apply Hnw; exists i; by split; [right|]|].
      cbn. rewrite lookup_insert_ne; [|done]. intros ->. apply Hnw. exists id. by split; [left|].
  - destruct (IH _ Hinv) as (chans & -> & Hyes & Hno). exists chans. split_and!; [done|..].
    + intros loc (i & [->|Hi]%elem_of_cons & Hl); [congruence|]. apply Hyes. by exists i.
    + intros loc Hnw. apply Hno. intros (i & Hi & Hl). apply Hnw. exists i. by split; [right|].
Qed.

(** The effect of a notification, whatever the order of the visit. *)
Definition watcher_locs (r : localServiceRegistry) : list nat := (map_to_list (lr_watchers r)).*2.

Definition deliver (event : ServiceEvent) (r : localServiceRegistry) : localServiceRegistry :=
  with_chans (map_imap (fun loc ch => Some (if decide (loc ∈ watcher_locs r) then push event ch else ch))
                (lr_chans r)) r.

Lemma elem_of_watcher_locs r loc :
  loc ∈ watcher_locs r <-> exists id, lr_watchers r !! id = Some loc.
Proof.
  unfold watcher_locs. rewrite list_elem_of_fmap. split.
  - intros ([id l] & -> & ?%elem_of_map_to_list). by exists id.
  - intros [id Hid]. exists (id, loc). by rewrite elem_of_map_to_list.
Qed.

Lemma notifyWatchers_deliver event order r :
  reg_inv r -> range_order (lr_watchers r) order ->
  notifyWatchers event order r = Ret (deliver event r).
Proof.
  intros Hinv Ho. destruct (notifyWatchers_spec event order r Hinv) as (chans & -> & Hyes & Hno).
  { by apply (NoDup_range_order (lr_watchers r)). }
  do 2 f_equal. unfold deliver. f_equal. apply map_eq. intros loc. rewrite map_lookup_imap.
  assert (watched r order loc <-> loc ∈ watcher_locs r) as Hw.
  { rewrite elem_of_watcher_locs. unfold watched. split; [intros (i & _ & ?); by exists i|].
    intros [i Hi]. exists i. split; [|done]. by apply (elem_of_range_order _ _ i Ho). }
  destruct (decide (loc ∈ watcher_locs r)) as [Hl|Hl].
  - rewrite Hyes; [by apply Hw|]. by destruct (lr_chans r !! loc).
  - rewrite Hno; [by rewrite Hw|]. by destruct (lr_chans r !! loc).
Qed.

Lemma deliver_chan event r id loc ch :
  lr_watchers r !! id = Some loc -> lr_chans r !! loc = Some ch ->
  lr_chans (deliver event r) !! loc = Some (push event ch).
Proof.
  intros Hid Hch. cbn. rewrite map_lookup_imap Hch /=.
  rewrite decide_True; [|done]. apply elem_of_watcher_locs. by exists id.
Qed.

Lemma deliver_inv event r : reg_inv r -> reg_inv (deliver event r).
Proof.
  intros Hinv. split; [apply (ri_service r Hinv)| |apply (ri_watcher_inj r Hinv)].
  intros id loc Hid. destruct (ri_watcher r Hinv id loc Hid) as (ch & Hch & ?).
  exists (push event ch). by rewrite (deliver_chan event r id loc ch) // push_closed.
Qed.

(** ** Each operation keeps the invariant *)

(** Rewriting a service object keeps it when the handle is kept. *)
Lemma with_info_inv r loc si si' :
  reg_inv r -> lr_info r !! loc = Some si -> si_Handle si' = si_Handle si -> reg_inv (with_info loc si' r).
Proof.
  intros Hinv Hsi Hh. split; [|apply (ri_watcher r Hinv)|apply (ri_watcher_inj r Hinv)].
  intros n l Hn. destruct (ri_service r Hinv n l Hn) as (Hne & si0 & h & Hsi0 & ? & ?). split; [done|].
  cbn. destruct (decide (l = loc)) as [->|Hl].
  - exists si', h. rewrite lookup_insert_eq Hh. by simplify_eq.
  - exists si0, h. rewrite lookup_insert_ne; [congruence|done].
Qed.

Lemma with_meta_inv r loc m : reg_inv r -> reg_inv (with_meta loc m r).
Proof. by intros []. Qed.

Lemma register_defaults_inv now loc si r :
  reg_inv r -> lr_info r !! loc = Some si -> reg_inv (register_defaults now loc si r).
Proof.
  intros Hinv Hsi. unfold register_defaults. destruct (si_Metadata si).
  - by apply (with_info_inv r loc si).
  - apply (with_info_inv _ loc si); [by apply with_meta_inv|done..].
Qed.

(** What the operations do, with the event each of them sends. *)
Definition registered (clk : clock) (loc : nat) (si : ServiceInfo) (h : Handle) (r : localServiceRegistry)
    : localServiceRegistry :=
  let r1 := register_defaults (clk 0%nat) loc si r in
  deliver (mkServiceEvent ServiceEventRegister loc (clk 1%nat))
    (with_services (<[h_Name h := loc]> (lr_services r1)) r1).

Lemma registered_inv clk loc si h r :
  reg_inv r -> lr_info r !! loc = Some si -> si_Handle si = Some h -> h_Name h <> "" ->
  reg_inv (with_services (<[h_Name h := loc]> (lr_services (register_defaults (clk 0%nat) loc si r)))
             (register_defaults (clk 0%nat) loc si r)).
Proof.
  intros Hinv Hsi Hh Hne. pose proof (register_defaults_inv (clk 0%nat) loc si r Hinv Hsi) as Hinv1.
  set (r1 := register_defaults (clk 0%nat) loc si r) in *.
  split; cbn; [|apply (ri_watcher r1 Hinv1)|apply (ri_watcher_inj r1 Hinv1)].
  intros n l [[<- <-]|[_ Hn]]%lookup_insert_Some; [|by apply (ri_service r1 Hinv1)].
  split; [done|]. unfold r1, register_defaults. destruct (si_Metadata si); cbn;
    (eexists _, h; rewrite lookup_insert_eq; split_and!; [reflexivity|done|done]).
Qed.

Lemma register_watchers now loc si r : lr_watchers (register_defaults now loc si r) = lr_watchers r.
Proof. unfold register_defaults. by destruct (si_Metadata si). Qed.

Lemma register_services now loc si r : lr_services (register_defaults now loc si r) = lr_services r.
Proof. unfold register_defaults. by destruct (si_Metadata si). Qed.

Lemma registered_reg_inv clk loc si h r :
  reg_inv r -> lr_info r !! loc = Some si -> si_Handle si = Some h -> h_Name h <> "" ->
  reg_inv (registered clk loc si h r).
Proof. intros. by apply deliver_inv, registered_inv. Qed.

Lemma registered_services clk loc si h r :
  lr_services (registered clk loc si h r) = <[h_Name h := loc]> (lr_services r).
Proof. unfold registered. cbn [deliver with_chans with_services lr_services]. by rewrite register_services. Qed.

Lemma registered_watchers clk loc si h r : lr_watchers (registered clk loc si h r) = lr_watchers r.
Proof. unfold registered. cbn [deliver with_chans with_services lr_watchers]. by rewrite register_watchers. Qed.

(** The object as the registration leaves it. *)
Lemma registered_object clk loc si h r :
  si_Handle si = Some h ->
  exists si', lr_info (registered clk loc si h r) !! loc = Some si' /\ si_Handle si' = Some h /\
    si_Status si' <> ServiceStatusUnknown /\ is_Some (si_Metadata si') /\ si_HealthCheckInterval si' <> 0.
Proof.
  intros Hh. unfold registered. cbn [deliver with_chans with_services lr_info].
  unfold register_defaults. destruct (si_Metadata si) as [m|] eqn:Hm; cbn; rewrite lookup_insert_eq;
    (eexists; split_and!; [reflexivity|done| |by eexists|]); cbn; try (case_decide; congruence);
    destruct (Z.eqb_spec (si_HealthCheckInterval si) 0); done.
Qed.

Lemma reg_Register_spec info clk order r :
  reg_inv r -> range_order (lr_watchers r) order ->
  (exists e, reg_Register info clk order r = Ret (r, Err e)) \/
  (exists loc si h, info = Some loc /\ lr_info r !! loc = Some si /\ si_Handle si = Some h /\
     h_Name h <> "" /\ lr_services r !! h_Name h = None /\
     reg_Register info clk order r = Ret (registered clk loc si h r, Ok tt)).
Proof.
  intros Hinv Ho. unfold reg_Register. destruct info as [loc|]; cbn; [|by left; eexists].
  destruct (lr_info r !! loc) as [si|] eqn:Hsi; cbn; [|by left; eexists].
  destruct (si_Handle si) as [h|] eqn:Hh; cbn; [|by left; eexists].
  destruct (nonempty (h_Name h)) eqn:Hne; cbn; [|by left; eexists]. apply nonempty_true in Hne.
  destruct (lr_services r !! h_Name h) eqn:Hn; [by left; eexists|]. right.
  exists loc, si, h. split_and!; try done.
  rewrite notifyWatchers_deliver; [by apply registered_inv|by cbn [with_services lr_watchers]; rewrite register_watchers|done].
Qed.

Lemma reg_Unregister_inv name r : reg_inv r -> reg_inv (with_services (delete name (lr_services r)) r).
Proof.
  intros Hinv. split; cbn; [|apply (ri_watcher r Hinv)|apply (ri_watcher_inj r Hinv)].
  intros n l [_ ?]%lookup_delete_Some. by apply (ri_service r Hinv).
Qed.

Lemma reg_Unregister_spec name clk order r :
  reg_inv r -> range_order (lr_watchers r) order ->
  reg_Unregister name clk order r =
    match lr_services r !! name with
    | None => Ret (r, Err ("service '" +:+ name +:+ "' not found"))
    | Some loc => Ret (deliver (mkServiceEvent ServiceEventUnregister loc (clk 0%nat))
                         (with_services (delete name (lr_services r)) r), Ok tt)
    end.
Proof.
  intros Hinv Ho. unfold reg_Unregister. destruct (lr_services r !! name) as [loc|]; [|done].
  rewrite notifyWatchers_deliver //. by apply reg_Unregister_inv.
Qed.

(** The registered object of a name. *)
Lemma service_object r name loc :
  reg_inv r -> lr_services r !! name = Some loc ->
  exists si h, lr_info r !! loc = Some si /\ si_Handle si = Some h /\ h_Name h = name /\
    (loc ← lr_services r !! name; si ← lr_info r !! loc; Some (loc, si)) = Some (loc, si).
Proof.
  intros Hinv Hn. destruct (ri_service r Hinv name loc Hn) as (_ & si & h & Hsi & Hh & Hname).
  exists si, h. by rewrite Hn /= Hsi.
Qed.

Lemma UpdateStatus_spec name status clk order r loc si :
  reg_inv r -> range_order (lr_watchers r) order ->
  lr_services r !! name = Some loc -> lr_info r !! loc = Some si ->
  let r1 := with_info loc (set_status status (clk 0%nat) si) r in
  UpdateStatus name status clk order r =
    Ret (if decide (si_Status si = status) then r1
         else deliver (mkServiceEvent ServiceEventStatusChange loc (clk 1%nat)) r1, Ok tt).
Proof.
  intros Hinv Ho Hn Hsi r1. destruct (service_object r name loc Hinv Hn) as (si' & h & Hsi' & _ & _ & Heq).
  simplify_eq. unfold UpdateStatus. rewrite Heq. fold r1. case_decide; [done|].
  rewrite notifyWatchers_deliver //. by apply (with_info_inv r loc si).
Qed.

Lemma merge_metadata_inv loc si metadata r :
  reg_inv r -> lr_info r !! loc = Some si -> reg_inv (merge_metadata loc si metadata r).
Proof.
  intros Hinv Hsi. unfold merge_metadata. destruct (si_Metadata si); apply with_meta_inv; [done|].
  by apply (with_info_inv r loc si).
Qed.

Lemma UpdateMetadata_spec name metadata clk order r loc si :
  reg_inv r -> range_order (lr_watchers r) order ->
  lr_services r !! name = Some loc -> lr_info r !! loc = Some si ->
  UpdateMetadata name metadata clk order r =
    Ret (deliver (mkServiceEvent ServiceEventMetadataChange loc (clk 0%nat))
           (merge_metadata loc si metadata r), Ok tt).
Proof.
  intros Hinv Ho Hn Hsi. destruct (service_object r name loc Hinv Hn) as (si' & h & Hsi' & _ & _ & Heq).
  simplify_eq. unfold UpdateMetadata. rewrite Heq. rewrite notifyWatchers_deliver; [by apply merge_metadata_inv| |done].
  unfold merge_metadata. by destruct (si_Metadata si).
Qed.

Lemma reg_lookup_None name r :
  reg_inv r -> (loc ← lr_services r !! name; si ← lr_info r !! loc; Some (loc, si)) = None ->
  lr_services r !! name = None.
Proof.
  intros Hinv. destruct (lr_services r !! name) as [loc|] eqn:Hn; [|done].
  destruct (service_object r name loc Hinv Hn) as (si & h & ? & _ & _ & Heq). rewrite Hn in Heq. congruence.
Qed.

(** A name, its object, or neither. *)
Lemma service_cases name r :
  reg_inv r ->
  lr_services r !! name = None \/
  exists loc si, lr_services r !! name = Some loc /\ lr_info r !! loc = Some si.
Proof.
  intros Hinv. destruct (lr_services r !! name) as [loc|] eqn:Hn; [right|by left].
  destruct (service_object r name loc Hinv Hn) as (si & h & ? & _). by exists loc, si.
Qed.

Lemma Watch_inv r : reg_inv r -> reg_inv (Watch r).1.
Proof.
  intros Hinv. pose proof (is_fresh (dom (lr_chans r))) as Hf%not_elem_of_dom.
  assert (forall id l, lr_watchers r !! id = Some l -> l <> fresh (dom (lr_chans r))) as Hne.
  { intros id l Hl ->. destruct (ri_watcher r Hinv _ _ Hl) as (? & ? & _). congruence. }
  split; cbn -[u64]; [apply (ri_service r Hinv)| |].
  - intros id loc [[_ <-]|[_ Hid]]%lookup_insert_Some.
    + eexists. by rewrite lookup_insert_eq.
    + rewrite lookup_insert_ne; [specialize (Hne _ _ Hid); congruence|]. by apply (ri_watcher r Hinv id).
  - intros id id' loc [[<- <-]|[_ Hid]]%lookup_insert_Some [[<- Heq]|[_ Hid']]%lookup_insert_Some;
      [done| | |by apply (ri_watcher_inj r Hinv _ _ loc)].
    + by destruct (Hne _ _ Hid').
    + by destruct (Hne _ _ Hid).
Qed.

(** A watcher that leaves closes its own channel, which no other watcher has. *)
Lemma Watch_done_spec id loc r :
  reg_inv r -> lr_watchers r !! id = Some loc ->
  exists r', Watch_done id loc r = Ret r' /\ reg_inv r'.
Proof.
  intros Hinv Hid. destruct (ri_watcher r Hinv id loc Hid) as (ch & Hch & Hopen).
  unfold Watch_done, close_chan. rewrite Hch Hopen. cbn. eexists. split; [done|].
  split; cbn; [apply (ri_service r Hinv)| |].
  - intros id' loc' [Hne Hid']%lookup_delete_Some.
    rewrite lookup_insert_ne; [|by apply (ri_watcher r Hinv id')].
    intros <-. by apply Hne, (ri_watcher_inj r Hinv _ _ loc).
  - intros id1 id2 l [_ ?]%lookup_delete_Some [_ ?]%lookup_delete_Some.
    by apply (ri_watcher_inj r Hinv _ _ l).
Qed.

Lemma recv_inv loc ch r :
  reg_inv r -> (forall ch0, lr_chans r !! loc = Some ch0 -> ch_closed ch = ch_closed ch0) ->
  reg_inv (with_chan loc ch r).
Proof.
  intros Hinv Hc. split; cbn; [apply (ri_service r Hinv)| |apply (ri_watcher_inj r Hinv)].
  intros id l Hid. destruct (ri_watcher r Hinv id l Hid) as (ch0 & Hch0 & Hopen).
  destruct (decide (l = loc)) as [->|Hne].
  - exists ch. rewrite lookup_insert_eq. by rewrite (Hc ch0).
  - rewrite lookup_insert_ne; [congruence|]. by exists ch0.
Qed.

Lemma RAlloc_inv si r : reg_inv r -> reg_inv (with_info (fresh (dom (lr_info r))) si r).
Proof.
  intros Hinv. pose proof (is_fresh (dom (lr_info r))) as Hf%not_elem_of_dom.
  split; cbn; [|apply (ri_watcher r Hinv)|apply (ri_watcher_inj r Hinv)].
  intros n l Hn. destruct (ri_service r Hinv n l Hn) as (? & si0 & h & ? & ?). split; [done|].
  exists si0, h. rewrite lookup_insert_ne; [congruence|done].
Qed.

(** Every operation returns, and keeps the invariant. *)
Lemma reg_step_inv r op :
  reg_inv r -> reg_ok r op -> exists r' e, reg_step r op = Ret (r', e) /\ reg_inv r'.
Proof.
  intros Hinv Hok. destruct op as [si|info clk o|n clk o|n st clk o|n md clk o| |id loc|loc]; simpl in *.
  - eexists _, _. split; [done|]. by apply RAlloc_inv.
  - destruct (reg_Register_spec info clk o r Hinv Hok)
      as [[e ->]|(loc & si & h & -> & Hsi & Hh & Hne & Hn & ->)]; eexists _, _; (split; [done|]); [done|].
    by apply deliver_inv, registered_inv.
  - rewrite (reg_Unregister_spec n clk o r Hinv Hok). destruct (lr_services r !! n); eexists _, _;
      (split; [done|]); [|done]. by apply deliver_inv, reg_Unregister_inv.
  - destruct (service_cases n r Hinv) as [Hn|(loc & si & Hn & Hsi)].
    { unfold UpdateStatus. rewrite Hn. by eexists _, _. }
    rewrite (UpdateStatus_spec n st clk o r loc si) //. eexists _, _. split; [done|].
    case_decide; [|apply deliver_inv]; by apply (with_info_inv r loc si).
  - destruct (service_cases n r Hinv) as [Hn|(loc & si & Hn & Hsi)].
    { unfold UpdateMetadata. rewrite Hn. by eexists _, _. }
    rewrite (UpdateMetadata_spec n md clk o r loc si) //. eexists _, _. split; [done|].
    by apply deliver_inv, merge_metadata_inv.
  - eexists _, _. split; [done|]. by apply Watch_inv.
  - destruct (Watch_done_spec id loc r Hinv Hok) as (r' & -> & ?). by eexists _, _.
  - eexists _, _. split; [done|]. destruct (lr_chans r !! loc) as [ch|] eqn:Hch; [|done]. cbn.
    unfold try_recv. destruct (ch_buf ch); [by destruct (ch_closed ch)|].
    apply recv_inv; [done|]. intros ? [= <-]%(eq_trans (eq_sym Hch)). done.
Qed.

Lemma reg_reach_inv r : reg_reach r -> reg_inv r.
Proof.
  induction 1 as [|r op r' e _ IH Hok Hs]; [apply NewServiceRegistry_inv|].
  destruct (reg_step_inv r op IH Hok) as (r1 & e1 & Hs' & ?). congruence.
Qed.

(** ** What a query asks for *)

(** The criteria of a query, each left out when it is at its zero value. *)
Record satisfies (r : localServiceRegistry) (q : ServiceQuery) (si : ServiceInfo) : Prop := {
  sat_name : q_Name q = "" \/ handle_name si = q_Name q;
  sat_pattern : q_Pattern q = "" \/ handle_name si = q_Pattern q;
  sat_status : q_Status q = [] \/ si_Status si ∈ q_Status q;
  sat_tags : forall tag, tag ∈ q_Tags q -> tag ∈ si_Tags si;
  sat_meta : forall k v, q_Metadata q !! k = Some v -> meta_get r si k = v;
  sat_node : q_Node q = 0 \/ from_option h_Node 0 (si_Handle si) = q_Node q;
}.

Lemma criterion_string a b : nonempty a && negb (eqs b a) = false <-> a = "" \/ b = a.
Proof.
  rewrite andb_false_iff nonempty_false negb_false_iff eqs_true. done.
Qed.

Lemma criterion_status (st : ServiceStatus) l :
  (0 <? length l)%nat && negb (existsb (fun x => bool_decide (st = x)) l) = false <-> l = [] \/ st ∈ l.
Proof.
  rewrite andb_false_iff negb_false_iff existsb_exists. destruct l as [|x l]; [naive_solver|].
  split.
  - intros [?|(y & Hy & ->%bool_decide_eq_true)]; [done|right; by apply list_elem_of_In].
  - intros [?|Hin]; [done|right]. exists st. rewrite bool_decide_eq_true. by apply list_elem_of_In in Hin.
Qed.

Lemma criterion_tags tags have :
  forallb (fun tag => existsb (fun t => eqs t tag) have) tags = true <-> forall tag, tag ∈ tags -> tag ∈ have.
Proof.
  rewrite forallb_forall. setoid_rewrite existsb_exists. setoid_rewrite eqs_true.
  setoid_rewrite <- list_elem_of_In. naive_solver.
Qed.

Lemma criterion_meta r si (m : gmap string string) :
  forallb (fun '(k, v) => eqs (meta_get r si k) v) (map_to_list m) = true <->
  forall k v, m !! k = Some v -> meta_get r si k = v.
Proof.
  rewrite forallb_forall. split.
  - intros Hall k v Hkv%elem_of_map_to_list%list_elem_of_In. by apply eqs_true, (Hall (k, v)).
  - intros Hall [k v] Hin%list_elem_of_In%elem_of_map_to_list. by apply eqs_true, Hall.
Qed.

Lemma if_false_iff (b c : bool) : (if b then false else c) = true <-> b = false /\ c = true.
Proof. destruct b; naive_solver. Qed.

Lemma matchesQuery_spec r si q : matchesQuery r si q = true <-> satisfies r q si.
Proof.
  unfold matchesQuery. rewrite !if_false_iff !criterion_string criterion_status.
  rewrite !negb_false_iff criterion_tags criterion_meta andb_false_iff !negb_false_iff !Z.eqb_eq.
  split; [intros (? & ? & ? & ? & ? & ? & _); by split|by intros []].
Qed.

(** The loop of [Discover] against its result. *)
Definition selected (r : localServiceRegistry) (q : ServiceQuery) (loc : nat) : bool :=
  match lr_info r !! loc with Some si => matchesQuery r si q | None => false end.

Definition limit_to (limit : Z) (l : list nat) : list nat :=
  if 0 <? limit then take (Z.to_nat limit) l else l.

Lemma discover_loop_spec r q locs results :
  q_Limit q <= 0 \/ Z.of_nat (length results) < q_Limit q ->
  discover_loop r q locs results = limit_to (q_Limit q) (results ++ List.filter (selected r q) locs).
Proof.
  revert results. induction locs as [|loc locs IH]; intros results Hlim; simpl.
  { rewrite app_nil_r. unfold limit_to. destruct (Z.ltb_spec 0 (q_Limit q)); [|done].
    rewrite take_ge; [lia|done]. }
  set (results' := match lr_info r !! loc with Some si => _ | None => _ end).
  assert (results' ++ List.filter (selected r q) locs =
          results ++ (if selected r q loc then loc :: List.filter (selected r q) locs
                      else List.filter (selected r q) locs)) as <-.
  { unfold results', selected. destruct (lr_info r !! loc) as [si|]; [|done].
    destruct (matchesQuery r si q); [by rewrite -assoc_L|done]. }
  assert (length results' <= S (length results))%nat as Hlen.
  { unfold results'. destruct (lr_info r !! loc); [|lia]. destruct (matchesQuery _ _ _); [|lia].
    rewrite length_app /=. lia. }
  destruct (Z.ltb_spec 0 (q_Limit q)); cbn [andb]; [|apply IH; lia].
  destruct (Z.leb_spec (q_Limit q) (Z.of_nat (length results'))); [|apply IH; lia].
  unfold limit_to. rewrite (proj2 (Z.ltb_lt _ _)) //. rewrite take_app_length'; [lia|done].
Qed.

(** ** Properties *)


(** The event an operation announces. *)
Definition announces (r : localServiceRegistry) (op : reg_op) : option ServiceEvent :=
  match op with
  | RRegister info clk _ =>
      loc ← info; si ← lr_info r !! loc; h ← si_Handle si;
      if nonempty (h_Name h) && bool_decide (lr_services r !! h_Name h = None)
      then Some (mkServiceEvent ServiceEventRegister loc (clk 1%nat)) else None
  | RUnregister name clk _ =>
      loc ← lr_services r !! name; Some (mkServiceEvent ServiceEventUnregister loc (clk 0%nat))
  | RUpdateStatus name status clk _ =>
      loc ← lr_services r !! name; si ← lr_info r !! loc;
      if decide (si_Status si = status) then None
      else Some (mkServiceEvent ServiceEventStatusChange loc (clk 1%nat))
  | RUpdateMetadata name _ clk _ =>
      loc ← lr_services r !! name; Some (mkServiceEvent ServiceEventMetadataChange loc (clk 0%nat))
  | _ => None
  end.

Definition announced (e : option ServiceEvent) (ch : chan ServiceEvent) : chan ServiceEvent :=
  match e with Some ev => push ev ch | None => ch end.

(** C26. Watchers see every change: in every reachable state each operation
    returns (no send on, and no second close of, a closed channel), and one that
    registers, unregisters, changes a status or merges metadata appends exactly
    its event to the channel of every live watcher that has room; an operation
    that fails, or sets the status a service already has, announces nothing. *)
Theorem watchers_see_changes r op :
  reg_reach r -> reg_ok r op ->
  exists r' e, reg_step r op = Ret (r', e) /\
    match op with
    | RRecv _ | RWatchDone _ _ => True
    | _ => forall id loc ch, lr_watchers r !! id = Some loc -> lr_chans r !! loc = Some ch ->
             lr_chans r' !! loc = Some (announced (announces r op) ch)
    end.
Proof.
  intros Hinv%reg_reach_inv Hok. destruct (reg_step_inv r op Hinv Hok) as (r' & e & Hs & _).
  exists r', e. split; [done|].
  destruct op as [si|info clk o|n clk o|n st clk o|n md clk o| |? ?|?]; simpl in *; try done;
    intros id loc ch Hid Hch.
  - by simplify_eq.
  - destruct (reg_Register_spec info clk o r Hinv Hok)
      as [[e' Hr]|(l & si & h & -> & Hsi & Hh & Hne & Hn & Hr)]; rewrite Hr in Hs; injection Hs as <- <-.
    + unfold reg_Register in Hr. destruct info as [l|]; [|done]. cbn in *.
      destruct (lr_info r !! l) as [si|]; [|done]. cbn in *. destruct (si_Handle si) as [h|]; [|done].
      cbn in *. destruct (nonempty (h_Name h)); [|done]. cbn in *.
      destruct (lr_services r !! h_Name h); [done|].
      by destruct (notifyWatchers _ _ _).
    + cbn [mbind option_bind]. rewrite Hsi. cbn [mbind option_bind]. rewrite Hh. cbn [mbind option_bind]. rewrite (proj2 (nonempty_true _) Hne) bool_decide_true //. cbn [andb announced].
      apply (deliver_chan _ _ id); unfold register_defaults; by destruct (si_Metadata si).
  - rewrite (reg_Unregister_spec n clk o r Hinv Hok) in Hs.
    destruct (lr_services r !! n) as [l|]; injection Hs as <- <-; [by apply (deliver_chan _ _ id)|done].
  - destruct (service_cases n r Hinv) as [Hn|(l & si & Hn & Hsi)].
    { unfold UpdateStatus in Hs. rewrite Hn in Hs |- *. by injection Hs as <- <-. }
    rewrite (UpdateStatus_spec n st clk o r l si) // in Hs. rewrite Hn. cbn [mbind option_bind].
    rewrite Hsi. cbn [mbind option_bind].
    case_decide; injection Hs as <- <-; [done|]. by apply (deliver_chan _ _ id).
  - destruct (service_cases n r Hinv) as [Hn|(l & si & Hn & Hsi)].
    { unfold UpdateMetadata in Hs. rewrite Hn in Hs |- *. by injection Hs as <- <-. }
    rewrite (UpdateMetadata_spec n md clk o r l si) // in Hs. rewrite Hn. injection Hs as <- <-.
    apply (deliver_chan _ _ id); unfold merge_metadata; by destruct (si_Metadata si).
  - simplify_eq. cbn -[u64]. rewrite lookup_insert_ne; [|done].
    pose proof (is_fresh (dom (lr_chans r))) as Hf%not_elem_of_dom. congruence.
Qed.

(** Register, get, unregister: a registration that succeeds makes its name
    resolve to that very object, with a status, metadata and a health check
    interval filled in, and no other name changes; a second registration under
    the name is refused without effect; unregistering makes the name unknown
    again. *)
Theorem register_get_unregister r loc clk order r' :
  reg_reach r -> range_order (lr_watchers r) order ->
  reg_Register (Some loc) clk order r = Ret (r', Ok tt) ->
  exists name si, reg_Get name r' = Ok loc /\ (exists e, reg_Get name r = Err e) /\
    (forall n, n <> name -> reg_Get n r' = reg_Get n r) /\
    lr_info r' !! loc = Some si /\ handle_name si = name /\
    si_Status si <> ServiceStatusUnknown /\ is_Some (si_Metadata si) /\ si_HealthCheckInterval si <> 0 /\
    (exists e, reg_Register (Some loc) clk order r' = Ret (r', Err e)) /\
    exists r'', reg_Unregister name clk order r' = Ret (r'', Ok tt) /\
      (forall n, reg_Get n r'' = reg_Get n r).
Proof.
  intros Hinv%reg_reach_inv Ho Hr.
  destruct (reg_Register_spec (Some loc) clk order r Hinv Ho)
    as [[e He]|(l & si & h & [= <-] & Hsi & Hh & Hne & Hn & Hr')]; [congruence|].
  rewrite Hr in Hr'. injection Hr' as ->.
  pose proof (registered_reg_inv clk loc si h r Hinv Hsi Hh Hne) as Hinv'.
  pose proof (registered_services clk loc si h r) as Hserv.
  destruct (registered_object clk loc si h r Hh) as (si' & Hsi' & Hh' & Hst & Hmd & Hint).
  exists (h_Name h), si'. unfold reg_Get. rewrite Hserv lookup_insert_eq Hn.
  split_and!; try done; [by eexists| |by rewrite /handle_name Hh'| |].
  - intros n Hnn. rewrite lookup_insert_ne; [congruence|done].
  - unfold reg_Register. cbn [mbind option_bind]. rewrite Hsi'. cbn [mbind option_bind]. rewrite Hh'.
    cbn [mbind option_bind]. rewrite (proj2 (nonempty_true _) Hne) Hserv lookup_insert_eq. by eexists.
  - rewrite (reg_Unregister_spec (h_Name h) clk order _ Hinv'); [by rewrite registered_watchers|].
    rewrite Hserv lookup_insert_eq. eexists. split; [done|]. intros n.
    cbn [lr_services with_services deliver with_chans]. rewrite delete_insert_eq delete_id //.
Qed.

(** The status of the object at an address. *)
Definition status_at (loc : nat) (r : localServiceRegistry) : option ServiceStatus :=
  si_Status <$> lr_info r !! loc.

(** A health check can undo a status update: [performHealthChecks] reads the
    status of a service that is due without the lock and writes it back later;
    an [UpdateStatus] that returned in between is lost. *)
Theorem health_check_can_undo_update r name loc si st now clk1 clk2 order :
  reg_reach r -> range_order (lr_watchers r) order ->
  lr_services r !! name = Some loc -> lr_info r !! loc = Some si ->
  si_HealthCheckInterval si < time_sub now (si_LastHealthCheck si) ->
  exists r1 r2, health_due now loc r = Some (name, si_Status si) /\
    UpdateStatus name st clk1 order r = Ret (r1, Ok tt) /\ status_at loc r1 = Some st /\
    UpdateStatus name (si_Status si) clk2 order r1 = Ret (r2, Ok tt) /\
    status_at loc r2 = Some (si_Status si).
Proof.
  intros Hinv%reg_reach_inv Ho Hn Hsi Hdue.
  destruct (service_object r name loc Hinv Hn) as (? & h & Hsi' & Hh & Hname & _). simplify_eq.
  assert (forall r status clk si, lr_info r !! loc = Some si -> reg_inv r -> range_order (lr_watchers r) order ->
    lr_services r !! h_Name h = Some loc ->
    exists r', UpdateStatus (h_Name h) status clk order r = Ret (r', Ok tt) /\
      lr_info r' !! loc = Some (set_status status (clk 0%nat) si) /\ lr_services r' = lr_services r /\
      lr_watchers r' = lr_watchers r /\ reg_inv r') as Hup.
  { clear. intros r status clk si Hsi Hinv Ho Hn. rewrite (UpdateStatus_spec _ status clk order r loc si) //.
    eexists. split; [done|]. pose proof (with_info_inv r loc si (set_status status (clk 0%nat) si) Hinv Hsi eq_refl).
    case_decide; (split; [cbn; by rewrite lookup_insert_eq|]); [done|]. split_and!; [done..|].
    by apply deliver_inv. }
  destruct (Hup r st clk1 si Hsi Hinv Ho Hn) as (r1 & H1 & Hsi1 & Hs1 & Hw1 & Hinv1).
  destruct (Hup r1 (si_Status si) clk2 _ Hsi1 Hinv1) as (r2 & H2 & Hsi2 & _);
    [by rewrite Hw1|by rewrite Hs1|].
  exists r1, r2. unfold status_at. rewrite Hsi1 Hsi2. split_and!; try done.
  unfold health_due, handle_name. rewrite Hsi /= Hh /=. by rewrite (proj2 (Z.ltb_lt _ _)).
Qed.

(** ** Runs the properties apply to *)

Definition demo_info (name : string) : ServiceInfo :=
  mkServiceInfo (Some (mkHandle 16777217 1 name 1 true)) "" "1.0.0" ["tag"] ServiceStatusUnknown None
    zero_time zero_time 0.
Definition demo_clk : clock := fun n => Z.of_nat n.

(** Three objects, a watcher, and one registration. *)
Definition demo_reg_ops : list reg_op :=
  [RAlloc (demo_info "db"); RAlloc (demo_info "web"); RAlloc (demo_info "db"); RWatch;
   RRegister (Some 0%nat) demo_clk [1]].
Fixpoint demo_reg_run (r : localServiceRegistry) (ops : list reg_op) : localServiceRegistry :=
  match ops with
  | [] => r
  | op :: ops' => match reg_step r op with Ret (r', _) => demo_reg_run r' ops' | _ => r end
  end.
Definition demo_reg : localServiceRegistry := demo_reg_run NewServiceRegistry demo_reg_ops.

Fixpoint demo_reg_ok (r : localServiceRegistry) (ops : list reg_op) : Prop :=
  match ops with
  | [] => True
  | op :: ops' => reg_ok r op /\ match reg_step r op with Ret (r', _) => demo_reg_ok r' ops' | _ => True end
  end.

Lemma demo_reg_run_reach r ops : reg_reach r -> demo_reg_ok r ops -> reg_reach (demo_reg_run r ops).
Proof.
  revert r. induction ops as [|op ops IH]; intros r Hr; [done|]. cbn [demo_reg_ok demo_reg_run].
  intros [Hok Hops]. destruct (reg_step r op) as [[r' e]| |] eqn:Hs; [|done..].
  apply IH; [|done]. exact (rreach_step r op r' e Hr Hok Hs).
Qed.

Lemma demo_reg_reach : reg_reach demo_reg.
Proof.
  apply demo_reg_run_reach; [apply rreach_new|]. vm_compute. split_and!; try done; reflexivity.
Qed.

Definition demo_query : ServiceQuery := mkServiceQuery "" "" ["tag"] [ServiceStatusHealthy] ∅ 1 5.


Lemma watchers_see_changes_witness :
  exists r' e, reg_step demo_reg (RUpdateStatus "db" ServiceStatusDraining demo_clk [1]) = Ret (r', e) /\
    exists ch, lr_chans r' !! 0%nat = Some ch /\ length (ch_buf ch) = 2%nat.
Proof.
  destruct (watchers_see_changes demo_reg (RUpdateStatus "db" ServiceStatusDraining demo_clk [1])
              demo_reg_reach) as (r' & e & H1 & H2); [vm_compute; reflexivity|].
  exists r', e. split; [exact H1|].
  eexists. split; [apply (H2 1 0%nat); vm_compute; reflexivity|vm_compute; reflexivity].
Defined.

Lemma register_get_unregister_witness :
  exists r', reg_Register (Some 1%nat) demo_clk [1] demo_reg = Ret (r', Ok tt) /\
    exists name, reg_Get name r' = Ok 1%nat.
Proof.
  assert (range_order (lr_watchers demo_reg) [1]) as Ho by (vm_compute; reflexivity).
  eexists. split; [vm_compute; reflexivity|].
  destruct (register_get_unregister demo_reg 1%nat demo_clk [1] _ demo_reg_reach Ho eq_refl)
    as (name & si & H1 & _).
  exists name. exact H1.
Defined.

Lemma health_check_can_undo_update_witness :
  exists r1 r2,
    UpdateStatus "db" ServiceStatusUnhealthy demo_clk [1] demo_reg = Ret (r1, Ok tt) /\
    UpdateStatus "db" ServiceStatusHealthy demo_clk [1] r1 = Ret (r2, Ok tt) /\
    status_at 0%nat r2 = Some ServiceStatusHealthy.
Proof.
  assert (range_order (lr_watchers demo_reg) [1]) as Ho by (vm_compute; reflexivity).
  assert (exists si, lr_info demo_reg !! 0%nat = Some si /\ si_Status si = ServiceStatusHealthy /\
    si_HealthCheckInterval si < time_sub 100 (si_LastHealthCheck si)) as (si & Hsi & Hst & Hdue)
    by (eexists; split_and!; [vm_compute; reflexivity..]).
  destruct (health_check_can_undo_update demo_reg "db" 0%nat si ServiceStatusUnhealthy 100 demo_clk demo_clk
              [1] demo_reg_reach Ho eq_refl Hsi Hdue) as (r1 & r2 & _ & H1 & _ & H2 & H3).
  rewrite Hst in H2 H3. exists r1, r2. split_and!; [exact H1|exact H2|exact H3].
Defined.
