(* ===== verification/LoadBalancer.v ===== *)
(** The load balancer (first half of src/core/service_discovery.go).

    Services are addresses of [ServiceInfo] objects in the registry's heap;
    [info] is that heap. A [float64] is a [spec_float] of precision 53 and
    maximal exponent 1024, with the standard rounding. What the conversion of a
    float64 outside the range of int gives is left open by the language: it is
    the parameter [oob]. The random generator is the parameter [pick]. *)

From Corelib Require Import SpecFloat.
From S2P Require Import Prelude CoreTypes Handle Registry.

Inductive LoadBalanceStrategy :=
| StrategyRoundRobin
| StrategyRandom
| StrategyLeastConnections
| StrategyWeightedRoundRobin
| StrategyConsistentHash
| StrategyOther (n : Z).

#[export] Instance LoadBalanceStrategy_eq_dec : EqDecision LoadBalanceStrategy.
Proof. solve_decision. Defined.

Definition LoadBalanceStrategy_String (s : LoadBalanceStrategy) : string :=
  match s with
  | StrategyRoundRobin => "round_robin"
  | StrategyRandom => "random"
  | StrategyLeastConnections => "least_connections"
  | StrategyWeightedRoundRobin => "weighted_round_robin"
  | StrategyConsistentHash => "consistent_hash"
  | StrategyOther _ => "unknown"
  end.

(** ** float64 *)

Definition float64 := spec_float.
Definition float64_of_int (z : Z) : float64 := binary_normalize 53 1024 z 0 false.
Definition fmul : float64 -> float64 -> float64 := SFmul 53 1024.
Definition fdiv : float64 -> float64 -> float64 := SFdiv 53 1024.

(** [int(f)]: the fraction is discarded. *)
Definition int_of_float64 (oob : float64 -> Z) (f : float64) : Z :=
  match f with
  | S754_zero _ => 0
  | S754_finite s m e =>
      let t := (if 0 <=? e then Zpos m * 2 ^ e else Zpos m / 2 ^ (- e)) in
      let z := if s then - t else t in
      if (min_int64 <=? z) && (z <=? max_int64) then z else oob f
  | _ => oob f
  end.

(** ** Metrics and balancer *)

Record ServiceMetrics := mkServiceMetrics {
  mt_ActiveConnections : Z;
  mt_TotalRequests : Z;
  mt_FailedRequests : Z;
  mt_AverageResponseTime : duration;
  mt_CPUUsage : float64;
  mt_MemoryUsage : float64;
  mt_CustomMetrics : gmap string float64;
  mt_LastUpdated : time;
}.

Definition SuccessRate (m : ServiceMetrics) : float64 :=
  if mt_TotalRequests m =? 0 then float64_of_int 1
  else
    let successful := i64 (mt_TotalRequests m - mt_FailedRequests m) in
    fdiv (float64_of_int successful) (float64_of_int (mt_TotalRequests m)).

Record weightedService := mkWeightedService { ws_Service : nat; ws_Weight : Z }.

Record loadBalancer := mkLoadBalancer {
  lb_strategy : LoadBalanceStrategy;
  lb_roundRobinIndex : Z;
  lb_metrics : gmap string ServiceMetrics;
  lb_weightedServices : list weightedService;
  lb_weightedIndex : Z;
}.

Definition NewLoadBalancer (strategy : LoadBalanceStrategy) : loadBalancer :=
  mkLoadBalancer strategy 0 ∅ [] 0.

Definition UpdateMetrics (serviceID : string) (metrics : ServiceMetrics) (now : time) (lb : loadBalancer)
    : loadBalancer :=
  let m := mkServiceMetrics (mt_ActiveConnections metrics) (mt_TotalRequests metrics)
    (mt_FailedRequests metrics) (mt_AverageResponseTime metrics) (mt_CPUUsage metrics)
    (mt_MemoryUsage metrics) (mt_CustomMetrics metrics) now in
  mkLoadBalancer (lb_strategy lb) (lb_roundRobinIndex lb) (<[serviceID := m]> (lb_metrics lb))
    (lb_weightedServices lb) (lb_weightedIndex lb).

Definition GetStrategy (lb : loadBalancer) : LoadBalanceStrategy := lb_strategy lb.

(** [s[i % len(s)]]: Go's remainder has the sign of the index, and a negative
    index panics. *)
Definition index_mod {A} (l : list A) (i : Z) : go A :=
  let j := Z.rem i (Z.of_nat (length l)) in
  if j <? 0 then Panic "index out of range"
  else match l !! Z.to_nat j with Some x => Ret x | None => Panic "index out of range" end.

Lemma filter_repeat_all {A} (f : A -> bool) x n : f x = true -> List.filter f (List.repeat x n) = List.repeat x n.
Proof. intros Hf. induction n as [|n IH]; [done|]. simpl. by rewrite Hf IH. Qed.

Lemma list_filter_none {A} (f : A -> bool) l : (forall x, In x l -> f x = false) -> List.filter f l = [].
Proof.
  induction l as [|x l IH]; intros Hf; [done|]. simpl. rewrite (Hf x (or_introl eq_refl)).
  apply IH. intros y Hy. apply Hf. by right.
Qed.

Section balancer.
Context (info : gmap nat ServiceInfo).
Context (oob : float64 -> Z).
Context (pick : nat -> nat).

Definition healthy (loc : nat) : bool :=
  match info !! loc with
  | Some si => bool_decide (si_Status si = ServiceStatusHealthy)
  | None => false
  end.

Definition filterHealthyServices (services : list nat) : list nat := List.filter healthy services.

(** [service.Handle.Name] *)
Definition name_of (loc : nat) : string := from_option handle_name "" (info !! loc).

(** The selections return a [*ServiceInfo]: [None], for [nil], on an empty list. *)
Definition selectRoundRobin (services : list nat) (lb : loadBalancer) : go (loadBalancer * option nat) :=
  if (length services =? 0)%nat then Ret (lb, None)
  else
    service ← index_mod services (lb_roundRobinIndex lb);
    Ret (mkLoadBalancer (lb_strategy lb) (i64 (lb_roundRobinIndex lb + 1)) (lb_metrics lb)
           (lb_weightedServices lb) (lb_weightedIndex lb), Some service).

(** [lb.rand.Intn(len(services))] is [pick (length services)]. *)
Definition selectRandom (services : list nat) : go (option nat) :=
  if (length services =? 0)%nat then Ret None
  else
    match services !! pick (length services) with
    | Some s => Ret (Some s)
    | None => Panic "index out of range"
    end.

Definition connections (lb : loadBalancer) (loc : nat) : Z :=
  match lb_metrics lb !! name_of loc with Some m => mt_ActiveConnections m | None => 0 end.

Fixpoint least_loop (lb : loadBalancer) (services : list nat) (bestService : nat) (bestConnections : Z)
    : nat :=
  match services with
  | [] => bestService
  | s :: services' =>
      let c := connections lb s in
      if c <? bestConnections then least_loop lb services' s c
      else least_loop lb services' bestService bestConnections
  end.

Definition selectLeastConnections (services : list nat) (lb : loadBalancer) : option nat :=
  match services with
  | [] => None
  | s0 :: _ => Some (least_loop lb services s0 max_int64)
  end.

Definition clamp (weight : Z) : Z :=
  let weight := if weight <? 1 then 1 else weight in
  if 100 <? weight then 100 else weight.

(** [AverageResponseTime.Milliseconds()] truncates. *)
Definition getServiceWeight (lb : loadBalancer) (loc : nat) : Z :=
  match lb_metrics lb !! name_of loc with
  | None => 1
  | Some metrics =>
      let responseTimeFactor :=
        if 0 <? mt_AverageResponseTime metrics
        then fdiv (float64_of_int 1000)
               (float64_of_int (Z.quot (mt_AverageResponseTime metrics) Millisecond))
        else float64_of_int 1 in
      clamp (int_of_float64 oob
               (fmul (fmul (SuccessRate metrics) responseTimeFactor) (float64_of_int 10)))
  end.

Definition buildWeightedServices (lb : loadBalancer) (services : list nat) : list weightedService :=
  flat_map (fun s => let weight := getServiceWeight lb s in
                     List.repeat (mkWeightedService s weight) (Z.to_nat weight)) services.

Definition selectWeightedRoundRobin (services : list nat) (lb : loadBalancer)
    : go (loadBalancer * option nat) :=
  match services with
  | [] => Ret (lb, None)
  | s0 :: _ =>
      let ws := if decide (length (lb_weightedServices lb) = length services) then lb_weightedServices lb
                else buildWeightedServices lb services in
      if (length ws =? 0)%nat
      then Ret (mkLoadBalancer (lb_strategy lb) (lb_roundRobinIndex lb) (lb_metrics lb) ws
                  (lb_weightedIndex lb), Some s0)
      else
        service ← index_mod ws (lb_weightedIndex lb);
        Ret (mkLoadBalancer (lb_strategy lb) (lb_roundRobinIndex lb) (lb_metrics lb) ws
               (i64 (lb_weightedIndex lb + 1)), Some (ws_Service service))
  end.

Definition Select (services : list nat) (lb : loadBalancer) : go (loadBalancer * res (option nat)) :=
  if (length services =? 0)%nat then Ret (lb, Err "no services available")
  else
    let healthyServices := filterHealthyServices services in
    if (length healthyServices =? 0)%nat then Ret (lb, Err "no healthy services available")
    else
      match lb_strategy lb with
      | StrategyRoundRobin => '(lb', s) ← selectRoundRobin healthyServices lb; Ret (lb', Ok s)
      | StrategyRandom => s ← selectRandom healthyServices; Ret (lb, Ok s)
      | StrategyLeastConnections => Ret (lb, Ok (selectLeastConnections healthyServices lb))
      | StrategyWeightedRoundRobin =>
          '(lb', s) ← selectWeightedRoundRobin healthyServices lb; Ret (lb', Ok s)
      | StrategyConsistentHash => s ← selectRandom healthyServices; Ret (lb, Ok s)
      | StrategyOther _ =>
          match healthyServices with
          | s :: _ => Ret (lb, Ok (Some s))
          | [] => Panic "index out of range"
          end
      end.

(** [n] selections in a row from the same list. *)
Fixpoint select_n (n : nat) (services : list nat) (lb : loadBalancer)
    : go (loadBalancer * list (res (option nat))) :=
  match n with
  | O => Ret (lb, [])
  | S n' =>
      '(lb1, s) ← Select services lb;
      '(lb2, ss) ← select_n n' services lb1;
      Ret (lb2, s :: ss)
  end.

(** ** Lemmas *)

Lemma index_mod_spec {A} (l : list A) i :
  0 <= i -> l <> [] -> exists x, index_mod l i = Ret x /\
    l !! Z.to_nat (i mod Z.of_nat (length l)) = Some x.
Proof.
  intros Hi Hl. unfold index_mod.
  assert (0 < Z.of_nat (length l)) as Hlen by (destruct l; [done|simpl; lia]).
  rewrite Z.rem_mod_nonneg; [lia..|]. pose proof (Z.mod_pos_bound i _ Hlen) as Hb.
  rewrite (proj2 (Z.ltb_ge _ _)); [lia|].
  destruct (lookup_lt_is_Some_2 l (Z.to_nat (i mod Z.of_nat (length l)))) as [x Hx]; [lia|].
  exists x. by rewrite Hx.
Qed.

Lemma elem_of_healthy services loc :
  loc ∈ filterHealthyServices services <-> loc ∈ services /\ healthy loc = true.
Proof. unfold filterHealthyServices. by rewrite list_elem_of_In List.filter_In -list_elem_of_In. Qed.

Lemma least_loop_spec lb services best c :
  c <= max_int64 -> (connections lb best = c \/ (c = max_int64 /\ best ∈ services)) ->
  (forall s, s ∈ services -> connections lb s <= max_int64) ->
  let s := least_loop lb services best c in
  (s = best \/ s ∈ services) /\ connections lb s <= c /\
  forall s', s' ∈ services -> connections lb s <= connections lb s'.
Proof.
  revert best c. induction services as [|s0 services IH]; intros best c Hc Hbest Hmax; simpl.
  { destruct Hbest as [->|[_ ?%not_elem_of_nil]]; [|done]. split_and!; [by left|lia|].
    by intros ? ?%not_elem_of_nil. }
  pose proof (Hmax s0 (list_elem_of_here s0 services)) as Hs0.
  destruct (Z.ltb_spec (connections lb s0) c) as [Hlt|Hge].
  - destruct (IH s0 (connections lb s0)) as (Hin & Hle & Hall); [lia|by left|set_solver|].
    split_and!; [set_solver|lia|]. intros s' [->|Hs']%elem_of_cons; [done|by apply Hall].
  - assert (connections lb best = c \/ c = max_int64 /\ best ∈ services) as Hb.
    { destruct Hbest as [?|[-> [->|?]%elem_of_cons]]; [by left|left; lia|by right]. }
    destruct (IH best c) as (Hin & Hle & Hall); [done|done|set_solver|].
    split_and!; [set_solver|lia|]. intros s' [->|Hs']%elem_of_cons; [lia|by apply Hall].
Qed.

Lemma least_loop_in lb services best c :
  least_loop lb services best c = best \/ least_loop lb services best c ∈ services.
Proof.
  revert best c. induction services as [|s services IH]; intros best c; simpl; [by left|].
  destruct (connections lb s <? c); [destruct (IH s (connections lb s))|destruct (IH best c)]; set_solver.
Qed.

Lemma clamp_bounds w : 1 <= clamp w <= 100.
Proof.
  unfold clamp. destruct (Z.ltb_spec w 1); [done|]. destruct (Z.ltb_spec 100 w); lia.
Qed.

Lemma Select_nonempty services :
  filterHealthyServices services <> [] ->
  (length services =? 0)%nat = false /\ (length (filterHealthyServices services) =? 0)%nat = false.
Proof.
  intros Hne. split; apply Nat.eqb_neq.
  - destruct services; [done|simpl; lia].
  - destruct (filterHealthyServices services); [done|simpl; lia].
Qed.

(** One round robin selection. *)
Lemma Select_round_robin services lb :
  lb_strategy lb = StrategyRoundRobin -> 0 <= lb_roundRobinIndex lb ->
  filterHealthyServices services <> [] ->
  let hs := filterHealthyServices services in
  exists s, hs !! Z.to_nat (lb_roundRobinIndex lb mod Z.of_nat (length hs)) = Some s /\
    Select services lb = Ret (mkLoadBalancer (lb_strategy lb) (i64 (lb_roundRobinIndex lb + 1))
                         (lb_metrics lb) (lb_weightedServices lb) (lb_weightedIndex lb), Ok (Some s)).
Proof.
  intros Hst Hi Hne hs. destruct (Select_nonempty services Hne) as [H1 H2].
  destruct (index_mod_spec hs (lb_roundRobinIndex lb) Hi Hne) as (s & Hs & Hl). exists s.
  split; [done|]. unfold Select. rewrite H1 H2 Hst. fold hs. unfold selectRoundRobin. fold hs in H2. by rewrite H2 Hs /= Hst.
Qed.

(** [k] of them. *)
Lemma select_n_round_robin k services lb :
  lb_strategy lb = StrategyRoundRobin -> 0 <= lb_roundRobinIndex lb ->
  lb_roundRobinIndex lb + Z.of_nat k < 2 ^ 63 -> filterHealthyServices services <> [] ->
  let hs := filterHealthyServices services in
  exists lb' l, select_n k services lb = Ret (lb', Ok ∘ Some <$> l) /\ length l = k /\
    forall j, (j < k)%nat ->
      l !! j = hs !! Z.to_nat ((lb_roundRobinIndex lb + Z.of_nat j) mod Z.of_nat (length hs)).
Proof.
  intros Hst Hi Hb Hne hs. revert lb Hst Hi Hb. induction k as [|k IH]; intros lb Hst Hi Hb.
  { exists lb, []. split_and!; [done..|]. lia. }
  destruct (Select_round_robin services lb Hst Hi Hne) as (s & Hs & Hsel). cbn [select_n].
  rewrite Hsel. cbn [mbind go_bind]. rewrite i64_id; [unfold is_i64; lia|].
  match goal with |- context [select_n k services ?x] =>
    destruct (IH x) as (lb' & l & Hrun & Hlen & Hl); [done|cbn; lia..|] end.
  rewrite Hrun. exists lb', (s :: l). split_and!; [done|by rewrite /= Hlen|].
  intros [|j] Hj.
  - by rewrite Z.add_0_r.
  - cbn [lookup list_lookup]. rewrite Hl; [lia|]. cbn [lb_roundRobinIndex]. do 3 f_equal. lia.
Qed.

(** Visiting the positions of a list once around, from any of them. *)
Lemma rotation_perm {A} (hs l : list A) i :
  0 <= i -> hs <> [] -> length l = length hs ->
  (forall j, (j < length hs)%nat -> l !! j = hs !! Z.to_nat ((i + Z.of_nat j) mod Z.of_nat (length hs))) ->
  l ≡ₚ hs.
Proof.
  intros Hi Hne Hlen Hl. set (n := length hs) in *.
  assert (0 < n)%nat as Hn by (unfold n; destruct hs; [done|simpl; lia]).
  set (r := Z.to_nat (i mod Z.of_nat n)). assert (r < n)%nat as Hr.
  { unfold r. pose proof (Z.mod_pos_bound i (Z.of_nat n)). lia. }
  enough (l = drop r hs ++ take r hs) as -> by (by rewrite (comm (++)) take_drop).
  apply list_eq. intros j. destruct (decide (j < n)%nat) as [Hj|Hj].
  - rewrite Hl //. assert ((i + Z.of_nat j) mod Z.of_nat n = (Z.of_nat r + Z.of_nat j) mod Z.of_nat n) as ->.
    { unfold r. rewrite Z2Nat.id; [apply Z.mod_pos_bound; lia|]. by rewrite Zplus_mod_idemp_l. }
    destruct (decide (r + j < n)%nat) as [Hlt|Hge].
    + rewrite Z.mod_small; [lia|]. rewrite lookup_app_l; [rewrite length_drop; fold n; lia|].
      rewrite lookup_drop. f_equal. lia.
    + rewrite -(Z_mod_plus_full _ (-1)) Z.mod_small; [lia|].
      rewrite lookup_app_r; [rewrite length_drop; fold n; lia|]. rewrite length_drop. fold n.
      rewrite lookup_take_lt; [lia|]. f_equal. lia.
  - rewrite !lookup_ge_None_2 //; [lia|rewrite length_app length_drop length_take; fold n; lia].
Qed.

(** ** Properties *)

(** Selection is sound and complete: with any strategy but the weighted one,
    [Select] returns a healthy member of the list whenever there is one, and an
    error, leaving its state alone, when there is none. *)
Theorem select_returns_healthy services lb :
  lb_strategy lb <> StrategyWeightedRoundRobin -> 0 <= lb_roundRobinIndex lb ->
  (forall n, (0 < n)%nat -> (pick n < n)%nat) ->
  (forall s, s ∈ services -> healthy s = false) /\ (exists e, Select services lb = Ret (lb, Err e)) \/
  (exists lb' s, Select services lb = Ret (lb', Ok (Some s)) /\ s ∈ services /\ healthy s = true).
Proof.
  intros Hst Hi Hpick. destruct (decide (filterHealthyServices services = [])) as [Hnil|Hne].
  - left. split.
    + intros s Hs. apply not_true_iff_false. intros Hh.
      assert (s ∈ filterHealthyServices services) as Hin by by apply elem_of_healthy.
      rewrite Hnil in Hin. by apply not_elem_of_nil in Hin.
    + unfold Select. rewrite Hnil. destruct (length services =? 0)%nat; by eexists.
  - right. destruct (Select_nonempty services Hne) as [H1 H2].
    setoid_rewrite <- elem_of_healthy.
    set (hs := filterHealthyServices services) in *.
    assert (exists s, selectRandom hs = Ret (Some s) /\ s ∈ hs) as (sr & Hsr & Hsrin).
    { unfold selectRandom. rewrite H2. destruct (lookup_lt_is_Some_2 hs (pick (length hs))) as [s Hs].
      { apply Hpick. destruct hs; [done|simpl; lia]. }
      rewrite Hs. exists s. split; [done|]. by apply list_elem_of_lookup_2 in Hs. }
    unfold Select. rewrite H1 H2. fold hs. destruct (lb_strategy lb) eqn:E; try done.
    + destruct (index_mod_spec hs (lb_roundRobinIndex lb) Hi Hne) as (s & Hs & Hl).
      unfold selectRoundRobin. rewrite H2 Hs. eexists _, s. split; [done|]. by apply list_elem_of_lookup_2 in Hl.
    + rewrite Hsr. by eexists _, _.
    + unfold selectLeastConnections. destruct hs as [|s0 hs'] eqn:Hhs; [done|].
      eexists _, _. split; [done|]. destruct (least_loop_in lb (s0 :: hs') s0 max_int64) as [->|?]; [by left|done].
    + rewrite Hsr. by eexists _, _.
    + destruct hs as [|s0 hs']; [done|]. eexists _, s0. split; [done|]. by left.
Qed.

(** C27. Round robin is fair: from any state of the balancer (its index not about
    to overflow), as many selections in a row as there are healthy services
    return every healthy service exactly as often as it is listed. *)
Theorem round_robin_fair services lb :
  lb_strategy lb = StrategyRoundRobin -> 0 <= lb_roundRobinIndex lb ->
  filterHealthyServices services <> [] ->
  lb_roundRobinIndex lb + Z.of_nat (length (filterHealthyServices services)) < 2 ^ 63 ->
  exists lb' l, select_n (length (filterHealthyServices services)) services lb = Ret (lb', Ok ∘ Some <$> l) /\
    l ≡ₚ filterHealthyServices services.
Proof.
  intros Hst Hi Hne Hb.
  destruct (select_n_round_robin _ services lb Hst Hi Hb Hne) as (lb' & l & Hrun & Hlen & Hl).
  exists lb', l. split; [done|]. by apply (rotation_perm _ _ (lb_roundRobinIndex lb)).
Qed.

(** Least connections: the selected service is healthy, listed, and no
    healthy listed service has fewer active connections. *)
Theorem least_connections_picks_min services lb :
  lb_strategy lb = StrategyLeastConnections -> filterHealthyServices services <> [] ->
  (forall n m, lb_metrics lb !! n = Some m -> mt_ActiveConnections m <= max_int64) ->
  exists s, Select services lb = Ret (lb, Ok (Some s)) /\ s ∈ services /\ healthy s = true /\
    forall s', s' ∈ services -> healthy s' = true -> connections lb s <= connections lb s'.
Proof.
  intros Hst Hne Hmax. destruct (Select_nonempty services Hne) as [H1 H2].
  unfold Select. rewrite H1 H2 Hst. unfold selectLeastConnections.
  destruct (filterHealthyServices services) as [|s0 hs'] eqn:Hhs; [done|].
  destruct (least_loop_spec lb (s0 :: hs') s0 max_int64) as (Hin & _ & Hall).
  { lia. } { right. split; [done|by left]. }
  { intros s _. unfold connections. destruct (lb_metrics lb !! name_of s) as [m|] eqn:Hm; [|done].
    by apply (Hmax (name_of s)). }
  assert (least_loop lb (s0 :: hs') s0 max_int64 ∈ filterHealthyServices services) as Hs.
  { rewrite Hhs. destruct Hin as [->|?]; [by left|done]. }
  eexists. split; [done|]. apply elem_of_healthy in Hs as [??]. split_and!; [done..|].
  intros s' Hs' Hh'. apply Hall. rewrite -Hhs. by apply elem_of_healthy.
Qed.

(** Weights: every service weighs between 1 and 100, whatever its metrics
    and whatever the platform makes of a float64 that does not fit an int, and
    the weighted list holds every service exactly as many times as it weighs. *)
Theorem weighted_list_by_weight services lb s :
  NoDup services -> s ∈ services ->
  1 <= getServiceWeight lb s <= 100 /\
  length (List.filter (fun w => ws_Service w =? s)%nat (buildWeightedServices lb services)) =
    Z.to_nat (getServiceWeight lb s).
Proof.
  intros Hnd Hs. split.
  - unfold getServiceWeight. destruct (lb_metrics lb !! name_of s); [apply clamp_bounds|lia].
  - unfold buildWeightedServices. induction Hnd as [|x services Hx Hnd IH]; [by apply not_elem_of_nil in Hs|].
    simpl. rewrite List.filter_app length_app. apply elem_of_cons in Hs as [->|Hs].
    + rewrite filter_repeat_all; [apply Nat.eqb_refl|]. rewrite repeat_length.
      enough (List.filter (fun w => ws_Service w =? x)%nat (flat_map _ services) = []) as -> by (simpl; lia).
      apply list_filter_none. intros w Hw%List.in_flat_map. destruct Hw as (y & Hy & ->%List.repeat_spec).
      simpl. apply Nat.eqb_neq. intros ->. by apply Hx, list_elem_of_In.
    + rewrite list_filter_none; [|by apply IH].
      intros w ->%List.repeat_spec. simpl. apply Nat.eqb_neq. by intros ->.
Qed.
End balancer.

(** The weighted strategy can return a service it was not offered: the
    weighted list is rebuilt only when its length differs from the number of
    healthy services, so two services of default weight that went away are still
    selected when two others are offered. *)
Lemma weighted_select_can_be_stale info oob pick a b c d :
  Forall (fun s => healthy info s = true) [a; b; c; d] -> a ∉ [c; d] -> b ∉ [c; d] ->
  exists lb1 lb2 s,
    Select info oob pick [a; b] (NewLoadBalancer StrategyWeightedRoundRobin) = Ret (lb1, Ok (Some a)) /\
    Select info oob pick [c; d] lb1 = Ret (lb2, Ok (Some s)) /\ s ∉ [c; d].
Proof.
  intros Hh Ha Hb. rewrite !Forall_cons in Hh. destruct Hh as (Ha' & Hb' & Hc' & Hd' & _).
  eexists _, _, b. split_and!; [| |done].
  - unfold Select, filterHealthyServices. simpl. rewrite Ha' Hb'. reflexivity.
  - unfold Select, filterHealthyServices. simpl. rewrite Hc' Hd'. reflexivity.
Qed.

(** Where an out-of-range conversion gives the smallest int, as it does on
    amd64, a service that answers in half a millisecond weighs 1 and one that
    takes a whole millisecond weighs 100: the truncated milliseconds divide by
    zero. *)
Definition demo_services : gmap nat ServiceInfo :=
  list_to_map ((fun i => (i, set_status ServiceStatusHealthy 0 (demo_info (if decide (i = 0%nat) then "a" else "b"))))
                 <$> seq 0 4).
Definition demo_metrics (conns : Z) (avg : duration) : ServiceMetrics :=
  mkServiceMetrics conns 100 0 avg (float64_of_int 0) (float64_of_int 0) ∅ 0.
Definition demo_lb (strategy : LoadBalanceStrategy) : loadBalancer :=
  UpdateMetrics "a" (demo_metrics 7 500000) 0 (UpdateMetrics "b" (demo_metrics 3 1000000) 0 (NewLoadBalancer strategy)).

Lemma submillisecond_weighs_least :
  getServiceWeight demo_services (fun _ => min_int64) (demo_lb StrategyWeightedRoundRobin) 0 = 1 /\
  getServiceWeight demo_services (fun _ => min_int64) (demo_lb StrategyWeightedRoundRobin) 1 = 100.
Proof. vm_compute. done. Qed.

(** ** Inputs the properties apply to *)

Lemma select_returns_healthy_witness :
  exists lb' s, Select demo_services (fun _ => 0) (fun _ => 0%nat) [2; 1]%nat (NewLoadBalancer StrategyRandom)
    = Ret (lb', Ok (Some s)) /\ s ∈ [2; 1]%nat.
Proof.
  destruct (select_returns_healthy demo_services (fun _ => 0) (fun _ => 0%nat) [2; 1]%nat
              (NewLoadBalancer StrategyRandom)) as [[Hno _]|(lb' & s & H1 & H2 & _)].
  - discriminate.
  - vm_compute. congruence.
  - intros n Hn. exact Hn.
  - exfalso. specialize (Hno 2%nat (list_elem_of_here _ _)). vm_compute in Hno. discriminate.
  - exists lb', s. split; [exact H1|exact H2].
Defined.

Lemma round_robin_fair_witness :
  exists lb' l, select_n demo_services (fun _ => 0) (fun _ => 0%nat) 3 [2; 1; 3]%nat
      (NewLoadBalancer StrategyRoundRobin) = Ret (lb', Ok ∘ Some <$> l) /\ l ≡ₚ [2; 1; 3]%nat.
Proof.
  apply (round_robin_fair demo_services (fun _ => 0) (fun _ => 0%nat) [2; 1; 3]%nat
           (NewLoadBalancer StrategyRoundRobin)); [reflexivity|vm_compute; congruence|discriminate|reflexivity].
Defined.

Lemma least_connections_picks_min_witness :
  exists s, Select demo_services (fun _ => 0) (fun _ => 0%nat) [0; 1]%nat (demo_lb StrategyLeastConnections) =
      Ret (demo_lb StrategyLeastConnections, Ok (Some s)) /\
    connections demo_services (demo_lb StrategyLeastConnections) s <= 3.
Proof.
  destruct (least_connections_picks_min demo_services (fun _ => 0) (fun _ => 0%nat) [0; 1]%nat
              (demo_lb StrategyLeastConnections)) as (s & H1 & _ & _ & H2).
  - reflexivity.
  - discriminate.
  - intros n m. cbn. intros [[_ <-]|[_ [[_ <-]|[_ H]]%lookup_insert_Some]]%lookup_insert_Some; [vm_compute; congruence..|].
    discriminate H.
  - exists s. split; [exact H1|]. exact (H2 1%nat ltac:(set_solver) eq_refl).
Defined.

Lemma weighted_list_by_weight_witness :
  1 <= getServiceWeight demo_services (fun _ => 0) (demo_lb StrategyWeightedRoundRobin) 1 <= 100.
Proof.
  apply (weighted_list_by_weight demo_services (fun _ => 0) [0; 1]%nat (demo_lb StrategyWeightedRoundRobin) 1%nat).
  - repeat constructor; set_solver.
  - set_solver.
Defined.
