(* ===== verification/Discovery.v ===== *)
(** Service discovery (second half of src/core/service_discovery.go): the
    registry of Registry.v behind the load balancer of LoadBalancer.v. *)

From S2P Require Import Prelude CoreTypes Handle Registry LoadBalancer.

(** [ri_Metadata]: the address of the map in the registry's heap. *)
Record ServiceRegistrationInfo := mkRegistrationInfo {
  rg_Description : string;
  rg_Version : string;
  rg_Tags : list string;
  rg_Metadata : option nat;
  rg_HealthCheckInterval : duration;
}.

Record serviceDiscovery := mkServiceDiscovery {
  sd_registry : localServiceRegistry;
  sd_loadBalancer : loadBalancer;
}.

Definition NewServiceDiscovery : serviceDiscovery :=
  mkServiceDiscovery NewServiceRegistry (NewLoadBalancer StrategyRoundRobin).

(** [clk 0] is the registration time; the registry reads the clock from [clk 1]
    on. *)
Definition discovery_info (handle : option Handle) (info : ServiceRegistrationInfo) (now : time) : ServiceInfo :=
  mkServiceInfo handle (rg_Description info) (rg_Version info) (rg_Tags info) ServiceStatusHealthy
    (rg_Metadata info) now zero_time
    (if rg_HealthCheckInterval info =? 0 then 30 * Second else rg_HealthCheckInterval info).

Definition sd_RegisterService (handle : option Handle) (info : ServiceRegistrationInfo) (clk : clock)
    (order : list Z) (sd : serviceDiscovery) : go (serviceDiscovery * res unit) :=
  let loc := fresh (dom (lr_info (sd_registry sd))) in
  '(r', e) ← reg_Register (Some loc) (fun n => clk (S n)) order
               (with_info loc (discovery_info handle info (clk 0%nat)) (sd_registry sd));
  Ret (mkServiceDiscovery r' (sd_loadBalancer sd), e).

Definition sd_UnregisterService (name : string) (clk : clock) (order : list Z) (sd : serviceDiscovery)
    : go (serviceDiscovery * res unit) :=
  '(r', e) ← reg_Unregister name clk order (sd_registry sd);
  Ret (mkServiceDiscovery r' (sd_loadBalancer sd), e).

Definition name_query (name : string) : ServiceQuery := mkServiceQuery name "" [] [] ∅ 0 0.

Definition DiscoverService (oob : float64 -> Z) (pick : nat -> nat) (name : string) (order : list string)
    (sd : serviceDiscovery) : go (serviceDiscovery * res (option nat)) :=
  match Discover (name_query name) order (sd_registry sd) with
  | Err e => Ret (sd, Err e)
  | Ok services =>
      if (length services =? 0)%nat then Ret (sd, Err ("service '" +:+ name +:+ "' not found"))
      else
        '(lb', r) ← Select (lr_info (sd_registry sd)) oob pick services (sd_loadBalancer sd);
        Ret (mkServiceDiscovery (sd_registry sd) lb', r)
  end.

Definition DiscoverServices (query : ServiceQuery) (order : list string) (sd : serviceDiscovery)
    : res (list nat) := Discover query order (sd_registry sd).

Definition UpdateServiceHealth (name : string) (status : ServiceStatus) (clk : clock) (order : list Z)
    (sd : serviceDiscovery) : go (serviceDiscovery * res unit) :=
  '(r', e) ← UpdateStatus name status clk order (sd_registry sd);
  Ret (mkServiceDiscovery r' (sd_loadBalancer sd), e).

Definition UpdateServiceMetrics (name : string) (metrics : ServiceMetrics) (now : time)
    (sd : serviceDiscovery) : serviceDiscovery :=
  mkServiceDiscovery (sd_registry sd) (UpdateMetrics name metrics now (sd_loadBalancer sd)).

Definition SetLoadBalanceStrategy (strategy : LoadBalanceStrategy) (sd : serviceDiscovery)
    : serviceDiscovery := mkServiceDiscovery (sd_registry sd) (NewLoadBalancer strategy).

(** ** What a name query finds: the object of that name, alone *)

Lemma Discover_name r name order :
  reg_inv r -> range_order (lr_services r) order -> name <> "" ->
  Discover (name_query name) order r = Ok (match lr_services r !! name with Some loc => [loc] | None => [] end).
Proof.
  intros Hinv Ho Hne. unfold Discover. rewrite discover_loop_spec; [simpl; lia|]. f_equal.
  unfold limit_to. cbn [q_Limit name_query Z.ltb Z.compare app].
  assert (forall n loc, lr_services r !! n = Some loc ->
    selected r (name_query name) loc = bool_decide (n = name)) as Hsel.
  { intros n loc Hn. destruct (service_object r n loc Hinv Hn) as (si & h & Hsi & Hh & Hname & _).
    unfold selected. rewrite Hsi. apply eq_true_iff_eq. rewrite matchesQuery_spec bool_decide_eq_true.
    split.
    - intros [[?|Hm] _ _ _ _ _]; [done|]. revert Hm. unfold handle_name. rewrite Hh. cbn. congruence.
    - intros ->. split; cbn; try (by left); [right; by rewrite /handle_name Hh| |].
      + by intros ? ?%not_elem_of_nil.
      + intros k v. by rewrite lookup_empty. }
  pose proof (NoDup_range_order _ _ Ho) as Hnd.
  assert (forall ns, NoDup ns -> (forall n, n ∈ ns -> is_Some (lr_services r !! n)) ->
    List.filter (selected r (name_query name)) (range_vals (lr_services r) ns) =
    if decide (name ∈ ns) then match lr_services r !! name with Some loc => [loc] | None => [] end else []) as Hf.
  { intros ns Hns. induction Hns as [|n ns Hn Hns IH]; intros Hall; [done|].
    destruct (Hall n (list_elem_of_here _ _)) as [loc Hloc].
    rewrite (range_vals_cons_Some _ _ _ loc Hloc). simpl. rewrite (Hsel n loc Hloc).
    rewrite IH; [intros n' Hn'; apply Hall; by right|].
    case_bool_decide as Hd; subst.
    - rewrite decide_False // decide_True; [by left|]. by rewrite Hloc.
    - destruct (decide (name ∈ ns)); [rewrite decide_True; [by right|done]|].
      rewrite decide_False; [|done]. intros [?|?]%elem_of_cons; congruence. }
  rewrite Hf //; [intros n Hn; by apply (elem_of_range_order _ _ n Ho)|].
  case_decide as Hin; [done|]. destruct (lr_services r !! name) eqn:E; [|done].
  destruct Hin. apply (elem_of_range_order _ _ name Ho). by rewrite E.
Qed.

(** ** Properties *)

(** Discovering by name: with any strategy but the weighted one,
    [DiscoverService] returns the object registered under the name when it is
    healthy, and an error when the name is not registered or not healthy,
    whatever order the registry's map is visited in. *)
Theorem discover_service_correct sd oob pick name order :
  reg_reach (sd_registry sd) -> range_order (lr_services (sd_registry sd)) order -> name <> "" ->
  lb_strategy (sd_loadBalancer sd) <> StrategyWeightedRoundRobin ->
  0 <= lb_roundRobinIndex (sd_loadBalancer sd) -> (forall n, (0 < n)%nat -> (pick n < n)%nat) ->
  exists sd' r, DiscoverService oob pick name order sd = Ret (sd', r) /\
    match lr_services (sd_registry sd) !! name with
    | None => r = Err ("service '" +:+ name +:+ "' not found")
    | Some loc =>
        if decide (status_at loc (sd_registry sd) = Some ServiceStatusHealthy) then r = Ok (Some loc)
        else r = Err "no healthy services available"
    end.
Proof.
  intros Hinv%reg_reach_inv Ho Hne Hst Hi Hpick. unfold DiscoverService.
  rewrite (Discover_name _ _ _ Hinv Ho Hne).
  destruct (lr_services (sd_registry sd) !! name) as [loc|]; [|by eexists _, _]. cbn [length Nat.eqb].
  assert (healthy (lr_info (sd_registry sd)) loc =
    bool_decide (status_at loc (sd_registry sd) = Some ServiceStatusHealthy)) as Hh.
  { unfold healthy, status_at. destruct (lr_info (sd_registry sd) !! loc); [|done].
    apply bool_decide_ext. cbn. split; [by intros ->|by intros [= ->]]. }
  case_decide as Hd.
  - rewrite bool_decide_true // in Hh.
    assert (exists lb', Select (lr_info (sd_registry sd)) oob pick [loc] (sd_loadBalancer sd) = Ret (lb', Ok (Some loc)))
      as [lb' ->]; [|by eexists _, _].
    unfold Select, filterHealthyServices. cbn [length Nat.eqb List.filter]. rewrite Hh. cbn [length Nat.eqb].
    assert (pick 1%nat = 0%nat) as Hp by (specialize (Hpick 1%nat); lia).
    unfold selectRoundRobin, selectRandom, selectLeastConnections. cbn [length]. rewrite Hp.
    destruct (lb_strategy (sd_loadBalancer sd)) eqn:Est.
    + destruct (index_mod_spec [loc] (lb_roundRobinIndex (sd_loadBalancer sd)) Hi) as (s & -> & Hs); [done|].
      cbn [length] in Hs. rewrite Z.mod_1_r in Hs. injection Hs as <-. eexists. reflexivity.
    + eexists. reflexivity.
    + cbn [least_loop]. destruct (_ <? _); eexists; reflexivity.
    + done.
    + eexists. reflexivity.
    + eexists. reflexivity.
  - rewrite bool_decide_false // in Hh. unfold Select, filterHealthyServices.
    cbn [length Nat.eqb List.filter]. rewrite Hh. cbn. by eexists _, _.
Qed.

(** With the weighted strategy, discovering one service can return another:
    after a service of default weight was discovered, the weighted list has one
    entry, the same number as a query by name finds, so the next discovery, of
    whatever healthy service, returns the first one again. *)
Theorem weighted_discovery_returns_other sd oob pick a b la lb order :
  reg_reach (sd_registry sd) -> range_order (lr_services (sd_registry sd)) order ->
  sd_loadBalancer sd = NewLoadBalancer StrategyWeightedRoundRobin ->
  a <> b -> lr_services (sd_registry sd) !! a = Some la -> lr_services (sd_registry sd) !! b = Some lb ->
  status_at la (sd_registry sd) = Some ServiceStatusHealthy ->
  status_at lb (sd_registry sd) = Some ServiceStatusHealthy ->
  exists sd1 sd2, DiscoverService oob pick a order sd = Ret (sd1, Ok (Some la)) /\
    DiscoverService oob pick b order sd1 = Ret (sd2, Ok (Some la)) /\ la <> lb.
Proof.
  intros Hinv%reg_reach_inv Ho Hlb Hab Ha Hb Hsa Hsb.
  assert (forall l, status_at l (sd_registry sd) = Some ServiceStatusHealthy ->
    healthy (lr_info (sd_registry sd)) l = true) as Hh.
  { intros l. unfold healthy, status_at. destruct (lr_info (sd_registry sd) !! l); [|done]. cbn.
    intros [= ->]. by rewrite bool_decide_true. }
  destruct (service_object _ a la Hinv Ha) as (sia & ha & Hsia & Hha & Hna & _).
  destruct (service_object _ b lb Hinv Hb) as (sib & hb & Hsib & Hhb & Hnb & _).
  pose proof (proj1 (ri_service _ Hinv a la Ha)) as Hnea.
  pose proof (proj1 (ri_service _ Hinv b lb Hb)) as Hneb.
  destruct sd as [r bal]. cbn [sd_registry sd_loadBalancer] in *. subst bal.
  eexists _, _. split_and!.
  - unfold DiscoverService. cbn [sd_registry sd_loadBalancer].
    rewrite (Discover_name _ _ _ Hinv Ho Hnea) Ha. cbn [length Nat.eqb].
    unfold Select, filterHealthyServices. cbn [length Nat.eqb List.filter]. rewrite (Hh la Hsa). reflexivity.
  - unfold DiscoverService. cbn [sd_registry sd_loadBalancer].
    rewrite (Discover_name _ _ _ Hinv Ho Hneb) Hb. cbn [length Nat.eqb].
    unfold Select, filterHealthyServices. cbn [length Nat.eqb List.filter]. rewrite (Hh lb Hsb). reflexivity.
  - intros ->. congruence.
Qed.

(** ** Inputs the properties apply to *)

Definition demo_two : localServiceRegistry := demo_reg_run demo_reg [RRegister (Some 1%nat) demo_clk [1]].

Lemma demo_two_reach : reg_reach demo_two.
Proof.
  apply demo_reg_run_reach; [apply demo_reg_reach|]. split; [vm_compute; reflexivity|]. vm_compute. done.
Qed.

Lemma demo_two_order : range_order (lr_services demo_two) ["web"; "db"].
Proof. vm_compute. first [reflexivity | apply Permutation_swap]. Qed.

Lemma discover_service_correct_witness :
  exists sd' r,
    DiscoverService (fun _ => 0) (fun _ => 0%nat) "db" ["web"; "db"]
      (mkServiceDiscovery demo_two (NewLoadBalancer StrategyRoundRobin)) = Ret (sd', r) /\ r = Ok (Some 0%nat).
Proof.
  destruct (discover_service_correct (mkServiceDiscovery demo_two (NewLoadBalancer StrategyRoundRobin))
              (fun _ => 0) (fun _ => 0%nat) "db" ["web"; "db"] demo_two_reach demo_two_order)
    as (sd' & r & H1 & H2); [discriminate|discriminate|vm_compute; congruence|intros n Hn; exact Hn|].
  exists sd', r. split; [exact H1|exact H2].
Defined.

Lemma weighted_discovery_returns_other_witness :
  exists sd1 sd2,
    DiscoverService (fun _ => 0) (fun _ => 0%nat) "db" ["web"; "db"]
      (mkServiceDiscovery demo_two (NewLoadBalancer StrategyWeightedRoundRobin)) = Ret (sd1, Ok (Some 0%nat)) /\
    DiscoverService (fun _ => 0) (fun _ => 0%nat) "web" ["web"; "db"] sd1 = Ret (sd2, Ok (Some 0%nat)).
Proof.
  destruct (weighted_discovery_returns_other
              (mkServiceDiscovery demo_two (NewLoadBalancer StrategyWeightedRoundRobin))
              (fun _ => 0) (fun _ => 0%nat) "db" "web" 0%nat 1%nat ["web"; "db"] demo_two_reach demo_two_order
              eq_refl) as (sd1 & sd2 & H1 & H2 & _); [discriminate|reflexivity..|].
  exists sd1, sd2. split; [exact H1|exact H2].
Defined.
