(* ===== verification/System.v ===== *)
(** The actor system (src/core/system.go): actors, router, sessions and service
    discovery put together.

    Actor objects live in the heap [sy_actors]; the router and the callers hold
    their addresses. [NewActor] and [NewService] start their actor in a
    goroutine: [sy_starting] lists the goroutines that have not run yet, and
    [start_goroutine] is one of them running. Every method runs under the
    system's lock, or touches only the router. *)

From S2P Require Import Prelude CoreTypes Handle Actor Router Session Registry LoadBalancer Discovery.

Section system.
Context {H : Type}.
Context (HandleMessage : H -> Message -> H * Message * option error).

(** The choice of the [select] in [Send] (see Actor.v). *)
Context (pick : bool).
#[local] Instance world : ActorIface (gmap nat (actor H)) nat := actor_world pick.

Record system := mkSystem {
  sy_router : advancedRouter nat;
  sy_sessionManager : SessionManager;
  sy_serviceDiscovery : serviceDiscovery;
  sy_nodeID : Z;
  sy_ctxDone : bool;
  sy_wg : nat;
  sy_starting : list nat;
  sy_actors : gmap nat (actor H);
}.

Definition NewActorSystemWithNodeID (nodeID : Z) : system :=
  mkSystem (NewAdvancedRouter nodeID) NewSessionManager NewServiceDiscovery nodeID false 0 [] ∅.
Definition NewActorSystem : system := NewActorSystemWithNodeID 1.

Definition with_table (ar : advancedRouter nat) (w : gmap nat (actor H)) (s : system) : system :=
  mkSystem ar (sy_sessionManager s) (sy_serviceDiscovery s) (sy_nodeID s) (sy_ctxDone s) (sy_wg s)
    (sy_starting s) w.
Definition with_discovery (sd : serviceDiscovery) (s : system) : system :=
  mkSystem (sy_router s) (sy_sessionManager s) sd (sy_nodeID s) (sy_ctxDone s) (sy_wg s)
    (sy_starting s) (sy_actors s).
(** [s.wg.Add(1); go func() {...}()] *)
Definition with_goroutine (ref : nat) (s : system) : system :=
  mkSystem (sy_router s) (sy_sessionManager s) (sy_serviceDiscovery s) (sy_nodeID s) (sy_ctxDone s)
    (S (sy_wg s)) (sy_starting s ++ [ref]) (sy_actors s).

Definition apply_defaults (opts : ActorOptions) : ActorOptions :=
  if o_MailboxSize opts =? 0 then DefaultActorOptions else opts.

(** A new actor object with the next id: the address, the router and the heap
    after it. *)
Definition make_actor (handler : H) (opts : ActorOptions) (clk : clock) (s : system)
    : go (nat * advancedRouter nat * gmap nat (actor H)) :=
  let '(r1, id) := NextID (ar_router (sy_router s)) in
  a ← NewActor id handler opts clk;
  let ref := fresh (dom (sy_actors s)) in
  Ret (ref, with_router r1 (sy_router s), <[ref := a]> (sy_actors s)).

Definition shutting_down : error := "actor system is shutting down".

Definition sys_NewActor (handler : H) (opts : ActorOptions) (clk : clock) (s : system)
    : go (system * res nat) :=
  if sy_ctxDone s then Ret (s, Err shutting_down)
  else
    '(ref, ar1, w1) ← make_actor handler (apply_defaults opts) clk s;
    match ar_Register w1 (Some ref) ar1 with
    | (ar2, Err e) => Ret (with_table ar2 w1 s, Err ("failed to register actor: " +:+ e))
    | (ar2, Ok _) => Ret (with_goroutine ref (with_table ar2 w1 s), Ok ref)
    end.

(** [opts.Name = name] when the options carry no name. *)
Definition service_options (name : string) (opts : ActorOptions) : ActorOptions :=
  let opts := apply_defaults opts in
  if nonempty (o_Name opts) then opts
  else mkActorOptions (o_MailboxSize opts) name (o_ProcessTimeout opts).

(** Registration with service discovery: a fresh metadata map, fixed labels. *)
Definition discovery_register (name : string) (handle : option Handle) (clk : clock) (order : list Z)
    (sd : serviceDiscovery) : go (serviceDiscovery * res unit) :=
  let r := sd_registry sd in
  let mloc := fresh (dom (lr_meta r)) in
  sd_RegisterService handle
    (mkRegistrationInfo ("Service " +:+ name) "1.0.0" ["sngo-service"] (Some mloc) (30 * Second))
    clk order (mkServiceDiscovery (with_meta mloc ∅ r) (sd_loadBalancer sd)).

Definition NewService (name : string) (handler : H) (opts : ActorOptions) (clk : clock) (order : list Z)
    (s : system) : go (system * res (option Handle)) :=
  if sy_ctxDone s then Ret (s, Err shutting_down)
  else
    '(ref, ar1, w1) ← make_actor handler (service_options name opts) clk s;
    match RegisterService w1 (Some ref) name ar1 with
    | (ar2, Err e) => Ret (with_table ar2 w1 s, Err ("failed to register service: " +:+ e))
    | (ar2, Ok handle) =>
        '(sd, r) ← discovery_register name handle (fun n => clk (S n)) order (sy_serviceDiscovery s);
        match r with
        | Err e =>
            '(ar3, _) ← UnregisterService name ar2;
            Ret (with_discovery sd (with_table ar3 w1 s),
                 Err ("failed to register with service discovery: " +:+ e))
        | Ok _ => Ret (with_goroutine ref (with_discovery sd (with_table ar2 w1 s)), Ok handle)
        end
    end.

(** The goroutine of [ref]: [actor.Start(s.ctx)], then [s.wg.Done()]. *)
Definition start_goroutine (ref : nat) (s : system) : system :=
  mkSystem (sy_router s) (sy_sessionManager s) (sy_serviceDiscovery s) (sy_nodeID s) (sy_ctxDone s)
    (pred (sy_wg s)) (remove Nat.eq_dec ref (sy_starting s))
    (match sy_actors s !! ref with
     | Some a => <[ref := (actor_Start a).1]> (sy_actors s) | None => sy_actors s end).

Definition GetActor (id : ActorID) (s : system) : option nat := Lookup id (ar_router (sy_router s)).
Definition GetService (name : string) (s : system) : option (option Handle) :=
  LookupService name (sy_router s).

Definition sys_Send (from to : ActorID) (msgType : MessageType) (data : bytes) (now : time) (s : system)
    : go (system * res unit) :=
  '(w', e) ← Route (Some (mkMessage 0 msgType from to 0 data now)) (ar_router (sy_router s)) (sy_actors s);
  Ret (with_table (sy_router s) w' s, e).

Definition SendByName (from to : string) (msgType : MessageType) (data : bytes) (now : time) (s : system)
    : go (system * res unit) :=
  '(w', _, e) ← RouteByName from to (Some (mkMessage 0 msgType 0 0 0 data now)) (sy_router s) (sy_actors s);
  Ret (with_table (sy_router s) w' s, e).

(** [Call] up to the wait: the source actor's [Call] registers a session and
    sends to the source actor. *)
Definition Call_send (from to : ActorID) (msgType : MessageType) (data : bytes) (now : time) (s : system)
    : go (system * res (nat * Z * nat)) :=
  match GetActor from s with
  | None => Ret (s, Err ("source actor " +:+ pretty from +:+ " not found"))
  | Some ref =>
      match sy_actors s !! ref with
      | None => nil_deref
      | Some a =>
          let '(a1, msg, chan_ref) := Call_begin (mkMessage 0 msgType from to 0 data now) a in
          '(a2, e) ← actor_Send pick (Some msg) a1;
          match e with
          | Err e => Ret (with_table (sy_router s) (<[ref := Call_end (m_Session msg) a2]> (sy_actors s)) s, Err e)
          | Ok _ => Ret (with_table (sy_router s) (<[ref := a2]> (sy_actors s)) s,
                         Ok (ref, m_Session msg, chan_ref))
          end
      end
  end.

(** What [Call] makes of the response. *)
Definition Call_result (r : res Message) : res bytes :=
  match r with
  | Err e => Err e
  | Ok resp =>
      if m_Type resp =? MessageTypeError then Err ("remote error: " +:+ string_of_bytes (m_Data resp))
      else Ok (m_Data resp)
  end.

(** The whole call. [others] is what the rest of the system does while it waits;
    [case] and [ctxErr] decide the final [select], which does not return if the
    case is not ready. *)
Definition sys_Call (others : system -> system) (case : call_case) (ctxErr : option error)
    (from to : ActorID) (msgType : MessageType) (data : bytes) (now : time) (s : system)
    : go (system * res bytes) :=
  '(s1, r) ← Call_send from to msgType data now s;
  match r with
  | Err e => Ret (s1, Err e)
  | Ok (ref, session, chan_ref) =>
      let s2 := others s1 in
      match sy_actors s2 !! ref with
      | None => nil_deref
      | Some a =>
          match Call_select case chan_ref ctxErr a with
          | None => Hang
          | Some (a', resp) =>
              Ret (with_table (sy_router s2) (<[ref := Call_end session a']> (sy_actors s2)) s2, Call_result resp)
          end
      end
  end.

Definition CallByName (others : system -> system) (case : call_case) (ctxErr : option error)
    (from to : string) (msgType : MessageType) (data : bytes) (now : time) (s : system)
    : go (system * res bytes) :=
  match GetService from s with
  | None => Ret (s, Err ("source service '" +:+ from +:+ "' not found"))
  | Some sourceHandle =>
      match GetService to s, sourceHandle with
      | None, _ => Ret (s, Err ("target service '" +:+ to +:+ "' not found"))
      | Some (Some targetHandle), Some sourceHandle =>
          sys_Call others case ctxErr (h_ActorID sourceHandle) (h_ActorID targetHandle) msgType data now s
      | _, _ => nil_deref
      end
  end.

(** ** Shutdown

    What the message loop of a started actor does once its context is
    cancelled: it may still take messages while both cases of its [select] are
    ready ([k] of them), then it drains the mailbox, closes it and leaves. *)
Fixpoint loop_takes (k : nat) (clk : clock) (a : actor H) : go (actor H) :=
  match k with
  | O => Ret a
  | S k' =>
      match try_recv (a_mailbox a) with
      | Got (Some m) mb => a' ← processMessage HandleMessage clk m (with_mailbox mb a); loop_takes k' clk a'
      | Got None mb => loop_takes k' clk (with_mailbox mb a)
      | _ => Ret a
      end
  end.

Definition loop_leaves (k : nat) (clk : clock) (a : actor H) : go (actor H) :=
  a1 ← loop_takes k clk a;
  a2 ← drainMailbox clk a1;
  mb ← close_chan (a_mailbox a2);
  Ret (with_lifecycle (a_ctxDone a2) (pred (a_wg a2)) (with_mailbox mb a2)).

(** [actor.Stop()] with its message loop, if it was started once. *)
Definition stop_actor (k : nat) (clk : clock) (a : actor H) : go (actor H * res unit) :=
  match (match Stop_CAS ActorStateIdle a with Some a' => Some a' | None => Stop_CAS ActorStateRunning a end) with
  | None => Ret (a, Err (Stop_refused a))
  | Some a' =>
      match a_wg a' with
      | O => Ret (Stop_finish (Stop_cancel a'), Ok tt)
      | S O => a2 ← loop_leaves k clk (Stop_cancel a'); Ret (Stop_finish a2, Ok tt)
      | _ => Hang
      end
  end.

Fixpoint stop_all (k : nat -> nat) (clk : clock) (ids : list ActorID) (s : system) : go system :=
  match ids with
  | [] => Ret s
  | id :: ids' =>
      match (ref ← GetActor id s; a ← sy_actors s !! ref; Some (ref, a)) with
      | None => stop_all k clk ids' s
      | Some (ref, a) =>
          '(a', _) ← stop_actor (k ref) clk a;
          stop_all k clk ids' (with_table (sy_router s) (<[ref := a']> (sy_actors s)) s)
      end
  end.

(** [order] is the order of [List]; the final [select] ends when the wait group
    is at zero or when the caller's context is done ([ctxErr]); when both are
    ready the runtime chooses, [done_first] for the wait group. *)
Definition Shutdown (k : nat -> nat) (clk : clock) (order : list ActorID) (ctxErr : option error)
    (done_first : bool) (s : system) : go (system * res unit) :=
  let s1 := mkSystem (sy_router s) (sy_sessionManager s) (sy_serviceDiscovery s) (sy_nodeID s) true (sy_wg s)
              (sy_starting s) (sy_actors s) in
  s2 ← stop_all k clk (List_ids order (ar_router (sy_router s1))) s1;
  match sy_wg s2, ctxErr with
  | O, None => Ret (s2, Ok tt)
  | O, Some e => Ret (s2, if done_first then Ok tt else Err e)
  | _, Some e => Ret (s2, Err e)
  | _, None => Hang
  end.

Definition Stats (order : list ActorID) (s : system) : list ActorStats :=
  omap (fun id => ref ← GetActor id s; actor_Stats <$> sy_actors s !! ref)
    (List_ids order (ar_router (sy_router s))).

Definition ListServices (order : list Z) (s : system) : list Handle :=
  ListHandles (ar_handleManager (sy_router s)) order.

Definition sys_DiscoverService (oob : float64 -> Z) (rnd : nat -> nat) (name : string) (order : list string)
    (s : system) : go (system * res (option nat)) :=
  '(sd, r) ← DiscoverService oob rnd name order (sy_serviceDiscovery s); Ret (with_discovery sd s, r).
Definition sys_DiscoverServices (query : ServiceQuery) (order : list string) (s : system) : res (list nat) :=
  DiscoverServices query order (sy_serviceDiscovery s).
Definition sys_UpdateServiceHealth (name : string) (status : ServiceStatus) (clk : clock) (order : list Z)
    (s : system) : go (system * res unit) :=
  '(sd, r) ← UpdateServiceHealth name status clk order (sy_serviceDiscovery s); Ret (with_discovery sd s, r).
Definition sys_SetLoadBalanceStrategy (strategy : LoadBalanceStrategy) (s : system) : system :=
  with_discovery (SetLoadBalanceStrategy strategy (sy_serviceDiscovery s)) s.

(** ** Runs

    [SActor ref a']: the goroutines of the actor at [ref] (its message loop, the
    calls waiting in it) change it in any way that keeps its id. [SCall] is a
    call up to its wait. *)
Inductive sys_op :=
| SNewActor (handler : H) (opts : ActorOptions) (clk : clock)
| SNewService (name : string) (handler : H) (opts : ActorOptions) (clk : clock) (order : list Z)
| SStart (ref : nat)
| SSend (from to : ActorID) (msgType : MessageType) (data : bytes) (now : time)
| SSendByName (from to : string) (msgType : MessageType) (data : bytes) (now : time)
| SActor (ref : nat) (a' : actor H)
| SHealth (name : string) (status : ServiceStatus) (clk : clock) (order : list Z)
| SStrategy (strategy : LoadBalanceStrategy)
| SCall (from to : ActorID) (msgType : MessageType) (data : bytes) (now : time)
| SDiscover (oob : float64 -> Z) (rnd : nat -> nat) (name : string) (order : list string)
| SShutdown (k : nat -> nat) (clk : clock) (order : list ActorID) (ctxErr : option error) (done_first : bool).

Definition sys_step (s : system) (op : sys_op) : go system :=
  match op with
  | SNewActor h opts clk => '(s', _) ← sys_NewActor h opts clk s; Ret s'
  | SNewService name h opts clk order => '(s', _) ← NewService name h opts clk order s; Ret s'
  | SStart ref => Ret (start_goroutine ref s)
  | SSend from to ty data now => '(s', _) ← sys_Send from to ty data now s; Ret s'
  | SSendByName from to ty data now => '(s', _) ← SendByName from to ty data now s; Ret s'
  | SActor ref a' => Ret (with_table (sy_router s) (<[ref := a']> (sy_actors s)) s)
  | SHealth name st clk order => '(s', _) ← sys_UpdateServiceHealth name st clk order s; Ret s'
  | SStrategy st => Ret (sys_SetLoadBalanceStrategy st s)
  | SCall from to ty data now => '(s', _) ← Call_send from to ty data now s; Ret s'
  | SDiscover oob rnd name order => '(s', _) ← sys_DiscoverService oob rnd name order s; Ret s'
  | SShutdown k clk order ctxErr df => '(s', _) ← Shutdown k clk order ctxErr df s; Ret s'
  end.

Definition reg_of (s : system) : localServiceRegistry := sd_registry (sy_serviceDiscovery s).

Definition sys_ok (s : system) (op : sys_op) : Prop :=
  match op with
  | SNewService _ _ _ _ order | SHealth _ _ _ order => range_order (lr_watchers (reg_of s)) order
  | SStart ref => In ref (sy_starting s)
  | SActor ref a' => exists a, sy_actors s !! ref = Some a /\ a_id a' = a_id a
  | _ => True
  end.

(** [n]: how many operations were run. *)
Inductive sys_reach (nodeID : Z) : nat -> system -> Prop :=
| sreach_new : sys_reach nodeID 0 (NewActorSystemWithNodeID nodeID)
| sreach_step n s op s' :
    sys_reach nodeID n s -> sys_ok s op -> sys_step s op = Ret s' -> sys_reach nodeID (S n) s'.

(** ** The invariant

    The router's invariant; a name is in the registry when it is bound in the
    router; actors are registered under ids issued so far, at addresses that
    hold an actor. *)
Record sys_inv (s : system) : Prop := {
  y_ar : ar_inv (sy_actors s, sy_router s);
  y_reg : reg_inv (reg_of s);
  y_names n : n <> "" -> is_Some (lr_services (reg_of s) !! n) <-> is_Some (service n (sy_router s));
  y_ids id ref : r_actors (ar_router (sy_router s)) !! id = Some ref ->
    id <= r_idCounter (ar_router (sy_router s)) /\ is_Some (sy_actors s !! ref);
  y_cnt : 0 <= r_idCounter (ar_router (sy_router s));
}.

Definition used (s : system) : Z * Z :=
  (r_idCounter (ar_router (sy_router s)), hm_handleCounter (ar_handleManager (sy_router s))).

Lemma NewActorSystem_inv nodeID : sys_inv (NewActorSystemWithNodeID nodeID).
Proof.
  split; cbn -[NewAdvancedRouter].
  - apply NewAdvancedRouter_inv.
  - apply NewServiceRegistry_inv.
  - intros n _. cbn. rewrite lookup_empty. split; by intros [? ?].
  - intros *. cbn. by rewrite lookup_empty.
  - done.
Qed.

(** Objects may be added and changed as long as ids stay. *)
Lemma ar_inv_heap w w' ar :
  ar_inv (w, ar) ->
  (forall id ref, r_actors (ar_router ar) !! id = Some ref -> act_ID w' ref = act_ID w ref) ->
  ar_inv (w', ar).
Proof.
  intros [H1 H2 H3 H4] Hid. split; simpl in *; try done. intros id a Ha. rewrite (Hid id a Ha). by apply H3.
Qed.

Lemma act_ID_lookup w ref a : w !! ref = Some a -> act_ID w ref = a_id a.
Proof. intros Ha. cbn. by rewrite Ha. Qed.

(** The new actor object. *)
Lemma make_actor_spec handler opts clk s :
  sys_inv s -> r_idCounter (ar_router (sy_router s)) + 1 < 2 ^ 32 -> 0 <= o_MailboxSize opts ->
  let id := r_idCounter (ar_router (sy_router s)) + 1 in
  let ref := fresh (dom (sy_actors s)) in
  let ar1 := with_router (mkRouter (r_actors (ar_router (sy_router s))) id) (sy_router s) in
  exists a, make_actor handler opts clk s = Ret (ref, ar1, <[ref := a]> (sy_actors s)) /\
    NewActor id handler opts clk = Ret a /\ a_id a = id /\
    ar_inv (<[ref := a]> (sy_actors s), ar1) /\ act_ID (<[ref := a]> (sy_actors s)) ref = id /\
    r_actors (ar_router ar1) !! id = None.
Proof.
  intros Hinv Hc Hm id ref ar1. pose proof (y_cnt s Hinv) as Hc0.
  pose proof (is_fresh (dom (sy_actors s))) as Hf%not_elem_of_dom. fold ref in Hf.
  unfold make_actor, NextID, NewActor. rewrite u32_id; [unfold is_u32; lia|]. fold id.
  rewrite (proj2 (Z.ltb_ge _ _)) //. cbn [mbind go_bind].
  eexists. split_and!; [reflexivity|reflexivity|reflexivity| | |].
  - apply (ar_inv_heap (sy_actors s)); [by destruct (y_ar s Hinv); split|]. intros id' ref' Hr.
    destruct (y_ids s Hinv id' ref' Hr) as [_ [a' Ha']]. cbn.
    rewrite lookup_insert_ne; [congruence|done].
  - cbn. by rewrite lookup_insert_eq.
  - cbn. destruct (r_actors (ar_router (sy_router s)) !! id) eqn:E; [|done].
    destruct (y_ids s Hinv _ _ E) as [? _]. lia.
Qed.

Lemma RegisterService_table w a n (ar : advancedRouter nat) :
  r_actors (ar_router ar) !! act_ID w a = None ->
  ar_router (RegisterService w (Some a) n ar).1 =
    mkRouter (<[act_ID w a := a]> (r_actors (ar_router ar))) (r_idCounter (ar_router ar)).
Proof.
  intros Hn. unfold RegisterService, Register. rewrite Hn. by destruct (AllocateHandle _ _ _).
Qed.

(** The registry after a registration through service discovery. *)
Lemma discovery_register_spec name h clk order sd :
  reg_inv (sd_registry sd) -> range_order (lr_watchers (sd_registry sd)) order -> h_Name h = name ->
  exists sd' e, discovery_register name (Some h) clk order sd = Ret (sd', e) /\
    reg_inv (sd_registry sd') /\ sd_loadBalancer sd' = sd_loadBalancer sd /\
    match e with
    | Err _ => lr_services (sd_registry sd') = lr_services (sd_registry sd) /\
        (name = "" \/ is_Some (lr_services (sd_registry sd) !! name))
    | Ok _ => name <> "" /\ exists loc si, lr_services (sd_registry sd') = <[name := loc]> (lr_services (sd_registry sd)) /\
        lr_info (sd_registry sd') !! loc = Some si /\ si_Handle si = Some h /\ si_Status si = ServiceStatusHealthy
    end.
Proof.
  intros Hinv Ho Hname. unfold discovery_register, sd_RegisterService.
  set (r0 := with_meta _ _ _). set (si0 := discovery_info _ _ _).
  cbn [sd_registry sd_loadBalancer]. set (loc := fresh (dom (lr_info r0))).
  assert (reg_inv (with_info loc si0 r0)) as Hinv0 by by apply RAlloc_inv, with_meta_inv.
  assert (lr_info (with_info loc si0 r0) !! loc = Some si0) as Hsi by (cbn; by rewrite lookup_insert_eq).
  destruct (reg_Register_spec (Some loc) (fun n => clk (S n)) order _ Hinv0 Ho)
    as [[e He]|(l & si & h' & [= <-] & Hsi' & Hh & Hne & Hn & Hr)].
  - rewrite He. eexists _, _. split_and!; [reflexivity|done|done|]. split; [done|].
    unfold reg_Register in He. cbn [mbind option_bind] in He. rewrite Hsi in He. cbn [mbind option_bind] in He.
    change (si_Handle si0) with (Some h) in He. cbn [mbind option_bind] in He. rewrite Hname in He.
    destruct (nonempty name) eqn:E; [|left; by apply nonempty_false]. right. cbn [negb] in He.
    change (lr_services (with_info loc si0 r0)) with (lr_services (sd_registry sd)) in He.
    destruct (lr_services (sd_registry sd) !! name); [by eexists|].
    by destruct (notifyWatchers _ _ _).
  - rewrite Hr. assert (si = si0) as -> by congruence. assert (h' = h) as -> by (cbn in Hh; congruence).
    eexists _, _. split_and!; [reflexivity|by apply registered_reg_inv|done|].
    split; [congruence|]. exists loc. rewrite Hname in Hne |- *.
    assert (exists si, lr_info (registered (fun n => clk (S n)) loc si0 h (with_info loc si0 r0)) !! loc = Some si /\
      si_Handle si = Some h /\ si_Status si = ServiceStatusHealthy) as (si & ? & ? & ?).
    { unfold registered. cbn [deliver with_chans with_services lr_info]. unfold register_defaults. cbn.
      rewrite lookup_insert_eq. by eexists. }
    exists si. split_and!; try done. cbn [sd_registry]. rewrite registered_services Hname. done.
Qed.

(** Room for one more actor and one more handle. *)
Definition room (s : system) : Prop := (used s).1 + 1 < 2 ^ 32 /\ (used s).2 + 1 < 2 ^ 32.

Definition grown (s s' : system) : Prop := (used s').1 <= (used s).1 + 1 /\ (used s').2 <= (used s).2 + 1.

(** The state after a new actor object was registered under [name]. *)
Lemma sys_inv_registered s s' name a :
  let id := r_idCounter (ar_router (sy_router s)) + 1 in
  let ref := fresh (dom (sy_actors s)) in
  let ar1 := with_router (mkRouter (r_actors (ar_router (sy_router s))) id) (sy_router s) in
  sys_inv s -> room s -> ar_inv (<[ref := a]> (sy_actors s), ar1) ->
  act_ID (<[ref := a]> (sy_actors s)) ref = id -> r_actors (ar_router ar1) !! id = None ->
  sy_router s' = (RegisterService (<[ref := a]> (sy_actors s)) (Some ref) name ar1).1 ->
  sy_actors s' = <[ref := a]> (sy_actors s) -> reg_inv (reg_of s') ->
  (forall n, n <> "" -> is_Some (lr_services (reg_of s') !! n) <-> is_Some (service n (sy_router s'))) ->
  sys_inv s' /\ grown s s'.
Proof.
  intros id ref ar1 Hinv [Hr1 Hr2] Har Hid Hfree Hrt Hact Hreg Hnames. pose proof (y_cnt s Hinv).
  destruct (RegisterService_inv _ (Some ref) name ar1 Har Hr2) as [Har2 Hcnt2].
  assert (ar_router (sy_router s') = mkRouter (<[id := ref]> (r_actors (ar_router (sy_router s)))) id) as Ht.
  { rewrite Hrt RegisterService_table Hid //. }
  split; [split|split].
  - by rewrite Hact Hrt.
  - done.
  - done.
  - rewrite Ht Hact. cbn. intros i r [[<- <-]|[_ Hi]]%lookup_insert_Some.
    + split; [lia|]. by rewrite lookup_insert_eq.
    + destruct (y_ids s Hinv i r Hi) as [? Hs]. split; [lia|]. apply lookup_insert_is_Some'. by right.
  - rewrite Ht. cbn. lia.
  - cbn. rewrite Ht. cbn. lia.
  - cbn. by rewrite Hrt.
Qed.

Lemma apply_defaults_size opts : 0 <= o_MailboxSize opts -> 0 <= o_MailboxSize (apply_defaults opts).
Proof. unfold apply_defaults. by destruct (_ =? _). Qed.

Lemma make_actor_ret handler opts clk s x :
  make_actor handler opts clk s = Ret x -> 0 <= o_MailboxSize opts.
Proof.
  unfold make_actor, NewActor. destruct (NextID _). destruct (Z.ltb_spec (o_MailboxSize opts) 0); [done|lia].
Qed.

Lemma sys_NewActor_inv handler opts clk s s' e :
  sys_inv s -> room s -> sys_NewActor handler opts clk s = Ret (s', e) -> sys_inv s' /\ grown s s'.
Proof.
  intros Hinv Hroom. unfold sys_NewActor.
  destruct (sy_ctxDone s); [intros [= <- _]; split; [done|split; lia]|].
  destruct (make_actor _ _ _ s) as [[[ref ar1] w1]| |] eqn:Hm; [|done..].
  pose proof (make_actor_ret _ _ _ _ _ Hm) as Hsize.
  destruct (make_actor_spec handler _ clk s Hinv (proj1 Hroom) Hsize)
    as (a & Hm' & _ & _ & Har & Hid & Hfree).
  rewrite Hm in Hm'. injection Hm' as -> -> ->. cbn [mbind go_bind].
  set (w1 := <[_ := a]> (sy_actors s)) in *. set (ref := fresh (dom (sy_actors s))) in *.
  set (ar1 := with_router _ _) in *.
  destruct (register_anonymous w1 ref ar1 Har) as (ar2 & h & Hreg & _ & Hsrv); [by rewrite Hid|].
  assert ((ar_Register w1 (Some ref) ar1).1 = (RegisterService w1 (Some ref) "" ar1).1) as Hsame
    by apply ar_Register_same.
  assert (forall n, service n (ar_Register w1 (Some ref) ar1).1 = service n (sy_router s)) as Hsrv'.
  { intros n. rewrite Hsame Hreg. apply Hsrv. }
  destruct (ar_Register w1 (Some ref) ar1) as [ar3 [u|e']]; intros [= <- _];
    (apply (sys_inv_registered s _ "" a); try done; [apply (y_reg s Hinv)|];
     intros n Hn; cbn [sy_router with_goroutine with_table]; rewrite Hsrv'; exact (y_names s Hinv n Hn)).
Qed.

Lemma NewService_inv name handler opts clk order s s' e :
  sys_inv s -> room s -> range_order (lr_watchers (reg_of s)) order ->
  NewService name handler opts clk order s = Ret (s', e) -> sys_inv s' /\ grown s s'.
Proof.
  intros Hinv Hroom Ho. unfold NewService.
  destruct (sy_ctxDone s); [intros [= <- _]; split; [done|split; lia]|].
  destruct (make_actor _ _ _ s) as [[[ref ar1] w1]| |] eqn:Hm; [|done..].
  pose proof (make_actor_ret _ _ _ _ _ Hm) as Hsize.
  destruct (make_actor_spec handler _ clk s Hinv (proj1 Hroom) Hsize)
    as (a & Hm' & _ & _ & Har & Hid & Hfree).
  rewrite Hm in Hm'. injection Hm' as -> -> ->. cbn [mbind go_bind].
  set (w1 := <[_ := a]> (sy_actors s)) in *. set (ref := fresh (dom (sy_actors s))) in *.
  set (ar1 := with_router _ _) in *.
  assert (forall s', sy_router s' = (RegisterService w1 (Some ref) name ar1).1 -> sy_actors s' = w1 ->
    reg_inv (reg_of s') ->
    (forall n, n <> "" -> is_Some (lr_services (reg_of s') !! n) <-> is_Some (service n (sy_router s'))) ->
    sys_inv s' /\ grown s s') as Hdone.
  { intros s0 ????. by apply (sys_inv_registered s s0 name a). }
  assert (r_actors (ar_router ar1) !! act_ID w1 ref = None) as Hfree' by by rewrite Hid.
  pose proof (y_names s Hinv) as Hnames.
  destruct (decide (name = "")) as [->|Hne]; [|destruct (service name ar1) as [x|] eqn:Hs].
  - destruct (register_anonymous w1 ref ar1 Har Hfree') as (ar2 & h & Hreg & Hname & Hsrv). rewrite Hreg.
    destruct (discovery_register_spec "" h (fun n => clk (S n)) order (sy_serviceDiscovery s)
      (y_reg s Hinv) Ho Hname) as (sd & r & -> & Hreg' & _ & Hr). cbn [mbind go_bind].
    destruct r as [|e']; [by destruct Hr|]. destruct Hr as [Hserv _].
    assert (UnregisterService "" ar2 = Ret (ar2, Err "service '' not found")) as ->.
    { destruct (RegisterService_inv w1 (Some ref) "" ar1 Har (proj2 Hroom)) as [Har2 _]. rewrite Hreg in Har2.
      unfold UnregisterService. destruct (GetHandleByName (ar_handleManager ar2) "") eqn:E; [|done].
      by destruct (by_name_live _ _ _ (ari_hm _ Har2) E) as (? & _ & _ & _ & ?). }
    intros [= <- _]. apply Hdone; [by rewrite Hreg|done|done|]. intros n Hn. cbn.
    rewrite Hserv Hsrv. exact (Hnames n Hn).
  - destruct (register_service_taken w1 ref name ar1 Har Hfree') as (ar2 & Hreg & _ & Hsrv); [by rewrite Hs|].
    rewrite Hreg. intros [= <- _]. apply Hdone; [by rewrite Hreg|done|apply (y_reg s Hinv)|].
    intros n Hn. cbn [sy_router with_table]. rewrite Hsrv. exact (Hnames n Hn).
  - destruct (register_service_new w1 ref name ar1 Har Hne Hfree' Hs)
      as (ar2 & h & Hreg & _ & Hname & _ & Hsrv & Hother). rewrite Hreg.
    destruct (discovery_register_spec name h (fun n => clk (S n)) order (sy_serviceDiscovery s)
      (y_reg s Hinv) Ho Hname) as (sd & r & -> & Hreg' & _ & Hr). cbn [mbind go_bind].
    destruct r as [|e'].
    + destruct Hr as (_ & loc & si & Hserv & _). intros [= <- _].
      apply Hdone; [by rewrite Hreg|done|done|]. intros n Hn. cbn. rewrite Hserv.
      destruct (decide (n = name)) as [->|Hnn]; [by rewrite lookup_insert_eq Hsrv|].
      rewrite Hother // lookup_insert_ne; [congruence|]. exact (Hnames n Hn).
    + exfalso. destruct Hr as [_ [?|Hs']]; [done|]. apply (Hnames name Hne) in Hs' as [x Hx].
      change (service name ar1 = Some x) in Hx. congruence.
Qed.

(** Changes of actor objects that keep their ids. *)
Lemma sys_inv_heap s s' :
  sys_inv s -> sy_router s' = sy_router s -> reg_of s' = reg_of s ->
  (forall r, act_ID (sy_actors s') r = act_ID (sy_actors s) r) ->
  (forall r, is_Some (sy_actors s !! r) -> is_Some (sy_actors s' !! r)) ->
  sys_inv s' /\ grown s s'.
Proof.
  intros Hinv Hr Hg Hid Hdom. split; [split|].
  - rewrite Hr. apply (ar_inv_world (sy_actors s)); [done|]. apply (y_ar s Hinv).
  - rewrite Hg. apply (y_reg s Hinv).
  - rewrite Hg Hr. apply (y_names s Hinv).
  - rewrite Hr. intros id ref Hi. destruct (y_ids s Hinv id ref Hi). auto.
  - rewrite Hr. apply (y_cnt s Hinv).
  - unfold grown, used. rewrite Hr. simpl. lia.
Qed.

Lemma sys_inv_upd s s' ref a a' :
  sys_inv s -> sy_router s' = sy_router s -> reg_of s' = reg_of s ->
  sy_actors s !! ref = Some a -> a_id a' = a_id a -> sy_actors s' = <[ref := a']> (sy_actors s) ->
  sys_inv s' /\ grown s s'.
Proof.
  intros Hinv Hr Hg Ha Hid Hw. apply sys_inv_heap; [done..| |].
  - intros r. rewrite Hw. cbn. destruct (decide (r = ref)) as [->|Hne].
    + by rewrite lookup_insert_eq Ha.
    + rewrite lookup_insert_ne; [congruence|done].
  - intros r. rewrite Hw. intros. apply lookup_insert_is_Some'. by right.
Qed.

Lemma actor_Start_id (a : actor H) : a_id (actor_Start a).1 = a_id a.
Proof. unfold actor_Start. by case_decide. Qed.

Lemma act_Send_dom ref m w w' e r :
  act_Send ref m w = Ret (w', e) -> is_Some (w !! r) -> is_Some (w' !! r).
Proof.
  cbn. destruct (w !! ref) as [a|] eqn:Ha; [|done].
  destruct (actor_Send pick (Some m) a) as [[a' e']| |]; [|done..]. intros [= <- _] Hr.
  apply lookup_insert_is_Some'. by right.
Qed.

Lemma one_send_dom w x w' m e r :
  one_send w x -> x = Ret (w', m, e) -> is_Some (w !! r) -> is_Some (w' !! r).
Proof.
  intros [(m' & e' & ->)|(a & m' & ->)] Hx; [by simplify_eq|].
  destruct (act_Send a m' w) as [[w1 e1]| |] eqn:Hs; [|done..].
  injection Hx as <- _ _. by apply (act_Send_dom a m' w w1 e1).
Qed.

Lemma one_send_ID w x w' m e r :
  one_send w x -> x = Ret (w', m, e) -> act_ID w' r = act_ID w r.
Proof.
  intros [(m' & e' & ->)|(a & m' & ->)] Hx; [by simplify_eq|].
  destruct (act_Send a m' w) as [[w1 e1]| |] eqn:Hs; [|done..].
  injection Hx as <- _ _. exact (act_Send_ID _ _ _ _ _ r Hs).
Qed.

Lemma UpdateServiceHealth_inv name st clk order s s' e :
  sys_inv s -> range_order (lr_watchers (reg_of s)) order ->
  sys_UpdateServiceHealth name st clk order s = Ret (s', e) -> sys_inv s' /\ grown s s'.
Proof.
  intros Hinv Ho. unfold sys_UpdateServiceHealth, UpdateServiceHealth. pose proof (y_reg s Hinv) as Hreg.
  destruct (reg_step_inv (reg_of s) (RUpdateStatus name st clk order) Hreg Ho) as (r' & e' & Hs & Hinv').
  cbn [reg_step] in Hs. unfold reg_of in Hs. rewrite Hs. intros [= <- _].
  assert (lr_services r' = lr_services (reg_of s)) as Hserv.
  { destruct (service_cases name (reg_of s) Hreg) as [Hn|(loc & si & Hn & Hsi)].
    - unfold UpdateStatus in Hs. unfold reg_of in Hn. rewrite Hn in Hs. by injection Hs as <- _.
    - change (UpdateStatus name st clk order (reg_of s) = Ret (r', e')) in Hs.
      rewrite (UpdateStatus_spec name st clk order (reg_of s) loc si) // in Hs. injection Hs as <- _.
      by case_decide. }
  split; [|split; cbn; lia]. destruct Hinv as [H1 H2 H3 H4 H5]. split; try done. intros n Hn. cbn.
  rewrite Hserv. exact (H3 n Hn).
Qed.

(** *** Ids under the loop, calls and shutdown *)

Lemma sendResponse_id now m e (a a' : actor H) : sendResponse now m e a = Ret a' -> a_id a' = a_id a.
Proof.
  unfold sendResponse. destruct (a_pendingCalls a !! _) as [ref|]; [|by intros [= <-]].
  destruct (a_respChans a !! ref) as [ch|]; [|by intros [= <-]].
  destruct (try_send _ _) as [[b ch']| |]; [|done..]. by intros [= <-].
Qed.

Lemma processMessage_id clk m (a a' : actor H) :
  processMessage HandleMessage clk m a = Ret a' -> a_id a' = a_id a.
Proof.
  unfold processMessage, process_handle, process_respond. destruct (HandleMessage _ m) as [[h' m'] err].
  destruct (m_Session m' =? 0); [by intros [= <-]|].
  destruct (sendResponse _ _ _ _) as [a1| |] eqn:E; [|done..]. intros [= <-]. cbn.
  by rewrite (sendResponse_id _ _ _ _ _ E).
Qed.

Lemma loop_takes_id k clk (a a' : actor H) : loop_takes k clk a = Ret a' -> a_id a' = a_id a.
Proof.
  revert a. induction k as [|k IH]; intros a; simpl; [by intros [= <-]|].
  destruct (try_recv (a_mailbox a)) as [[m|] mb| |]; [| |by intros [= <-]..].
  - destruct (processMessage _ _ _ _) as [a1| |] eqn:E; [|done..]. cbn [mbind go_bind]. intros ->%IH.
    by rewrite (processMessage_id _ _ _ _ E).
  - by intros ->%IH.
Qed.

Lemma drain_loop_id fuel i clk (a a' : actor H) : drain_loop fuel i clk a = Ret a' -> a_id a' = a_id a.
Proof.
  revert i a. induction fuel as [|fuel IH]; intros i a; simpl; [done|].
  destruct (drain1 (clk i) a) as [[a1 more]| |] eqn:Hd; [|done..]. cbn [mbind go_bind].
  assert (a_id a1 = a_id a) as <-.
  { revert Hd. unfold drain1. destruct (try_recv (a_mailbox a)) as [[m|] mb| |]; [|by intros [= <- _]..].
    destruct (m_Session m =? 0); [by intros [= <- _]|].
    destruct (sendResponse _ _ _ _) as [a2| |] eqn:E; [|done..]. intros [= <- _].
    by rewrite (sendResponse_id _ _ _ _ _ E). }
  destruct more; [apply IH|by intros [= <-]].
Qed.

Lemma stop_actor_id k clk (a a' : actor H) r : stop_actor k clk a = Ret (a', r) -> a_id a' = a_id a.
Proof.
  unfold stop_actor, Stop_CAS. destruct (match _ with Some a' => Some a' | None => _ end) as [b|] eqn:Hb;
    [|by intros [= <- _]].
  assert (a_id b = a_id a) as <- by (revert Hb; repeat case_decide; by intros [= <-]).
  destruct (a_wg b) as [|[|?]]; [by intros [= <- _]| |done]. unfold loop_leaves.
  destruct (loop_takes _ _ _) as [a1| |] eqn:E1; [|done..]. cbn [mbind go_bind]. unfold drainMailbox.
  destruct (drain_loop _ _ _ _) as [a2| |] eqn:E2; [|done..]. cbn [mbind go_bind].
  destruct (close_chan _) as [mb| |]; [|done..]. intros [= <- _]. cbn.
  by rewrite (drain_loop_id _ _ _ _ _ E2) (loop_takes_id _ _ _ _ E1).
Qed.

Lemma stop_all_inv k clk ids s s' :
  sys_inv s -> stop_all k clk ids s = Ret s' -> sys_inv s' /\ grown s s'.
Proof.
  revert s. induction ids as [|id ids IH]; intros s Hinv; simpl; [intros [= <-]; by apply sys_inv_heap|].
  destruct (GetActor id s) as [ref|]; cbn [mbind option_bind]; [|by apply IH].
  destruct (sy_actors s !! ref) as [a|] eqn:Ha; cbn [mbind option_bind]; [|by apply IH].
  destruct (stop_actor _ _ _) as [[a' e]| |] eqn:E; [|done..]. cbn [mbind go_bind]. set (s1 := with_table _ _ s).
  destruct (sys_inv_upd s s1 ref a a' Hinv eq_refl eq_refl Ha (stop_actor_id _ _ _ _ _ E) eq_refl) as [Hinv1 [G1 G2]].
  intros Hs. destruct (IH s1 Hinv1 Hs) as [Hinv' [G3 G4]]. split; [done|split; cbn in *; lia].
Qed.

Lemma Shutdown_inv k clk order ctxErr df s s' r :
  sys_inv s -> Shutdown k clk order ctxErr df s = Ret (s', r) -> sys_inv s' /\ grown s s'.
Proof.
  intros Hinv. unfold Shutdown. set (s1 := mkSystem _ _ _ _ _ _ _ _).
  destruct (sys_inv_heap s s1) as [Hinv1 _]; try done.
  destruct (stop_all _ _ _ s1) as [s2| |] eqn:E; [|done..]. cbn [mbind go_bind].
  destruct (stop_all_inv _ _ _ _ _ Hinv1 E) as [Hinv2 Hg]. intros Hret.
  assert (s' = s2) as -> by (revert Hret; destruct (sy_wg s2), ctxErr; by intros [= <- _]). done.
Qed.

Lemma Call_send_inv from to ty data now s s' r :
  sys_inv s -> Call_send from to ty data now s = Ret (s', r) -> sys_inv s' /\ grown s s'.
Proof.
  intros Hinv. unfold Call_send. destruct (GetActor from s) as [ref|]; [|intros [= <- _]; by apply sys_inv_heap].
  destruct (sy_actors s !! ref) as [a|] eqn:Ha; [|done]. cbn [Call_begin].
  set (msg := set_Session _ _). set (a1 := with_calls _ _ _ a).
  destruct (actor_Send pick (Some msg) a1) as [[a2 e]| |] eqn:Hs; [|done..]. cbn [mbind go_bind].
  pose proof (actor_Send_id pick (Some msg) a1 a2 e Hs) as Hid.
  destruct e; intros [= <- _];
    [by apply (sys_inv_upd s _ ref a a2)|by apply (sys_inv_upd s _ ref a (Call_end (m_Session msg) a2))].
Qed.

Lemma DiscoverService_inv oob rnd name order s s' r :
  sys_inv s -> sys_DiscoverService oob rnd name order s = Ret (s', r) -> sys_inv s' /\ grown s s'.
Proof.
  intros Hinv. unfold sys_DiscoverService, DiscoverService, Discover.
  destruct (length _ =? 0)%nat; [intros [= <- _]; by apply sys_inv_heap|].
  destruct (Select _ _ _ _ _) as [[lb e]| |]; [|done..]. intros [= <- _]. by apply sys_inv_heap.
Qed.

Lemma sys_step_inv s op s' :
  sys_inv s -> room s -> sys_ok s op -> sys_step s op = Ret s' -> sys_inv s' /\ grown s s'.
Proof.
  intros Hinv Hroom Hok.
  destruct op as [h o clk|n h o clk order|ref|from to ty d now|from to ty d now|ref a'|n st clk order|st
    |from to ty d now|oob rnd n order|k clk order ce df]; cbn [sys_step sys_ok] in *.
  - destruct (sys_NewActor h o clk s) as [[s1 e]| |] eqn:E; [|done..]. intros [= <-].
    by apply (sys_NewActor_inv h o clk s s1 e).
  - destruct (NewService n h o clk order s) as [[s1 e]| |] eqn:E; [|done..]. intros [= <-].
    by apply (NewService_inv n h o clk order s s1 e).
  - intros [= <-]. destruct (sy_actors s !! ref) as [a|] eqn:Ha.
    + apply (sys_inv_upd s _ ref a (actor_Start a).1); try done; [apply actor_Start_id|].
      cbn. by rewrite Ha.
    + apply sys_inv_heap; try done; intros r; cbn; by rewrite Ha.
  - unfold sys_Send. destruct (Route _ _ _) as [[w' e]| |] eqn:E; [|done..]. intros [= <-].
    pose proof (Route_one_send (mkMessage 0 ty from to 0 d now) (ar_router (sy_router s)) (sy_actors s)) as Hone.
    rewrite E in Hone. cbn [mbind go_bind] in Hone.
    apply sys_inv_heap; [done..| |]; intros r.
    + by apply (one_send_ID _ _ _ _ _ r Hone eq_refl).
    + by apply (one_send_dom _ _ _ _ _ r Hone eq_refl).
  - unfold SendByName. destruct (RouteByName _ _ _ _ _) as [[[w' m] e]| |] eqn:E; [|done..]. intros [= <-].
    pose proof (RouteByName_one_send from to (mkMessage 0 ty 0 0 0 d now) (sy_router s) (sy_actors s)
      (ari_hm _ (y_ar s Hinv))) as Hone. rewrite E in Hone.
    apply sys_inv_heap; [done..| |]; intros r.
    + by apply (one_send_ID _ _ _ _ _ r Hone eq_refl).
    + by apply (one_send_dom _ _ _ _ _ r Hone eq_refl).
  - destruct Hok as (a & Ha & Hid). intros [= <-]. by apply (sys_inv_upd s _ ref a a').
  - destruct (sys_UpdateServiceHealth n st clk order s) as [[s1 e]| |] eqn:E; [|done..]. intros [= <-].
    by apply (UpdateServiceHealth_inv n st clk order s s1 e).
  - intros [= <-]. by apply sys_inv_heap.
  - destruct (Call_send from to ty d now s) as [[s1 e]| |] eqn:E; [|done..]. intros [= <-].
    by apply (Call_send_inv from to ty d now s s1 e).
  - destruct (sys_DiscoverService oob rnd n order s) as [[s1 e]| |] eqn:E; [|done..]. intros [= <-].
    by apply (DiscoverService_inv oob rnd n order s s1 e).
  - destruct (Shutdown k clk order ce df s) as [[s1 e]| |] eqn:E; [|done..]. intros [= <-].
    by apply (Shutdown_inv k clk order ce df s s1 e).
Qed.

(** Ids and handles left for [n] operations of a system of this node. *)
Definition enough (nodeID : Z) (n : nat) : Prop :=
  hm_handleCounter (NewHandleManager nodeID) + Z.of_nat n < 2 ^ 32.

Lemma sys_reach_inv nodeID n s :
  sys_reach nodeID n s -> enough nodeID (S n) ->
  sys_inv s /\ (used s).1 <= Z.of_nat n /\
  (used s).2 <= hm_handleCounter (NewHandleManager nodeID) + Z.of_nat n.
Proof.
  unfold enough. intros Hr Hn. induction Hr as [|n s op s' Hr IH Hok Hs].
  { split; [apply NewActorSystem_inv|]. cbn -[NewHandleManager]. lia. }
  destruct IH as (Hinv & H1 & H2); [lia|]. pose proof (first_id nodeID) as Hfirst.
  pose proof (Z.mod_pos_bound nodeID 256).
  destruct (sys_step_inv s op s' Hinv) as [Hinv' [??]]; [split; lia|done|done|]. split; [done|lia].
Qed.

Lemma sys_reach_room nodeID n s : sys_reach nodeID n s -> enough nodeID (S n) -> sys_inv s /\ room s.
Proof.
  intros Hr Hn. destruct (sys_reach_inv nodeID n s Hr Hn) as (Hinv & H1 & H2). unfold enough in Hn.
  pose proof (first_id nodeID) as Hfirst. pose proof (Z.mod_pos_bound nodeID 256). split; [done|split; lia].
Qed.

(** ** The actor as its loop leaves it *)

(** What message processing and draining keep of an actor. *)
Record same_shell (a a' : actor H) : Prop := {
  sh_id : a_id a' = a_id a;
  sh_wg : a_wg a' = a_wg a;
  sh_closed : ch_closed (a_mailbox a') = ch_closed (a_mailbox a);
  sh_open : resp_open a -> resp_open a';
}.

#[local] Instance same_shell_refl : Reflexive same_shell.
Proof. by split. Qed.
#[local] Instance same_shell_trans : Transitive same_shell.
Proof. intros a b c [????] [????]. split; try congruence. auto. Qed.

Lemma processMessage_shell clk m a :
  resp_open a -> exists a', processMessage HandleMessage clk m a = Ret a' /\ same_shell a a'.
Proof.
  intros Ho. unfold processMessage, process_handle.
  destruct (HandleMessage (a_handler (process_enter a)) m) as [[h' m'] err].
  destruct (process_respond_spec (clk 1%nat) m' err
    (with_handler h' (u64 (a_messagesProcessed (process_enter a) + 1)) (Unix (clk 0%nat)) (process_enter a)))
    as (chans & -> & Hopen); [done|]. eexists. split; [reflexivity|]. by split.
Qed.

Lemma loop_takes_shell k clk a :
  resp_open a -> exists a', loop_takes k clk a = Ret a' /\ same_shell a a'.
Proof.
  revert a. induction k as [|k IH]; intros a Ho; simpl; [by eexists|]. unfold try_recv.
  destruct (ch_buf (a_mailbox a)) as [|[m|] rest]; [by destruct (ch_closed _); eexists| |].
  - set (a1 := with_mailbox _ a). destruct (processMessage_shell clk m a1 Ho) as (a2 & -> & H2). cbn [mbind go_bind].
    destruct (IH a2 (sh_open _ _ H2 Ho)) as (a3 & -> & H3). exists a3. split; [done|].
    trans a1; [by split|]. by trans a2.
  - set (a1 := with_mailbox _ a). destruct (IH a1 Ho) as (a3 & -> & H3). exists a3. split; [done|].
    trans a1; [by split|done].
Qed.

Lemma drain1_shell now (a a' : actor H) more :
  resp_open a -> drain1 now a = Ret (a', more) -> same_shell a a'.
Proof.
  intros Ho. unfold drain1, try_recv.
  destruct (ch_buf (a_mailbox a)) as [|[m|] rest]; [destruct (ch_closed _); by intros [= <- _]| |].
  - destruct (m_Session m =? 0); [intros [= <- _]; by split|].
    set (a1 := with_mailbox _ a).
    destruct (sendResponse_spec now m (Some (Send_shutdown a)) a1 Ho) as (chans & -> & Hopen).
    intros [= <- _]. by split.
  - intros [= <- _]. by split.
Qed.

Lemma drain_loop_shell fuel i clk (a a' : actor H) :
  resp_open a -> drain_loop fuel i clk a = Ret a' -> same_shell a a'.
Proof.
  revert i a. induction fuel as [|fuel IH]; intros i a Ho; simpl; [done|].
  destruct (drain1 (clk i) a) as [[a1 more]| |] eqn:Hd; [|done..]. simpl.
  pose proof (drain1_shell _ _ _ _ Ho Hd) as H1. destruct more; [|by intros [= <-]].
  intros H2. trans a1; [done|]. by apply (IH (S i)), H2; apply (sh_open _ _ H1).
Qed.

(** An actor that [Stop] can stop: idle or running, started at most once, its
    mailbox open. *)
Record stoppable (a : actor H) : Prop := {
  st_state : a_state a = ActorStateIdle \/ a_state a = ActorStateRunning;
  st_once : (a_wg a <= 1)%nat;
  st_mailbox : ch_closed (a_mailbox a) = false;
  st_resp : resp_open a;
}.

Record stopped_from (a a' : actor H) : Prop := {
  sf_state : a_state a' = ActorStateStopped;
  sf_wg : a_wg a' = 0%nat;
  sf_id : a_id a' = a_id a;
  sf_mailbox : ch_closed (a_mailbox a') = (a_wg a =? 1)%nat;
}.

Lemma stop_actor_spec k clk a :
  stoppable a -> exists a', stop_actor k clk a = Ret (a', Ok tt) /\ stopped_from a a'.
Proof.
  intros [Hst Honce Hmb Hresp]. unfold stop_actor.
  assert ((match Stop_CAS ActorStateIdle a with Some a' => Some a' | None => Stop_CAS ActorStateRunning a end) =
    Some (with_state ActorStateStopping a)) as ->.
  { unfold Stop_CAS. by destruct Hst as [-> | ->]. }
  cbn [a_wg with_state]. destruct (a_wg a) as [|[|?]] eqn:Hwg; [| |lia].
  - eexists. split; [reflexivity|]. by split; cbn; rewrite ?Hwg.
  - unfold loop_leaves. set (a1 := Stop_cancel (with_state ActorStateStopping a)).
    destruct (loop_takes_shell k clk a1 Hresp) as (a2 & -> & H2). cbn [mbind go_bind].
    destruct (drain_loop_spec (S (length (ch_buf (a_mailbox a2)))) 0 clk a2 (sh_open _ _ H2 Hresp))
      as (a3 & Hd & _); [lia|].
    pose proof (drain_loop_shell _ _ _ _ _ (sh_open _ _ H2 Hresp) Hd) as H3.
    unfold drainMailbox. rewrite Hd. cbn [mbind go_bind]. unfold close_chan.
    rewrite (sh_closed _ _ H3) (sh_closed _ _ H2). cbn [a1 Stop_cancel with_lifecycle with_state a_mailbox].
    rewrite Hmb. cbn [mbind go_bind]. eexists. split; [reflexivity|]. split; cbn.
    + done.
    + rewrite (sh_wg _ _ H3) (sh_wg _ _ H2). cbn. by rewrite Hwg.
    + by rewrite (sh_id _ _ H3) (sh_id _ _ H2).
    + by rewrite Hwg.
Qed.

(** Stopping the actors of a list of distinct ids, each of them once. *)
Lemma stop_all_spec k clk ids s :
  sys_inv s -> NoDup ids ->
  (forall id ref a, id ∈ ids -> GetActor id s = Some ref -> sy_actors s !! ref = Some a -> stoppable a) ->
  exists w, stop_all k clk ids s = Ret (with_table (sy_router s) w s) /\
    (forall id ref a, id ∈ ids -> GetActor id s = Some ref -> sy_actors s !! ref = Some a ->
       exists a', w !! ref = Some a' /\ stopped_from a a') /\
    (forall ref, (forall id, id ∈ ids -> GetActor id s <> Some ref) -> w !! ref = sy_actors s !! ref).
Proof.
  intros Hinv Hnd. revert s Hinv. induction Hnd as [|id ids Hin Hnd IH]; intros s Hinv Hst.
  { exists (sy_actors s). split_and!; [by destruct s|by intros ??? ?%not_elem_of_nil|done]. }
  simpl. destruct (GetActor id s) as [ref|] eqn:Hg; cbn [mbind option_bind].
  - destruct (y_ids s Hinv id ref Hg) as [_ [a Ha]]. rewrite Ha. cbn [mbind option_bind].
    destruct (stop_actor_spec (k ref) clk a) as (a' & -> & Hs'); [by apply (Hst id ref a); [left|..]|].
    cbn [mbind go_bind]. set (s1 := with_table _ _ s).
    assert (forall i r, GetActor i s = Some r -> r = ref -> i = id) as Hinj.
    { intros i r Hi ->. pose proof (ari_id _ (y_ar s Hinv) i ref Hi) as H1.
      pose proof (ari_id _ (y_ar s Hinv) id ref Hg) as H2. congruence. }
    destruct (sys_inv_upd s s1 ref a a' Hinv eq_refl eq_refl Ha (sf_id _ _ Hs') eq_refl) as [Hinv1 _].
    destruct (IH s1 Hinv1) as (w & -> & Hyes & Hno).
    { intros i r b Hi Hr. cbn. rewrite lookup_insert_ne; [|apply (Hst i r b); [by right|done]].
      intros <-. by rewrite (Hinj i ref Hr eq_refl) in Hi. }
    exists w. split_and!; [done|..].
    + intros i r b [->|Hi]%elem_of_cons Hr Hb.
      * simplify_eq. exists a'. split; [|done]. rewrite Hno; [|cbn; by rewrite lookup_insert_eq].
        intros j Hj Hgj. by rewrite (Hinj j _ Hgj eq_refl) in Hj.
      * apply (Hyes i r b Hi Hr). cbn. rewrite lookup_insert_ne; [|done]. intros <-.
        by rewrite (Hinj i ref Hr eq_refl) in Hi.
    + intros r Hr. rewrite Hno; [intros i Hi; apply Hr; by right|]. cbn. rewrite lookup_insert_ne; [|done].
      intros <-. by apply (Hr id); [left|].
  - destruct (IH s Hinv) as (w & -> & Hyes & Hno); [intros; by apply (Hst id0 ref a); [right|..]|].
    exists w. split_and!; [done|..].
    + intros i r b [->|Hi]%elem_of_cons Hr Hb; [congruence|by apply (Hyes i r b)].
    + intros r Hr. apply Hno. intros i Hi. apply Hr. by right.
Qed.

(** ** Properties *)

(** The queue of the actor at an address. *)
Definition queue_of (ref : nat) (s : system) : option (list (option Message)) :=
  (fun a => ch_buf (a_mailbox a)) <$> sy_actors s !! ref.

Lemma service_options_size name opts :
  0 <= o_MailboxSize opts -> 0 < o_MailboxSize (service_options name opts).
Proof.
  unfold service_options, apply_defaults. intros Hm.
  destruct (Z.eqb_spec (o_MailboxSize opts) 0); destruct (nonempty _); cbn; lia.
Qed.

(** A message by name to an idle actor with room. *)
Lemma SendByName_idle s name ref a ty data now :
  sys_inv s -> service name (sy_router s) = Some ref -> sy_actors s !! ref = Some a ->
  a_state a = ActorStateIdle -> a_ctxDone a = false -> ch_closed (a_mailbox a) = false ->
  (length (ch_buf (a_mailbox a)) < ch_cap (a_mailbox a))%nat ->
  exists s', SendByName "" name ty data now s = Ret (s', Ok tt) /\
    queue_of ref s' = Some (ch_buf (a_mailbox a) ++ [Some (mkMessage 0 ty 0 (a_id a) 0 data now)]).
Proof.
  intros Hinv Hsrv Ha Hst Hctx Hcl Hroom. unfold SendByName, RouteByName, resolve_source. cbn [nonempty].
  change (nonempty "") with false. cbn [mbind go_bind].
  pose proof (service_bound _ _ name (y_ar s Hinv)) as Hb. rewrite Hsrv in Hb.
  destruct Hb as (h & -> & Hid & Hr). rewrite (act_ID_lookup _ _ _ Ha) in Hid. unfold Route.
  cbn [m_Target set_Target]. rewrite Hr. cbn [act_Send world actor_world]. rewrite Ha.
  assert (Send_check a = None) as Hchk by (unfold Send_check; by rewrite Hst).
  unfold actor_Send. rewrite Hchk.
  unfold Send_select. rewrite Hctx Hcl bool_decide_true //. cbn [orb andb negb]. rewrite orb_true_r.
  rewrite (try_send_open _ _ Hcl) decide_True //. cbn [mbind go_bind]. eexists. split; [reflexivity|].
  unfold queue_of. cbn. rewrite lookup_insert_eq. cbn. by rewrite Hid.
Qed.


(** A refused service leaks: creating a service under a name that is taken
    returns an error and changes no binding, but leaves the new actor in the
    routing table, reachable under its id, with no goroutine to start it. *)
Theorem new_service_taken_leaks nodeID n s name handler opts clk order :
  sys_reach nodeID n s -> enough nodeID (S n) ->
  sy_ctxDone s = false -> 0 <= o_MailboxSize opts -> is_Some (service name (sy_router s)) ->
  exists s' e id ref, NewService name handler opts clk order s = Ret (s', Err e) /\
    GetActor id s = None /\ GetActor id s' = Some ref /\ sy_starting s' = sy_starting s /\
    (forall n', service n' (sy_router s') = service n' (sy_router s)).
Proof.
  intros Hreach Hn Hctx Hm Hsrv. destruct (sys_reach_room nodeID n s Hreach Hn) as [Hinv Hroom].
  pose proof (service_options_size name opts Hm) as Hsize.
  destruct (make_actor_spec handler (service_options name opts) clk s Hinv (proj1 Hroom)) as
    (a & Hmk & Hnew & Haid & Har & Hid & Hfree); [lia|].
  destruct (register_service_taken _ (fresh (dom (sy_actors s))) name _ Har) as (ar2 & Hreg & Hlook & Hother); [by rewrite Hid|done|].
  unfold NewService. rewrite Hctx Hmk. cbn [mbind go_bind]. rewrite Hreg.
  eexists _, _, _, _. split_and!; [reflexivity|exact Hfree| |done|exact Hother].
  rewrite -Hid. exact Hlook.
Qed.

(** An accepted message is at the end of the queue. *)
Lemma actor_Send_queue m (a a' : actor H) u :
  actor_Send pick m a = Ret (a', Ok u) -> ch_buf (a_mailbox a') = ch_buf (a_mailbox a) ++ [m].
Proof.
  unfold actor_Send, Send_select, try_send. destruct (Send_check a); [done|].
  destruct (ch_closed (a_mailbox a)) eqn:Hcl; cbn [orb].
  - destruct (_ && _); [done|]. by destruct (a_ctxDone a).
  - case_bool_decide as Hroom; cbn [andb].
    + destruct (pick || _); [|by destruct (a_ctxDone a)]. rewrite decide_True //. by intros [= <- _].
    + by destruct (a_ctxDone a).
Qed.

(** A call is delivered to its source: [Call] from one actor to another puts
    the request into the mailbox of the calling actor and leaves every other
    actor, the target among them, untouched. *)
Theorem call_goes_to_source from to ty data now s s' ref r :
  GetActor from s = Some ref -> Call_send from to ty data now s = Ret (s', Ok r) ->
  exists q m, queue_of ref s = Some q /\ queue_of ref s' = Some (q ++ [Some m]) /\
    m_Target m = to /\ m_Data m = data /\
    forall ref', ref' <> ref -> sy_actors s' !! ref' = sy_actors s !! ref'.
Proof.
  intros Hg. unfold Call_send. rewrite Hg. destruct (sy_actors s !! ref) as [a|] eqn:Ha; [|done].
  cbn [Call_begin]. set (msg := set_Session _ _). set (a1 := with_calls _ _ _ a).
  destruct (actor_Send pick (Some msg) a1) as [[a2 [u|e]]| |] eqn:Hs; [|done..]. intros [= <- _].
  exists (ch_buf (a_mailbox a)), msg. unfold queue_of. rewrite Ha. cbn. rewrite lookup_insert_eq.
  split_and!; [done| |done|done|intros ref' Hne; rewrite lookup_insert_ne; [congruence|done]].
  cbn. f_equal. by apply (actor_Send_queue (Some msg) a1 a2 u).
Qed.

(** [Shutdown] on every state whose registered actors can be stopped. *)
Lemma Shutdown_stops nodeID n s k clk order ctxErr done_first :
  sys_reach nodeID n s -> enough nodeID (S n) ->
  range_order (r_actors (ar_router (sy_router s))) order -> sy_wg s = 0%nat \/ is_Some ctxErr ->
  (forall id ref a, GetActor id s = Some ref -> sy_actors s !! ref = Some a -> stoppable a) ->
  exists s' r, Shutdown k clk order ctxErr done_first s = Ret (s', r) /\
    (forall id ref a, GetActor id s = Some ref -> sy_actors s !! ref = Some a ->
       exists a', sy_actors s' !! ref = Some a' /\ stopped_from a a') /\
    (forall handler opts clk', sys_NewActor handler opts clk' s' = Ret (s', Err shutting_down)) /\
    (forall name handler opts clk' o, NewService name handler opts clk' o s' = Ret (s', Err shutting_down)).
Proof.
  intros Hreach Hn Ho Hwait Hst. destruct (sys_reach_room nodeID n s Hreach Hn) as [Hinv _].
  unfold Shutdown. set (s1 := mkSystem _ _ _ _ _ _ _ _).
  assert (sys_inv s1) as Hinv1 by by apply (sys_inv_heap s).
  assert (forall id, id ∈ List_ids order (ar_router (sy_router s1)) <-> is_Some (GetActor id s)) as Hids.
  { intros id. unfold List_ids. rewrite list_elem_of_In List.filter_In -list_elem_of_In bool_decide_eq_true.
    rewrite (elem_of_range_order _ _ id Ho). unfold GetActor, Lookup. cbn. tauto. }
  destruct (stop_all_spec k clk (List_ids order (ar_router (sy_router s1))) s1 Hinv1) as (w & -> & Hyes & _).
  { apply NoDup_ListNoDup, List.NoDup_filter, NoDup_ListNoDup. by apply (NoDup_range_order _ _ Ho). }
  { intros id ref a _ Hg Ha. by apply (Hst id ref a). }
  cbn [mbind go_bind]. assert (exists r, match sy_wg (with_table (sy_router s1) w s1), ctxErr with
    | O, None => Ret (with_table (sy_router s1) w s1, Ok tt)
    | O, Some e => Ret (with_table (sy_router s1) w s1, if done_first then Ok tt else Err e)
    | _, Some e => Ret (with_table (sy_router s1) w s1, Err e) | _, None => Hang end =
    Ret (with_table (sy_router s1) w s1, r)) as [r ->].
  { cbn. destruct (sy_wg s); [destruct ctxErr; by eexists|]. destruct Hwait as [?|[e ->]]; [done|by eexists]. }
  eexists _, r. split_and!; [reflexivity| |done|done].
  intros id ref a Hg Ha. apply (Hyes id ref a); [|done|done]. apply Hids. by exists ref.
Qed.

(** Shutdown: when every registered actor is idle or running, started at
    most once and its mailbox open, [Shutdown] returns (all start goroutines
    having run, or the caller's context being done): every registered actor is
    stopped, its loop gone and its mailbox closed if it was started, whatever
    the order of the visit and however many messages each loop still takes; and
    the system creates no actor and no service any more. *)
Theorem shutdown_stops_all nodeID n s k clk order ctxErr done_first :
  sys_reach nodeID n s -> enough nodeID (S n) ->
  range_order (r_actors (ar_router (sy_router s))) order -> sy_wg s = 0%nat \/ is_Some ctxErr ->
  (forall id ref a, GetActor id s = Some ref -> sy_actors s !! ref = Some a -> stoppable a) ->
  exists s' r, Shutdown k clk order ctxErr done_first s = Ret (s', r) /\
    (forall id ref a, GetActor id s = Some ref -> sy_actors s !! ref = Some a ->
       exists a', sy_actors s' !! ref = Some a' /\ stopped_from a a') /\
    (forall handler opts clk', sys_NewActor handler opts clk' s' = Ret (s', Err shutting_down)) /\
    (forall name handler opts clk' o, NewService name handler opts clk' o s' = Ret (s', Err shutting_down)).
Proof. apply Shutdown_stops. Qed.

End system.
Arguments system : clear implicits.

(** ** Runs the properties apply to *)

Definition echo (h : unit) (m : Message) : unit * Message * option error := (h, m, None).
Definition demo_order : list Z := [].
Definition demo_ops_sys : list (sys_op (H := unit)) :=
  [SNewService "db" tt DefaultActorOptions (fun _ => 0) []; SNewActor tt DefaultActorOptions (fun _ => 0);
   SStart 0; SStart 1].
Fixpoint demo_sys_run (s : system unit) (ops : list sys_op) : system unit :=
  match ops with
  | [] => s
  | op :: ops' => match sys_step echo true s op with Ret s' => demo_sys_run s' ops' | _ => s end
  end.
Definition demo_sys : system unit := demo_sys_run NewActorSystem demo_ops_sys.

Lemma demo_sys_reach : sys_reach echo true 1 4 demo_sys.
Proof.
  apply (sreach_step echo true 1 3 (demo_sys_run NewActorSystem (take 3 demo_ops_sys)) (SStart 1));
    [|by left|done].
  apply (sreach_step echo true 1 2 (demo_sys_run NewActorSystem (take 2 demo_ops_sys)) (SStart 0));
    [|by left|done].
  apply (sreach_step echo true 1 1 (demo_sys_run NewActorSystem (take 1 demo_ops_sys))
           (SNewActor tt DefaultActorOptions (fun _ => 0))); [|done|vm_compute; reflexivity].
  apply (sreach_step echo true 1 0 NewActorSystem
           (SNewService "db" tt DefaultActorOptions (fun _ => 0) [])); [|vm_compute; reflexivity..].
  apply sreach_new.
Qed.

Lemma demo_enough : enough 1 5.
Proof. vm_compute. reflexivity. Qed.


Lemma new_service_taken_leaks_witness :
  exists s' e id ref, NewService true "db" tt DefaultActorOptions (fun _ => 7) [] demo_sys = Ret (s', Err e) /\
    GetActor id demo_sys = None /\ GetActor id s' = Some ref.
Proof.
  destruct (new_service_taken_leaks echo true 1 4 demo_sys "db" tt DefaultActorOptions (fun _ => 7) []
              demo_sys_reach demo_enough) as (s' & e & id & ref & H1 & H2 & H3 & _);
    [reflexivity|vm_compute; congruence|eexists; vm_compute; reflexivity|].
  exists s', e, id, ref. split_and!; [exact H1|exact H2|exact H3].
Defined.

Lemma call_goes_to_source_witness :
  exists s' r, Call_send true 1 2 MessageTypeRequest [5] 0 demo_sys = Ret (s', Ok r) /\
    sy_actors s' !! 1%nat = sy_actors demo_sys !! 1%nat.
Proof.
  eexists _, _. split; [vm_compute; reflexivity|].
  destruct (call_goes_to_source true 1 2 MessageTypeRequest [5] 0 demo_sys _ 0%nat _ eq_refl eq_refl)
    as (q & m & _ & _ & _ & _ & H).
  exact (H 1%nat ltac:(discriminate)).
Defined.

Lemma shutdown_stops_all_witness :
  exists s' r, Shutdown echo (fun _ => 0%nat) (fun _ => 9) [1; 2] None true demo_sys = Ret (s', r) /\
    exists a', sy_actors s' !! 1%nat = Some a' /\ a_state a' = ActorStateStopped.
Proof.
  destruct (shutdown_stops_all echo true 1 4 demo_sys (fun _ => 0%nat) (fun _ => 9) [1; 2] None true
              demo_sys_reach demo_enough) as (s' & r & H1 & H2 & _).
  - vm_compute. first [reflexivity | apply Permutation_swap].
  - left. reflexivity.
  - intros id ref a _ Ha.
    apply elem_of_map_to_list, list_elem_of_In in Ha. vm_compute in Ha.
    destruct Ha as [[= _ <-]|[[= _ <-]|[]]]; (split; [left; reflexivity|vm_compute; lia|reflexivity|]);
      intros ref' ch; vm_compute; discriminate.
  - exists s', r. split; [exact H1|].
    edestruct (H2 2 1%nat) as (a' & H3 & [H4 _ _ _]); [vm_compute; reflexivity..|].
    exists a'. split; [exact H3|exact H4].
Defined.
