(* ===== verification/NetMessage.v ===== *)
(** Network messages and their binary codec (src/network/message.go). *)

From S2P Require Import Prelude CoreTypes.

Module Net.

(** [type MessageType uint32] and [type MessageFlag uint32], kept as [Z]. *)
Definition MessageTypeHeartbeat : Z := 1.
Definition MessageTypeAck : Z := 2.
Definition MessageTypeError : Z := 3.
Definition MessageTypeClose : Z := 4.
Definition MessageTypeUserStart : Z := 100.
Definition MessageTypeRPC : Z := 101.
Definition MessageTypeData : Z := 102.
Definition MessageTypeBroadcast : Z := 103.

Definition MessageType_String (mt : Z) : string :=
  if mt =? MessageTypeHeartbeat then "heartbeat"
  else if mt =? MessageTypeAck then "ack"
  else if mt =? MessageTypeError then "error"
  else if mt =? MessageTypeClose then "close"
  else if mt =? MessageTypeRPC then "rpc"
  else if mt =? MessageTypeData then "data"
  else if mt =? MessageTypeBroadcast then "broadcast"
  else "unknown(" +:+ pretty mt +:+ ")".

Definition MessageFlagNone : Z := 0.
Definition MessageFlagCompressed : Z := Z.shiftl 1 0.
Definition MessageFlagEncrypted : Z := Z.shiftl 1 1.
Definition MessageFlagPriority : Z := Z.shiftl 1 2.
Definition MessageFlagReliable : Z := Z.shiftl 1 3.
Definition MessageFlagOrderedA : Z := Z.shiftl 1 4.

(** [UserData interface{}] is opaque to the package: it is the parameter [U],
    [None] for [nil]. A [nil] [Data] is the empty list: no code here tells them
    apart. *)
Record Message (U : Type) := mkMessage {
  nm_Type : Z;
  nm_Flags : Z;
  nm_Sequence : Z;
  nm_SessionID : Z;
  nm_Source : string;
  nm_Destination : string;
  nm_Timestamp : time;
  nm_TTL : Z;
  nm_Data : bytes;
  nm_ConnectionID : string;
  nm_UserData : option U;
}.
Arguments mkMessage {U} _ _ _ _ _ _ _ _ _ _ _.
Arguments nm_Type {U} _.
Arguments nm_Flags {U} _.
Arguments nm_Sequence {U} _.
Arguments nm_SessionID {U} _.
Arguments nm_Source {U} _.
Arguments nm_Destination {U} _.
Arguments nm_Timestamp {U} _.
Arguments nm_TTL {U} _.
Arguments nm_Data {U} _.
Arguments nm_ConnectionID {U} _.
Arguments nm_UserData {U} _.

Section message.
Context {U : Type}.
Notation Message := (Message U).

Definition NewMessage (msgType : Z) (data : bytes) (now : time) : Message :=
  mkMessage msgType MessageFlagNone 0 0 "" "" now 0 data "" None.
Definition NewHeartbeatMessage (now : time) : Message := NewMessage MessageTypeHeartbeat [] now.
Definition with_header (sequence : Z) (source destination : string) (m : Message) : Message :=
  mkMessage (nm_Type m) (nm_Flags m) sequence (nm_SessionID m) source destination (nm_Timestamp m)
    (nm_TTL m) (nm_Data m) (nm_ConnectionID m) (nm_UserData m).
Definition NewAckMessage (sequence : Z) (now : time) : Message :=
  with_header sequence "" "" (NewMessage MessageTypeAck [] now).
Definition NewErrorMessage (errorMsg : string) (now : time) : Message :=
  NewMessage MessageTypeError (bytes_of_string errorMsg) now.
Definition NewRPCMessage (source destination : string) (data : bytes) (now : time) : Message :=
  with_header 0 source destination (NewMessage MessageTypeRPC data now).

Definition with_flags (f : Z) (m : Message) : Message :=
  mkMessage (nm_Type m) f (nm_Sequence m) (nm_SessionID m) (nm_Source m) (nm_Destination m) (nm_Timestamp m)
    (nm_TTL m) (nm_Data m) (nm_ConnectionID m) (nm_UserData m).
Definition with_body (data : bytes) (connID : string) (m : Message) : Message :=
  mkMessage (nm_Type m) (nm_Flags m) (nm_Sequence m) (nm_SessionID m) (nm_Source m) (nm_Destination m)
    (nm_Timestamp m) (nm_TTL m) data connID (nm_UserData m).

Definition SetFlag (flag : Z) (m : Message) : Message := with_flags (Z.lor (nm_Flags m) flag) m.
Definition ClearFlag (flag : Z) (m : Message) : Message := with_flags (Z.ldiff (nm_Flags m) flag) m.
Definition HasFlag (flag : Z) (m : Message) : bool := negb (Z.land (nm_Flags m) flag =? 0).

Definition MessageHeaderSize : Z := 32.
Definition MaxMessageSize : Z := 64 * 1024 * 1024.
Definition MaxDataSize : Z := MaxMessageSize - MessageHeaderSize.

Definition Size (m : Message) : Z := MessageHeaderSize + Z.of_nat (length (nm_Data m)).

(** [time.Duration(m.TTL)*time.Second] is computed in int64. *)
Definition IsExpired (now : time) (m : Message) : bool :=
  if nm_TTL m =? 0 then false
  else i64 (nm_TTL m * Second) <? time_sub now (nm_Timestamp m).

(** The clone has a data slice of its own; as values, the two are equal. *)
Definition Clone (m : Message) : Message :=
  mkMessage (nm_Type m) (nm_Flags m) (nm_Sequence m) (nm_SessionID m) (nm_Source m) (nm_Destination m)
    (nm_Timestamp m) (nm_TTL m) (nm_Data m) (nm_ConnectionID m) (nm_UserData m).

(** ** Big-endian integers *)

(** The [n] low bytes of [z], most significant first. *)
Fixpoint be_put (n : nat) (z : Z) : bytes :=
  match n with
  | O => []
  | S n' => Z.shiftr z (8 * Z.of_nat n') mod 256 :: be_put n' z
  end.
Definition be_get (b : bytes) : Z := fold_left (fun acc x => acc * 256 + x) b 0.

(** ** The codec *)

Definition header (m : Message) (dataLen : Z) : bytes :=
  be_put 4 (nm_Type m) ++ be_put 4 (nm_Flags m) ++ be_put 4 (nm_Sequence m) ++ be_put 8 (nm_SessionID m)
  ++ be_put 8 (u64 (Unix (nm_Timestamp m))) ++ be_put 4 (u32 dataLen).

Definition Encode (msg : option Message) : res bytes :=
  match msg with
  | None => Err "message is nil"
  | Some m =>
      let dataLen := Z.of_nat (length (nm_Data m)) in
      if MaxDataSize <? dataLen
      then Err ("message data too large: " +:+ pretty dataLen +:+ " bytes (max " +:+ pretty MaxDataSize +:+ ")")
      else Ok (header m dataLen ++ nm_Data m)
  end.

Definition EncodeHeader (msg : option Message) : res bytes :=
  match msg with
  | None => Err "message is nil"
  | Some m => Ok (header m (Z.of_nat (length (nm_Data m))))
  end.

(** [data[i:j]] *)
Definition slice (i j : nat) (b : bytes) : bytes := take (j - i) (drop i b).

(** The fields of a header and the announced length of the data. *)
Definition parse_header (data : bytes) : Message * Z :=
  (mkMessage (be_get (slice 0 4 data)) (be_get (slice 4 8 data)) (be_get (slice 8 12 data))
     (be_get (slice 12 20 data)) "" "" (unix_time (i64 (be_get (slice 20 28 data)))) 0 [] "" None,
   be_get (slice 28 32 data)).

Definition too_large (dataLen : Z) : error :=
  "message data too large: " +:+ pretty dataLen +:+ " bytes (max " +:+ pretty MaxDataSize +:+ ")".

Definition Decode (data : bytes) : res Message :=
  if Z.of_nat (length data) <? MessageHeaderSize
  then Err ("data too short for message header: " +:+ pretty (Z.of_nat (length data)) +:+ " bytes")
  else
    let '(msg, dataLen) := parse_header data in
    if MaxDataSize <? dataLen then Err (too_large dataLen)
    else if Z.of_nat (length data) <? MessageHeaderSize + dataLen
    then Err ("data too short for message: expected " +:+ pretty (MessageHeaderSize + dataLen)
                +:+ ", got " +:+ pretty (Z.of_nat (length data)))
    else Ok (with_body (slice 32 (32 + Z.to_nat dataLen) data) "" msg).

(** The message has no data yet; the announced length is the capacity of its
    slice. *)
Definition DecodeHeader (data : bytes) : res (Message * nat) :=
  if Z.of_nat (length data) <? MessageHeaderSize
  then Err ("data too short for message header: " +:+ pretty (Z.of_nat (length data)) +:+ " bytes")
  else
    let '(msg, dataLen) := parse_header data in
    if MaxDataSize <? dataLen then Err (too_large dataLen)
    else Ok (msg, Z.to_nat dataLen).

(** ** Well-formed messages: every field within its Go type *)

Definition is_byte (z : Z) : Prop := 0 <= z < 256.

Record msg_wf (m : Message) : Prop := {
  mw_Type : is_u32 (nm_Type m);
  mw_Flags : is_u32 (nm_Flags m);
  mw_Sequence : is_u32 (nm_Sequence m);
  mw_SessionID : is_u64 (nm_SessionID m);
  mw_Unix : is_i64 (Unix (nm_Timestamp m));
  mw_Data : Z.of_nat (length (nm_Data m)) <= MaxDataSize;
}.

(** What a message is after it went over the wire: no source, destination,
    time-to-live, connection or user data, and a timestamp in whole seconds. *)
Definition on_wire (m : Message) : Message :=
  mkMessage (nm_Type m) (nm_Flags m) (nm_Sequence m) (nm_SessionID m) "" ""
    (unix_time (Unix (nm_Timestamp m))) 0 (nm_Data m) "" None.

(** ** Lemmas *)

Lemma length_be_put n z : length (be_put n z) = n.
Proof. induction n as [|n IH]; [done|]. simpl. by rewrite IH. Qed.

Lemma be_get_snoc b x : be_get (b ++ [x]) = be_get b * 256 + x.
Proof. unfold be_get. by rewrite fold_left_app. Qed.

Lemma be_get_app b c : be_get (b ++ c) = be_get b * 256 ^ Z.of_nat (length c) + be_get c.
Proof.
  induction c as [|x c IH] using rev_ind; [rewrite app_nil_r /=; unfold be_get at 3; simpl; lia|].
  rewrite assoc_L !be_get_snoc IH length_app /=.
  replace (Z.of_nat (length c + 1)) with (Z.of_nat (length c) + 1) by lia.
  rewrite Z.pow_add_r; [lia..|]. lia.
Qed.

Lemma be_get_put n z : be_get (be_put n z) = z mod 256 ^ Z.of_nat n.
Proof.
  induction n as [|n IH]; [by rewrite Z.mod_1_r|]. cbn [be_put].
  change (?x :: ?l) with ([x] ++ l). rewrite be_get_app length_be_put IH.
  change (be_get [_]) with (0 * 256 + Z.shiftr z (8 * Z.of_nat n) mod 256).
  rewrite Z.shiftr_div_pow2; [lia|]. rewrite Z.pow_mul_r; [lia..|]. change (2 ^ 8) with 256.
  rewrite Nat2Z.inj_succ Z.pow_succ_r; [lia|].
  rewrite (Z.mul_comm 256) Z.rem_mul_r; [apply Z.pow_nonzero; lia|lia|]. lia.
Qed.

Lemma be_get_put32 z : is_u32 z -> be_get (be_put 4 z) = z.
Proof. intros. rewrite be_get_put. change (256 ^ Z.of_nat 4) with (2 ^ 32). by apply Z.mod_small. Qed.

Lemma be_get_put64 z : is_u64 z -> be_get (be_put 8 z) = z.
Proof. intros. rewrite be_get_put. change (256 ^ Z.of_nat 8) with (2 ^ 64). by apply Z.mod_small. Qed.

Lemma u64_range z : is_u64 (u64 z).
Proof. unfold_words. apply Z.mod_pos_bound. lia. Qed.

Lemma i64_u64 z : is_i64 z -> i64 (u64 z) = z.
Proof.
  unfold_words. intros. rewrite Zplus_mod_idemp_l Z.mod_small; lia.
Qed.

Lemma length_header m n : length (header m n) = 32%nat.
Proof. unfold header. by rewrite !length_app !length_be_put. Qed.

Lemma Encode_ok m b :
  Encode (Some m) = Ok b ->
  b = header m (Z.of_nat (length (nm_Data m))) ++ nm_Data m /\ Z.of_nat (length (nm_Data m)) <= MaxDataSize.
Proof.
  unfold Encode. destruct (Z.ltb_spec MaxDataSize (Z.of_nat (length (nm_Data m)))); [done|].
  intros Heq. split; [|done]. congruence.
Qed.

(** Slices of a concatenation. *)
Lemma slice_skip k (a b : bytes) i j :
  length a = k -> (k <= i)%nat -> slice i j (a ++ b) = slice (i - k) (j - k) b.
Proof.
  intros <- Hi. unfold slice. rewrite drop_app_ge //. f_equal. lia.
Qed.

Lemma slice_head k (a b : bytes) : length a = k -> slice 0 k (a ++ b) = a.
Proof. intros <-. unfold slice. by rewrite drop_0 Nat.sub_0_r take_app_length. Qed.

Lemma parse_header_of m rest :
  msg_wf m ->
  parse_header (header m (Z.of_nat (length (nm_Data m))) ++ rest) =
    (with_body [] "" (on_wire m), Z.of_nat (length (nm_Data m))).
Proof.
  intros [Ht Hf Hs Hi Hu Hd]. set (n := Z.of_nat (length (nm_Data m))) in *.
  assert (is_u32 n) as Hn. { unfold is_u32, n. unfold MaxDataSize, MaxMessageSize, MessageHeaderSize in Hd. lia. }
  unfold header, parse_header. rewrite u32_id //. rewrite -!(assoc_L (++)).
  pose proof (length_be_put 4) as L4. pose proof (length_be_put 8) as L8.
  rewrite (slice_head 4) //.
  rewrite !(slice_skip 4 (be_put 4 (nm_Type m))) //; try lia. cbn [Nat.sub]. rewrite (slice_head 4) //.
  rewrite !(slice_skip 4 (be_put 4 (nm_Flags m))) //; try lia. cbn [Nat.sub]. rewrite (slice_head 4) //.
  rewrite !(slice_skip 4 (be_put 4 (nm_Sequence m))) //; try lia. cbn [Nat.sub]. rewrite (slice_head 8) //.
  rewrite !(slice_skip 8 (be_put 8 (nm_SessionID m))) //; try lia. cbn [Nat.sub]. rewrite (slice_head 8) //.
  rewrite !(slice_skip 8 (be_put 8 (u64 (Unix (nm_Timestamp m))))) //; try lia. cbn [Nat.sub].
  rewrite (slice_head 4) //.
  rewrite !be_get_put32 // !be_get_put64 //; [apply u64_range|]. by rewrite i64_u64.
Qed.


Lemma be_get_nonneg b : Forall is_byte b -> 0 <= be_get b.
Proof.
  intros Hb. induction b as [|x b IH] using rev_ind; [done|]. rewrite be_get_snoc.
  apply Forall_app in Hb as [Hb [Hx _]%Forall_cons]. specialize (IH Hb). unfold is_byte in Hx. lia.
Qed.

Lemma Forall_slice {A} (P : A -> Prop) i j (b : list A) : Forall P b -> Forall P (take (j - i) (drop i b)).
Proof. intros. by apply Forall_take, Forall_drop. Qed.

(** ** Properties *)

(** C21. Wire round trip: encoding a message whose fields are within their types
    and decoding the bytes, alone or followed by others, gives back its type,
    flags, sequence, session, data and its timestamp to the second; the routing
    fields and the time-to-live do not travel. *)
Theorem encode_decode_roundtrip m rest :
  msg_wf m ->
  exists b, Encode (Some m) = Ok b /\ Z.of_nat (length b) = Size m /\ Decode (b ++ rest) = Ok (on_wire m).
Proof.
  intros Hwf. pose proof (mw_Data m Hwf) as Hd. unfold Encode.
  rewrite (proj2 (Z.ltb_ge _ _)) //. eexists. split; [done|].
  rewrite length_app length_header. unfold Size, MessageHeaderSize. split; [lia|].
  unfold Decode. rewrite (proj2 (Z.ltb_ge _ _)).
  { rewrite 2!length_app length_header. unfold MessageHeaderSize. lia. }
  rewrite -(assoc_L (++)) parse_header_of //. rewrite (proj2 (Z.ltb_ge _ _)) //.
  rewrite (proj2 (Z.ltb_ge _ _)).
  { rewrite 2!length_app length_header. unfold MessageHeaderSize. lia. }
  rewrite (slice_skip 32) // ?length_header //. cbn [Nat.sub].
  replace (32 + _ - 32)%nat with (length (nm_Data m)) by lia. by rewrite slice_head.
Qed.

(** Decoding is total and bounded: on any bytes [Decode] either fails or
    returns a message whose data is at most 64 MB less the header and is taken
    from the input right after its first 32 bytes; it fails exactly when the
    input is shorter than a header or than the header announces, or announces
    too much. *)
Theorem decode_bounded data :
  Forall is_byte data ->
  let dataLen := (parse_header data).2 in
  match Decode data with
  | Ok m => Z.of_nat (length (nm_Data m)) = dataLen /\ dataLen <= MaxDataSize /\
      MessageHeaderSize + dataLen <= Z.of_nat (length data) /\
      exists rest, drop 32 data = nm_Data m ++ rest
  | Err _ => Z.of_nat (length data) < MessageHeaderSize \/ MaxDataSize < dataLen \/
      Z.of_nat (length data) < MessageHeaderSize + dataLen
  end.
Proof.
  intros Hb dataLen. assert (0 <= dataLen) as Hpos by (apply be_get_nonneg, Forall_slice, Hb).
  unfold Decode. destruct (Z.ltb_spec (Z.of_nat (length data)) MessageHeaderSize) as [|H1]; [by left|].
  replace (parse_header data) with ((parse_header data).1, dataLen) by done.
  destruct (Z.ltb_spec MaxDataSize dataLen) as [|H2]; [by right; left|].
  destruct (Z.ltb_spec (Z.of_nat (length data)) (MessageHeaderSize + dataLen)) as [|H3]; [by right; right|].
  cbn [nm_Data with_body]. unfold MessageHeaderSize in *.
  split_and!; [|done|done|].
  - unfold slice. rewrite length_take length_drop. lia.
  - exists (drop (Z.to_nat dataLen) (drop 32 data)). unfold slice.
    replace (32 + _ - 32)%nat with (Z.to_nat dataLen) by lia. by rewrite take_drop.
Qed.

Lemma is_u32_land z : is_u32 z <-> Z.land z (Z.ones 32) = z.
Proof.
  rewrite Z.land_ones; [lia|]. split; [by apply u32_id|]. intros <-. apply (u32_range z).
Qed.

(** Prove an equation of bit operations bit by bit. *)
Ltac bitwise :=
  apply Z.bits_inj'; intros ?n ?Hn; rewrite ?(Z.land_spec, Z.lor_spec, Z.ldiff_spec, Z.bits_0);
  repeat match goal with |- context [Z.testbit ?x ?k] => destruct (Z.testbit x k) eqn:? end; try done.

Lemma disjoint_bit f g n : Z.land f g = 0 -> Z.testbit f n = true -> Z.testbit g n = true -> False.
Proof. intros Hd Hf Hg. pose proof (Z.land_spec f g n) as Hs. by rewrite Hd Z.bits_0 Hf Hg in Hs. Qed.

(** Setting a flag makes it present, clearing it removes it, neither
    touches a flag with no bit in common, and the flags stay 32 bits wide. *)
Theorem flags_independent (m : Message) (f g : Z) :
  is_u32 (nm_Flags m) -> is_u32 f -> f <> 0 ->
  HasFlag f (SetFlag f m) = true /\ HasFlag f (ClearFlag f m) = false /\
  (Z.land f g = 0 ->
     HasFlag g (SetFlag f m) = HasFlag g m /\ HasFlag g (ClearFlag f m) = HasFlag g m) /\
  is_u32 (nm_Flags (SetFlag f m)) /\ is_u32 (nm_Flags (ClearFlag f m)).
Proof.
  intros Hm Hf Hne. unfold HasFlag, SetFlag, ClearFlag, with_flags. cbn [nm_Flags].
  set (a := nm_Flags m) in *. split_and!.
  - assert (Z.land (Z.lor a f) f = f) as -> by bitwise. by rewrite (proj2 (Z.eqb_neq _ _)).
  - assert (Z.land (Z.ldiff a f) f = 0) as -> by bitwise. done.
  - intros Hd. assert (Z.land (Z.lor a f) g = Z.land a g) as ->.
    { bitwise; exfalso; by eapply (disjoint_bit f g n). }
    assert (Z.land (Z.ldiff a f) g = Z.land a g) as ->; [|done].
    bitwise; exfalso; by eapply (disjoint_bit f g n).
  - apply is_u32_land. apply is_u32_land in Hm, Hf. by rewrite Z.land_lor_distr_l Hm Hf.
  - apply is_u32_land. apply is_u32_land in Hm.
    assert (Z.land (Z.ldiff a f) (Z.ones 32) = Z.ldiff (Z.land a (Z.ones 32)) f) as -> by bitwise. by rewrite Hm.
Qed.
End message.

(** ** Inputs the properties apply to *)

Definition demo_net : Message unit := mkMessage 102 4 7 99 "a" "b" (1700000000 * Second + 5) 30 [1; 2; 255] "tcp-1" None.

Lemma demo_net_wf : msg_wf demo_net.
Proof. split; vm_compute; try split; congruence. Qed.

Lemma encode_decode_roundtrip_witness :
  exists b, Encode (Some demo_net) = Ok b /\ Decode (b ++ [9; 9]) = Ok (on_wire demo_net) /\
    nm_Data (on_wire demo_net) = [1; 2; 255] /\ nm_Source (on_wire demo_net) = "".
Proof.
  destruct (encode_decode_roundtrip demo_net [9; 9] demo_net_wf) as (b & H1 & _ & H2).
  exists b. split_and!; [exact H1|exact H2|reflexivity..].
Defined.

Lemma decode_bounded_witness :
  exists e, Decode (U := unit) (repeat 255 40) = Err e /\
    (Z.of_nat (length (repeat 255 40)) < MessageHeaderSize \/
     MaxDataSize < (parse_header (U := unit) (repeat 255 40)).2 \/
     Z.of_nat (length (repeat 255 40)) < MessageHeaderSize + (parse_header (U := unit) (repeat 255 40)).2).
Proof.
  eexists. split; [vm_compute; reflexivity|].
  apply (decode_bounded (U := unit) (repeat 255 40)).
  repeat constructor; vm_compute; congruence.
Defined.

Lemma flags_independent_witness :
  HasFlag MessageFlagPriority (ClearFlag MessageFlagEncrypted demo_net) = HasFlag MessageFlagPriority demo_net.
Proof.
  apply (flags_independent demo_net MessageFlagEncrypted MessageFlagPriority).
  - vm_compute; split; congruence.
  - vm_compute; split; congruence.
  - vm_compute; congruence.
  - reflexivity.
Defined.
End Net.
