(* ===== verification/TcpConn.v ===== *)
(** A TCP connection (src/network/tcp_connection.go): framed reads, the send
    queue and its goroutine, closing.

    The socket is what [net.Conn] documents: [Read] returns some of the bytes
    that have arrived, up to the size asked for, or an error; [Write] writes all
    of its argument or returns an error. The bytes that will arrive are the list
    [tc_in] of segments, cut anyhow; what was written is [tc_out]. [tc_conn]
    tells whether the connection was built on a socket or on [nil]. *)

From S2P Require Import Prelude CoreTypes NetMessage.

Inductive ConnectionState :=
| ConnectionStateConnected
| ConnectionStateDisconnected
| ConnectionStateReconnecting
| ConnectionStateClosed
| ConnectionStateOther (n : Z).

#[export] Instance ConnectionState_eq_dec : EqDecision ConnectionState.
Proof. solve_decision. Defined.

Definition ConnectionState_String (cs : ConnectionState) : string :=
  match cs with
  | ConnectionStateConnected => "connected"
  | ConnectionStateDisconnected => "disconnected"
  | ConnectionStateReconnecting => "reconnecting"
  | ConnectionStateClosed => "closed"
  | ConnectionStateOther _ => "unknown"
  end.

Section tcp.
Context {U : Type}.
Notation Message := (Net.Message U).

Record tcpConnection := mkTcp {
  tc_id : string;
  tc_conn : bool;
  tc_state : ConnectionState;
  tc_userData : option U;
  tc_readTimeout : duration;
  tc_writeTimeout : duration;
  tc_lastActivity : Z;
  tc_closed : bool;
  tc_sendChan : chan bytes;
  tc_bytesRead : Z;
  tc_bytesWritten : Z;
  tc_messagesRead : Z;
  tc_messagesSent : Z;
  tc_in : list (res bytes);
  tc_out : bytes;
}.

(** [connectionIDCounter] is the counter before the call; the socket is what
    will arrive on it. *)
Definition NewTCPConnection (connectionIDCounter : Z) (conn : option (list (res bytes))) (now : time)
    : Z * tcpConnection :=
  let n := i64 (connectionIDCounter + 1) in
  (n, mkTcp ("tcp-" +:+ pretty n) (bool_decide (is_Some conn)) ConnectionStateConnected None (30 * Second)
        (30 * Second) (Unix now) false (make_chan 256) 0 0 0 0 (default [] conn) []).

Definition nil_conn {A} : go A := Panic "runtime error: invalid memory address or nil pointer dereference".

Definition with_reads (inp : list (res bytes)) (n : Z) (tc : tcpConnection) : tcpConnection :=
  mkTcp (tc_id tc) (tc_conn tc) (tc_state tc) (tc_userData tc) (tc_readTimeout tc) (tc_writeTimeout tc) (tc_lastActivity tc)
    (tc_closed tc) (tc_sendChan tc) (i64 (tc_bytesRead tc + n)) (tc_bytesWritten tc) (tc_messagesRead tc)
    (tc_messagesSent tc) inp (tc_out tc).
Definition with_written (data : bytes) (now : time) (tc : tcpConnection) : tcpConnection :=
  mkTcp (tc_id tc) (tc_conn tc) (tc_state tc) (tc_userData tc) (tc_readTimeout tc) (tc_writeTimeout tc) (Unix now)
    (tc_closed tc) (tc_sendChan tc) (tc_bytesRead tc) (i64 (tc_bytesWritten tc + Z.of_nat (length data)))
    (tc_messagesRead tc) (tc_messagesSent tc) (tc_in tc) (tc_out tc ++ data).
Definition with_sendChan (ch : chan bytes) (tc : tcpConnection) : tcpConnection :=
  mkTcp (tc_id tc) (tc_conn tc) (tc_state tc) (tc_userData tc) (tc_readTimeout tc) (tc_writeTimeout tc) (tc_lastActivity tc)
    (tc_closed tc) ch (tc_bytesRead tc) (tc_bytesWritten tc) (tc_messagesRead tc) (tc_messagesSent tc)
    (tc_in tc) (tc_out tc).
Definition with_counts (r s : Z) (last : Z) (tc : tcpConnection) : tcpConnection :=
  mkTcp (tc_id tc) (tc_conn tc) (tc_state tc) (tc_userData tc) (tc_readTimeout tc) (tc_writeTimeout tc) last
    (tc_closed tc) (tc_sendChan tc) (tc_bytesRead tc) (tc_bytesWritten tc) r s (tc_in tc) (tc_out tc).
Definition with_settings (rt wt : duration) (ud : option U) (tc : tcpConnection) : tcpConnection :=
  mkTcp (tc_id tc) (tc_conn tc) (tc_state tc) ud rt wt (tc_lastActivity tc) (tc_closed tc) (tc_sendChan tc) (tc_bytesRead tc)
    (tc_bytesWritten tc) (tc_messagesRead tc) (tc_messagesSent tc) (tc_in tc) (tc_out tc).

Definition SetReadTimeout (t : duration) (tc : tcpConnection) : tcpConnection :=
  with_settings t (tc_writeTimeout tc) (tc_userData tc) tc.
Definition SetWriteTimeout (t : duration) (tc : tcpConnection) : tcpConnection :=
  with_settings (tc_readTimeout tc) t (tc_userData tc) tc.
Definition SetUserData (d : option U) (tc : tcpConnection) : tcpConnection :=
  with_settings (tc_readTimeout tc) (tc_writeTimeout tc) d tc.
Definition GetLastActivity (tc : tcpConnection) : time := unix_time (tc_lastActivity tc).
Definition GetUserData (tc : tcpConnection) : option U := tc_userData tc.
Definition State (tc : tcpConnection) : ConnectionState := tc_state tc.

Record ConnectionStatistics := mkConnectionStatistics {
  cs_ConnectionID : string;
  cs_State : ConnectionState;
  cs_BytesRead : Z;
  cs_BytesWritten : Z;
  cs_MessagesRead : Z;
  cs_MessagesSent : Z;
  cs_LastActivity : time;
  cs_RemoteAddr : string;
  cs_LocalAddr : string;
}.

(** [remote], [local]: the addresses of the socket; without a socket they are
    [nil] and have no [String]. *)
Definition GetStatistics (remote local : string) (tc : tcpConnection) : go ConnectionStatistics :=
  if tc_conn tc
  then Ret (mkConnectionStatistics (tc_id tc) (State tc) (tc_bytesRead tc) (tc_bytesWritten tc)
              (tc_messagesRead tc) (tc_messagesSent tc) (GetLastActivity tc) remote local)
  else nil_conn.

(** ** Sending *)

(** [sendDirect]. [setErr], [writeErr]: what [SetWriteDeadline] and [Write]
    return. *)
Definition sendDirect (setErr writeErr : option error) (now : time) (data : bytes) (tc : tcpConnection)
    : tcpConnection * res unit :=
  if negb (tc_conn tc) then (tc, Err "connection is nil")
  else
    match (if 0 <? tc_writeTimeout tc then setErr else None), writeErr with
    | Some e, _ => (tc, Err ("failed to set write deadline: " +:+ e))
    | None, Some e => (tc, Err ("failed to write data: " +:+ e))
    | None, None => (with_written data now tc, Ok tt)
    end.

Definition closed_error (tc : tcpConnection) : error := "connection " +:+ tc_id tc +:+ " is closed".

(** [Send] after its check of the flag: the non-blocking send to the queue. *)
Definition Send_queue (setErr writeErr : option error) (now : time) (data : bytes) (tc : tcpConnection)
    : go (tcpConnection * res unit) :=
  if (length data =? 0)%nat then Ret (tc, Ok tt)
  else
    '(queued, ch) ← try_send (tc_sendChan tc) data;
    if queued : bool then Ret (with_sendChan ch tc, Ok tt) else Ret (sendDirect setErr writeErr now data tc).

Definition Send (setErr writeErr : option error) (now : time) (data : bytes) (tc : tcpConnection)
    : go (tcpConnection * res unit) :=
  if tc_closed tc then Ret (tc, Err (closed_error tc)) else Send_queue setErr writeErr now data tc.

(** [SendMessage] also sets the connection id of the caller's message. *)
Definition SendMessage (setErr writeErr : option error) (now : time) (msg : option Message) (tc : tcpConnection)
    : go (tcpConnection * option Message * res unit) :=
  if tc_closed tc then Ret (tc, msg, Err (closed_error tc))
  else
    match msg with
    | None => Ret (tc, None, Err "message is nil")
    | Some m =>
        let m' := Net.with_body (Net.nm_Data m) (tc_id tc) m in
        match Net.Encode (Some m') with
        | Err e => Ret (tc, Some m', Err ("failed to encode message: " +:+ e))
        | Ok data =>
            '(tc', e) ← Send setErr writeErr now data tc;
            Ret (if is_ok e
                 then with_counts (tc_messagesRead tc') (i64 (tc_messagesSent tc' + 1)) (tc_lastActivity tc') tc'
                 else tc', Some m', e)
        end
    end.

(** [Close]; [closeErr]: what the socket's [Close] returns. *)
Definition Close (closeErr : option error) (tc : tcpConnection) : go (tcpConnection * res unit) :=
  if tc_closed tc then Ret (tc, Ok tt)
  else
    ch ← close_chan (tc_sendChan tc);
    Ret (mkTcp (tc_id tc) (tc_conn tc) ConnectionStateClosed (tc_userData tc) (tc_readTimeout tc) (tc_writeTimeout tc)
           (tc_lastActivity tc) true ch (tc_bytesRead tc) (tc_bytesWritten tc) (tc_messagesRead tc)
           (tc_messagesSent tc) (tc_in tc) (tc_out tc),
         if tc_conn tc then match closeErr with Some e => Err e | None => Ok tt end else Ok tt).

(** One turn of [sendLoop], and whether it goes on; [None] when the queue is
    open and empty: the goroutine waits. *)
Definition sendLoop1 (setErr writeErr closeErr : option error) (now : time) (tc : tcpConnection)
    : option (go (tcpConnection * bool)) :=
  match try_recv (tc_sendChan tc) with
  | NotReady => None
  | GotClosed => Some (Ret (tc, false))
  | Got data ch =>
      let tc1 := with_sendChan ch tc in
      Some (if tc_closed tc1 then Ret (tc1, false)
            else match sendDirect setErr writeErr now data tc1 with
                 | (tc2, Ok _) => Ret (tc2, true)
                 | (tc2, Err _) => '(tc3, _) ← Close closeErr tc2; Ret (tc3, false)
                 end)
  end.

(** ** Reading *)

(** [conn.Read] into a buffer of [k] bytes. *)
Definition conn_Read (k : nat) (inp : list (res bytes)) : res bytes * list (res bytes) :=
  match inp with
  | [] => (Err "EOF", [])
  | Err e :: inp' => (Err e, inp')
  | Ok seg :: inp' =>
      (Ok (take k seg), match drop k seg with [] => inp' | rest => Ok rest :: inp' end)
  end.

(** [readFull]: [need] bytes are still missing. A read takes at least a byte or
    uses up a segment, so the bytes missing and the segments bound the number
    of turns. *)
Fixpoint read_loop (fuel need : nat) (tc : tcpConnection) : go (tcpConnection * res bytes) :=
  match need with
  | O => Ret (tc, Ok [])
  | _ =>
      match fuel with
      | O => Hang
      | S fuel' =>
          match conn_Read need (tc_in tc) with
          | (Err e, inp) => Ret (with_reads inp 0 tc, Err e)
          | (Ok got, inp) =>
              '(tc', r) ← read_loop fuel' (need - length got) (with_reads inp (Z.of_nat (length got)) tc);
              Ret (tc', match r with Ok b => Ok (got ++ b) | Err e => Err e end)
          end
      end
  end.

Definition readFull (n : nat) (tc : tcpConnection) : go (tcpConnection * res bytes) :=
  read_loop (n + length (tc_in tc)) n tc.

Definition ReadMessage (setErr : option error) (now : time) (tc : tcpConnection)
    : go (tcpConnection * res Message) :=
  if tc_closed tc then Ret (tc, Err (closed_error tc))
  else if negb (tc_conn tc) then nil_conn
  else
    match (if 0 <? tc_readTimeout tc then setErr else None) with
    | Some e => Ret (tc, Err ("failed to set read deadline: " +:+ e))
    | None =>
        '(tc1, h) ← readFull 32 tc;
        match h with
        | Err e => Ret (tc1, Err ("failed to read message header: " +:+ e))
        | Ok headerBuf =>
            match Net.DecodeHeader headerBuf with
            | Err e => Ret (tc1, Err ("failed to decode message header: " +:+ e))
            | Ok (header, size) =>
                '(tc2, d) ← (if (0 <? size)%nat then readFull size tc1 else Ret (tc1, Ok []));
                match d with
                | Err e => Ret (tc2, Err ("failed to read message data: " +:+ e))
                | Ok dataBuf =>
                    Ret (with_counts (i64 (tc_messagesRead tc2 + 1)) (tc_messagesSent tc2) (Unix now) tc2,
                         Ok (Net.with_body dataBuf (tc_id tc) header))
                end
            end
        end
    end.

(** Reading message after message. *)
Fixpoint read_n (n : nat) (now : time) (tc : tcpConnection) : go (tcpConnection * list (res Message)) :=
  match n with
  | O => Ret (tc, [])
  | S n' =>
      '(tc1, m) ← ReadMessage None now tc;
      '(tc2, ms) ← read_n n' now tc1;
      Ret (tc2, m :: ms)
  end.

(** ** Lemmas *)

(** The bytes on their way when no error is among them. *)
Definition arriving (inp : list (res bytes)) (b : bytes) : Prop :=
  exists segs, inp = Ok <$> segs /\ concat segs = b.

Lemma conn_Read_arriving k inp b :
  arriving inp b -> inp <> [] ->
  exists got inp' rest, conn_Read k inp = (Ok got, inp') /\ b = got ++ rest /\ arriving inp' rest /\
    (length got <= k)%nat /\ ((length got = 0 /\ length inp' < length inp)%nat \/
                              (0 < length got /\ length inp' <= length inp)%nat \/ k = 0%nat).
Proof.
  intros (segs & -> & <-) Hne. destruct segs as [|seg segs]; [done|]. cbn [fmap list_fmap conn_Read concat].
  exists (take k seg).
  eexists _, (drop k seg ++ concat segs). split_and!; [reflexivity|by rewrite assoc_L take_drop| | |].
  - destruct (drop k seg) as [|x rest] eqn:Hd; [by exists segs|]. by exists ((x :: rest) :: segs).
  - rewrite length_take. lia.
  - rewrite length_take. destruct (drop k seg) as [|x rest] eqn:Hd; cbn [length]; rewrite length_fmap.
    + destruct seg; cbn [length]; [left; lia|]. destruct k; [by right; right|right; left]. lia.
    + assert (length seg > k)%nat as Hl by (apply (f_equal length) in Hd; rewrite length_drop /= in Hd; lia).
      destruct k; [by right; right|right; left; lia].
Qed.

Definition same_but_reads (tc tc' : tcpConnection) : Prop :=
  tc_closed tc' = tc_closed tc /\ tc_id tc' = tc_id tc /\ tc_conn tc' = tc_conn tc.

(** However the bytes are cut, [readFull] collects the ones asked for. *)
Lemma read_loop_arriving fuel need tc b rest :
  (need + length (tc_in tc) <= fuel)%nat -> length b = need -> arriving (tc_in tc) (b ++ rest) ->
  exists tc', read_loop fuel need tc = Ret (tc', Ok b) /\ arriving (tc_in tc') rest /\ same_but_reads tc tc'.
Proof.
  revert need tc b. induction fuel as [|fuel IH]; intros need tc b Hf Hb Harr.
  { assert (need = 0%nat) as -> by lia. destruct b; [|done]. by exists tc. }
  destruct need as [|need]; [destruct b; [|done]; by exists tc|]. simpl.
  assert (tc_in tc <> []) as Hne.
  { intros Hnil. destruct Harr as (segs & Hs & Hc). rewrite Hnil in Hs. destruct segs; [|done].
    destruct b; [done|]. done. }
  destruct (conn_Read_arriving (S need) (tc_in tc) (b ++ rest) Harr Hne)
    as (got & inp & tl & -> & Heq & Harr' & Hle & Hprog).
  assert (got = take (length got) b) as Hgot.
  { rewrite -(take_app_le b rest); [lia|]. by rewrite Heq take_app_length. }
  assert (tl = drop (length got) b ++ rest) as Htl.
  { apply (f_equal (drop (length got))) in Heq. rewrite drop_app_length in Heq.
    rewrite drop_app_le in Heq; [lia|]. done. }
  destruct (IH (S need - length got)%nat (with_reads inp (Z.of_nat (length got)) tc) (drop (length got) b))
    as (tc' & -> & Ha & Hsame).
  - cbn. lia.
  - rewrite length_drop. lia.
  - cbn. by rewrite -Htl.
  - exists tc'. cbn [mbind go_bind]. split_and!; [|done|done].
    by rewrite {1}Hgot take_drop.
Qed.

Lemma readFull_arriving n tc b rest :
  length b = n -> arriving (tc_in tc) (b ++ rest) ->
  exists tc', readFull n tc = Ret (tc', Ok b) /\ arriving (tc_in tc') rest /\ same_but_reads tc tc'.
Proof. intros. by apply read_loop_arriving. Qed.

(** One framed message off the stream. *)
Lemma ReadMessage_arriving now tc (m : Message) b rest :
  tc_closed tc = false -> tc_conn tc = true -> Net.msg_wf m -> Net.Encode (Some m) = Ok b -> arriving (tc_in tc) (b ++ rest) ->
  exists tc', ReadMessage None now tc =
      Ret (tc', Ok (Net.with_body (Net.nm_Data m) (tc_id tc) (Net.on_wire m))) /\
    arriving (tc_in tc') rest /\ tc_closed tc' = false /\ tc_conn tc' = true /\ tc_id tc' = tc_id tc.
Proof.
  intros Hc Hn Hwf [-> Hmax]%Net.Encode_ok Harr.
  set (n := Z.of_nat (length (Net.nm_Data m))) in *. rewrite -app_assoc in Harr.
  unfold ReadMessage. rewrite Hc Hn. cbn [negb]. replace (if 0 <? tc_readTimeout tc then None else None) with (@None error)
    by by destruct (0 <? _).
  destruct (readFull_arriving 32 tc (Net.header m n) _ (Net.length_header m n) Harr)
    as (tc1 & -> & Harr1 & Hc1 & Hid1 & Hn1). cbn [mbind go_bind].
  unfold Net.DecodeHeader. rewrite Net.length_header. cbn [Z.of_nat Pos.of_succ_nat]. change (_ <? Net.MessageHeaderSize) with false.
  pose proof (Net.parse_header_of m [] Hwf) as Hp. rewrite app_nil_r in Hp. fold n in Hp. rewrite Hp.
  rewrite (proj2 (Z.ltb_ge _ _)) //. cbn [fst snd]. unfold n. rewrite Nat2Z.id.
  destruct (Nat.ltb_spec 0 (length (Net.nm_Data m))) as [Hpos|Hz].
  - destruct (readFull_arriving _ tc1 (Net.nm_Data m) rest eq_refl Harr1) as (tc2 & -> & Harr2 & Hc2 & Hid2 & Hn2).
    cbn [mbind go_bind]. eexists. split; [reflexivity|]. cbn. split_and!; [done|congruence..].
  - cbn [mbind go_bind]. eexists. split.
    + assert (Net.nm_Data m = []) as -> by (destruct (Net.nm_Data m); [done|simpl in Hz; lia]). reflexivity.
    + cbn. assert (Net.nm_Data m = []) as Hnil by (destruct (Net.nm_Data m); [done|simpl in Hz; lia]).
      rewrite Hnil in Harr1. split_and!; [done|congruence..].
Qed.

(** ** Properties *)

(** C7. Framing: when the bytes of any sequence of well-formed messages arrive,
    cut into segments in any way, and followed by anything, reading as many
    messages returns exactly those messages in order, as they look after the
    wire and marked with the connection's id, and leaves the bytes after them. *)
Theorem framing_roundtrip now tc (ms : list Message) bs rest :
  tc_closed tc = false -> tc_conn tc = true -> Forall Net.msg_wf ms ->
  Forall2 (fun m b => Net.Encode (Some m) = Ok b) ms bs -> arriving (tc_in tc) (concat bs ++ rest) ->
  exists tc', read_n (length ms) now tc =
      Ret (tc', (fun m => Ok (Net.with_body (Net.nm_Data m) (tc_id tc) (Net.on_wire m))) <$> ms) /\
    arriving (tc_in tc') rest.
Proof.
  intros Hc Hn Hwf Henc. revert tc Hc Hn Hwf.
  induction Henc as [|m b ms bs Hm Henc IH]; intros tc Hc Hn Hwf Harr.
  { by exists tc. }
  apply Forall_cons in Hwf as [Hwf1 Hwf]. cbn [concat] in Harr. rewrite -app_assoc in Harr.
  destruct (ReadMessage_arriving now tc m b _ Hc Hn Hwf1 Hm Harr) as (tc1 & Hr & Harr1 & Hc1 & Hn1 & Hid1).
  destruct (IH tc1 Hc1 Hn1 Hwf Harr1) as (tc2 & Hr2 & Harr2). exists tc2. split; [|done].
  cbn [length read_n]. rewrite Hr. cbn [mbind go_bind]. rewrite Hr2. cbn [mbind go_bind fmap list_fmap].
  by rewrite Hid1.
Qed.

(** A [Send] that finds the queue full writes to the socket at once: its bytes
    overtake everything queued before. *)
Lemma full_queue_is_overtaken now data tc :
  tc_closed tc = false -> tc_conn tc = true -> ch_closed (tc_sendChan tc) = false -> data <> [] ->
  (ch_cap (tc_sendChan tc) <= length (ch_buf (tc_sendChan tc)))%nat ->
  exists tc', Send None None now data tc = Ret (tc', Ok tt) /\ tc_out tc' = tc_out tc ++ data /\
    tc_sendChan tc' = tc_sendChan tc.
Proof.
  intros Hc Hn Hch Hne Hfull. unfold Send, Send_queue. rewrite Hc.
  destruct (Nat.eqb_spec (length data) 0); [by destruct data|].
  rewrite (try_send_open _ _ Hch) decide_False; [lia|]. cbn [mbind go_bind]. unfold sendDirect. rewrite Hn. cbn [negb].
  replace (if 0 <? tc_writeTimeout tc then None else None) with (@None error) by by destruct (0 <? _).
  eexists. split; [reflexivity|done].
Qed.

(** A [Send] that passed the check of the flag before a [Close] ran panics. *)
Lemma send_racing_close_panics now data tc :
  tc_closed tc = false -> ch_closed (tc_sendChan tc) = false -> data <> [] ->
  exists tc', Close None tc = Ret (tc', Ok tt) /\
    Send_queue None None now data tc' = Panic "send on closed channel".
Proof.
  intros Hc Hch Hne. unfold Close, close_chan. rewrite Hc Hch.
  replace (if tc_conn tc then Ok tt else Ok tt) with (Ok tt) by by destruct (tc_conn tc).
  eexists. split; [reflexivity|]. unfold Send_queue. destruct (Nat.eqb_spec (length data) 0); [by destruct data|]. done.
Qed.

End tcp.
Arguments tcpConnection : clear implicits.

(** ** Inputs the properties apply to *)

Definition demo_stream : list (res bytes) :=
  match Net.Encode (Some Net.demo_net) with
  | Ok b => [Ok (take 5 b); Ok []; Ok (drop 5 b ++ take 33 b); Ok (drop 33 b ++ [7])]
  | Err _ => []
  end.

Lemma framing_roundtrip_witness :
  exists tc', read_n 2 0 (NewTCPConnection (U := unit) 0 (Some demo_stream) 0).2 =
      Ret (tc', [Ok (Net.with_body [1; 2; 255] "tcp-1" (Net.on_wire Net.demo_net));
                 Ok (Net.with_body [1; 2; 255] "tcp-1" (Net.on_wire Net.demo_net))]) /\
    arriving (tc_in tc') [7].
Proof.
  assert (exists b, Net.Encode (Some Net.demo_net) = Ok b /\
    arriving demo_stream (concat [b; b] ++ [7])) as (b & Hb & Harr).
  { eexists. split; [vm_compute; reflexivity|].
    exists (omap (fun r => match r with Ok s => Some s | Err _ => None end) demo_stream).
    split; vm_compute; reflexivity. }
  apply (framing_roundtrip 0 (NewTCPConnection (U := unit) 0 (Some demo_stream) 0).2
           [Net.demo_net; Net.demo_net] [b; b] [7]);
    [reflexivity|reflexivity|repeat constructor; apply Net.demo_net_wf|repeat constructor; exact Hb|exact Harr].
Defined.
