(* ===== verification/ConnManager.v ===== *)
(** The connection manager (src/network/connection_manager.go): the table of
    connections, broadcasts, cleanup of inactive connections, statistics, and
    the heartbeat goroutine.

    What the manager needs of a connection is the class [ConnIface], the part of
    the Go interface [Connection] it calls, with the law of [Close] the cleanup
    relies on; [tcp_world] is its instance for the connections of TcpConn.v.

    The operations on the table run under the manager's mutex and are functions.
    The heartbeat goroutine reads the fields of the manager without the mutex,
    and takes it while [StopHeartbeat] waits for it: that part is the step
    relation of the module [Heartbeat]. *)

From S2P Require Import Prelude CoreTypes NetMessage TcpConn.

#[export] Instance ConnectionState_countable : Countable ConnectionState.
Proof.
  refine (inj_countable'
    (fun s => match s with
              | ConnectionStateConnected => (0%nat, 0)
              | ConnectionStateDisconnected => (1%nat, 0)
              | ConnectionStateReconnecting => (2%nat, 0)
              | ConnectionStateClosed => (3%nat, 0)
              | ConnectionStateOther n => (4%nat, n)
              end)
    (fun p => match p with
              | (0%nat, _) => ConnectionStateConnected
              | (1%nat, _) => ConnectionStateDisconnected
              | (2%nat, _) => ConnectionStateReconnecting
              | (3%nat, _) => ConnectionStateClosed
              | (_, n) => ConnectionStateOther n
              end) _).
  by intros [].
Defined.

(** [cn_live]: the reference is to a connection; [cn_ok]: the connections of the
    world are in a state their own operations leave them in. *)
Class ConnIface (W Ref Msg : Type) := {
  cn_ID : W -> Ref -> string;
  cn_State : W -> Ref -> ConnectionState;
  cn_GetLastActivity : W -> Ref -> time;
  cn_GetStatistics : W -> Ref -> go ConnectionStatistics;
  cn_Send : Ref -> bytes -> W -> go (W * res unit);
  cn_SendMessage : Ref -> option Msg -> W -> go (W * res unit);
  cn_Close : Ref -> W -> go (W * res unit);
  cn_live : W -> Ref -> Prop;
  cn_ok : W -> Prop;
  cn_Close_law r w :
    cn_ok w -> cn_live w r ->
    exists w' e, cn_Close r w = Ret (w', e) /\ cn_ok w' /\ cn_State w' r = ConnectionStateClosed /\
      forall r', (cn_live w r' -> cn_live w' r') /\ cn_ID w' r' = cn_ID w r' /\
        (r' <> r -> cn_State w' r' = cn_State w r' /\ cn_GetLastActivity w' r' = cn_GetLastActivity w r');
}.

Section manager.
Context {W Ref Msg : Type} `{!ConnIface W Ref Msg}.

(** [cm_ticker]: the heartbeat ticker is set; [cm_stopChan]: [None] for [nil],
    otherwise whether the channel is closed. *)
Record connectionManager := mkConnectionManager {
  cm_connections : gmap string Ref;
  cm_heartbeatEnabled : bool;
  cm_heartbeatInterval : duration;
  cm_ticker : bool;
  cm_stopChan : option bool;
  cm_totalConnections : Z;
  cm_totalMessages : Z;
  cm_startTime : time;
}.

Definition NewConnectionManager (now : time) : connectionManager :=
  mkConnectionManager ∅ false 0 false None 0 0 now.

Definition with_connections (m : gmap string Ref) (total : Z) (cm : connectionManager) : connectionManager :=
  mkConnectionManager m (cm_heartbeatEnabled cm) (cm_heartbeatInterval cm) (cm_ticker cm) (cm_stopChan cm)
    total (cm_totalMessages cm) (cm_startTime cm).
Definition add_messages (n : Z) (cm : connectionManager) : connectionManager :=
  mkConnectionManager (cm_connections cm) (cm_heartbeatEnabled cm) (cm_heartbeatInterval cm) (cm_ticker cm)
    (cm_stopChan cm) (cm_totalConnections cm) (i64 (cm_totalMessages cm + n)) (cm_startTime cm).
Definition with_heartbeat (enabled ticker : bool) (stop : option bool) (interval : duration)
    (cm : connectionManager) : connectionManager :=
  mkConnectionManager (cm_connections cm) enabled interval ticker stop (cm_totalConnections cm)
    (cm_totalMessages cm) (cm_startTime cm).

Definition AddConnection (conn : option Ref) (w : W) (cm : connectionManager) : connectionManager * res unit :=
  match conn with
  | None => (cm, Err "connection is nil")
  | Some c =>
      let connID := cn_ID w c in
      match cm_connections cm !! connID with
      | Some _ => (cm, Err ("connection " +:+ connID +:+ " already exists"))
      | None => (with_connections (<[connID := c]> (cm_connections cm)) (i64 (cm_totalConnections cm + 1)) cm, Ok tt)
      end
  end.

Definition conn_not_found (connID : string) : error := "connection " +:+ connID +:+ " not found".

(** What [Close] returns is dropped. *)
Definition RemoveConnection (connID : string) (cm : connectionManager) (w : W)
    : go (connectionManager * W * res unit) :=
  match cm_connections cm !! connID with
  | None => Ret (cm, w, Err (conn_not_found connID))
  | Some c =>
      '(w', _) ← cn_Close c w;
      Ret (with_connections (delete connID (cm_connections cm)) (cm_totalConnections cm) cm, w', Ok tt)
  end.

Definition GetConnection (connID : string) (cm : connectionManager) : option Ref := cm_connections cm !! connID.
(** [order]: the order in which the map is visited, here and below. *)
Definition GetAllConnections (order : list string) (cm : connectionManager) : list Ref :=
  range_vals (cm_connections cm) order.
Definition GetConnectionCount (cm : connectionManager) : Z := Z.of_nat (size (cm_connections cm)).

(** ** Broadcasts

    One goroutine per connection; [conns] is the order in which they run. The
    result: the world, the errors in the order they were reported, the number
    of successes. *)
Fixpoint send_all (send : Ref -> W -> go (W * res unit)) (conns : list Ref) (w : W)
    : go (W * list error * nat) :=
  match conns with
  | [] => Ret (w, [], 0%nat)
  | c :: conns' =>
      '(w1, r) ← send c w;
      '(w2, errs, n) ← send_all send conns' w1;
      Ret (match r with
           | Ok _ => (w2, errs, S n)
           | Err e => (w2, ("failed to send to " +:+ cn_ID w c +:+ ": " +:+ e) :: errs, n)
           end)
  end.

(** [%v] of a slice of errors. *)
Definition format_errors (errs : list error) : string := "[" +:+ String.concat " " errs +:+ "]".
Definition broadcast_failed (errs : list error) (n : nat) : error :=
  "broadcast failed for " +:+ pretty (Z.of_nat (length errs)) +:+ "/" +:+ pretty (Z.of_nat n)
    +:+ " connections: " +:+ format_errors errs.

(** [sched]: how the goroutines for a slice of connections are scheduled.
    [race]: the goroutines increment [successCount] without synchronisation;
    [race n] is what [n] increments leave in it. *)
Definition BroadcastMessage (sched : list Ref -> list Ref) (race : nat -> Z) (order : list string)
    (msg : option Msg) (cm : connectionManager) (w : W) : go (connectionManager * W * res unit) :=
  match msg with
  | None => Ret (cm, w, Err "message is nil")
  | Some _ =>
      let conns := GetAllConnections order cm in
      if (length conns =? 0)%nat then Ret (cm, w, Ok tt)
      else
        '(w', errs, n) ← send_all (fun c => cn_SendMessage c msg) (sched conns) w;
        Ret (add_messages (race n) cm, w',
             if (length errs =? 0)%nat then Ok tt else Err (broadcast_failed errs (length conns)))
  end.

Definition BroadcastData (sched : list Ref -> list Ref) (order : list string) (data : bytes)
    (cm : connectionManager) (w : W) : go (W * res unit) :=
  if (length data =? 0)%nat then Ret (w, Err "data is empty")
  else
    let conns := GetAllConnections order cm in
    if (length conns =? 0)%nat then Ret (w, Ok tt)
    else
      '(w', errs, _) ← send_all (fun c => cn_Send c data) (sched conns) w;
      Ret (w', if (length errs =? 0)%nat then Ok tt else Err (broadcast_failed errs (length conns))).

Definition SendMessageToConnection (connID : string) (msg : option Msg) (cm : connectionManager) (w : W)
    : go (connectionManager * W * res unit) :=
  match GetConnection connID cm with
  | None => Ret (cm, w, Err (conn_not_found connID))
  | Some c => '(w', r) ← cn_SendMessage c msg w; Ret (if is_ok r then add_messages 1 cm else cm, w', r)
  end.

Definition GetConnectionsByState (state : ConnectionState) (order : list string) (cm : connectionManager) (w : W)
    : list Ref :=
  List.filter (fun c => bool_decide (cn_State w c = state)) (range_vals (cm_connections cm) order).

(** ** Cleanup *)

Definition inactive (cutoffTime : time) (w : W) (c : Ref) : bool :=
  (cn_GetLastActivity w c <? cutoffTime) || bool_decide (cn_State w c = ConnectionStateClosed).

Fixpoint cleanup_loop (cutoffTime : time) (ids : list string) (cm : connectionManager) (w : W) (removedCount : Z)
    : go (connectionManager * W * Z) :=
  match ids with
  | [] => Ret (cm, w, removedCount)
  | connID :: ids' =>
      match cm_connections cm !! connID with
      | None => cleanup_loop cutoffTime ids' cm w removedCount
      | Some c =>
          if inactive cutoffTime w c then
            '(w', _) ← cn_Close c w;
            cleanup_loop cutoffTime ids'
              (with_connections (delete connID (cm_connections cm)) (cm_totalConnections cm) cm) w' (removedCount + 1)
          else cleanup_loop cutoffTime ids' cm w removedCount
      end
  end.

Definition Cleanup (timeout : duration) (now : time) (order : list string) (cm : connectionManager) (w : W)
    : go (connectionManager * W * Z) :=
  if timeout <=? 0 then Ret (cm, w, 0) else cleanup_loop (now - timeout) order cm w 0.

(** ** Statistics *)

Record ConnectionManagerStatistics := mkManagerStatistics {
  cms_TotalConnections : Z;
  cms_ActiveConnections : Z;
  cms_ConnectionsByState : gmap ConnectionState Z;
  cms_TotalBytes : Z;
  cms_TotalMessages : Z;
  cms_HeartbeatEnabled : bool;
  cms_HeartbeatInterval : duration;
  cms_StartTime : time;
  cms_Uptime : duration;
}.

Fixpoint stats_loop (conns : list Ref) (w : W) (acc : gmap ConnectionState Z * Z * Z)
    : go (gmap ConnectionState Z * Z * Z) :=
  match conns with
  | [] => Ret acc
  | c :: conns' =>
      let '(stateCount, totalBytes, totalMessages) := acc in
      let state := cn_State w c in
      stats ← cn_GetStatistics w c;
      stats_loop conns' w
        (<[state := default 0 (stateCount !! state) + 1]> stateCount,
         i64 (totalBytes + i64 (cs_BytesRead stats + cs_BytesWritten stats)),
         i64 (totalMessages + i64 (cs_MessagesRead stats + cs_MessagesSent stats)))
  end.

Definition cm_GetStatistics (now : time) (order : list string) (cm : connectionManager) (w : W)
    : go ConnectionManagerStatistics :=
  '(stateCount, totalBytes, totalMessages) ← stats_loop (range_vals (cm_connections cm) order) w (∅, 0, 0);
  Ret (mkManagerStatistics (cm_totalConnections cm) (GetConnectionCount cm) stateCount totalBytes totalMessages
         (cm_heartbeatEnabled cm) (cm_heartbeatInterval cm) (cm_startTime cm) (time_sub now (cm_startTime cm))).

(** ** Closing everything *)

Fixpoint close_loop (ids : list string) (cm : connectionManager) (w : W) (errors : list error)
    : go (W * list error) :=
  match ids with
  | [] => Ret (w, errors)
  | connID :: ids' =>
      match cm_connections cm !! connID with
      | None => close_loop ids' cm w errors
      | Some c =>
          '(w', r) ← cn_Close c w;
          close_loop ids' cm w'
            (match r with
             | Ok _ => errors
             | Err e => errors ++ ["failed to close connection " +:+ connID +:+ ": " +:+ e]
             end)
      end
  end.

(** The stop channel of a running heartbeat is closed and stays set. *)
Definition CloseAllConnections (order : list string) (cm : connectionManager) (w : W)
    : go (connectionManager * W * res unit) :=
  '(w', errors) ← close_loop order cm w [];
  let cm1 := with_connections ∅ (cm_totalConnections cm) cm in
  cm2 ← (if cm_heartbeatEnabled cm1 then
           match cm_stopChan cm1 with
           | Some true => Panic "close of closed channel"
           | Some false => Ret (with_heartbeat false (cm_ticker cm1) (Some true) (cm_heartbeatInterval cm1) cm1)
           | None => Ret (with_heartbeat false (cm_ticker cm1) None (cm_heartbeatInterval cm1) cm1)
           end
         else Ret cm1);
  Ret (cm2, w', if (length errors =? 0)%nat then Ok tt
                else Err ("errors occurred while closing connections: " +:+ format_errors errors)).

(** [StartHeartbeat], up to the goroutine it launches. [fmt_duration]: [%v] of a
    duration. *)
Definition StartHeartbeat (fmt_duration : duration -> string) (interval : duration) (cm : connectionManager)
    : connectionManager * res unit :=
  if interval <=? 0 then (cm, Err ("invalid heartbeat interval: " +:+ fmt_duration interval))
  else if cm_heartbeatEnabled cm then (cm, Err "heartbeat is already running")
  else (with_heartbeat true true (Some false) interval cm, Ok tt).

(** ** The table *)

(** Connections are registered under their own ids. *)
Definition cm_wf (cm : connectionManager) (w : W) : Prop :=
  forall id c, cm_connections cm !! id = Some c -> cn_live w c /\ cn_ID w c = id.

Lemma NewConnectionManager_wf now w : cm_wf (NewConnectionManager now) w.
Proof. intros id c. cbn. by rewrite lookup_empty. Qed.

(** Adding a connection makes it, and only it, findable under its id; a second
    one with that id is refused. *)
Lemma AddConnection_spec c w cm cm' :
  cm_wf cm w -> cn_live w c -> AddConnection (Some c) w cm = (cm', Ok tt) ->
  cm_wf cm' w /\ GetConnection (cn_ID w c) cm = None /\
  forall id, GetConnection id cm' = if decide (id = cn_ID w c) then Some c else GetConnection id cm.
Proof.
  unfold AddConnection, GetConnection. intros Hwf Hl.
  destruct (cm_connections cm !! cn_ID w c) eqn:E; [done|]. intros [= <-]. cbn. split_and!.
  - intros id d. cbn. intros [[<- <-]|[_ Hd]]%lookup_insert_Some; [done|by apply Hwf].
  - done.
  - intros id. case_decide as Hid; [by rewrite Hid lookup_insert_eq|]. rewrite lookup_insert_ne; [congruence|done].
Qed.

(** One entry of the table closed and deleted. *)
Lemma close_delete_wf cm w id c w' :
  cm_wf cm w -> cm_connections cm !! id = Some c ->
  (forall r, (cn_live w r -> cn_live w' r) /\ cn_ID w' r = cn_ID w r) ->
  cm_wf (with_connections (delete id (cm_connections cm)) (cm_totalConnections cm) cm) w'.
Proof.
  intros Hwf Hc Hw i d. cbn. intros [_ Hd]%lookup_delete_Some. destruct (Hwf i d Hd) as [Hl Hid].
  destruct (Hw d) as [H1 H2]. split; [by apply H1|by rewrite H2].
Qed.

(** What the visit of [ids] leaves: the entries it found inactive are gone and
    their connections closed, everything else is as it was. *)
Record cleaned (cutoff : time) (ids : list string) (cm cm' : connectionManager) (w w' : W) (n : Z) : Prop := {
  cl_table id : cm_connections cm' !! id =
    match cm_connections cm !! id with
    | Some c => if decide (id ∈ ids) then if inactive cutoff w c then None else Some c else Some c
    | None => None
    end;
  cl_count : n = Z.of_nat (size (cm_connections cm)) - Z.of_nat (size (cm_connections cm'));
  cl_closed id c : id ∈ ids -> cm_connections cm !! id = Some c -> inactive cutoff w c = true ->
    cn_State w' c = ConnectionStateClosed;
  cl_frame c : (forall id, id ∈ ids -> cm_connections cm !! id = Some c -> inactive cutoff w c = false) ->
    cn_State w' c = cn_State w c /\ cn_GetLastActivity w' c = cn_GetLastActivity w c;
}.

Lemma cleaned_nil cutoff cm w : cleaned cutoff [] cm cm w w 0.
Proof.
  split; [|lia|by intros ?? ?%not_elem_of_nil|done].
  intros id. destruct (cm_connections cm !! id) as [c|]; [|done].
  destruct (decide _) as [Hd|Hd]; [by apply not_elem_of_nil in Hd|done].
Qed.

(** An entry that is absent or active is passed over. *)
Lemma cleaned_skip cutoff id ids cm cm' w w' n :
  (forall c, cm_connections cm !! id = Some c -> inactive cutoff w c = false) ->
  cleaned cutoff ids cm cm' w w' n -> cleaned cutoff (id :: ids) cm cm' w w' n.
Proof.
  intros Hskip [H1 H2 H3 H4]. split; [|done| |].
  - intros i. rewrite H1. destruct (cm_connections cm !! i) as [c|] eqn:Hi; [|done].
    destruct (decide (i = id)) as [->|Hne].
    + rewrite (Hskip c Hi). by repeat case_decide.
    + destruct (decide (i ∈ ids)); [by rewrite decide_True; [right|]|].
      rewrite decide_False; [by intros [?|?]%elem_of_cons|done].
  - intros i c [->|Hi]%elem_of_cons Hc Hin; [by rewrite (Hskip c Hc) in Hin|by apply (H3 i c)].
  - intros c Hc. apply H4. intros i Hi. apply Hc. by right.
Qed.

(** An inactive one is closed and deleted. *)
Lemma cleaned_close cutoff id ids c cm cm' w w1 w' n :
  cm_wf cm w -> cm_connections cm !! id = Some c -> id ∉ ids -> inactive cutoff w c = true ->
  cn_State w1 c = ConnectionStateClosed ->
  (forall r, r <> c -> cn_State w1 r = cn_State w r /\ cn_GetLastActivity w1 r = cn_GetLastActivity w r) ->
  cleaned cutoff ids (with_connections (delete id (cm_connections cm)) (cm_totalConnections cm) cm) cm' w1 w' n ->
  cleaned cutoff (id :: ids) cm cm' w w' (n + 1).
Proof.
  intros Hwf Hc Hnin Hina Hcl Hfr [H1 H2 H3 H4]. cbn [cm_connections with_connections] in *.
  assert (forall i d, cm_connections cm !! i = Some d -> i <> id -> d <> c) as Hne.
  { intros i d Hd Hi ->. apply Hi. destruct (Hwf i c Hd) as [_ <-]. by destruct (Hwf id c Hc). }
  assert (forall d, d <> c -> inactive cutoff w1 d = inactive cutoff w d) as Heq.
  { intros d Hd. unfold inactive. by destruct (Hfr d Hd) as [-> ->]. }
  split.
  - intros i. rewrite H1. destruct (decide (i = id)) as [->|Hi].
    + rewrite lookup_delete_eq Hc decide_True; [by left|]. by rewrite Hina.
    + rewrite lookup_delete_ne; [congruence|]. destruct (cm_connections cm !! i) as [d|] eqn:Hd; [|done].
      rewrite (Heq d (Hne i d Hd Hi)). destruct (decide (i ∈ ids)); [by rewrite decide_True; [right|]|].
      rewrite decide_False; [by intros [?|?]%elem_of_cons|done].
  - rewrite map_size_delete_Some in H2; [by exists c|].
    assert (size (cm_connections cm) <> 0%nat); [|lia].
    intros E%map_size_empty_inv. by rewrite E lookup_empty in Hc.
  - intros i d [->|Hi]%elem_of_cons Hd Hin.
    + simplify_eq. rewrite -Hcl. apply H4. intros j Hj [? Hd']%lookup_delete_Some.
      exfalso. apply (Hne j c Hd'); congruence.
    + assert (i <> id) as Hii by congruence. apply (H3 i d Hi); [rewrite lookup_delete_ne; [congruence|done]|].
      by rewrite (Heq d (Hne i d Hd Hii)).
  - intros d Hd. assert (d <> c) as Hdc.
    { intros ->. by rewrite (Hd id (list_elem_of_here _ _) Hc) in Hina. }
    destruct (Hfr d Hdc) as [<- <-]. apply H4. intros i Hi [_ Hi']%lookup_delete_Some.
    rewrite (Heq d Hdc). apply (Hd i); [by right|done].
Qed.

Lemma cleanup_loop_spec cutoff ids cm w n :
  NoDup ids -> cn_ok w -> cm_wf cm w ->
  exists cm' w' k, cleanup_loop cutoff ids cm w n = Ret (cm', w', n + k) /\ cleaned cutoff ids cm cm' w w' k.
Proof.
  intros Hnd. revert cm w n. induction Hnd as [|id ids Hnin Hnd IH]; intros cm w n Hok Hwf.
  { exists cm, w, 0. rewrite Z.add_0_r. split; [done|apply cleaned_nil]. }
  simpl. destruct (cm_connections cm !! id) as [c|] eqn:Hc.
  - destruct (Hwf id c Hc) as [Hlive _]. destruct (inactive cutoff w c) eqn:Hina.
    + destruct (cn_Close_law c w Hok Hlive) as (w1 & e & -> & Hok1 & Hst & Hfr). cbn [mbind go_bind].
      destruct (IH (with_connections (delete id (cm_connections cm)) (cm_totalConnections cm) cm) w1 (n + 1) Hok1)
        as (cm' & w' & k & -> & Hk).
      { apply (close_delete_wf cm w id c w1 Hwf Hc). intros r. by destruct (Hfr r) as (? & ? & _). }
      exists cm', w', (k + 1). split; [do 2 f_equal; lia|].
      apply (cleaned_close cutoff id ids c cm cm' w w1 w' k); try done. intros r. by destruct (Hfr r) as (_ & _ & ?).
    + destruct (IH cm w n Hok Hwf) as (cm' & w' & k & -> & Hk). exists cm', w', k. split; [done|].
      apply cleaned_skip; [|done]. intros c'. rewrite Hc. by intros [= <-].
  - destruct (IH cm w n Hok Hwf) as (cm' & w' & k & -> & Hk). exists cm', w', k. split; [done|].
    apply cleaned_skip; [|done]. intros c'. by rewrite Hc.
Qed.

(** ** Properties of the table *)

(** Every goroutine of a broadcast reports either a success or an error. *)
Lemma send_all_counts send conns w w' errs n :
  send_all send conns w = Ret (w', errs, n) -> (length errs + n = length conns)%nat.
Proof.
  revert w w' errs n. induction conns as [|c conns IH]; intros w w' errs n; simpl; [by intros [= _ <- <-]|].
  destruct (send c w) as [[w1 r]| |]; [|done..]. cbn [mbind go_bind].
  destruct (send_all send conns w1) as [[[w2 es] k]| |] eqn:E; [|done..]. cbn [mbind go_bind].
  apply IH in E. destruct r; intros [= _ <- <-]; cbn [length]; lia.
Qed.

(** Cleanup is exact: whatever the order of the visit, it removes and closes
    every connection that was inactive for longer than the timeout or is closed,
    keeps every other one, in the state it was in, and returns how many it
    removed. *)
Theorem cm_cleanup_exact (timeout : duration) (now : time) (order : list string) (cm : connectionManager) (w : W) :
  cn_ok w -> cm_wf cm w -> range_order (cm_connections cm) order -> 0 < timeout ->
  exists cm' w' n, Cleanup timeout now order cm w = Ret (cm', w', n) /\
    (forall id, GetConnection id cm' =
       match GetConnection id cm with
       | Some c => if inactive (now - timeout) w c then None else Some c
       | None => None
       end) /\
    n = GetConnectionCount cm - GetConnectionCount cm' /\
    forall id c, GetConnection id cm = Some c ->
      cn_State w' c = if inactive (now - timeout) w c then ConnectionStateClosed else cn_State w c.
Proof.
  intros Hok Hwf Ho Ht. unfold Cleanup, GetConnection. rewrite (proj2 (Z.leb_gt _ _) Ht).
  destruct (cleanup_loop_spec (now - timeout) order cm w 0 (NoDup_range_order _ _ Ho) Hok Hwf)
    as (cm' & w' & k & -> & [H1 H2 H3 H4]).
  assert (forall id c, cm_connections cm !! id = Some c -> id ∈ order) as Hin.
  { intros id c Hc. apply (elem_of_range_order _ _ id Ho). by exists c. }
  exists cm', w', (0 + k). split_and!; [done| |done|].
  - intros id. rewrite H1. destruct (cm_connections cm !! id) as [c|] eqn:Hc; [|done].
    destruct (decide (id ∈ order)) as [_|Hn]; [done|by destruct (Hn (Hin id c Hc))].
  - intros id c Hc. destruct (inactive (now - timeout) w c) eqn:Hi; [by apply (H3 id c (Hin id c Hc))|].
    by apply H4.
Qed.

End manager.
Arguments connectionManager : clear implicits.

(** ** TCP connections as the manager sees them

    A heap of connections; the parameters are what the sockets return and the
    time of the moment. *)

Definition tcp_ok {U} (w : gmap nat (tcpConnection U)) : Prop :=
  forall r tc, w !! r = Some tc ->
    ch_closed (tc_sendChan tc) = tc_closed tc /\ (tc_closed tc = true -> tc_state tc = ConnectionStateClosed).

Definition on_conn {U A} (r : nat) (f : tcpConnection U -> go (tcpConnection U * A)) (w : gmap nat (tcpConnection U))
    : go (gmap nat (tcpConnection U) * A) :=
  match w !! r with
  | None => nil_conn
  | Some tc => '(tc', a) ← f tc; Ret (<[r := tc']> w, a)
  end.

Lemma Close_spec {U} (closeErr : option error) (tc : tcpConnection U) :
  ch_closed (tc_sendChan tc) = tc_closed tc -> (tc_closed tc = true -> tc_state tc = ConnectionStateClosed) ->
  exists tc' e, Close closeErr tc = Ret (tc', e) /\ tc_state tc' = ConnectionStateClosed /\ tc_id tc' = tc_id tc /\
    tc_closed tc' = true /\ ch_closed (tc_sendChan tc') = true.
Proof.
  intros Hch Hst. unfold Close, close_chan. rewrite Hch. destruct (tc_closed tc) eqn:Hc.
  - exists tc, (Ok tt). split_and!; [done|by apply Hst|done|done|congruence].
  - cbn [mbind go_bind]. eexists _, _. split; [reflexivity|]. done.
Qed.

Definition tcp_world {U} (setErr writeErr closeErr : option error) (addr : string) (now : time)
    : ConnIface (gmap nat (tcpConnection U)) nat (Net.Message U).
Proof.
  refine {| cn_ID w r := from_option tc_id "" (w !! r);
            cn_State w r := from_option tc_state ConnectionStateClosed (w !! r);
            cn_GetLastActivity w r := from_option GetLastActivity zero_time (w !! r);
            cn_GetStatistics w r := match w !! r with Some tc => GetStatistics addr addr tc | None => nil_conn end;
            cn_Send r data := on_conn r (Send setErr writeErr now data);
            cn_SendMessage r msg :=
              on_conn r (fun tc => '(tc', _, e) ← SendMessage setErr writeErr now msg tc; Ret (tc', e));
            cn_Close r := on_conn r (Close closeErr);
            cn_live w r := is_Some (w !! r);
            cn_ok := tcp_ok |}.
  intros r w Hok [tc Htc]. destruct (Hok r tc Htc) as [Hch Hst].
  destruct (Close_spec closeErr tc Hch Hst) as (tc' & e & HC & Hst' & Hid & Hcl & Hch').
  unfold on_conn. rewrite Htc HC. cbn [mbind go_bind]. exists (<[r := tc']> w), e.
  rewrite lookup_insert_eq. split_and!; [done| |done|].
  - intros r' t. intros [[_ <-]|[_ Ht]]%lookup_insert_Some; [split; [congruence|done]|by apply (Hok r')].
  - intros r'. destruct (decide (r' = r)) as [->|Hne].
    + rewrite lookup_insert_eq Htc. cbn. split_and!; [by intros; eexists|done|done].
    + rewrite lookup_insert_ne; [congruence|done].
Defined.

(** An idle connection, a fresh one and a closed one. *)
#[local] Instance demo_tcp : ConnIface (gmap nat (tcpConnection unit)) nat (Net.Message unit) :=
  tcp_world None None None "127.0.0.1:1" 0.
Definition demo_conns : gmap nat (tcpConnection unit) := Eval vm_compute in
  {[ 1%nat := (NewTCPConnection 0 (Some []) (10 * Second)).2;
     2%nat := (NewTCPConnection 1 (Some []) (100 * Second)).2;
     3%nat := match Close None (NewTCPConnection 2 (Some []) (100 * Second)).2 with
              | Ret (tc, _) => tc | _ => (NewTCPConnection 2 (Some []) 0).2 end ]}.
Definition demo_manager : connectionManager nat := Eval vm_compute in
  fold_left (fun cm r => (AddConnection (Some r) demo_conns cm).1) [1; 2; 3]%nat (NewConnectionManager 0).

Lemma demo_conns_ok : cn_ok (Ref := nat) (Msg := Net.Message unit) demo_conns.
Proof.
  intros r tc Hr. apply elem_of_map_to_list, list_elem_of_In in Hr. vm_compute in Hr.
  destruct Hr as [[= _ <-]|[[= _ <-]|[[= _ <-]|[]]]]; split; done.
Qed.

Lemma demo_manager_wf : cm_wf (Msg := Net.Message unit) demo_manager demo_conns.
Proof.
  assert (map_Forall (fun id c => is_Some (demo_conns !! c) /\ from_option tc_id "" (demo_conns !! c) = id)
            (cm_connections demo_manager)) as Hall; [|exact Hall].
  apply (bool_decide_unpack _). vm_compute. exact I.
Qed.

Definition demo_visit : list string := Eval vm_compute in keys (cm_connections demo_manager).
Lemma demo_visit_order : range_order (cm_connections demo_manager) demo_visit.
Proof. vm_compute. reflexivity. Qed.

Lemma cm_cleanup_exact_witness :
  exists cm' w' n, Cleanup (Msg := Net.Message unit) (50 * Second) (110 * Second) demo_visit demo_manager demo_conns = Ret (cm', w', n) /\
    GetConnection "tcp-1" cm' = None /\ GetConnection "tcp-2" cm' = Some 2%nat.
Proof.
  destruct (cm_cleanup_exact (Msg := Net.Message unit) (50 * Second) (110 * Second) demo_visit demo_manager demo_conns
              demo_conns_ok demo_manager_wf demo_visit_order eq_refl) as (cm' & w' & n & H1 & H2 & _).
  exists cm', w', n. split; [exact H1|]. split; rewrite H2; vm_compute; reflexivity.
Defined.

(** ** The heartbeat goroutine

    [heartbeatLoop] reads the fields [heartbeatTicker] and [heartbeatStopChan]
    without the mutex each time it comes to its [select]; [StopHeartbeat] writes
    them, and waits for the loop, while it holds the mutex. *)
Module Heartbeat.

(** A ticker runs until it is stopped, and its channel holds one tick. *)
Record ticker := mkTicker { tk_running : bool; tk_pending : bool }.

(** Program points of the loop: before the [select], with its first operand
    evaluated, in the [select] with the channels it waits on, and in
    [sendHeartbeatToAll], about to take the mutex. *)
Inductive loop_pc :=
| LEval
| LTicker (tick : nat)
| LSelect (tick : nat) (stop : option nat)
| LSend
| LDone
| LPanic.

Inductive thread :=
| StartCall
| StartRet (r : res unit)
| StopCall
| StopTicker
| StopTickerNil
| StopClose
| StopChanNil
| StopWait
| StopRet
| StopPanic
| CloseAllCall
| CloseAllRet.

(** [h_writer]: the thread that holds the mutex beyond one step; [h_wg]: the
    loops that have not called [Done]. *)
Record conf := mkConf {
  h_enabled : bool;
  h_ticker : option nat;
  h_stop : option nat;
  h_tickers : gmap nat ticker;
  h_chans : gmap nat bool;
  h_wg : gset nat;
  h_writer : option nat;
  h_loops : gmap nat loop_pc;
  h_thr : gmap nat thread;
}.

Definition initial : conf := mkConf false None None ∅ ∅ ∅ None ∅ ∅.

Definition set_thr (t : nat) (th : thread) (c : conf) : conf :=
  mkConf (h_enabled c) (h_ticker c) (h_stop c) (h_tickers c) (h_chans c) (h_wg c) (h_writer c) (h_loops c)
    (<[t := th]> (h_thr c)).
Definition set_loop (l : nat) (pc : loop_pc) (c : conf) : conf :=
  mkConf (h_enabled c) (h_ticker c) (h_stop c) (h_tickers c) (h_chans c) (h_wg c) (h_writer c)
    (<[l := pc]> (h_loops c)) (h_thr c).
Definition set_ticker (k : nat) (tk : ticker) (c : conf) : conf :=
  mkConf (h_enabled c) (h_ticker c) (h_stop c) (<[k := tk]> (h_tickers c)) (h_chans c) (h_wg c) (h_writer c)
    (h_loops c) (h_thr c).
Definition close_stop (ch : nat) (c : conf) : conf :=
  mkConf (h_enabled c) (h_ticker c) (h_stop c) (h_tickers c) (<[ch := true]> (h_chans c)) (h_wg c) (h_writer c)
    (h_loops c) (h_thr c).
Definition set_fields (tick stop : option nat) (c : conf) : conf :=
  mkConf (h_enabled c) tick stop (h_tickers c) (h_chans c) (h_wg c) (h_writer c) (h_loops c) (h_thr c).
Definition set_enabled (b : bool) (c : conf) : conf :=
  mkConf b (h_ticker c) (h_stop c) (h_tickers c) (h_chans c) (h_wg c) (h_writer c) (h_loops c) (h_thr c).
Definition set_writer (o : option nat) (c : conf) : conf :=
  mkConf (h_enabled c) (h_ticker c) (h_stop c) (h_tickers c) (h_chans c) (h_wg c) o (h_loops c) (h_thr c).
Definition loop_done (l : nat) (c : conf) : conf :=
  mkConf (h_enabled c) (h_ticker c) (h_stop c) (h_tickers c) (h_chans c) (h_wg c ∖ {[l]}) (h_writer c)
    (<[l := LDone]> (h_loops c)) (h_thr c).

(** [ticker.Stop()] of the ticker in the field, if any. *)
Definition stop_ticker (c : conf) : conf :=
  match h_ticker c with
  | Some k => match h_tickers c !! k with
              | Some tk => set_ticker k (mkTicker false (tk_pending tk)) c
              | None => c
              end
  | None => c
  end.

(** The body of [StartHeartbeat] under the mutex: new ticker, new stop channel,
    one more loop. *)
Definition start_body (c : conf) : conf :=
  let k := fresh (dom (h_tickers c)) in
  let ch := fresh (dom (h_chans c)) in
  let l := fresh (dom (h_loops c)) in
  mkConf true (Some k) (Some ch) (<[k := mkTicker true false]> (h_tickers c)) (<[ch := false]> (h_chans c))
    ({[l]} ∪ h_wg c) (h_writer c) (<[l := LEval]> (h_loops c)) (h_thr c).

(** [close(cm.heartbeatStopChan)]; [None] when it panics. *)
Definition close_field (c : conf) : option conf :=
  match h_stop c with
  | None => Some c
  | Some ch => if decide (h_chans c !! ch = Some true) then None else Some (close_stop ch c)
  end.

Definition entry (th : thread) : bool :=
  match th with StartCall | StopCall | CloseAllCall => true | _ => false end.

(** [StartHeartbeat] and [CloseAllConnections] hold the mutex for the whole of
    their work on the fields; [StopHeartbeat] field by field. *)
Inductive hb_client_step : conf -> conf -> Prop :=
| step_spawn c t th :
    h_thr c !! t = None -> entry th = true -> hb_client_step c (set_thr t th c)
| step_start c t :
    h_thr c !! t = Some StartCall -> h_writer c = None ->
    hb_client_step c (if h_enabled c then set_thr t (StartRet (Err "heartbeat is already running")) c
                   else set_thr t (StartRet (Ok tt)) (start_body c))
| step_stop_lock c t :
    h_thr c !! t = Some StopCall -> h_writer c = None ->
    hb_client_step c (if h_enabled c then set_thr t StopTicker (set_writer (Some t) (set_enabled false c))
                   else set_thr t StopRet c)
| step_stop_ticker c t :
    h_thr c !! t = Some StopTicker ->
    hb_client_step c (set_thr t (if decide (h_ticker c = None) then StopClose else StopTickerNil) (stop_ticker c))
| step_stop_ticker_nil c t :
    h_thr c !! t = Some StopTickerNil -> hb_client_step c (set_thr t StopClose (set_fields None (h_stop c) c))
| step_stop_close c t :
    h_thr c !! t = Some StopClose ->
    hb_client_step c (match close_field c with
                   | None => set_thr t StopPanic c
                   | Some c' => set_thr t (if decide (h_stop c = None) then StopWait else StopChanNil) c'
                   end)
| step_stop_chan_nil c t :
    h_thr c !! t = Some StopChanNil -> hb_client_step c (set_thr t StopWait (set_fields (h_ticker c) None c))
| step_stop_wait c t :
    h_thr c !! t = Some StopWait -> h_wg c = ∅ -> hb_client_step c (set_thr t StopRet (set_writer None c))
| step_close_all c t c' :
    h_thr c !! t = Some CloseAllCall -> h_writer c = None ->
    (if h_enabled c then close_field (stop_ticker (set_enabled false c)) else Some c) = Some c' ->
    hb_client_step c (set_thr t CloseAllRet c').

(** A ticker fires; the loops step. A [nil] ticker has no field [C]; a [nil]
    stop channel is never ready. *)
Inductive hb_loop_step : conf -> conf -> Prop :=
| step_fire c k p :
    h_tickers c !! k = Some (mkTicker true p) -> hb_loop_step c (set_ticker k (mkTicker true true) c)
| step_eval c l :
    h_loops c !! l = Some LEval ->
    hb_loop_step c (set_loop l (match h_ticker c with Some k => LTicker k | None => LPanic end) c)
| step_eval_stop c l k :
    h_loops c !! l = Some (LTicker k) -> hb_loop_step c (set_loop l (LSelect k (h_stop c)) c)
| step_tick c l k st r :
    h_loops c !! l = Some (LSelect k st) -> h_tickers c !! k = Some (mkTicker r true) ->
    hb_loop_step c (set_loop l LSend (set_ticker k (mkTicker r false) c))
| step_stopped c l k ch :
    h_loops c !! l = Some (LSelect k (Some ch)) -> h_chans c !! ch = Some true -> hb_loop_step c (loop_done l c)
| step_send c l :
    h_loops c !! l = Some LSend -> h_writer c = None -> hb_loop_step c (set_loop l LEval c).

Definition step (c c' : conf) : Prop := hb_client_step c c' \/ hb_loop_step c c'.
Definition reachable (c : conf) : Prop := rtc step initial c.

(** ** At most one loop *)

Definition stopping (th : thread) : bool :=
  match th with StopTicker | StopTickerNil | StopClose | StopChanNil | StopWait | StopPanic => true | _ => false end.

(** A loop is running from its launch to its [Done]. *)
Definition running (c : conf) (l : nat) : Prop := exists pc, h_loops c !! l = Some pc /\ pc <> LDone.

Record inv (c : conf) : Prop := {
  i_one l l' : l ∈ h_wg c -> l' ∈ h_wg c -> l = l';
  i_idle : h_writer c = None -> h_enabled c = false -> h_wg c = ∅;
  i_writer t th : h_thr c !! t = Some th -> stopping th = true -> h_writer c = Some t;
  i_running l : running c l -> l ∈ h_wg c;
}.

(** Steps that leave the flag, the mutex, the wait group and the loops alone. *)
Lemma hb_inv_thr c c' t th :
  inv c -> h_enabled c' = h_enabled c -> h_writer c' = h_writer c -> h_wg c' = h_wg c -> h_loops c' = h_loops c ->
  h_thr c' = <[t := th]> (h_thr c) -> (stopping th = true -> h_writer c = Some t) -> inv c'.
Proof.
  intros [H1 H2 H3 H4] He Hw Hg Hl Ht Hs. split; unfold running in *; rewrite ?He ?Hw ?Hg ?Hl ?Ht; try done.
  intros t' th'. intros [[<- <-]|[_ Ht']]%lookup_insert_Some Hst; [by apply Hs|by apply (H3 t' th')].
Qed.

(** Steps of a loop that is running and stays so. *)
Lemma hb_inv_loop c c' l pc pc' :
  inv c -> h_loops c !! l = Some pc -> pc <> LDone ->
  h_enabled c' = h_enabled c -> h_writer c' = h_writer c -> h_wg c' = h_wg c -> h_thr c' = h_thr c ->
  h_loops c' = <[l := pc']> (h_loops c) -> inv c'.
Proof.
  intros [H1 H2 H3 H4] Hl Hpc He Hw Hg Ht Hl'. split; rewrite ?He ?Hw ?Hg ?Ht; try done.
  intros l' (q & Hq & Hne). rewrite Hl' in Hq. apply lookup_insert_Some in Hq as [[<- _]|[_ Hq]].
  - apply H4. by exists pc.
  - apply H4. by exists q.
Qed.

Lemma hb_inv_start c t : inv c -> h_writer c = None -> h_enabled c = false -> inv (set_thr t (StartRet (Ok tt)) (start_body c)).
Proof.
  intros [H1 H2 H3 H4] Hw He. pose proof (H2 Hw He) as Hg.
  split; cbn -[fresh]; rewrite ?Hg; [set_solver|done| |].
  - intros t' th. intros [[_ <-]|[_ Ht]]%lookup_insert_Some; [done|by apply H3].
  - intros l (pc & Hl & Hpc). cbn -[fresh] in Hl. apply lookup_insert_Some in Hl as [[<- _]|[_ Hl]]; [set_solver|].
    assert (l ∈ h_wg c) as Hin by (apply H4; by exists pc). rewrite Hg in Hin. set_solver.
Qed.

Lemma hb_inv_stop_lock c t : inv c -> h_writer c = None ->
  inv (set_thr t StopTicker (set_writer (Some t) (set_enabled false c))).
Proof.
  intros [H1 H2 H3 H4] Hw. split; cbn; [done|done| |done].
  intros t' th. intros [[<- _]|[_ Ht]]%lookup_insert_Some; [done|]. intros Hst. by rewrite (H3 t' th Ht Hst) in Hw.
Qed.

Lemma hb_inv_stop_wait c t : inv c -> h_thr c !! t = Some StopWait -> h_wg c = ∅ ->
  inv (set_thr t StopRet (set_writer None c)).
Proof.
  intros [H1 H2 H3 H4] Ht Hg. split; cbn; [done|done| |done].
  intros t' th. intros [[_ <-]|[Hne Ht']]%lookup_insert_Some; [done|]. intros Hst.
  pose proof (H3 t' th Ht' Hst). pose proof (H3 t StopWait Ht eq_refl). congruence.
Qed.

Lemma stop_ticker_same c :
  h_enabled (stop_ticker c) = h_enabled c /\ h_writer (stop_ticker c) = h_writer c /\
  h_wg (stop_ticker c) = h_wg c /\ h_loops (stop_ticker c) = h_loops c /\ h_thr (stop_ticker c) = h_thr c.
Proof. unfold stop_ticker. destruct (h_ticker c) as [k|]; [|done]. by destruct (h_tickers c !! k). Qed.

Lemma close_field_same c c' : close_field c = Some c' ->
  h_enabled c' = h_enabled c /\ h_writer c' = h_writer c /\ h_wg c' = h_wg c /\ h_loops c' = h_loops c /\
  h_thr c' = h_thr c.
Proof. unfold close_field. destruct (h_stop c); [case_decide|]; by intros [= <-]. Qed.

(** [CloseAllConnections] leaves its mark among the threads. *)
Definition closed_all (c : conf) : Prop := exists t, h_thr c !! t = Some CloseAllRet.

Lemma hb_inv_client_step c c' : inv c -> hb_client_step c c' -> inv c' \/ closed_all c'.
Proof.
  intros Hc Hs. destruct Hs as [c t th Hn He|c t Ht Hw|c t Ht Hw|c t Ht|c t Ht|c t Ht|c t Ht|c t Ht Hg|c t c' Ht Hw Hcl].
  - left. apply (hb_inv_thr c _ t th); try done. by destruct th.
  - left. destruct (h_enabled c) eqn:He; [by eapply (hb_inv_thr c _ t)|by apply hb_inv_start].
  - left. destruct (h_enabled c); [by apply hb_inv_stop_lock|by eapply (hb_inv_thr c _ t)].
  - left. destruct (stop_ticker_same c) as (? & ? & ? & ? & Hth).
    eapply (hb_inv_thr c _ t); try done; [cbn; by rewrite Hth|intros _; by apply (i_writer c Hc t StopTicker)].
  - left. eapply (hb_inv_thr c _ t); try done. intros _. by apply (i_writer c Hc t StopTickerNil).
  - left. pose proof (i_writer c Hc t StopClose Ht eq_refl) as Hw. destruct (close_field c) as [c1|] eqn:E.
    + destruct (close_field_same c c1 E) as (? & ? & ? & ? & Hth). eapply (hb_inv_thr c _ t); try done. cbn. by rewrite Hth.
    + by eapply (hb_inv_thr c _ t).
  - left. eapply (hb_inv_thr c _ t); try done. intros _. by apply (i_writer c Hc t StopChanNil).
  - left. by apply hb_inv_stop_wait.
  - right. exists t. cbn. by rewrite lookup_insert_eq.
Qed.

Lemma hb_inv_loop_step c c' : inv c -> hb_loop_step c c' -> inv c'.
Proof.
  intros Hc Hs. destruct Hs as [c k p Hk|c l Hl|c l k Hl|c l k st r Hl Hk|c l k ch Hl Hch|c l Hl Hw].
  - destruct Hc as [H1 H2 H3 H4]. by split.
  - by apply (hb_inv_loop c _ l LEval (match h_ticker c with Some k => LTicker k | None => LPanic end)).
  - by apply (hb_inv_loop c _ l (LTicker k) (LSelect k (h_stop c))).
  - by apply (hb_inv_loop c _ l (LSelect k st) LSend).
  - destruct Hc as [H1 H2 H3 H4]. split; cbn; [set_solver| |done|].
    + intros Hw He. rewrite (H2 Hw He). set_solver.
    + intros l' (pc & Hl' & Hpc). cbn in Hl'. apply lookup_insert_Some in Hl' as [[_ <-]|[Hne Hl']]; [done|].
      assert (l' ∈ h_wg c) by (apply H4; by exists pc). set_solver.
  - by apply (hb_inv_loop c _ l LSend LEval).
Qed.

Lemma hb_client_step_thr c c' : hb_client_step c c' ->
  exists u th, h_thr c' = <[u := th]> (h_thr c) /\ h_thr c !! u <> Some CloseAllRet.
Proof.
  intros Hs. destruct Hs as [c u th Hn He|c u Hu Hw|c u Hu Hw|c u Hu|c u Hu|c u Hu|c u Hu|c u Hu Hg|c u c' Hu Hw Hcl];
    exists u.
  - exists th. split; [done|congruence].
  - destruct (h_enabled c); (eexists; split; [done|congruence]).
  - destruct (h_enabled c); (eexists; split; [done|congruence]).
  - destruct (stop_ticker_same c) as (_ & _ & _ & _ & Hth). eexists. split; [cbn; by rewrite Hth|congruence].
  - eexists. split; [done|congruence].
  - destruct (close_field c) as [c1|] eqn:E; (eexists; split; [|congruence]); [|done].
    destruct (close_field_same c c1 E) as (_ & _ & _ & _ & Hth). cbn. by rewrite Hth.
  - eexists. split; [done|congruence].
  - eexists. split; [done|congruence].
  - eexists. split; [|congruence]. cbn. f_equal. destruct (h_enabled c); [|by injection Hcl as <-].
    destruct (close_field_same _ _ Hcl) as (_ & _ & _ & _ & ->).
    by destruct (stop_ticker_same (set_enabled false c)) as (_ & _ & _ & _ & ->).
Qed.

Lemma closed_all_step c c' : closed_all c -> step c c' -> closed_all c'.
Proof.
  intros [t Ht] [Hs|Hs]; exists t; [|by destruct Hs].
  destruct (hb_client_step_thr c c' Hs) as (u & th & -> & Hu). rewrite lookup_insert_ne; [congruence|done].
Qed.

Lemma hb_inv_reachable c : reachable c -> inv c \/ closed_all c.
Proof.
  intros Hr. unfold reachable in Hr.
  assert (inv initial \/ closed_all initial) as H0.
  { left. split; unfold running; cbn; [set_solver|done|by intros *; rewrite lookup_empty|].
    intros l (pc & Hl & _). by rewrite lookup_empty in Hl. }
  revert H0. induction Hr as [c|c1 c2 c3 Hs _ IH]; [done|]. intros [Hc|Hc]; apply IH.
  - destruct Hs as [Hs|Hs]; [by apply (hb_inv_client_step c1)|left; by apply (hb_inv_loop_step c1)].
  - right. by apply (closed_all_step c1).
Qed.

(** ** Properties of the heartbeat *)

(** One heartbeat at a time: as long as [CloseAllConnections] has not been
    called, whatever goroutines start and stop the heartbeat, at most one loop
    is running; and when the mutex is free and the heartbeat is not enabled, no
    loop is. *)
Theorem one_heartbeat_loop c :
  reachable c -> (forall t, h_thr c !! t <> Some CloseAllRet) ->
  (forall l l', running c l -> running c l' -> l = l') /\
  (h_writer c = None -> h_enabled c = false -> forall l, ~ running c l).
Proof.
  intros [[H1 H2 H3 H4]|[t Ht]]%hb_inv_reachable Hno; [|by destruct (Hno t)]. split.
  - intros l l' Hl Hl'. apply H1; by apply H4.
  - intros Hw He l Hl%H4. rewrite (H2 Hw He) in Hl. set_solver.
Qed.

(** *** A stop that never returns *)

(** Thread [t] waits for a loop that waits for the mutex [t] holds. *)
Record stuck (t l : nat) (c : conf) : Prop := {
  sk_writer : h_writer c = Some t;
  sk_thread : h_thr c !! t = Some StopWait;
  sk_loop : h_loops c !! l = Some LSend;
  sk_wg : l ∈ h_wg c;
  sk_others : map_Forall (fun u th => u <> t -> stopping th = false) (h_thr c);
}.

Lemma stuck_step t l c c' : stuck t l c -> step c c' -> stuck t l c'.
Proof.
  intros [H1 H2 H3 H4 H5] [Hs|Hs].
  - destruct Hs as [c u th Hn He|c u Hu Hw|c u Hu Hw|c u Hu|c u Hu|c u Hu|c u Hu|c u Hu Hg|c u c' Hu Hw Hcl];
      try congruence; try (exfalso; by specialize (H5 u _ Hu ltac:(congruence))).
    + split; cbn; try done.
      * rewrite lookup_insert_ne; [congruence|done].
      * apply map_Forall_insert_2; [by destruct th|done].
    + exfalso. set_solver.
  - destruct Hs as [c k p Hk|c l' Hl|c l' k Hl|c l' k st r Hl Hk|c l' k ch Hl Hch|c l' Hl Hw];
      try congruence; split; cbn; try done; try (rewrite lookup_insert_ne; [congruence|done]).
    assert (l' <> l) by congruence. set_solver.
Qed.

Lemma stuck_for_ever t l c c' : stuck t l c -> rtc step c c' -> stuck t l c'.
Proof. intros Hc Hs. induction Hs as [|c c1 c2 Hs _ IH]; [done|]. by apply IH, (stuck_step t l c). Qed.

(** A stop can wait for ever: when the loop has taken a tick and
    [StopHeartbeat] gets the mutex before [sendHeartbeatToAll] does, the loop
    waits for the mutex and [StopHeartbeat], holding it, waits for the loop; in
    every later configuration it still does. *)
Theorem stop_heartbeat_can_deadlock :
  exists c, reachable c /\ h_thr c !! 1%nat = Some StopWait /\
    forall c', rtc step c c' -> h_thr c' !! 1%nat = Some StopWait /\ h_writer c' = Some 1%nat.
Proof.
  assert (exists c, reachable c /\ stuck 1 0 c) as (c & Hr & Hc).
  { eexists. split.
    - eapply rtc_l; [left; apply (step_spawn _ 0 StartCall); done|].
      eapply rtc_l; [left; apply (step_start _ 0); done|].
      eapply rtc_l; [right; apply (step_eval _ 0); done|].
      eapply rtc_l; [right; apply (step_eval_stop _ 0 0); done|].
      eapply rtc_l; [right; apply (step_fire _ 0 false); done|].
      eapply rtc_l; [right; apply (step_tick _ 0 0 (Some 0%nat) true); done|].
      eapply rtc_l; [left; apply (step_spawn _ 1 StopCall); done|].
      eapply rtc_l; [left; apply (step_stop_lock _ 1); done|].
      eapply rtc_l; [left; apply (step_stop_ticker _ 1); done|].
      eapply rtc_l; [left; apply (step_stop_ticker_nil _ 1); done|].
      eapply rtc_l; [left; apply (step_stop_close _ 1); done|].
      eapply rtc_l; [left; apply (step_stop_chan_nil _ 1); done|]. apply rtc_refl.
    - split; [vm_compute; reflexivity..| |]; apply (bool_decide_unpack _); vm_compute; exact I. }
  exists c. split_and!; [done|by apply (sk_thread 1 0 c)|].
  intros c' Hs. destruct (stuck_for_ever 1 0 c c' Hc Hs). by split.
Qed.

(** A heartbeat stopped before its loop first came to the [select] crashes the
    program: the loop reads the field [C] of a [nil] ticker. *)
Lemma stop_heartbeat_can_crash : exists c, reachable c /\ h_loops c !! 0%nat = Some LPanic.
Proof.
  eexists. split.
  - eapply rtc_l; [left; apply (step_spawn _ 0 StartCall); done|].
    eapply rtc_l; [left; apply (step_start _ 0); done|].
    eapply rtc_l; [left; apply (step_spawn _ 1 StopCall); done|].
    eapply rtc_l; [left; apply (step_stop_lock _ 1); done|].
    eapply rtc_l; [left; apply (step_stop_ticker _ 1); done|].
    eapply rtc_l; [left; apply (step_stop_ticker_nil _ 1); done|].
    eapply rtc_l; [right; apply (step_eval _ 0); done|]. apply rtc_refl.
  - vm_compute. reflexivity.
Qed.

(** [CloseAllConnections] does not wait for the loop: one that was sending then
    picks up the ticker of the next heartbeat, and two loops serve it. *)
Lemma close_all_leaves_loop :
  exists c, reachable c /\ h_loops c !! 0%nat = Some (LTicker 1) /\ h_loops c !! 1%nat = Some (LTicker 1).
Proof.
  eexists. split.
  - eapply rtc_l; [left; apply (step_spawn _ 0 StartCall); done|].
    eapply rtc_l; [left; apply (step_start _ 0); done|].
    eapply rtc_l; [right; apply (step_eval _ 0); done|].
    eapply rtc_l; [right; apply (step_eval_stop _ 0 0); done|].
    eapply rtc_l; [right; apply (step_fire _ 0 false); done|].
    eapply rtc_l; [right; apply (step_tick _ 0 0 (Some 0%nat) true); done|].
    eapply rtc_l; [left; apply (step_spawn _ 1 CloseAllCall); done|].
    eapply rtc_l; [left; eapply (step_close_all _ 1); [done|done|vm_compute; reflexivity]|].
    eapply rtc_l; [left; apply (step_spawn _ 2 StartCall); done|].
    eapply rtc_l; [left; apply (step_start _ 2); done|].
    eapply rtc_l; [right; apply (step_send _ 0); done|].
    eapply rtc_l; [right; apply (step_eval _ 0); done|].
    eapply rtc_l; [right; apply (step_eval _ 1); done|]. apply rtc_refl.
  - split; vm_compute; reflexivity.
Qed.

(** The heartbeat started and its loop waiting in the [select]. *)
Lemma demo_started : exists c, reachable c /\ running c 0 /\ h_thr c = {[ 0%nat := StartRet (Ok tt) ]}.
Proof.
  eexists. split; [|split].
  - eapply rtc_l; [left; apply (step_spawn _ 0 StartCall); done|].
    eapply rtc_l; [left; apply (step_start _ 0); done|].
    eapply rtc_l; [right; apply (step_eval _ 0); done|].
    eapply rtc_l; [right; apply (step_eval_stop _ 0 0); done|]. apply rtc_refl.
  - eexists. split; [vm_compute; reflexivity|done].
  - vm_compute. reflexivity.
Qed.

Lemma one_heartbeat_loop_witness : exists c, running c 0 /\ forall l, running c l -> l = 0%nat.
Proof.
  destruct demo_started as (c & Hr & H0 & Ht). exists c. split; [exact H0|].
  intros l Hl. apply (one_heartbeat_loop c Hr); [|exact Hl|exact H0].
  intros t. rewrite Ht. intros [_ [=]]%lookup_singleton_Some.
Defined.

End Heartbeat.
