(* ===== verification/Lifecycle.v ===== *)
(** The lifecycle manager (src/bootstrap/lifecycle.go): registration, the start
    order by Kahn's algorithm, start, stop in reverse, events.

    The managed services are the user's: [ServiceIface] is the interface of
    src/bootstrap/interfaces.go over a world [W] that the services act on. The
    listeners run in goroutines of their own; [lm_launched] records which were
    launched with which event. The container the manager is given is stored and
    never used. *)

From stdpp Require Import sorting.
From S2P Require Import Prelude CoreTypes.

(** What [Health] reports; the extra data a service may add, which the manager
    only passes on, is left out. *)
Record HealthStatus := mkHealthStatus { hs_State : string; hs_Message : string; hs_LastCheck : time }.
Definition HealthUnhealthy : string := "unhealthy".

Class ServiceIface (W Svc : Type) := {
  svc_Start : Svc -> W -> W * option error;
  svc_Stop : Svc -> W -> W * option error;
  svc_Health : Svc -> W -> HealthStatus * option error;
}.

(** [le_Data]: the key and the list of names it carries, when it has data. *)
Record LifecycleEvent := mkLifecycleEvent {
  le_Type : string;
  le_Service : string;
  le_Timestamp : time;
  le_Error : option error;
  le_Data : option (string * list string);
}.

Section lifecycle.
Context {W Svc L : Type} `{!ServiceIface W Svc}.

Record DefaultLifecycleManager := mkLifecycleManager {
  lm_services : gmap string Svc;
  lm_dependencies : gmap string (list string);
  lm_startOrder : list string;
  lm_started : bool;
  lm_stopping : bool;
  lm_eventChan : chan LifecycleEvent;
  lm_listeners : list L;
  lm_launched : list (L * LifecycleEvent);
  lm_timeout : duration;
}.

Definition NewLifecycleManager : DefaultLifecycleManager :=
  mkLifecycleManager ∅ ∅ [] false false (make_chan 100) [] [] (30 * Second).

(** [broadcastEvent]: a non-blocking send, and a goroutine per listener. The
    channel is never closed. *)
Definition broadcastEvent (event : LifecycleEvent) (lm : DefaultLifecycleManager) : DefaultLifecycleManager :=
  let ch := lm_eventChan lm in
  mkLifecycleManager (lm_services lm) (lm_dependencies lm) (lm_startOrder lm) (lm_started lm) (lm_stopping lm)
    (if decide (length (ch_buf ch) < ch_cap ch)%nat then mkChan (ch_buf ch ++ [event]) (ch_cap ch) (ch_closed ch)
     else ch)
    (lm_listeners lm) (lm_launched lm ++ ((fun l => (l, event)) <$> lm_listeners lm)) (lm_timeout lm).

Definition event (ty svc : string) (now : time) : LifecycleEvent := mkLifecycleEvent ty svc now None None.
Definition failed_event (ty svc : string) (now : time) (e : error) : LifecycleEvent :=
  mkLifecycleEvent ty svc now (Some e) None.

Definition Register (name : string) (service : option Svc) (deps : list string) (now : time)
    (lm : DefaultLifecycleManager) : DefaultLifecycleManager * res unit :=
  if negb (nonempty name) then (lm, Err "service name cannot be empty")
  else
    match service with
    | None => (lm, Err "service cannot be nil")
    | Some svc =>
        if lm_started lm
        then (lm, Err ("cannot register service " +:+ name +:+ ": lifecycle manager already started"))
        else
          match lm_services lm !! name with
          | Some _ => (lm, Err ("service " +:+ name +:+ " is already registered"))
          | None =>
              (broadcastEvent (mkLifecycleEvent "service.registered" name now None (Some ("dependencies", deps)))
                 (mkLifecycleManager (<[name := svc]> (lm_services lm)) (<[name := deps]> (lm_dependencies lm))
                    (lm_startOrder lm) (lm_started lm) (lm_stopping lm) (lm_eventChan lm) (lm_listeners lm)
                    (lm_launched lm) (lm_timeout lm)), Ok tt)
          end
    end.

(** ** calculateStartOrder *)

Definition graph_t := gmap string (list string).
Definition degree_t := gmap string Z.

(** Missing keys read as the zero value. *)
Definition deg (d : degree_t) (s : string) : Z := default 0 (d !! s).
Definition adj (g : graph_t) (s : string) : list string := default [] (g !! s).

(** The loops that build the graph; [st] is [(graph, inDegree)]. *)
Fixpoint build_deps (service : string) (deps : list string) (lm : DefaultLifecycleManager)
    (st : graph_t * degree_t) : res (graph_t * degree_t) :=
  match deps with
  | [] => Ok st
  | dep :: deps' =>
      match lm_services lm !! dep with
      | None => Err ("dependency " +:+ dep +:+ " of service " +:+ service +:+ " is not registered")
      | Some _ =>
          build_deps service deps' lm
            (<[dep := adj st.1 dep ++ [service]]> st.1, <[service := deg st.2 service + 1]> st.2)
      end
  end.

Fixpoint build_graph (order : list string) (lm : DefaultLifecycleManager) (st : graph_t * degree_t)
    : res (graph_t * degree_t) :=
  match order with
  | [] => Ok st
  | service :: order' =>
      match build_deps service (default [] (lm_dependencies lm !! service)) lm st with
      | Err e => Err e
      | Ok st' => build_graph order' lm st'
      end
  end.

(** The dependents of the service taken out of the queue. *)
Fixpoint reduce (dependents : list string) (inDegree : degree_t) (queue : list string)
    : degree_t * list string :=
  match dependents with
  | [] => (inDegree, queue)
  | d :: ds =>
      let inDegree' := <[d := deg inDegree d - 1]> inDegree in
      reduce ds inDegree' (if deg inDegree' d =? 0 then queue ++ [d] else queue)
  end.

(** Every turn adds a service to the result, and no service twice, so the
    number of services bounds the number of turns. *)
Fixpoint kahn (fuel : nat) (graph : graph_t) (inDegree : degree_t) (queue result : list string)
    : go (list string) :=
  match queue with
  | [] => Ret result
  | current :: queue' =>
      match fuel with
      | O => Hang
      | S fuel' =>
          let '(inDegree', queue'') := reduce (adj graph current) inDegree queue' in
          kahn fuel' graph inDegree' queue'' (result ++ [current])
      end
  end.

(** [o_services], [o_deps], [o_degrees]: the orders in which the three maps are
    visited. *)
Definition calculateStartOrder (o_services o_deps o_degrees : list string) (lm : DefaultLifecycleManager)
    : go (res (list string)) :=
  let st0 := (list_to_map ((fun s => (s, [])) <$> o_services) : graph_t,
              list_to_map ((fun s => (s, 0)) <$> o_services) : degree_t) in
  match build_graph o_deps lm st0 with
  | Err e => Ret (Err e)
  | Ok (graph, inDegree) =>
      let queue := List.filter (fun s => deg inDegree s =? 0) o_degrees in
      result ← kahn (size (lm_services lm)) graph inDegree queue [];
      Ret (if (length result =? size (lm_services lm))%nat then Ok result
           else Err "circular dependency detected")
  end.

(** ** Start and Stop *)

Definition with_order (l : list string) (lm : DefaultLifecycleManager) : DefaultLifecycleManager :=
  mkLifecycleManager (lm_services lm) (lm_dependencies lm) l (lm_started lm) (lm_stopping lm)
    (lm_eventChan lm) (lm_listeners lm) (lm_launched lm) (lm_timeout lm).
Definition with_flags (started stopping : bool) (lm : DefaultLifecycleManager) : DefaultLifecycleManager :=
  mkLifecycleManager (lm_services lm) (lm_dependencies lm) (lm_startOrder lm) started stopping
    (lm_eventChan lm) (lm_listeners lm) (lm_launched lm) (lm_timeout lm).

(** The loop of [Start]; [i] counts the readings of the clock. A name with no
    service would be a call on a [nil] interface. *)
Fixpoint start_loop (i : nat) (clk : clock) (names : list string) (lm : DefaultLifecycleManager) (w : W)
    : go (DefaultLifecycleManager * W * res unit) :=
  match names with
  | [] => Ret (lm, w, Ok tt)
  | name :: names' =>
      let lm1 := broadcastEvent (event "service.starting" name (clk i)) lm in
      match lm_services lm1 !! name with
      | None => Panic "runtime error: invalid memory address or nil pointer dereference"
      | Some svc =>
          match svc_Start svc w with
          | (w', Some e) =>
              Ret (broadcastEvent (failed_event "service.start_failed" name (clk (S i)) e) lm1, w',
                   Err ("failed to start service " +:+ name +:+ ": " +:+ e))
          | (w', None) =>
              start_loop (S (S i)) clk names'
                (broadcastEvent (event "service.started" name (clk (S i)))
                   (with_order (lm_startOrder lm1 ++ [name]) lm1)) w'
          end
      end
  end.

Definition Start (o_services o_deps o_degrees : list string) (clk : clock) (lm : DefaultLifecycleManager) (w : W)
    : go (DefaultLifecycleManager * W * res unit) :=
  if lm_started lm then Ret (lm, w, Err "lifecycle manager already started")
  else
    order ← calculateStartOrder o_services o_deps o_degrees lm;
    match order with
    | Err e => Ret (lm, w, Err ("failed to calculate start order: " +:+ e))
    | Ok startOrder =>
        let lm1 := broadcastEvent (mkLifecycleEvent "lifecycle.starting" "" (clk 0%nat) None
                                     (Some ("order", startOrder))) lm in
        '(lm2, w2, r) ← start_loop 1 clk startOrder lm1 w;
        match r with
        | Err e => Ret (lm2, w2, Err e)
        | Ok _ =>
            Ret (broadcastEvent (event "lifecycle.started" "" (clk (S (2 * length startOrder))))
                   (with_flags true (lm_stopping lm2) lm2), w2, Ok tt)
        end
    end.

(** The in-place reversal: the swaps of positions [i] and [len-1-i] for [i] from
    [len/2-1] down to 0. *)
Definition swap (i j : nat) (l : list string) : list string :=
  match l !! i, l !! j with
  | Some x, Some y => <[j := x]> (<[i := y]> l)
  | _, _ => l
  end.
Fixpoint reverse_loop (n : nat) (l : list string) : list string :=
  match n with
  | O => l
  | S i => reverse_loop i (swap i (length l - 1 - i) l)
  end.
Definition reverse_in_place (l : list string) : list string := reverse_loop (length l / 2) l.

(** The loop of [Stop]: it goes on after a failure and keeps the last error. *)
Fixpoint stop_loop (i : nat) (clk : clock) (names : list string) (lastError : option error)
    (lm : DefaultLifecycleManager) (w : W) : go (DefaultLifecycleManager * W * option error) :=
  match names with
  | [] => Ret (lm, w, lastError)
  | name :: names' =>
      let lm1 := broadcastEvent (event "service.stopping" name (clk i)) lm in
      match lm_services lm1 !! name with
      | None => Panic "runtime error: invalid memory address or nil pointer dereference"
      | Some svc =>
          match svc_Stop svc w with
          | (w', Some e) =>
              stop_loop (S (S i)) clk names' (Some e)
                (broadcastEvent (failed_event "service.stop_failed" name (clk (S i)) e) lm1) w'
          | (w', None) =>
              stop_loop (S (S i)) clk names' lastError
                (broadcastEvent (event "service.stopped" name (clk (S i))) lm1) w'
          end
      end
  end.

Definition Stop (clk : clock) (lm : DefaultLifecycleManager) (w : W)
    : go (DefaultLifecycleManager * W * res unit) :=
  if negb (lm_started lm) then Ret (lm, w, Ok tt)
  else if lm_stopping lm then Ret (lm, w, Err "lifecycle manager already stopping")
  else
    let lm1 := broadcastEvent (event "lifecycle.stopping" "" (clk 0%nat)) (with_flags (lm_started lm) true lm) in
    let stopOrder := reverse_in_place (lm_startOrder lm1) in
    '(lm2, w2, lastError) ← stop_loop 1 clk stopOrder None lm1 w;
    Ret (broadcastEvent (event "lifecycle.stopped" "" (clk (S (2 * length stopOrder))))
           (with_order [] (with_flags false false lm2)), w2,
         match lastError with Some e => Err e | None => Ok tt end).

Definition Health (lm : DefaultLifecycleManager) (w : W) : gmap string HealthStatus :=
  (fun svc => match svc_Health svc w with
              | (_, Some e) => mkHealthStatus HealthUnhealthy e zero_time
              | (status, None) => status
              end) <$> lm_services lm.

Definition AddListener (l : L) (lm : DefaultLifecycleManager) : DefaultLifecycleManager :=
  mkLifecycleManager (lm_services lm) (lm_dependencies lm) (lm_startOrder lm) (lm_started lm) (lm_stopping lm)
    (lm_eventChan lm) (lm_listeners lm ++ [l]) (lm_launched lm) (lm_timeout lm).
Definition SetTimeout (t : duration) (lm : DefaultLifecycleManager) : DefaultLifecycleManager :=
  mkLifecycleManager (lm_services lm) (lm_dependencies lm) (lm_startOrder lm) (lm_started lm) (lm_stopping lm)
    (lm_eventChan lm) (lm_listeners lm) (lm_launched lm) t.
Definition IsStarted (lm : DefaultLifecycleManager) : bool := lm_started lm.
Definition IsStopping (lm : DefaultLifecycleManager) : bool := lm_stopping lm.
Definition lm_GetService (name : string) (lm : DefaultLifecycleManager) : option Svc := lm_services lm !! name.
Definition GetDependencies (name : string) (lm : DefaultLifecycleManager) : option (list string) :=
  lm_dependencies lm !! name.

(** ** Counting dependencies *)

(** How often [x] occurs in [l], and how many entries of [l] are not in [dn]. *)
Fixpoint occ (x : string) (l : list string) : Z :=
  match l with [] => 0 | y :: l' => (if decide (y = x) then 1 else 0) + occ x l' end.
Fixpoint pend (dn l : list string) : Z :=
  match l with [] => 0 | y :: l' => (if decide (y ∈ dn) then 0 else 1) + pend dn l' end.

Lemma occ_nonneg x l : 0 <= occ x l.
Proof. induction l as [|y l IH]; simpl; [lia|]. case_decide; lia. Qed.

Lemma occ_pos x l : 0 < occ x l <-> x ∈ l.
Proof.
  induction l as [|y l IH]; simpl; [rewrite elem_of_nil; lia|]. rewrite elem_of_cons -IH.
  pose proof (occ_nonneg x l). case_decide; naive_solver lia.
Qed.

Lemma occ_zero x l : x ∉ l -> occ x l = 0.
Proof. intros Hx. rewrite -occ_pos in Hx. pose proof (occ_nonneg x l). lia. Qed.

Lemma occ_app x l k : occ x (l ++ k) = occ x l + occ x k.
Proof. induction l as [|y l IH]; simpl; [done|]. rewrite IH. lia. Qed.

Lemma pend_nonneg dn l : 0 <= pend dn l.
Proof. induction l as [|y l IH]; simpl; [lia|]. case_decide; lia. Qed.

Lemma pend_zero dn l : pend dn l = 0 <-> forall x, x ∈ l -> x ∈ dn.
Proof.
  induction l as [|y l IH]; simpl.
  { split; [by intros _ ? ?%not_elem_of_nil|done]. }
  pose proof (pend_nonneg dn l). setoid_rewrite elem_of_cons. case_decide as Hy.
  - rewrite Z.add_0_l IH. naive_solver.
  - split; [lia|]. intros Hall. destruct Hy. apply Hall. by left.
Qed.

Lemma pend_stuck dn l : pend dn l <> 0 -> exists x, x ∈ l /\ x ∉ dn.
Proof.
  induction l as [|y l IH]; simpl; [done|]. case_decide as Hy; intros Hp.
  - destruct IH as (x & ? & ?); [lia|]. exists x. by split; [right|].
  - exists y. by split; [left|].
Qed.

(** One more service done. *)
Lemma pend_snoc dn c l : c ∉ dn -> pend (dn ++ [c]) l = pend dn l - occ c l.
Proof.
  intros Hc. induction l as [|y l IH]; simpl; [done|]. rewrite IH.
  destruct (decide (y = c)) as [->|Hne].
  - rewrite (decide_True (P := c ∈ dn ++ [c])); [set_solver|]. rewrite decide_False //. lia.
  - destruct (decide (y ∈ dn)).
    + rewrite decide_True; [set_solver|]. lia.
    + rewrite decide_False; [set_solver|]. lia.
Qed.

Lemma occ_le_pend dn c l : c ∉ dn -> occ c l <= pend dn l.
Proof. intros Hc. pose proof (pend_snoc dn c l Hc). pose proof (pend_nonneg (dn ++ [c]) l). lia. Qed.

Lemma deg_insert d x z s : deg (<[x := z]> d) s = if decide (s = x) then z else deg d s.
Proof.
  unfold deg. case_decide as Hs; [by rewrite Hs lookup_insert_eq|]. rewrite lookup_insert_ne; [congruence|done].
Qed.

Lemma adj_insert g x z s : adj (<[x := z]> g) s = if decide (s = x) then z else adj g s.
Proof.
  unfold adj. case_decide as Hs; [by rewrite Hs lookup_insert_eq|]. rewrite lookup_insert_ne; [congruence|done].
Qed.

(** ** The graph *)

(** After the dependencies of the services of [seen] were entered. *)
Record graph_of (D : string -> list string) (seen : list string) (g : graph_t) (d : degree_t) : Prop := {
  go_deg s : deg d s = if decide (s ∈ seen) then Z.of_nat (length (D s)) else 0;
  go_adj s x : occ s (adj g x) = if decide (s ∈ seen) then occ x (D s) else 0;
}.

Lemma build_deps_spec service ds lm g d st' :
  build_deps service ds lm (g, d) = Ok st' ->
  (forall s, deg st'.2 s = deg d s + if decide (s = service) then Z.of_nat (length ds) else 0) /\
  (forall s x, occ s (adj st'.1 x) = occ s (adj g x) + if decide (s = service) then occ x ds else 0) /\
  (forall dep, dep ∈ ds -> is_Some (lm_services lm !! dep)).
Proof.
  revert g d. induction ds as [|dep ds IH]; intros g d; simpl.
  { intros [= <-]. simpl. split_and!; [intros; case_decide; lia..|]. by intros ? ?%not_elem_of_nil. }
  destruct (lm_services lm !! dep) as [svc|] eqn:Hdep; [|done]. intros Hb.
  destruct (IH _ _ Hb) as (H1 & H2 & H3). split_and!.
  - intros s. rewrite H1 deg_insert. repeat case_decide; subst; simpl; lia.
  - intros s x. rewrite H2 adj_insert.
    destruct (decide (x = dep)) as [->|Hx].
    + rewrite occ_app. simpl. rewrite (decide_True (P := dep = dep)) //.
      destruct (decide (s = service)) as [->|Hs]; [rewrite decide_True //; lia|].
      rewrite (decide_False (P := service = s)); [congruence|]. lia.
    + rewrite (decide_False (P := dep = x)); [congruence|]. case_decide; lia.
  - intros x [->|Hx]%elem_of_cons; [by rewrite Hdep|by apply H3].
Qed.

Lemma build_graph_spec order lm g d seen st' :
  let D := fun s => default [] (lm_dependencies lm !! s) in
  NoDup (order ++ seen) -> graph_of D seen g d -> build_graph order lm (g, d) = Ok st' ->
  graph_of D (order ++ seen) st'.1 st'.2 /\
  (forall s x, s ∈ order -> x ∈ D s -> is_Some (lm_services lm !! x)).
Proof.
  intros D. revert g d seen. induction order as [|service order IH]; intros g d seen Hnd HG; simpl.
  { intros [= <-]. split; [done|]. by intros ? ? ?%not_elem_of_nil. }
  destruct (build_deps service _ lm (g, d)) as [[g1 d1]|e] eqn:Hb; [|done]. intros Hrun.
  destruct (build_deps_spec _ _ _ _ _ _ Hb) as (H1 & H2 & H3). simpl in *.
  destruct (proj1 (NoDup_cons service (order ++ seen)) Hnd) as [Hfresh _].
  destruct (IH g1 d1 (service :: seen)) as [HG' Hreg]; [| |done|].
  - by rewrite -Permutation_middle.
  - destruct HG as [Hd Ha]. split; intros s.
    + rewrite H1 Hd. destruct (decide (s = service)) as [->|Hs].
      * rewrite decide_False; [set_solver|]. rewrite decide_True; [by left|]. done.
      * destruct (decide (s ∈ seen)); [rewrite decide_True|rewrite decide_False]; set_solver by lia.
    + intros x. rewrite H2 Ha. destruct (decide (s = service)) as [->|Hs].
      * rewrite decide_False; [set_solver|]. rewrite decide_True; [by left|]. done.
      * destruct (decide (s ∈ seen)); [rewrite decide_True|rewrite decide_False]; set_solver by lia.
  - split.
    + destruct HG' as [Hd Ha]. split; intros s; [rewrite Hd|intros x; rewrite Ha];
        (destruct (decide (s ∈ order ++ service :: seen)); [rewrite decide_True|rewrite decide_False]); set_solver.
    + intros s x [->|Hs]%elem_of_cons; [apply H3|by apply Hreg].
Qed.

(** ** Kahn's algorithm *)

(** Every service comes after all of its dependencies. *)
Definition topological (D : string -> list string) (l : list string) : Prop :=
  forall i s x, l !! i = Some s -> x ∈ D s -> exists j, (j < i)%nat /\ l !! j = Some x.

Lemma topological_snoc D l c : topological D l -> (forall x, x ∈ D c -> x ∈ l) -> topological D (l ++ [c]).
Proof.
  intros Ht Hc i s x Hi Hx. apply lookup_app_Some in Hi as [Hi|[Hlen Hi]].
  - destruct (Ht i s x Hi Hx) as (j & Hj & Hjx). exists j. split; [done|].
    apply lookup_app_Some. by left.
  - apply list_lookup_singleton_Some in Hi as [Hz <-]. apply Hc, list_elem_of_lookup_1 in Hx as [j Hj].
    exists j. pose proof (lookup_lt_Some _ _ _ Hj). split; [lia|]. apply lookup_app_Some. by left.
Qed.

Lemma reduce_spec ds d q :
  (forall s, s ∈ ds -> occ s ds <= deg d s) ->
  exists new, (reduce ds d q).2 = q ++ new /\ NoDup new /\
    (forall s, deg (reduce ds d q).1 s = deg d s - occ s ds) /\
    (forall s, s ∈ new <-> s ∈ ds /\ deg d s = occ s ds).
Proof.
  revert d q. induction ds as [|x ds IH]; intros d q Hle; cbn [reduce].
  { exists []. rewrite app_nil_r. split_and!; [done|constructor|intros; simpl; lia|].
    intros s. rewrite !elem_of_nil. naive_solver. }
  set (d1 := <[x := deg d x - 1]> d).
  assert (forall s, deg d1 s = deg d s - if decide (x = s) then 1 else 0) as Hd1.
  { intros s. unfold d1. rewrite deg_insert. repeat case_decide; subst; try done; lia. }
  assert (forall s, s ∈ ds -> occ s ds <= deg d1 s) as Hle1.
  { intros s Hs. rewrite Hd1. specialize (Hle s (list_elem_of_further _ _ _ Hs)). simpl in Hle.
    case_decide; lia. }
  destruct (IH d1 (if deg d1 x =? 0 then q ++ [x] else q) Hle1) as (new & Hq & Hnd & Hdeg & Hnew).
  assert (forall s, deg (reduce ds d1 (if deg d1 x =? 0 then q ++ [x] else q)).1 s = deg d s - occ s (x :: ds)) as Hdeg'.
  { intros s. rewrite Hdeg Hd1. simpl. lia. }
  pose proof (Hle x (list_elem_of_here _ _)) as Hlex. simpl in Hlex. rewrite decide_True // in Hlex.
  pose proof (occ_nonneg x ds).
  destruct (Z.eqb_spec (deg d1 x) 0) as [Hz|Hnz].
  - assert (x ∉ ds) as Hx. { rewrite -occ_pos. rewrite Hd1 decide_True // in Hz. lia. }
    exists (x :: new). split_and!; [by rewrite Hq -(assoc_L (++))| |done|].
    + apply NoDup_cons. split; [|done]. rewrite Hnew. naive_solver.
    + intros s. rewrite !elem_of_cons Hnew. simpl. specialize (Hd1 s). rewrite Hd1.
      destruct (decide (x = s)) as [<-|Hne]; [|naive_solver lia].
      split; [intros _; split; [by left|rewrite (occ_zero x ds) //; lia]|by left].
  - exists new. split_and!; [done|done|done|].
    intros s. rewrite elem_of_cons Hnew. simpl. rewrite Hd1.
    destruct (decide (x = s)) as [<-|Hne]; [|naive_solver lia].
    rewrite Hd1 decide_True // in Hnz. split; [intros [? ?]; split; [by left|lia]|].
    intros [_ Heq]. assert (0 < occ x ds) as ?%occ_pos by lia. split; [done|lia].
Qed.

Section kahn.
Context (D : string -> list string) (S : list string) (g : graph_t).
Context (HS : NoDup S).
Context (Hadj : forall s x, occ s (adj g x) = if decide (s ∈ S) then occ x (D s) else 0).

Record kahn_inv (d : degree_t) (queue result : list string) : Prop := {
  ki_nodup : NoDup (result ++ queue);
  ki_sub s : s ∈ result ++ queue -> s ∈ S;
  ki_deg s : s ∈ S -> deg d s = pend result (D s);
  ki_zero s : s ∈ S -> deg d s = 0 <-> s ∈ result ++ queue;
  ki_topo : topological D result;
}.

Lemma kahn_step d c queue result :
  kahn_inv d (c :: queue) result ->
  kahn_inv (reduce (adj g c) d queue).1 (reduce (adj g c) d queue).2 (result ++ [c]).
Proof.
  intros [Hnd Hs Hdeg Hz Ht].
  assert (c ∈ S) as HcS by (apply Hs; set_solver).
  assert (c ∉ result) as Hcr by (apply NoDup_app in Hnd as (_ & Hdis & _); set_solver).
  destruct (reduce_spec (adj g c) d queue) as (new & -> & Hndn & Hd' & Hnew).
  { intros s Hin. apply occ_pos in Hin. rewrite Hadj in Hin |- *. case_decide as HsS; [|lia].
    rewrite (Hdeg s HsS). by apply occ_le_pend. }
  assert (forall s, s ∈ new <-> s ∈ S /\ 0 < deg d s /\ deg d s = occ c (D s)) as Hnew'.
  { intros s. rewrite Hnew -occ_pos Hadj. case_decide; naive_solver lia. }
  assert (forall s, s ∈ new -> s ∉ result ++ c :: queue) as Hdis.
  { intros s (HsS & Hpos & _)%Hnew' Hin. apply (Hz s HsS) in Hin. lia. }
  split.
  - rewrite -(assoc_L (++)) /=. change (c :: queue ++ new) with ((c :: queue) ++ new). rewrite (assoc_L (++)).
    apply NoDup_app. split_and!; [done| |done]. intros s Hin Hn. by apply (Hdis s).
  - intros s. rewrite !elem_of_app. intros [[?|?]|[?|Hn]]; [set_solver..|]. by apply Hnew' in Hn as [? _].
  - intros s HsS. rewrite Hd' Hadj decide_True // (Hdeg s HsS) pend_snoc //.
  - intros s HsS. rewrite Hd' Hadj decide_True //.
    assert (s ∈ (result ++ [c]) ++ queue ++ new <-> s ∈ result ++ c :: queue \/ s ∈ new) as -> by set_solver.
    rewrite -(Hz s HsS) Hnew'. pose proof (occ_nonneg c (D s)).
    pose proof (pend_nonneg result (D s)) as Hp. rewrite -(Hdeg s HsS) in Hp.
    pose proof (occ_le_pend result c (D s) Hcr) as Ho. rewrite -(Hdeg s HsS) in Ho.
    destruct (decide (deg d s = 0)); naive_solver lia.
  - apply topological_snoc; [done|]. apply pend_zero. rewrite -(Hdeg c HcS). apply (Hz c HcS). set_solver.
Qed.

Lemma kahn_spec fuel d queue result :
  (length S <= length result + fuel)%nat -> kahn_inv d queue result ->
  exists l d', kahn fuel g d queue result = Ret l /\ kahn_inv d' [] l.
Proof.
  revert d queue result. induction fuel as [|fuel IH]; intros d [|c queue] result Hf Hinv; simpl;
    try by exists result, d.
  - exfalso. pose proof (ki_nodup _ _ _ Hinv) as Hnd.
    assert (length (result ++ c :: queue) <= length S)%nat as Hl.
    { apply submseteq_length, NoDup_submseteq; [done|]. intros s. apply (ki_sub _ _ _ Hinv). }
    rewrite length_app /= in Hl. lia.
  - pose proof (kahn_step d c queue result Hinv) as Hinv'.
    destruct (reduce (adj g c) d queue) as [d' q']. apply IH; [|done]. rewrite length_app /=. lia.
Qed.

(** What is left when the queue runs empty. *)
Lemma kahn_complete d l :
  kahn_inv d [] l -> length l = length S -> l ≡ₚ S /\ topological D l.
Proof.
  intros [Hnd Hs _ _ Ht] Hlen. rewrite app_nil_r in Hnd. split; [|done].
  apply submseteq_length_Permutation; [|lia]. apply NoDup_submseteq; [done|].
  intros s Hs'. apply Hs. by rewrite app_nil_r.
Qed.

Lemma kahn_cycle d l :
  kahn_inv d [] l -> length l <> length S -> forall o, o ≡ₚ S -> ~ topological D o.
Proof.
  intros [Hnd Hs Hdeg Hz _] Hlen o Ho Htop. rewrite app_nil_r in Hnd.
  assert (forall s, s ∈ S -> s ∉ l -> exists x, x ∈ D s /\ x ∉ l) as Hstuck.
  { intros s HsS Hsl. assert (deg d s <> 0) as Hne by (rewrite (Hz s HsS) app_nil_r; done).
    rewrite (Hdeg s HsS) in Hne. by apply pend_stuck. }
  assert (forall i s, o !! i = Some s -> s ∈ l) as Hall.
  { induction i as [i IH] using lt_wf_ind. intros s Hi.
    destruct (decide (s ∈ l)) as [|Hsl]; [done|]. exfalso.
    destruct (Hstuck s) as (x & Hx & Hxl); [|done|].
    { rewrite -Ho. by apply list_elem_of_lookup_2 in Hi. }
    destruct (Htop i s x Hi Hx) as (j & Hj & Hjx). by apply Hxl, (IH j Hj). }
  apply Hlen. apply Nat.le_antisymm.
  - apply submseteq_length, NoDup_submseteq; [done|]. intros s Hsl. apply Hs. by rewrite app_nil_r.
  - apply submseteq_length, NoDup_submseteq; [done|]. intros s HsS. rewrite -Ho in HsS.
    apply list_elem_of_lookup_1 in HsS as [i Hi]. by apply (Hall i).
Qed.
End kahn.

(** ** Well-formed managers *)

(** Dependencies are recorded for the registered services; what was started is
    registered. *)
Record lm_wf (lm : DefaultLifecycleManager) : Prop := {
  lw_dom n : is_Some (lm_dependencies lm !! n) <-> is_Some (lm_services lm !! n);
  lw_started n : n ∈ lm_startOrder lm -> is_Some (lm_services lm !! n);
}.

Lemma NewLifecycleManager_wf : lm_wf NewLifecycleManager.
Proof. split; cbn; intros n; [rewrite !lookup_empty; split; by intros [? ?]|by intros ?%not_elem_of_nil]. Qed.

Lemma Register_wf name svc deps now lm : lm_wf lm -> lm_wf (Register name svc deps now lm).1.
Proof.
  intros Hwf. unfold Register. destruct (negb _); [done|]. destruct svc as [sv|]; [|done].
  destruct (lm_started lm); [done|]. destruct (lm_services lm !! name) eqn:E; [done|].
  destruct Hwf as [H1 H2]. split; cbn; intros n; [by rewrite !lookup_insert_is_Some' H1|].
  intros Hn%H2. rewrite lookup_insert_is_Some'. by right.
Qed.

Definition deps_of (lm : DefaultLifecycleManager) (s : string) : list string :=
  default [] (lm_dependencies lm !! s).

Lemma build_deps_err service ds lm st e :
  build_deps service ds lm st = Err e -> exists x, x ∈ ds /\ lm_services lm !! x = None.
Proof.
  revert st. induction ds as [|x ds IH]; intros st; simpl; [done|].
  destruct (lm_services lm !! x) eqn:E; [|intros _; exists x; by split; [left|]].
  intros (y & ? & ?)%IH. exists y. by split; [right|].
Qed.

Lemma build_graph_err order lm st e :
  build_graph order lm st = Err e ->
  exists s x, s ∈ order /\ x ∈ deps_of lm s /\ lm_services lm !! x = None.
Proof.
  revert st. induction order as [|s order IH]; intros st; simpl; [done|].
  destruct (build_deps s _ lm st) as [st'|e'] eqn:Hb.
  - intros (s' & x & ? & ? & ?)%IH. exists s', x. split_and!; [by right|done|done].
  - intros _. destruct (build_deps_err _ _ _ _ _ Hb) as (x & ? & ?). exists s, x. split_and!; [by left|done|done].
Qed.

Lemma list_to_map_const {B} (v w : B) l x :
  (list_to_map ((fun s : string => (s, v)) <$> l) : gmap string B) !! x = Some w -> w = v.
Proof.
  intros Hl%elem_of_list_to_map_2. apply list_elem_of_fmap in Hl as (? & [= _ ->] & _). done.
Qed.

Lemma initial_graph D l :
  graph_of D [] (list_to_map ((fun s => (s, [])) <$> l)) (list_to_map ((fun s => (s, 0)) <$> l)).
Proof.
  split; intros s.
  - unfold deg. destruct (list_to_map _ !! s) eqn:E; [|done]. by rewrite (list_to_map_const _ _ _ _ E).
  - intros x. unfold adj. destruct (list_to_map _ !! x) eqn:E; [|done]. by rewrite (list_to_map_const _ _ _ _ E).
Qed.

Lemma pend_nil l : pend [] l = Z.of_nat (length l).
Proof. induction l as [|x l IH]; [done|]. cbn [pend length]. rewrite IH. destruct (decide (x ∈ [])) as [Hx|]; [by apply not_elem_of_nil in Hx|lia]. Qed.

(** The start order, whatever the orders of the visits. *)
Lemma calculateStartOrder_spec o1 o2 o3 lm :
  lm_wf lm -> range_order (lm_dependencies lm) o2 -> range_order (lm_services lm) o3 ->
  exists r, calculateStartOrder o1 o2 o3 lm = Ret r /\
    match r with
    | Ok l => l ≡ₚ keys (lm_services lm) /\ topological (deps_of lm) l
    | Err _ => (exists s x, is_Some (lm_services lm !! s) /\ x ∈ deps_of lm s /\ lm_services lm !! x = None) \/
               (forall l, l ≡ₚ keys (lm_services lm) -> ~ topological (deps_of lm) l)
    end.
Proof.
  intros Hwf Ho2 Ho3. unfold calculateStartOrder. set (st0 := (_, _)).
  assert (forall s, s ∈ o2 <-> is_Some (lm_services lm !! s)) as Hin2.
  { intros s. rewrite (elem_of_range_order _ _ s Ho2). apply (lw_dom lm Hwf). }
  pose proof (range_order_keys (lm_services lm)) as HK. set (K := keys (lm_services lm)) in *.
  assert (forall s, s ∈ K <-> is_Some (lm_services lm !! s)) as HinK by (intros s; apply (elem_of_range_order _ _ s HK)).
  destruct (build_graph o2 lm st0) as [[g d]|e] eqn:Hb.
  2:{ eexists. split; [done|]. left. destruct (build_graph_err _ _ _ _ Hb) as (s & x & Hs & ? & ?).
      exists s, x. split_and!; [by apply Hin2|done|done]. }
  destruct (build_graph_spec o2 lm st0.1 st0.2 [] (g, d)) as [HG Hreg];
    [rewrite app_nil_r; by apply (NoDup_range_order _ _ Ho2)|apply initial_graph|done|].
  rewrite app_nil_r in HG. destruct HG as [Hdeg Hadj]. simpl in Hdeg, Hadj. fold (deps_of lm) in Hdeg, Hadj, Hreg.
  assert (forall s, s ∈ o2 <-> s ∈ K) as H2K by (intros s; by rewrite Hin2 HinK).
  assert (kahn_inv (deps_of lm) K d (List.filter (fun s => deg d s =? 0) o3) []) as Hinit.
  { assert (forall s, s ∈ List.filter (fun s => deg d s =? 0) o3 <-> s ∈ K /\ deg d s = 0) as Hq.
    { intros s. rewrite list_elem_of_In List.filter_In -list_elem_of_In Z.eqb_eq.
      rewrite (elem_of_range_order _ _ s Ho3) -HinK. done. }
    split; simpl.
    - apply NoDup_ListNoDup, List.NoDup_filter, NoDup_ListNoDup. by apply (NoDup_range_order _ _ Ho3).
    - intros s Hs. by apply Hq in Hs as [? _].
    - intros s Hs. rewrite Hdeg decide_True; [by apply H2K|]. by rewrite pend_nil.
    - intros s Hs. rewrite Hq. naive_solver.
    - intros i s x Hi. done. }
  assert (size (lm_services lm) = length K) as Hsize by by rewrite (length_range_order _ _ HK).
  assert (forall s x, occ s (adj g x) = if decide (s ∈ K) then occ x (deps_of lm s) else 0) as HadjK.
  { intros s x. rewrite Hadj. specialize (H2K s). destruct (decide (s ∈ o2)), (decide (s ∈ K)); tauto. }
  destruct (kahn_spec (deps_of lm) K g (NoDup_range_order _ _ HK) HadjK (size (lm_services lm)) d (List.filter (fun s => deg d s =? 0) o3) []) as (l & d' & -> & Hend);
    [simpl; lia|exact Hinit|].
  cbn [mbind go_bind]. eexists. split; [done|].
  destruct (Nat.eqb_spec (length l) (size (lm_services lm))) as [Hl|Hl]; rewrite Hsize in Hl.
  - by apply (kahn_complete (deps_of lm) K d' l).
  - right. by apply (kahn_cycle (deps_of lm) K (NoDup_range_order _ _ HK) d' l).
Qed.

(** ** Starting and stopping *)

(** The world after the services of [names] were started, or stopped, in order. *)
Definition start_all (lm : DefaultLifecycleManager) (names : list string) (w : W) : W :=
  fold_left (fun w n => match lm_services lm !! n with Some s => (svc_Start s w).1 | None => w end) names w.
Definition stop_all (lm : DefaultLifecycleManager) (names : list string) (w : W) : W :=
  fold_left (fun w n => match lm_services lm !! n with Some s => (svc_Stop s w).1 | None => w end) names w.

(** Managers that differ in events, flags and start order only. *)
Definition same_services (lm lm' : DefaultLifecycleManager) : Prop :=
  lm_services lm' = lm_services lm /\ lm_dependencies lm' = lm_dependencies lm.

Lemma start_loop_spec i clk names lm w :
  (forall n, n ∈ names -> is_Some (lm_services lm !! n)) ->
  exists lm' w' r k, start_loop i clk names lm w = Ret (lm', w', r) /\ same_services lm lm' /\
    lm_started lm' = lm_started lm /\ lm_stopping lm' = lm_stopping lm /\
    lm_startOrder lm' = lm_startOrder lm ++ take k names /\
    match r with
    | Ok _ => k = length names /\ w' = start_all lm names w
    | Err _ => (k < length names)%nat /\ w' = start_all lm (take (S k) names) w
    end.
Proof.
  revert i lm w. induction names as [|n names IH]; intros i lm w Hin.
  { exists lm, w, (Ok tt), 0%nat. by rewrite /= app_nil_r. }
  destruct (Hin n (list_elem_of_here _ _)) as [sv Hsv]. cbn [start_loop]. cbn [lm_services broadcastEvent].
  rewrite Hsv. destruct (svc_Start sv w) as [w1 [e|]] eqn:Hst.
  - eexists _, w1, _, 0%nat. split; [reflexivity|]. rewrite /= app_nil_r Hsv Hst.
    split_and!; try done. lia.
  - set (lm1 := broadcastEvent _ _).
    destruct (IH (S (S i)) lm1 w1) as (lm' & w' & r & k & -> & [Hs1 Hs2] & H1 & H2 & H3 & H4).
    { intros n' Hn'. apply Hin. by right. }
    exists lm', w', r, (S k). split_and!; [done|by split|done|done|by rewrite H3 -(assoc_L (++))|].
    destruct r; destruct H4 as [H4 ->]; (split; [simpl; lia|]); cbn [start_all fold_left take];
      by rewrite Hsv Hst.
Qed.

Lemma stop_loop_spec i clk names err lm w :
  (forall n, n ∈ names -> is_Some (lm_services lm !! n)) ->
  exists lm' err', stop_loop i clk names err lm w = Ret (lm', stop_all lm names w, err') /\
    same_services lm lm'.
Proof.
  revert i err lm w. induction names as [|n names IH]; intros i err lm w Hin; [by eexists _, _|].
  destruct (Hin n (list_elem_of_here _ _)) as [sv Hsv]. cbn [stop_loop]. cbn [lm_services broadcastEvent].
  assert (forall n', n' ∈ names -> is_Some (lm_services lm !! n')) as Hin' by (intros; apply Hin; by right).
  rewrite Hsv. cbn [stop_all fold_left]. rewrite Hsv. destruct (svc_Stop sv w) as [w1 [e|]].
  - match goal with |- context [stop_loop _ _ _ ?er ?x _] =>
      destruct (IH (S (S i)) er x w1 Hin') as (lm' & err' & -> & ?) end. by eexists _, _.
  - match goal with |- context [stop_loop _ _ _ ?er ?x _] =>
      destruct (IH (S (S i)) er x w1 Hin') as (lm' & err' & -> & ?) end. by eexists _, _.
Qed.

Lemma order_registered lm order :
  order ≡ₚ keys (lm_services lm) -> forall n, n ∈ order -> is_Some (lm_services lm !! n).
Proof.
  intros Hperm n. rewrite Hperm. by rewrite (elem_of_range_order _ _ n (range_order_keys (lm_services lm))).
Qed.

(** ** The in-place reversal *)

Lemma length_swap i j l : length (swap i j l) = length l.
Proof. unfold swap. destruct (l !! i), (l !! j); by rewrite ?length_insert. Qed.

Lemma lookup_swap i j l k :
  (i < length l)%nat -> (j < length l)%nat ->
  swap i j l !! k = if decide (k = i) then l !! j else if decide (k = j) then l !! i else l !! k.
Proof.
  intros Hi Hj. unfold swap. destruct (lookup_lt_is_Some_2 l i Hi) as [x Hx].
  destruct (lookup_lt_is_Some_2 l j Hj) as [y Hy]. rewrite Hx Hy.
  destruct (decide (k = j)) as [->|Hkj].
  - rewrite list_lookup_insert_eq; [by rewrite length_insert|].
    case_decide as Hd; [subst; congruence|done].
  - rewrite list_lookup_insert_ne; [congruence|].
    case_decide as Hd; [subst; by rewrite list_lookup_insert_eq|].
    rewrite list_lookup_insert_ne; [congruence|done].
Qed.

(** After [n] swaps from the middle outwards, the outer [n] on each side and
    what they face have changed places. *)
Lemma lookup_reverse_loop n l k :
  (2 * n <= length l)%nat -> (k < length l)%nat ->
  reverse_loop n l !! k =
    if decide (k < n \/ length l - 1 - k < n)%nat then l !! (length l - 1 - k)%nat else l !! k.
Proof.
  revert l. induction n as [|n IH]; intros l Hn Hk; cbn [reverse_loop].
  { destruct (decide _) as [Hd|Hd]; [lia|done]. }
  rewrite IH; rewrite ?length_swap; try lia.
  rewrite !lookup_swap; try lia.
  destruct (decide (k < n \/ length l - 1 - k < n)%nat) as [Hd|Hd],
    (decide (k < S n \/ length l - 1 - k < S n)%nat) as [Hd'|Hd']; try lia;
    repeat (case_decide; subst; try lia); try done; f_equal; lia.
Qed.

Lemma length_reverse_loop n l : length (reverse_loop n l) = length l.
Proof. revert l. induction n as [|n IH]; intros l; [done|]. simpl. by rewrite IH length_swap. Qed.

Lemma reverse_in_place_rev l : reverse_in_place l = reverse l.
Proof.
  unfold reverse_in_place. apply list_eq. intros k.
  pose proof (Nat.div_mod_eq (length l) 2) as Hdiv. pose proof (Nat.mod_upper_bound (length l) 2).
  destruct (decide (k < length l)%nat) as [Hk|Hk].
  - rewrite lookup_reverse_loop; [lia|done|]. rewrite reverse_lookup //.
    replace (length l - S k)%nat with (length l - 1 - k)%nat by lia.
    case_decide as Hd; [done|]. f_equal. lia.
  - rewrite !lookup_ge_None_2 //; [rewrite length_reverse_loop; lia|rewrite length_reverse; lia].
Qed.

(** ** Properties *)

(** C5. The start order is a topological order, found whenever there is one: for
    every registered set of services and every order in which the maps are
    visited, the calculation ends; it returns all services, each once, every
    service after all of its dependencies; and it fails only if a dependency is
    not registered or no such order exists. *)
Theorem start_order_correct o1 o2 o3 lm :
  lm_wf lm -> range_order (lm_dependencies lm) o2 -> range_order (lm_services lm) o3 ->
  exists r, calculateStartOrder o1 o2 o3 lm = Ret r /\
    match r with
    | Ok l => l ≡ₚ keys (lm_services lm) /\ topological (deps_of lm) l
    | Err _ => (exists s x, is_Some (lm_services lm !! s) /\ x ∈ deps_of lm s /\ lm_services lm !! x = None) \/
               (forall l, l ≡ₚ keys (lm_services lm) -> ~ topological (deps_of lm) l)
    end.
Proof. apply calculateStartOrder_spec. Qed.


(** A failed start is not undone: when a service fails to start, [Start]
    reports the error with the manager still marked as not started and the
    services before it running and listed; a following [Stop] does nothing. *)
Theorem failed_start_not_stopped o1 o2 o3 clk clk' lm lm' w w' e order :
  lm_wf lm -> range_order (lm_dependencies lm) o2 -> range_order (lm_services lm) o3 ->
  lm_started lm = false -> calculateStartOrder o1 o2 o3 lm = Ret (Ok order) ->
  Start o1 o2 o3 clk lm w = Ret (lm', w', Err e) ->
  exists k, (k < length order)%nat /\ lm_startOrder lm' = lm_startOrder lm ++ take k order /\
    w' = start_all lm (take (S k) order) w /\ Stop clk' lm' w' = Ret (lm', w', Ok tt).
Proof.
  intros Hwf Ho2 Ho3 Hst Hcalc. unfold Start. rewrite Hst Hcalc. cbn [mbind go_bind].
  destruct (calculateStartOrder_spec o1 o2 o3 lm Hwf Ho2 Ho3) as (r & Hc & Hr).
  rewrite Hcalc in Hc. injection Hc as <-. destruct Hr as [Hperm _].
  match goal with |- context [start_loop 1 clk order ?x w] =>
    destruct (start_loop_spec 1 clk order x w (order_registered lm order Hperm))
      as (lm2 & w2 & r & k & -> & _ & H1 & _ & H3 & H4) end.
  cbn [mbind go_bind]. destruct r as [u|e']; [done|]. destruct H4 as [Hk ->]. intros [= <- <- _].
  exists k. split_and!; [done|done|done|]. unfold Stop. cbn in H1. by rewrite H1 Hst.
Qed.

(** When every service starts once its dependencies were, so does the manager.
    [P done w] says what the world is when the services in [done] were started. *)
Lemma start_loop_ok (P : gset string -> W -> Prop) (D : string -> list string) clk names i lm w dn :
  (forall dn name svc w, name ∉ dn -> lm_services lm !! name = Some svc -> (forall x, x ∈ D name -> x ∈ dn) -> P dn w ->
     exists w', svc_Start svc w = (w', None) /\ P ({[name]} ∪ dn) w') ->
  NoDup names -> (forall n, n ∈ names -> n ∉ dn /\ is_Some (lm_services lm !! n)) ->
  (forall l1 n l2, names = l1 ++ n :: l2 -> forall x, x ∈ D n -> x ∈ dn \/ x ∈ l1) -> P dn w ->
  exists lm' w', start_loop i clk names lm w = Ret (lm', w', Ok tt) /\ P (list_to_set names ∪ dn) w' /\
    same_services lm lm' /\ lm_startOrder lm' = lm_startOrder lm ++ names /\ lm_stopping lm' = lm_stopping lm.
Proof.
  revert i lm w dn. induction names as [|name names IH]; intros i lm w dn Hs Hnd Hn Htop Hp.
  { exists lm, w. cbn [list_to_set]. rewrite union_empty_l_L app_nil_r. done. }
  apply NoDup_cons in Hnd as [Hnot Hnd]. destruct (Hn name) as [Hdn [svc Hsvc]]; [by left|]. cbn [start_loop lm_services broadcastEvent]. rewrite Hsvc.
  assert (forall x, x ∈ D name -> x ∈ dn) as Hdeps.
  { intros x Hx. destruct (Htop [] name names eq_refl x Hx) as [|Hx']; [done|]. by apply elem_of_nil in Hx'. }
  destruct (Hs dn name svc w Hdn Hsvc Hdeps Hp) as (w1 & -> & Hp1).
  match goal with |- context [start_loop _ clk names ?x w1] => destruct (IH (S (S i)) x w1 ({[name]} ∪ dn)) as (lm' & w' & -> & H1 & H2 & H3 & H4) end.
  - exact Hs.
  - done.
  - intros n Hin. destruct (Hn n) as [Hn1 Hn2]; [by right|]. split; [|exact Hn2]. set_solver.
  - intros l1 n l2 -> x Hx. destruct (Htop (name :: l1) n l2 eq_refl x Hx) as [|Hx']; set_solver.
  - done.
  - exists lm', w'. cbn [list_to_set]. split; [done|]. split; [by replace ({[name]} ∪ list_to_set names ∪ dn) with (list_to_set names ∪ ({[name]} ∪ dn)) by set_solver|].
    split; [exact H2|]. split; [|exact H4]. rewrite H3. cbn. by rewrite -assoc_L.
Qed.

Lemma Start_all_ok (P : gset string -> W -> Prop) o1 o2 o3 clk lm w l :
  lm_wf lm -> range_order (lm_dependencies lm) o2 -> range_order (lm_services lm) o3 ->
  lm_started lm = false -> lm_startOrder lm = [] -> l ≡ₚ keys (lm_services lm) -> topological (deps_of lm) l ->
  (forall s x, x ∈ deps_of lm s -> is_Some (lm_services lm !! x)) ->
  (forall dn name svc w, name ∉ dn -> lm_services lm !! name = Some svc -> (forall x, x ∈ deps_of lm name -> x ∈ dn) -> P dn w ->
     exists w', svc_Start svc w = (w', None) /\ P ({[name]} ∪ dn) w') -> P ∅ w ->
  exists lm' w', Start o1 o2 o3 clk lm w = Ret (lm', w', Ok tt) /\ P (dom (lm_services lm)) w' /\ lm_started lm' = true /\
    lm_stopping lm' = lm_stopping lm /\ lm_startOrder lm' ≡ₚ keys (lm_services lm) /\ same_services lm lm'.
Proof.
  intros Hwf Ho2 Ho3 Hst Hso Hl Htop Hdeps Hs Hp. unfold Start. rewrite Hst.
  destruct (calculateStartOrder_spec o1 o2 o3 lm Hwf Ho2 Ho3) as (r & -> & Hr). cbn [mbind go_bind].
  destruct r as [order|e]; [|exfalso; destruct Hr as [(s & x & _ & Hx & Hnone)|Hr]; [destruct (Hdeps s x Hx); congruence|by apply (Hr l)]].
  destruct Hr as [Hperm Hordered]. pose proof (range_order_keys (lm_services lm)) as HK.
  match goal with |- context [start_loop 1 clk order ?x w] => destruct (start_loop_ok P (deps_of lm) clk order 1 x w ∅ Hs) as (lm2 & w2 & -> & H1 & [H2 H2'] & H3 & H4) end.
  - rewrite Hperm. apply (NoDup_range_order _ _ HK).
  - intros n Hn. split; [set_solver|]. rewrite Hperm in Hn. by apply (elem_of_range_order _ _ n HK).
  - intros l1 n l2 E x Hx. right. subst order. destruct (Hordered (length l1) n x) as (j & Hj & Hlt); [by rewrite lookup_app_r // Nat.sub_diag|done|].
    rewrite lookup_app_l in Hlt; [exact Hj|]. exact (list_elem_of_lookup_2 _ _ _ Hlt).
  - done.
  - cbn [mbind go_bind]. eexists _, w2. split; [reflexivity|]. split.
    + replace (dom (lm_services lm)) with (list_to_set order ∪ ∅ : gset string); [done|]. apply set_eq. intros n.
      rewrite elem_of_union elem_of_list_to_set Hperm (elem_of_range_order _ _ n HK) elem_of_dom. set_solver.
    + split; [done|]. split; [exact H4|]. split; [|done]. cbn. rewrite H3. cbn. by rewrite Hso.
Qed.

End lifecycle.

(** ** Inputs the properties apply to *)

(** Services that log their starts and stops; the ones of negative number fail
    to start. *)
#[local] Instance log_iface : ServiceIface (list Z) Z := {|
  svc_Start n w := (w ++ [n], if n <? 0 then Some "broken" else None);
  svc_Stop n w := (w ++ [- n], None);
  svc_Health _ _ := (mkHealthStatus "healthy" "" 0, None);
|}.

Definition demo_lm (web : Z) : DefaultLifecycleManager (Svc := Z) (L := unit) :=
  (Register "web" (Some web) ["db"; "cache"] 0
     (Register "cache" (Some 2) ["db"] 0 (Register "db" (Some 1) [] 0 NewLifecycleManager).1).1).1.

Lemma demo_lm_wf web : lm_wf (demo_lm web).
Proof. unfold demo_lm. do 3 apply Register_wf. apply NewLifecycleManager_wf. Qed.

Definition demo_names : list string := keys (lm_services (demo_lm 3)).
Definition demo_keys : list string := keys (lm_dependencies (demo_lm 3)).

Lemma start_order_correct_witness :
  exists l, calculateStartOrder demo_names demo_keys demo_names (demo_lm 3) = Ret (Ok l) /\
    topological (deps_of (demo_lm 3)) l.
Proof.
  destruct (start_order_correct demo_names demo_keys demo_names (demo_lm 3) (demo_lm_wf 3)
              (range_order_keys _) (range_order_keys _)) as (r & H1 & H2).
  assert (is_ok r = true) as Hok.
  { assert (exists l, calculateStartOrder demo_names demo_keys demo_names (demo_lm 3) = Ret (Ok l)) as [l Hl]
      by (eexists; vm_compute; reflexivity).
    rewrite Hl in H1. injection H1 as <-. reflexivity. }
  destruct r as [l|e]; [|discriminate]. exists l. split; [exact H1|apply H2].
Defined.

(** The manager and the world after a start, and its result. *)
Definition demo_start (web : Z) : DefaultLifecycleManager (Svc := Z) (L := unit) * list Z * res unit :=
  match Start demo_names demo_keys demo_names (fun _ => 0) (demo_lm web) [] with
  | Ret x => x
  | _ => (demo_lm web, [], Ok tt)
  end.


Lemma failed_start_not_stopped_witness :
  (demo_start (-3)).1.2 = [1; 2; -3] /\
  Stop (fun _ => 0) (demo_start (-3)).1.1 (demo_start (-3)).1.2 =
    Ret ((demo_start (-3)).1.1, (demo_start (-3)).1.2, Ok tt).
Proof.
  split; [vm_compute; reflexivity|].
  destruct (failed_start_not_stopped demo_names demo_keys demo_names (fun _ => 0) (fun _ => 0) (demo_lm (-3))
    (demo_start (-3)).1.1 [] (demo_start (-3)).1.2 "failed to start service web: broken" ["db"; "cache"; "web"]
    (demo_lm_wf (-3)) (range_order_keys _) (range_order_keys _) eq_refl)
    as (k & _ & _ & _ & H); [vm_compute; reflexivity|vm_compute; reflexivity|].
  exact H.
Defined.

(** ** The names of the services *)

(** [sort.Strings]: bytewise order. *)
Definition string_le (s t : string) : Prop := String.leb s t = true.
#[export] Instance string_le_dec : RelDecision string_le.
Proof. intros s t. unfold string_le. apply _. Defined.
#[export] Instance string_le_total : Total string_le.
Proof. intros s t. apply String.leb_total. Qed.
#[export] Instance string_le_anti : AntiSymm eq string_le.
Proof. intros s t. apply String.leb_antisym. Qed.
#[export] Instance string_le_trans : Transitive string_le.
Proof.
  unfold string_le, String.leb. intros a b c. revert b c. induction a as [|x a IH]; intros [|y b] [|z c]; cbn [String.compare]; try done.
  specialize (IH b c). unfold Ascii.compare.
  destruct (N.compare_spec (Ascii.N_of_ascii x) (Ascii.N_of_ascii y)), (N.compare_spec (Ascii.N_of_ascii y) (Ascii.N_of_ascii z)),
    (N.compare_spec (Ascii.N_of_ascii x) (Ascii.N_of_ascii z)); try done; try (exfalso; lia); auto.
Qed.

(** [Services]; [order]: the order in which the runtime visits the map. *)
Definition Services {Svc L} (order : list string) (lm : DefaultLifecycleManager (Svc := Svc) (L := L)) : list string :=
  merge_sort string_le (omap (fun name => (fun _ => name) <$> lm_services lm !! name) order).

(** Whatever the order of the visit, the names come sorted, each once. *)
Lemma Services_sorted {Svc L} order order' (lm : DefaultLifecycleManager (Svc := Svc) (L := L)) :
  range_order (lm_services lm) order -> range_order (lm_services lm) order' ->
  Services order lm = Services order' lm /\ StronglySorted string_le (Services order lm) /\ Services order lm ≡ₚ keys (lm_services lm).
Proof.
  assert (forall o, range_order (lm_services lm) o -> Services o lm ≡ₚ o) as Hperm.
  { intros o Ho. unfold Services. rewrite merge_sort_Permutation. assert (forall n, n ∈ o -> is_Some (lm_services lm !! n)) as Hin.
    { intros n. by apply elem_of_range_order. }
    clear Ho. induction o as [|n o IH]; [done|]. cbn [omap list_omap]. destruct (Hin n) as [x ->]; [by left|]. cbn.
    rewrite IH //. intros n' Hn'. apply Hin. by right. }
  intros Ho Ho'. split; [|split; [apply (StronglySorted_merge_sort string_le)|by rewrite Hperm]].
  apply (StronglySorted_unique string_le); [apply (StronglySorted_merge_sort string_le)..|]. by rewrite !Hperm // Ho Ho'.
Qed.
