(* ===== verification/Container.v ===== *)
(** The dependency injection container (src/bootstrap/container.go): service
    factories, cached instances, scopes.

    A factory is the user's code and receives the container it is called by. It
    is the tree of what it does: work of its own on a world [W], calls of the
    methods of the container, and the pair it returns. The container is the
    interface [Container] of src/bootstrap/interfaces.go, as a record of
    operations over a state; [DefaultContainer] and [ScopedContainer] implement
    it. Their mutex is not reentrant: a goroutine that locks it again waits for
    ever. [None] among the instances is the nil interface value. *)

From S2P Require Import Prelude CoreTypes.

Section container.
Context {W V T : Type}.

(** What the second argument of [ResolveAs] points to: nothing (not a pointer),
    a nil pointer, or a variable of a type. *)
Inductive target :=
| NotPointer
| NilPointer
| PointerTo (ty : T).

Inductive ServiceFactory :=
| FReturn (instance : option V) (err : option error)
| FPanic (why : string)
| FWork (f : W -> W) (k : W -> ServiceFactory)
| FRegister (name : string) (factory : option ServiceFactory) (k : option error -> ServiceFactory)
| FRegisterInstance (name : string) (instance : option V) (k : option error -> ServiceFactory)
| FResolve (name : string) (k : option V -> option error -> ServiceFactory)
| FResolveAs (name : string) (t : target) (k : option V -> option error -> ServiceFactory)
| FHas (name : string) (k : bool -> ServiceFactory)
| FNames (order : list string) (k : list string -> ServiceFactory).

Notation result := (option V * option error)%type.

(** The interface [Container] over the state [S] of an implementation.
    [ResolveAs] gives the value it stored in the target. [Names] is given the
    order in which the runtime visits its set of names. *)
Record Container (S : Type) := mkContainer {
  c_Register : string -> option ServiceFactory -> S -> go (S * option error);
  c_RegisterInstance : string -> option V -> S -> go (S * option error);
  c_Resolve : string -> S -> W -> go (S * W * result);
  c_ResolveAs : string -> target -> S -> W -> go (S * W * result);
  c_Has : string -> S -> go bool;
  c_Names : list string -> S -> go (list string);
}.

(** A call of a factory with a container. *)
Fixpoint run {S} (self : Container S) (f : ServiceFactory) (s : S) (w : W) : go (S * W * result) :=
  match f with
  | FReturn instance err => Ret (s, w, (instance, err))
  | FPanic why => Panic why
  | FWork g k => run self (k w) s (g w)
  | FRegister name fac k => '(s', e) ← c_Register S self name fac s; run self (k e) s' w
  | FRegisterInstance name i k => '(s', e) ← c_RegisterInstance S self name i s; run self (k e) s' w
  | FResolve name k => '(s', w', (i, e)) ← c_Resolve S self name s w; run self (k i e) s' w'
  | FResolveAs name t k => '(s', w', (i, e)) ← c_ResolveAs S self name t s w; run self (k i e) s' w'
  | FHas name k => b ← c_Has S self name s; run self (k b) s w
  | FNames order k => l ← c_Names S self order s; run self (k l) s w
  end.

(** ** DefaultContainer *)

Record DefaultContainer := mkDefaultContainer {
  dc_services : gmap string ServiceFactory;
  dc_instances : gmap string (option V);
  dc_locked : bool;
}.

Definition NewContainer : DefaultContainer := mkDefaultContainer ∅ ∅ false.

Definition Lock (c : DefaultContainer) : go DefaultContainer :=
  if dc_locked c then Hang else Ret (mkDefaultContainer (dc_services c) (dc_instances c) true).
Definition Unlock (c : DefaultContainer) : DefaultContainer :=
  mkDefaultContainer (dc_services c) (dc_instances c) false.
(** [RLock] while its own goroutine holds the write lock waits as [Lock] does. *)
Definition RLock (c : DefaultContainer) : go unit := if dc_locked c then Hang else Ret tt.

Definition put_instance (name : string) (i : option V) (c : DefaultContainer) : DefaultContainer :=
  mkDefaultContainer (dc_services c) (<[name := i]> (dc_instances c)) (dc_locked c).

Definition Register (name : string) (factory : option ServiceFactory) (c : DefaultContainer)
    : go (DefaultContainer * option error) :=
  if negb (nonempty name) then Ret (c, Some "service name cannot be empty")
  else
    match factory with
    | None => Ret (c, Some "service factory cannot be nil")
    | Some f =>
        c1 ← Lock c;
        Ret (match dc_services c1 !! name with
             | Some _ => (Unlock c1, Some ("service " +:+ name +:+ " is already registered"))
             | None =>
                 (Unlock (mkDefaultContainer (<[name := f]> (dc_services c1)) (dc_instances c1) true), None)
             end)
    end.

Definition RegisterInstance (name : string) (instance : option V) (c : DefaultContainer)
    : go (DefaultContainer * option error) :=
  if negb (nonempty name) then Ret (c, Some "service name cannot be empty")
  else
    match instance with
    | None => Ret (c, Some "service instance cannot be nil")
    | Some _ =>
        c1 ← Lock c;
        Ret (match dc_instances c1 !! name with
             | Some _ => (Unlock c1, Some ("service instance " +:+ name +:+ " is already registered"))
             | None => (Unlock (put_instance name instance c1), None)
             end)
    end.

Definition not_registered (name : string) : error := "service " +:+ name +:+ " is not registered".
Definition creation_failed (name : string) (e : error) : error :=
  "failed to create service " +:+ name +:+ ": " +:+ e.

(** [Resolve]; [self] is the container the factory is called with. *)
Definition Resolve (self : Container DefaultContainer) (name : string) (c : DefaultContainer) (w : W)
    : go (DefaultContainer * W * result) :=
  c1 ← Lock c;
  match dc_instances c1 !! name with
  | Some instance => Ret (Unlock c1, w, (instance, None))
  | None =>
      match dc_services c1 !! name with
      | None => Ret (Unlock c1, w, (None, Some (not_registered name)))
      | Some factory =>
          '(c2, w', (instance, err)) ← run self factory c1 w;
          match err with
          | Some e => Ret (Unlock c2, w', (None, Some (creation_failed name e)))
          | None => Ret (Unlock (put_instance name instance c2), w', (instance, None))
          end
      end
  end.

(** The types of the values, their names and Go's [AssignableTo]. *)
Context (type_of : V -> T) (type_name : T -> string) (assignable : T -> T -> bool).

(** [ResolveAs] after its call of [Resolve]. A nil instance, or a nil pointer as
    the target, has no type to ask for. *)
Definition set_target (name : string) (t : target) (instance : option V) : go result :=
  match t with
  | NotPointer => Ret (None, Some "target must be a pointer")
  | NilPointer => Panic "reflect: call of reflect.Value.Type on zero Value"
  | PointerTo ty =>
      match instance with
      | None => Panic "reflect: call of reflect.Value.Type on zero Value"
      | Some v =>
          Ret (if assignable (type_of v) ty then (Some v, None)
               else (None, Some ("service " +:+ name +:+ " of type " +:+ type_name (type_of v)
                                   +:+ " is not assignable to " +:+ type_name ty)))
      end
  end.

Definition ResolveAs (self : Container DefaultContainer) (name : string) (t : target) (c : DefaultContainer) (w : W)
    : go (DefaultContainer * W * result) :=
  '(c', w', (instance, err)) ← Resolve self name c w;
  match err with
  | Some e => Ret (c', w', (None, Some e))
  | None => r ← set_target name t instance; Ret (c', w', r)
  end.

Definition Has (name : string) (c : DefaultContainer) : go bool :=
  _ ← RLock c;
  Ret (bool_decide (is_Some (dc_services c !! name)) || bool_decide (is_Some (dc_instances c !! name))).

(** The set of names [Names] collects, and the slice it makes of it when the
    runtime visits the set in the given order. *)
Definition name_set (c : DefaultContainer) : gmap string bool :=
  ((fun _ => true) <$> dc_services c) ∪ ((fun _ => true) <$> dc_instances c).
Definition Names (order : list string) (c : DefaultContainer) : go (list string) :=
  _ ← RLock c; Ret (omap (fun n => (fun _ => n) <$> (name_set c !! n)) order).

Definition Clear (c : DefaultContainer) : go DefaultContainer :=
  c1 ← Lock c; Ret (Unlock (mkDefaultContainer ∅ ∅ (dc_locked c1))).
Definition GetInstance (name : string) (c : DefaultContainer) : go (option (option V)) :=
  _ ← RLock c; Ret (dc_instances c !! name).
Definition RemoveInstance (name : string) (c : DefaultContainer) : go DefaultContainer :=
  c1 ← Lock c;
  Ret (Unlock (mkDefaultContainer (dc_services c1) (delete name (dc_instances c1)) (dc_locked c1))).

(** The container as its factories see it, [depth] calls of [Resolve] deep. The
    stack of a goroutine is bounded: beyond its last frame the program dies. *)
Definition exhausted {A} : go A := Panic "stack overflow".

Fixpoint default_container (depth : nat) : Container DefaultContainer :=
  match depth with
  | O => mkContainer _ Register RegisterInstance (fun _ _ _ => exhausted) (fun _ _ _ _ => exhausted) Has Names
  | S d =>
      let self := default_container d in
      mkContainer _ Register RegisterInstance (Resolve self) (ResolveAs self) Has Names
  end.

(** *** ContainerBuilder *)

Record ContainerBuilder := mkContainerBuilder { cb_container : DefaultContainer }.

Definition NewContainerBuilder : ContainerBuilder := mkContainerBuilder (mkDefaultContainer ∅ ∅ false).
Definition WithService (name : string) (factory : option ServiceFactory) (b : ContainerBuilder) : go ContainerBuilder :=
  '(c, _) ← Register name factory (cb_container b); Ret (mkContainerBuilder c).
Definition WithInstance (name : string) (instance : option V) (b : ContainerBuilder) : go ContainerBuilder :=
  '(c, _) ← RegisterInstance name instance (cb_container b); Ret (mkContainerBuilder c).
Definition Build (b : ContainerBuilder) : DefaultContainer := cb_container b.

(** ** ScopedContainer *)

Inductive ServiceScope :=
| ScopeSingleton
| ScopeTransient
| ScopeScoped
| ScopeOther (n : Z).

Definition ServiceScope_value (sc : ServiceScope) : Z :=
  match sc with ScopeSingleton => 0 | ScopeTransient => 1 | ScopeScoped => 2 | ScopeOther n => n end.

Record ScopedContainer := mkScopedContainer {
  sc_DefaultContainer : DefaultContainer;
  sc_scopes : gmap string ServiceScope;
}.

Definition NewScopedContainer : ScopedContainer := mkScopedContainer (mkDefaultContainer ∅ ∅ false) ∅.

Definition RegisterScoped (name : string) (factory : option ServiceFactory) (scope : ServiceScope)
    (c : ScopedContainer) : go (ScopedContainer * option error) :=
  '(d, err) ← Register name factory (sc_DefaultContainer c);
  match err with
  | Some e => Ret (mkScopedContainer d (sc_scopes c), Some e)
  | None =>
      d1 ← Lock d;
      Ret (mkScopedContainer (Unlock d1) (<[name := scope]> (sc_scopes c)), None)
  end.

(** The promoted methods act on the embedded container. *)
Definition promote {A} (c : ScopedContainer) (r : go (DefaultContainer * A)) : go (ScopedContainer * A) :=
  '(d, a) ← r; Ret (mkScopedContainer d (sc_scopes c), a).
Definition promote_resolve (c : ScopedContainer) (r : go (DefaultContainer * W * result))
    : go (ScopedContainer * W * result) :=
  '(d, w, a) ← r; Ret (mkScopedContainer d (sc_scopes c), w, a).

Definition scoped_unlock (c : ScopedContainer) : ScopedContainer :=
  mkScopedContainer (Unlock (sc_DefaultContainer c)) (sc_scopes c).

(** [ScopedContainer.Resolve]; [base] is the embedded container's own view,
    [self] the scoped container the factory is called with. *)
Definition Resolve_scoped (base : Container DefaultContainer) (self : Container ScopedContainer) (name : string)
    (c : ScopedContainer) (w : W) : go (ScopedContainer * W * result) :=
  d ← Lock (sc_DefaultContainer c);
  let c1 := mkScopedContainer d (sc_scopes c) in
  match sc_scopes c1 !! name with
  | None =>
      '(c2, w', r) ← promote_resolve c1 (Resolve base name d w);
      Ret (scoped_unlock c2, w', r)
  | Some ScopeSingleton =>
      match dc_instances d !! name with
      | Some instance => Ret (scoped_unlock c1, w, (instance, None))
      | None =>
          match dc_services d !! name with
          | None => Ret (scoped_unlock c1, w, (None, Some (not_registered name)))
          | Some factory =>
              '(c2, w', (instance, err)) ← run self factory c1 w;
              match err with
              | Some e => Ret (scoped_unlock c2, w', (None, Some (creation_failed name e)))
              | None =>
                  Ret (scoped_unlock (mkScopedContainer (put_instance name instance (sc_DefaultContainer c2))
                                        (sc_scopes c2)), w', (instance, None))
              end
          end
      end
  | Some ScopeTransient =>
      match dc_services d !! name with
      | None => Ret (scoped_unlock c1, w, (None, Some (not_registered name)))
      | Some factory => '(c2, w', r) ← run self factory c1 w; Ret (scoped_unlock c2, w', r)
      end
  | Some ScopeScoped =>
      '(c2, w', r) ← c_Resolve _ self name c1 w; Ret (scoped_unlock c2, w', r)
  | Some sc =>
      Ret (scoped_unlock c1, w,
           (None, Some ("unknown service scope: " +:+ pretty (ServiceScope_value sc))))
  end.

(** [ResolveAs] is promoted, and calls [Resolve] of the embedded container. *)
Fixpoint scoped_container (depth : nat) : Container ScopedContainer :=
  let as_ d := fun name t c w => promote_resolve c (ResolveAs (default_container d) name t (sc_DefaultContainer c) w) in
  let rest resolve resolveAs :=
    mkContainer _ (fun n f c => promote c (Register n f (sc_DefaultContainer c)))
      (fun n i c => promote c (RegisterInstance n i (sc_DefaultContainer c))) resolve resolveAs
      (fun n c => Has n (sc_DefaultContainer c)) (fun o c => Names o (sc_DefaultContainer c)) in
  match depth with
  | O => rest (fun _ _ _ => exhausted) (fun _ _ _ _ => exhausted)
  | S d => rest (Resolve_scoped (default_container d) (scoped_container d)) (as_ d)
  end.

(** ** Factories under the lock

    [Resolve] calls the factory with the mutex held. What a factory does then is
    what it does alone: every call of the container that comes to the mutex
    waits for ever. *)

Fixpoint alone (f : ServiceFactory) (w : W) : go (W * result) :=
  match f with
  | FReturn instance err => Ret (w, (instance, err))
  | FPanic why => Panic why
  | FWork g k => alone (k w) (g w)
  | FRegister name fac k =>
      if negb (nonempty name) then alone (k (Some "service name cannot be empty")) w
      else match fac with None => alone (k (Some "service factory cannot be nil")) w | Some _ => Hang end
  | FRegisterInstance name i k =>
      if negb (nonempty name) then alone (k (Some "service name cannot be empty")) w
      else match i with None => alone (k (Some "service instance cannot be nil")) w | Some _ => Hang end
  | FResolve _ _ | FResolveAs _ _ _ | FHas _ _ | FNames _ _ => Hang
  end.

(** What a container whose mutex is held answers. *)
Record lock_held {S} (self : Container S) (s : S) : Prop := {
  held_Register name fac :
    c_Register S self name fac s =
      if negb (nonempty name) then Ret (s, Some "service name cannot be empty")
      else match fac with None => Ret (s, Some "service factory cannot be nil") | Some _ => Hang end;
  held_RegisterInstance name i :
    c_RegisterInstance S self name i s =
      if negb (nonempty name) then Ret (s, Some "service name cannot be empty")
      else match i with None => Ret (s, Some "service instance cannot be nil") | Some _ => Hang end;
  held_Resolve name w : c_Resolve S self name s w = Hang;
  held_ResolveAs name t w : c_ResolveAs S self name t s w = Hang;
  held_Has name : c_Has S self name s = Hang;
  held_Names order : c_Names S self order s = Hang;
}.

Lemma run_held {S} (self : Container S) s f w :
  lock_held self s -> run self f s w = '(w', r) ← alone f w; Ret (s, w', r).
Proof.
  intros Hh. revert w.
  induction f as [i e|why|g k IH|n fac k IH|n i k IH|n k IH|n t k IH|n k IH|o k IH]; intros w; cbn.
  - done.
  - done.
  - apply IH.
  - rewrite (held_Register _ _ Hh). destruct (negb (nonempty n)); [apply IH|].
    destruct fac; [done|apply IH].
  - rewrite (held_RegisterInstance _ _ Hh). destruct (negb (nonempty n)); [apply IH|].
    destruct i; [done|apply IH].
  - by rewrite (held_Resolve _ _ Hh).
  - by rewrite (held_ResolveAs _ _ Hh).
  - by rewrite (held_Has _ _ Hh).
  - by rewrite (held_Names _ _ Hh).
Qed.

Lemma default_held d c : dc_locked c = true -> lock_held (default_container (S d)) c.
Proof.
  intros Hl. split; intros; cbn;
    unfold Register, RegisterInstance, ResolveAs, Resolve, Has, Names, Lock, RLock; by rewrite ?Hl.
Qed.

Lemma scoped_held d c : dc_locked (sc_DefaultContainer c) = true -> lock_held (scoped_container (S d)) c.
Proof.
  intros Hl. split; intros; cbn;
    unfold promote, promote_resolve, Resolve_scoped, Register, RegisterInstance, ResolveAs, Resolve, Has, Names,
      Lock, RLock; rewrite ?Hl; destruct c; repeat case_match; done.
Qed.

Definition take_lock (c : DefaultContainer) : DefaultContainer :=
  mkDefaultContainer (dc_services c) (dc_instances c) true.

Lemma lock_unlocked c : dc_locked c = false -> Lock c = Ret (take_lock c) /\ Unlock (take_lock c) = c.
Proof. destruct c as [s i l]. unfold Lock, Unlock. cbn. by intros ->. Qed.

Lemma unlock_put name i c : Unlock (put_instance name i (take_lock c)) = put_instance name i (Unlock c).
Proof. done. Qed.

(** ** What resolving promises *)

(** The contract of [Resolve]: the cached instance, or else what the factory
    makes, cached unless the factory fails. *)
Definition resolve_spec (name : string) (c : DefaultContainer) (w : W) : go (DefaultContainer * W * result) :=
  match dc_instances c !! name, dc_services c !! name with
  | Some i, _ => Ret (c, w, (i, None))
  | None, None => Ret (c, w, (None, Some (not_registered name)))
  | None, Some f =>
      '(w', (i, e)) ← alone f w;
      Ret (match e with
           | Some e => (c, w', (None, Some (creation_failed name e)))
           | None => (put_instance name i c, w', (i, None))
           end)
  end.

Lemma resolve_is_spec d name c w :
  dc_locked c = false -> Resolve (default_container (S d)) name c w = resolve_spec name c w.
Proof.
  intros Hl. destruct (lock_unlocked c Hl) as [HL HU]. unfold Resolve, resolve_spec. rewrite HL. cbn [mbind go_bind].
  change (dc_instances (take_lock c)) with (dc_instances c).
  change (dc_services (take_lock c)) with (dc_services c).
  destruct (dc_instances c !! name) as [i|]; [by rewrite HU|].
  destruct (dc_services c !! name) as [f|]; [|by rewrite HU].
  rewrite (run_held _ _ _ _ (default_held d (take_lock c) eq_refl)).
  destruct (alone f w) as [[w' [i [e|]]]|why|]; cbn [mbind go_bind]; [by rewrite HU| |done|done].
  rewrite unlock_put. destruct c as [? ? []]; [discriminate Hl|done].
Qed.

Lemma resolve_spec_cached name c w c' w' i :
  resolve_spec name c w = Ret (c', w', (i, None)) ->
  dc_instances c' = <[name := i]> (dc_instances c) /\ dc_services c' = dc_services c /\ dc_locked c' = dc_locked c.
Proof.
  unfold resolve_spec. destruct (dc_instances c !! name) as [i0|] eqn:Hi.
  { intros [= <- <- <-]. by rewrite insert_id. }
  destruct (dc_services c !! name) as [f|] eqn:Hs; [|done].
  destruct (alone f w) as [[w1 [i1 [e|]]]|why|]; cbn [mbind go_bind]; intros [=]; by subst.
Qed.

(** [DefaultContainer.Resolve] meets its contract whatever the factories do:
    a cached instance is returned as it is, an unknown name is an error, and
    otherwise the factory runs exactly once and its instance is cached; a
    failure is reported with the name and leaves the container as it was; a
    factory that comes back to the container never returns. After a success the
    service is a singleton: resolving it again returns the same instance and
    runs no factory, and no other service changed. *)
Theorem container_resolve_correct (d : nat) (name : string) (c : DefaultContainer) (w : W)
    (Hfree : dc_locked c = false) :
  let resolve := c_Resolve _ (default_container (S (S d))) in
  resolve name c w = resolve_spec name c w /\
  forall c' w' i, resolve name c w = Ret (c', w', (i, None)) ->
    dc_locked c' = false /\
    (forall w2, resolve name c' w2 = Ret (c', w2, (i, None))) /\
    (forall other, other <> name -> dc_instances c' !! other = dc_instances c !! other) /\
    dc_services c' = dc_services c.
Proof.
  cbn. assert (Resolve (default_container (S d)) name c w = resolve_spec name c w) as E by by apply resolve_is_spec.
  split; [done|]. intros c' w' i. rewrite E. intros (Hi & Hs & Hl)%resolve_spec_cached. rewrite Hfree in Hl.
  split_and!; [done| |intros; rewrite Hi lookup_insert_ne; congruence|done].
  intros w2. rewrite resolve_is_spec //. unfold resolve_spec. by rewrite Hi lookup_insert_eq.
Qed.

(** A factory cannot use the container it is given for its dependencies: when
    the factory of a service that has no instance yet first resolves another
    service, even one that resolves without trouble on its own, the call of
    [Resolve] waits for ever on the mutex it holds. *)
Theorem factory_dependency_hangs (d : nat) (name dep : string) (k : option V -> option error -> ServiceFactory)
    (c c' : DefaultContainer) (w w' : W) (i : option V)
    (Hfree : dc_locked c = false) (Hnew : dc_instances c !! name = None)
    (Hfac : dc_services c !! name = Some (FResolve dep k))
    (Hdep : c_Resolve _ (default_container (S (S d))) dep c w = Ret (c', w', (i, None))) :
  c_Resolve _ (default_container (S (S d))) name c w = Hang /\
  c_Resolve _ (default_container (S (S d))) name c' w' = Hang.
Proof.
  cbn in *. rewrite resolve_is_spec // in Hdep. assert (name <> dep) as Hn.
  { intros ->. unfold resolve_spec in Hdep. by rewrite Hnew Hfac in Hdep. }
  apply resolve_spec_cached in Hdep as (Hi & Hs & Hl).
  rewrite !resolve_is_spec //; [congruence|]. unfold resolve_spec.
  rewrite Hi Hs Hfac (lookup_insert_ne _ dep name) ?Hnew; [congruence|done].
Qed.

(** What [ScopedContainer.Resolve] does with each scope. *)
Definition scoped_spec (name : string) (c : ScopedContainer) (w : W) : go (ScopedContainer * W * result) :=
  match sc_scopes c !! name with
  | None | Some ScopeScoped => Hang
  | Some ScopeSingleton => promote_resolve c (resolve_spec name (sc_DefaultContainer c) w)
  | Some ScopeTransient =>
      match dc_services (sc_DefaultContainer c) !! name with
      | None => Ret (c, w, (None, Some (not_registered name)))
      | Some f => '(w', r) ← alone f w; Ret (c, w', r)
      end
  | Some (ScopeOther n) => Ret (c, w, (None, Some ("unknown service scope: " +:+ pretty n)))
  end.

(** [ScopedContainer.Resolve] by scope: a singleton behaves as in the plain
    container; a transient service runs its factory at every call and nothing
    is cached; an unknown scope is an error. A service registered without a
    scope, and one registered with [ScopeScoped], is never resolved: the call
    waits for ever on the mutex it holds. *)
Theorem scoped_resolve_exact (d : nat) (name : string) (c : ScopedContainer) (w : W)
    (Hfree : dc_locked (sc_DefaultContainer c) = false) :
  c_Resolve _ (scoped_container (S (S d))) name c w = scoped_spec name c w.
Proof.
  destruct c as [c sc]. cbn [sc_DefaultContainer] in *. cbn [scoped_container c_Resolve].
  destruct (lock_unlocked c Hfree) as [HL HU].
  assert (forall f, run (scoped_container (S d)) f (mkScopedContainer (take_lock c) sc) w =
    '(w', r) ← alone f w; Ret (mkScopedContainer (take_lock c) sc, w', r)) as Hrun.
  { intros f. by apply run_held, scoped_held. }
  unfold Resolve_scoped, scoped_spec, promote_resolve, resolve_spec, scoped_unlock.
  cbn [sc_DefaultContainer sc_scopes]. rewrite HL. cbn [mbind go_bind sc_DefaultContainer sc_scopes].
  change (dc_instances (take_lock c)) with (dc_instances c).
  change (dc_services (take_lock c)) with (dc_services c). rewrite HU.
  destruct (sc !! name) as [[| | |n]|]; [| | |done|by unfold Resolve, Lock].
  - destruct (dc_instances c !! name) as [i|]; [done|].
    destruct (dc_services c !! name) as [f|]; [|done]. rewrite Hrun.
    destruct (alone f w) as [[w' [i [e|]]]|why|]; cbn [mbind go_bind sc_DefaultContainer sc_scopes];
      [by rewrite HU| |done|done].
    rewrite unlock_put. destruct c as [? ? []]; [discriminate Hfree|done].
  - destruct (dc_services c !! name) as [f|]; [|done]. rewrite Hrun.
    destruct (alone f w) as [[w' r]|why|]; cbn [mbind go_bind sc_DefaultContainer sc_scopes]; by rewrite ?HU.
  - by rewrite (held_Resolve _ _ (scoped_held d (mkScopedContainer (take_lock c) sc) eq_refl)).
Qed.

(** [Names] lists, each once, exactly the names [Has] knows. *)
Lemma names_exact (order : list string) (c : DefaultContainer) :
  dc_locked c = false -> range_order (name_set c) order ->
  Names order c = Ret order /\ NoDup order /\ forall n, n ∈ order <-> Has n c = Ret true.
Proof.
  intros Hl Ho. unfold Names, Has, RLock. rewrite Hl. cbn [mbind go_bind].
  assert (forall n, n ∈ order <-> is_Some (name_set c !! n)) as Hin by (intros; by apply elem_of_range_order).
  split_and!; [f_equal|by apply (NoDup_range_order (name_set c))|].
  - assert (Forall (fun n => is_Some (name_set c !! n)) order) as Hall
      by (apply Forall_forall; intros n; by rewrite Hin).
    clear -Hall. induction Hall as [|n l [b Hb] _ IH]; csimpl; [done|]. by rewrite Hb /= IH.
  - intros n. rewrite Hin /name_set lookup_union !lookup_fmap.
    destruct (dc_services c !! n), (dc_instances c !! n); split; intros H;
      first [reflexivity | by apply mk_is_Some with true | by destruct H | by inversion H | eexists; reflexivity].
Qed.

(** A factory is found under the name it was registered with; a second one under
    that name is refused. *)
Lemma register_exact (name : string) (f : ServiceFactory) (c : DefaultContainer) :
  dc_locked c = false -> name <> "" ->
  Register name (Some f) c =
    Ret (match dc_services c !! name with
         | Some _ => (c, Some ("service " +:+ name +:+ " is already registered"))
         | None => (mkDefaultContainer (<[name := f]> (dc_services c)) (dc_instances c) false, None)
         end).
Proof.
  intros Hl Hn%nonempty_true. destruct (lock_unlocked c Hl) as [HL HU].
  unfold Register. rewrite Hn /= HL /= HU. by destruct (dc_services c !! name).
Qed.

End container.

(** ** A container with a database and a service that needs it *)

Section demo.

Definition demo_builder : go (@ContainerBuilder nat Z Z) :=
  b ← WithService "db" (Some (FWork S (fun w => FReturn (Some (Z.of_nat w)) None))) NewContainerBuilder;
  WithService "users" (Some (FResolve "db" (fun i e => FReturn i e))) b.
Definition demo_container : @DefaultContainer nat Z Z :=
  match demo_builder with Ret b => Build b | _ => NewContainer end.
Definition demo_ops := @default_container nat Z Z id (fun _ => "int") Z.eqb.

Lemma container_resolve_correct_witness :
  dc_locked demo_container = false /\
  exists c', c_Resolve _ (demo_ops 2) "db" demo_container 7%nat = Ret (c', 8%nat, (Some 7, None)) /\
    c_Resolve _ (demo_ops 2) "db" c' 50%nat = Ret (c', 50%nat, (Some 7, None)).
Proof.
  split; [reflexivity|].
  destruct (container_resolve_correct id (fun _ => "int") Z.eqb 0 "db" demo_container 7%nat eq_refl) as [_ H].
  eexists. split; [vm_compute; reflexivity|]. eapply H. vm_compute. reflexivity.
Defined.

Lemma factory_dependency_hangs_witness : c_Resolve _ (demo_ops 2) "users" demo_container 7%nat = Hang.
Proof.
  refine (proj1 (factory_dependency_hangs id (fun _ => "int") Z.eqb 0 "users" "db" _ demo_container _ 7%nat _ _
                   eq_refl eq_refl eq_refl _)).
  vm_compute. reflexivity.
Defined.

Definition demo_scoped : @ScopedContainer nat Z Z :=
  mkScopedContainer demo_container {[ "db" := ScopeTransient ]}.

Lemma scoped_resolve_exact_witness :
  c_Resolve _ (@scoped_container nat Z Z id (fun _ => "int") Z.eqb 2) "db" demo_scoped 7%nat
    = Ret (demo_scoped, 8%nat, (Some 7, None)) /\
  c_Resolve _ (@scoped_container nat Z Z id (fun _ => "int") Z.eqb 2) "users" demo_scoped 7%nat = Hang.
Proof. split; rewrite (scoped_resolve_exact id (fun _ => "int") Z.eqb 0) //. Defined.

End demo.

