(* ===== verification/GoText.v ===== *)
(** What the servers use of Go's packages strings, strconv, encoding/base64,
    encoding/hex and net: trimming and splitting of lines, decimal numbers, the
    two text encodings of bytes with their round trips, and reads of a socket. A decoder's error is only
    ever tested for nil by the sources, so it is [None]. *)

From S2P Require Import Prelude CoreTypes NetMessage.
From Stdlib Require Import Ascii.

(** [%t] *)
Definition show_bool (b : bool) : string := if b then "true" else "false".

(** ** Bytes and strings *)

Lemma bytes_of_string_byte s : Forall Net.is_byte (bytes_of_string s).
Proof.
  induction s as [|c s IH]; constructor; [|done].
  pose proof (N_ascii_bounded c). unfold Net.is_byte. lia.
Qed.

Lemma bytes_of_string_of_bytes b : Forall Net.is_byte b -> bytes_of_string (string_of_bytes b) = b.
Proof.
  induction 1 as [|z b Hz _ IH]; [done|]. simpl. rewrite IH. f_equal.
  unfold Net.is_byte in Hz. rewrite N_ascii_embedding; lia.
Qed.

Lemma bytes_of_string_app s t : bytes_of_string (s +:+ t) = bytes_of_string s ++ bytes_of_string t.
Proof. induction s as [|c s IH]; [done|]. simpl. by rewrite IH. Qed.

Lemma string_of_bytes_app a b : string_of_bytes (a ++ b) = string_of_bytes a +:+ string_of_bytes b.
Proof. induction a as [|c a IH]; [done|]. simpl. by rewrite IH. Qed.

(** ** strings.Split *)

(** [strings.Split(s, sep)] for a separator of one character. *)
Fixpoint Split (sep : ascii) (s : string) : list string :=
  match s with
  | EmptyString => [""]
  | String c s' =>
      if Ascii.eqb c sep then "" :: Split sep s'
      else match Split sep s' with
           | p :: ps => String c p :: ps
           | [] => [String c ""]
           end
  end.

Fixpoint no_char (c : ascii) (s : string) : bool :=
  match s with EmptyString => true | String d s' => negb (Ascii.eqb d c) && no_char c s' end.

Lemma Split_not_nil sep s : Split sep s <> [].
Proof. destruct s as [|c s]; [done|]. simpl. case_match; [done|]. by destruct (Split sep s). Qed.

Lemma Split_no_char sep s : no_char sep s = true -> Split sep s = [s].
Proof.
  induction s as [|c s IH]; [done|]. simpl. intros [Hc Hs]%andb_prop.
  apply negb_true_iff in Hc. by rewrite Hc IH.
Qed.

Lemma Split_app sep a b :
  no_char sep a = true -> Split sep (a +:+ String sep b) = a :: Split sep b.
Proof.
  induction a as [|c a IH]; simpl; [by rewrite Ascii.eqb_refl|].
  intros [Hc Ha]%andb_prop. apply negb_true_iff in Hc. by rewrite Hc IH.
Qed.

Lemma no_char_app c s t : no_char c (s +:+ t) = no_char c s && no_char c t.
Proof. induction s as [|d s IH]; [done|]. simpl. by rewrite IH andb_assoc. Qed.

Lemma Split_single sep s p : Split sep s = [p] -> p = s.
Proof.
  revert p. induction s as [|c s IH]; simpl; intros p; [naive_solver|].
  destruct (Ascii.eqb c sep); [intros [= _ E]; by destruct (Split_not_nil sep s)|].
  destruct (Split sep s) as [|q [|? ?]] eqn:E; intros [= <-]; [by destruct (Split_not_nil sep s)|].
  f_equal. by apply IH.
Qed.

Lemma Split_parts_clean sep s : Forall (fun p => no_char sep p = true) (Split sep s).
Proof.
  induction s as [|c s IH]; simpl; [by repeat constructor|].
  destruct (Ascii.eqb c sep) eqn:Hc; [by constructor|].
  destruct (Split sep s) as [|p ps] eqn:Hs; [by destruct (Split_not_nil sep s)|].
  inversion IH; subst. constructor; [|done]. simpl. by rewrite Hc.
Qed.

(** ** strings.TrimSpace

    The UTF-8 encodings of the characters [unicode.IsSpace] accepts. *)

Definition spaces : list bytes :=
  [[9]; [10]; [11]; [12]; [13]; [32]; [194; 133]; [194; 160]; [225; 154; 128];
   [226; 128; 128]; [226; 128; 129]; [226; 128; 130]; [226; 128; 131]; [226; 128; 132]; [226; 128; 133];
   [226; 128; 134]; [226; 128; 135]; [226; 128; 136]; [226; 128; 137]; [226; 128; 138];
   [226; 128; 168]; [226; 128; 169]; [226; 128; 175]; [226; 129; 159]; [227; 128; 128]].

(** Whether the line starts with one of these, and what follows it. *)
Fixpoint strip_prefix (p b : bytes) : option bytes :=
  match p, b with
  | [], _ => Some b
  | x :: p', y :: b' => if x =? y then strip_prefix p' b' else None
  | _ :: _, [] => None
  end.

Definition strip_space (sp : list bytes) (b : bytes) : option bytes :=
  fold_right (fun p r => match strip_prefix p b with Some b' => Some b' | None => r end) None sp.

(** Each round drops at least a byte, so that the length is enough fuel. *)
Fixpoint trim_left (fuel : nat) (sp : list bytes) (b : bytes) : bytes :=
  match fuel with
  | O => b
  | S fuel' => match strip_space sp b with Some b' => trim_left fuel' sp b' | None => b end
  end.

Definition trim_bytes (b : bytes) : bytes :=
  let l := trim_left (length b) spaces b in
  rev (trim_left (length l) (map (@rev Z) spaces) (rev l)).

Definition TrimSpace (s : string) : string := string_of_bytes (trim_bytes (bytes_of_string s)).

(** A byte that neither starts nor ends the encoding of a space. *)
Definition plain (z : Z) : bool := (33 <=? z) && (z <=? 127).

Lemma strip_space_plain sp z b :
  Forall (fun p => match p with x :: _ => plain x = false | [] => False end) sp ->
  plain z = true -> strip_space sp (z :: b) = None.
Proof.
  intros Hsp Hz. induction Hsp as [|p sp Hp _ IH]; [done|]. cbn [strip_space fold_right].
  destruct p as [|x p]; [done|]. cbn [strip_prefix]. destruct (Z.eqb_spec x z); [congruence|]. exact IH.
Qed.

Lemma spaces_left : Forall (fun p => match p with x :: _ => plain x = false | [] => False end) spaces.
Proof. by repeat constructor. Qed.
Lemma spaces_right :
  Forall (fun p => match p with x :: _ => plain x = false | [] => False end) (map (@rev Z) spaces).
Proof. by repeat constructor. Qed.

Lemma trim_left_plain fuel sp z b :
  Forall (fun p => match p with x :: _ => plain x = false | [] => False end) sp ->
  plain z = true -> trim_left fuel sp (z :: b) = z :: b.
Proof. intros. destruct fuel; [done|]. cbn [trim_left]. by rewrite strip_space_plain. Qed.

(** A text of visible characters is left alone, and a newline after it goes. *)
Lemma trim_bytes_plain b : Forall (fun z => plain z = true) b -> trim_bytes b = b.
Proof.
  intros Hb. unfold trim_bytes. destruct b as [|z b]; [done|].
  inversion Hb as [|?? Hz _]; subst. rewrite (trim_left_plain _ _ z b spaces_left Hz).
  assert (Forall (fun z => plain z = true) (rev (z :: b))) as Hr by by apply Forall_rev.
  destruct (rev (z :: b)) as [|y r] eqn:E.
  { by apply (f_equal length) in E; rewrite length_rev in E. }
  inversion Hr; subst. rewrite (trim_left_plain _ _ y r spaces_right) //. by rewrite -E rev_involutive.
Qed.

(** A text that starts and ends with a visible character is left alone. *)
Lemma trim_bytes_ends x m y : plain x = true -> plain y = true -> trim_bytes (x :: m ++ [y]) = x :: m ++ [y].
Proof.
  intros Hx Hy. unfold trim_bytes. cbv zeta. rewrite (trim_left_plain _ _ x (m ++ [y]) spaces_left Hx).
  change (x :: m ++ [y]) with ((x :: m) ++ [y]). rewrite rev_app_distr. change (rev [y] ++ ?l) with (y :: l).
  rewrite (trim_left_plain _ _ y (rev (x :: m)) spaces_right Hy). cbn [rev].
  by rewrite -(rev_involutive (x :: m)).
Qed.

Lemma trim_bytes_newline z b :
  Forall (fun z => plain z = true) (z :: b) -> trim_bytes ((z :: b) ++ [10]) = z :: b.
Proof.
  intros Hb. unfold trim_bytes. cbv zeta. inversion Hb as [|?? Hz _]; subst.
  change ((z :: b) ++ [10]) with (z :: (b ++ [10])).
  rewrite (trim_left_plain _ _ z (b ++ [10]) spaces_left Hz).
  change (z :: (b ++ [10])) with ((z :: b) ++ [10]).
  rewrite rev_app_distr. change (rev [10] ++ ?l) with (10 :: l).
  replace (length ((z :: b) ++ [10])) with (S (length (z :: b))) by (rewrite length_app /=; lia).
  generalize (length (z :: b)); intros n. cbn [trim_left].
  change (strip_space (map (@rev Z) spaces) (10 :: rev (z :: b))) with (Some (rev (z :: b))). cbn iota beta.
  assert (Forall (fun z => plain z = true) (rev (z :: b))) as Hr by by apply Forall_rev.
  destruct (rev (z :: b)) as [|y r] eqn:E.
  { by apply (f_equal length) in E; rewrite length_rev in E. }
  inversion Hr; subst. rewrite (trim_left_plain _ _ y r spaces_right) //. by rewrite -E rev_involutive.
Qed.

(** ** strconv *)

Definition digit_value (c : ascii) : option Z :=
  let z := Z.of_N (N_of_ascii c) - 48 in
  if (0 <=? z) && (z <=? 9) then Some z else None.

Fixpoint digits_value (acc : Z) (s : string) : option Z :=
  match s with
  | EmptyString => Some acc
  | String c s' => match digit_value c with Some d => digits_value (acc * 10 + d) s' | None => None end
  end.

(** [strconv.ParseUint(s, 10, 32)]: the empty string, any character but a digit,
    and a value of more than 32 bits are errors. *)
Definition ParseUint32 (s : string) : option Z :=
  if eqs s "" then None
  else match digits_value 0 s with
       | Some v => if v <? 2 ^ 32 then Some v else None
       | None => None
       end.

(** [strconv.Atoi]: an optional sign, digits, the range of int. *)
Definition signed_value (neg : bool) (s : string) : option Z :=
  if eqs s "" then None
  else match digits_value 0 s with
       | Some v => let v := if neg then - v else v in
                   if (- 2 ^ 63 <=? v) && (v <? 2 ^ 63) then Some v else None
       | None => None
       end.
Definition Atoi (s : string) : option Z :=
  match s with
  | String "-" s' => signed_value true s'
  | String "+" s' => signed_value false s'
  | _ => signed_value false s
  end.

Lemma digits_value_nonneg s acc v : 0 <= acc -> digits_value acc s = Some v -> 0 <= v.
Proof.
  revert acc. induction s as [|c s IH]; intros acc Hacc; simpl; [naive_solver|].
  destruct (digit_value c) as [d|] eqn:Hd; [|done]. apply IH.
  unfold digit_value in Hd. case_match eqn:E; simplify_eq. apply andb_prop in E as [?%Z.leb_le _]. lia.
Qed.

Lemma ParseUint32_range s v : ParseUint32 s = Some v -> is_u32 v.
Proof.
  unfold ParseUint32. case_match; [done|]. destruct (digits_value 0 s) as [w|] eqn:Hw; [|done].
  case_match eqn:Hlt; intros; simplify_eq. apply Z.ltb_lt in Hlt.
  pose proof (digits_value_nonneg s 0 v ltac:(done) Hw). unfold is_u32. lia.
Qed.

Lemma pretty_digit_value x : (x < 10)%N -> digit_value (pretty_N_char x) = Some (Z.of_N x).
Proof.
  intros Hx. destruct x as [|p]; [done|].
  do 4 (destruct p as [p|p|]; [try lia|try lia|try done]); done || lia.
Qed.

Lemma digits_value_pretty_go x s :
  (0 < x)%N -> digits_value 0 (pretty_N_go x s) = digits_value (Z.of_N x) s.
Proof.
  revert s. induction (N.lt_wf_0 x) as [x _ IH]. intros s Hx.
  rewrite pretty_N_go_step; [done|].
  destruct (decide (x / 10 = 0)%N) as [E|E].
  - rewrite E pretty_N_go_0. cbn [digits_value].
    rewrite pretty_digit_value; [by apply N.mod_lt|].
    f_equal. pose proof (N.div_mod x 10 ltac:(done)). lia.
  - rewrite IH; [apply N.div_lt; lia|by apply N.neq_0_lt_0|]. cbn [digits_value].
    rewrite pretty_digit_value; [by apply N.mod_lt|].
    f_equal. pose proof (N.div_mod x 10 ltac:(done)). lia.
Qed.

Lemma digits_value_pretty n : digits_value 0 (pretty n) = Some (Z.of_N n).
Proof.
  unfold pretty, pretty_N. case_decide as E; [by subst|]. rewrite digits_value_pretty_go; [lia|done].
Qed.

Lemma pretty_Z_nonneg z : 0 <= z -> pretty z = pretty (Z.to_N z).
Proof. by destruct z. Qed.

Lemma pretty_N_nonempty (n : N) : pretty n <> "".
Proof.
  intros E. pose proof (digits_value_pretty n) as H. rewrite E in H. simpl in H.
  simplify_eq. destruct n; [|done]. by vm_compute in E.
Qed.

(** Printing with [%d] and parsing are inverse. *)
Lemma ParseUint32_pretty z : is_u32 z -> ParseUint32 (pretty z) = Some z.
Proof.
  intros [Hz Hlt]. unfold ParseUint32. rewrite (pretty_Z_nonneg z Hz).
  destruct (eqs _ "") eqn:E; [by apply eqs_true, pretty_N_nonempty in E|].
  rewrite digits_value_pretty Z2N.id //. by destruct (Z.ltb_spec z (2 ^ 32)); [|lia].
Qed.

(** A number below [10 ^ k] has at most [k] digits. *)
Lemma pretty_go_length k x s :
  (x < 10 ^ N.of_nat k)%N -> (String.length (pretty_N_go x s) <= k + String.length s)%nat.
Proof.
  revert x s. induction k as [|k IH]; intros x s Hx.
  { replace x with 0%N by (simpl in Hx; lia). rewrite pretty_N_go_0. lia. }
  destruct (decide (x = 0)%N) as [->|Hx0]; [rewrite pretty_N_go_0; lia|].
  rewrite pretty_N_go_step; [lia|].
  assert (x / 10 < 10 ^ N.of_nat k)%N as Hd.
  { apply N.Div0.div_lt_upper_bound. by rewrite -N.pow_succ_r' -Nat2N.inj_succ. }
  specialize (IH (x / 10)%N (String (pretty_N_char (x mod 10)) s) Hd). simpl in IH. lia.
Qed.

Lemma pretty_u32_length z : is_u32 z -> (String.length (pretty z) <= 10)%nat.
Proof.
  intros [Hz Hlt]. rewrite (pretty_Z_nonneg z Hz). unfold pretty, pretty_N. case_decide; [simpl; lia|].
  pose proof (pretty_go_length 10 (Z.to_N z) "" ltac:(simpl; lia)) as Hl. simpl in Hl. lia.
Qed.

Lemma length_bytes_of_string s : length (bytes_of_string s) = String.length s.
Proof. induction s as [|c s IH]; simpl; [done|by rewrite IH]. Qed.

Fixpoint all_digits (s : string) : bool :=
  match s with EmptyString => true | String c s' => bool_decide (is_Some (digit_value c)) && all_digits s' end.

Lemma digits_value_all acc s v : digits_value acc s = Some v -> all_digits s = true.
Proof.
  revert acc. induction s as [|c s IH]; intros acc; simpl; [done|].
  destruct (digit_value c) as [d|] eqn:Hd; [|done]. intros H. by rewrite (IH _ H).
Qed.

Lemma all_digits_pretty (n : N) : all_digits (pretty n) = true.
Proof. by eapply digits_value_all, digits_value_pretty. Qed.

Lemma digit_no_colon c : is_Some (digit_value c) -> Ascii.eqb c ":" = false.
Proof. intros [d Hd]. destruct (Ascii.eqb_spec c ":"); [by subst|done]. Qed.

Lemma all_digits_no_colon s : all_digits s = true -> no_char ":" s = true.
Proof.
  induction s as [|c s IH]; simpl; [done|]. intros [Hc%bool_decide_eq_true Hs]%andb_prop.
  by rewrite (digit_no_colon _ Hc) IH.
Qed.

Lemma all_digits_plain s : all_digits s = true -> Forall (fun z => plain z = true) (bytes_of_string s).
Proof.
  induction s as [|c s IH]; simpl; [constructor|].
  intros [[d Hd]%bool_decide_eq_true Hs]%andb_prop. constructor; [|by apply IH].
  unfold digit_value in Hd. case_match eqn:E; simplify_eq. unfold plain.
  apply andb_prop in E as [?%Z.leb_le ?%Z.leb_le]. apply andb_true_intro; split; apply Z.leb_le; lia.
Qed.

(** ** encoding/hex *)

Definition nth_char (n : nat) (s : string) : ascii :=
  match String.get n s with Some c => c | None => "000" end.

Definition hex_digit (d : Z) : ascii := nth_char (Z.to_nat d) "0123456789abcdef".

Definition hex_value (c : ascii) : option Z :=
  let z := Z.of_N (N_of_ascii c) in
  if (48 <=? z) && (z <=? 57) then Some (z - 48)
  else if (97 <=? z) && (z <=? 102) then Some (z - 87)
  else if (65 <=? z) && (z <=? 70) then Some (z - 55)
  else None.

Fixpoint hex_EncodeToString (b : bytes) : string :=
  match b with
  | [] => ""
  | z :: b' => String (hex_digit (z / 16)) (String (hex_digit (z mod 16)) (hex_EncodeToString b'))
  end.

(** A text of odd length and a character that is no hex digit are errors. *)
Fixpoint hex_DecodeString (s : string) : option bytes :=
  match s with
  | EmptyString => Some []
  | String c1 (String c2 s') =>
      a ← hex_value c1; b ← hex_value c2; r ← hex_DecodeString s'; Some (a * 16 + b :: r)
  | String _ EmptyString => None
  end.

(** ** encoding/base64, StdEncoding *)

Definition b64_alphabet : string := "ABCDEFGHIJKLMNOPQRSTUVWXYZabcdefghijklmnopqrstuvwxyz0123456789+/".
Definition b64_digit (d : Z) : ascii := nth_char (Z.to_nat d) b64_alphabet.

Definition b64_value (c : ascii) : option Z :=
  let z := Z.of_N (N_of_ascii c) in
  if (65 <=? z) && (z <=? 90) then Some (z - 65)
  else if (97 <=? z) && (z <=? 122) then Some (z - 71)
  else if (48 <=? z) && (z <=? 57) then Some (z + 4)
  else if z =? 43 then Some 62
  else if z =? 47 then Some 63
  else None.

Fixpoint b64_EncodeToString (b : bytes) : string :=
  match b with
  | [] => ""
  | [x] => String (b64_digit (x / 4)) (String (b64_digit (x mod 4 * 16)) "==")
  | [x; y] =>
      String (b64_digit (x / 4)) (String (b64_digit (x mod 4 * 16 + y / 16))
        (String (b64_digit (y mod 16 * 4)) "="))
  | x :: y :: z :: b' =>
      String (b64_digit (x / 4)) (String (b64_digit (x mod 4 * 16 + y / 16))
        (String (b64_digit (y mod 16 * 4 + z / 64)) (String (b64_digit (z mod 64)) (b64_EncodeToString b'))))
  end.

(** The decoder skips line ends anywhere. *)
Fixpoint skip_newlines (s : string) : string :=
  match s with
  | EmptyString => ""
  | String c s' => if Ascii.eqb c "010" || Ascii.eqb c "013" then skip_newlines s' else String c (skip_newlines s')
  end.

(** Quanta of four characters; [=] pads the last one only, and a quantum that is
    cut short is an error. The unused bits of a padded quantum are not checked. *)
Fixpoint b64_quanta (s : string) : option bytes :=
  match s with
  | EmptyString => Some []
  | String c1 (String c2 (String c3 (String c4 s'))) =>
      a ← b64_value c1; b ← b64_value c2;
      if Ascii.eqb c3 "=" then
        if Ascii.eqb c4 "=" && eqs s' "" then Some [a * 4 + b / 16] else None
      else
        c ← b64_value c3;
        if Ascii.eqb c4 "=" then
          if eqs s' "" then Some [a * 4 + b / 16; b mod 16 * 16 + c / 4] else None
        else
          d ← b64_value c4; r ← b64_quanta s';
          Some (a * 4 + b / 16 :: b mod 16 * 16 + c / 4 :: c mod 4 * 64 + d :: r)
  | _ => None
  end.

Definition b64_DecodeString (s : string) : option bytes := b64_quanta (skip_newlines s).

(** *** Round trips

    The digits are checked by enumeration. *)

Lemma upto_check (f : Z -> bool) n z : forallb f (seqZ 0 n) = true -> 0 <= z < n -> f z = true.
Proof. intros Hf Hz. rewrite forallb_forall in Hf. apply Hf, list_elem_of_In, elem_of_seqZ. lia. Qed.

Lemma hex_value_digit d : 0 <= d < 16 -> hex_value (hex_digit d) = Some d.
Proof.
  intros Hd. pose proof (upto_check (fun d => bool_decide (hex_value (hex_digit d) = Some d)) 16 d) as H.
  apply bool_decide_eq_true in H; [done|by vm_compute|done].
Qed.

(** A digit is neither padding nor a line end, and visible. *)
Definition b64_digit_facts (d : Z) : bool :=
  bool_decide (b64_value (b64_digit d) = Some d) && negb (Ascii.eqb (b64_digit d) "=")
  && negb (Ascii.eqb (b64_digit d) "010" || Ascii.eqb (b64_digit d) "013")
  && plain (Z.of_N (N_of_ascii (b64_digit d))) && negb (Ascii.eqb (b64_digit d) ":").

Lemma b64_digit_ok d :
  0 <= d < 64 ->
  b64_value (b64_digit d) = Some d /\ Ascii.eqb (b64_digit d) "=" = false
  /\ Ascii.eqb (b64_digit d) "010" || Ascii.eqb (b64_digit d) "013" = false
  /\ plain (Z.of_N (N_of_ascii (b64_digit d))) = true /\ Ascii.eqb (b64_digit d) ":" = false.
Proof.
  intros Hd. assert (b64_digit_facts d = true) as H.
  { apply (upto_check b64_digit_facts 64); [by vm_compute|done]. }
  unfold b64_digit_facts in H. rewrite !andb_true_iff !negb_true_iff bool_decide_eq_true in H.
  unfold plain. rewrite andb_true_iff. tauto.
Qed.

#[local] Ltac Zify.zify_post_hook ::= Z.div_mod_to_equations.

Lemma hex_roundtrip b : Forall Net.is_byte b -> hex_DecodeString (hex_EncodeToString b) = Some b.
Proof.
  induction 1 as [|z b Hz _ IH]; [done|]. unfold Net.is_byte in Hz.
  cbn [hex_EncodeToString hex_DecodeString].
  rewrite !hex_value_digit; [lia|lia|]. rewrite IH. cbn. do 2 f_equal. lia.
Qed.

(** Induction in steps of three bytes. *)
Lemma triple_ind {A} (P : list A -> Prop) :
  P [] -> (forall x, P [x]) -> (forall x y, P [x; y]) ->
  (forall x y z l, P l -> P (x :: y :: z :: l)) -> forall l, P l.
Proof.
  intros H0 H1 H2 H3 l. assert (forall n l, (length l <= n)%nat -> P l) as H; [|by apply (H (length l))].
  clear l. intros n. induction n as [|n IH]; intros l Hl; [by destruct l; [|simpl in Hl; lia]|].
  destruct l as [|x [|y [|z l]]]; [done|done|done|]. apply H3, IH. simpl in Hl. lia.
Qed.

Ltac b64_digits :=
  repeat match goal with
  | |- context [b64_digit ?d] =>
      lazymatch goal with
      | _ : b64_value (b64_digit d) = Some d |- _ => fail
      | _ => let H := fresh in
             assert (0 <= d < 64) as H by (unfold Net.is_byte in *; lia);
             apply b64_digit_ok in H as (? & ? & ? & ? & ?)
      end
  end.

(** The text has no line end, and every character is visible. *)
Lemma skip_newlines_b64 b :
  Forall Net.is_byte b -> skip_newlines (b64_EncodeToString b) = b64_EncodeToString b.
Proof.
  induction b as [|x|x y|x y z b IH] using triple_ind; rewrite ?Forall_cons; [done| | |];
    intros H; destruct_and?; cbn [b64_EncodeToString]; b64_digits; cbn [skip_newlines];
    repeat match goal with E : (_ || _) = false |- _ => rewrite E; clear E end; try done.
  by rewrite IH.
Qed.

Lemma b64_roundtrip b : Forall Net.is_byte b -> b64_DecodeString (b64_EncodeToString b) = Some b.
Proof.
  intros Hb. unfold b64_DecodeString. rewrite skip_newlines_b64 //. revert Hb.
  induction b as [|x|x y|x y z b IH] using triple_ind; rewrite ?Forall_cons; [done| | |];
    intros H; destruct_and?; cbn [b64_EncodeToString]; b64_digits; cbn [b64_quanta];
    repeat match goal with
           | E : b64_value _ = Some _ |- _ => rewrite E; clear E; cbn [mbind option_bind]
           | E : Ascii.eqb _ "=" = false |- _ => rewrite E; clear E
           end; simpl; unfold Net.is_byte in *.
  - do 2 f_equal. lia.
  - f_equal. f_equal; [lia|]. f_equal. lia.
  - rewrite IH //. cbn. f_equal. f_equal; [lia|]. f_equal; [lia|]. f_equal. lia.
Qed.

Lemma b64_visible b :
  Forall Net.is_byte b -> Forall (fun z => plain z = true) (bytes_of_string (b64_EncodeToString b)).
Proof.
  induction b as [|x|x y|x y z b IH] using triple_ind; rewrite ?Forall_cons; [done| | |];
    intros H; destruct_and?; cbn [b64_EncodeToString]; b64_digits; cbn [bytes_of_string];
    repeat (constructor; [done|]); auto.
Qed.

Lemma b64_no_colon b : Forall Net.is_byte b -> no_char ":" (b64_EncodeToString b) = true.
Proof.
  induction b as [|x|x y|x y z b IH] using triple_ind; rewrite ?Forall_cons; [done| | |];
    intros H; destruct_and?; cbn [b64_EncodeToString]; b64_digits; cbn [no_char];
    repeat match goal with E : Ascii.eqb _ ":" = false |- _ => rewrite E; clear E end; try done.
  by rewrite IH.
Qed.

(** The text has a character if there is a byte. *)
Lemma b64_nonempty x b : b64_EncodeToString (x :: b) <> "".
Proof. by destruct b as [|y [|z b]]. Qed.

(** A line of visible characters, sent with a newline, is read back. *)
Lemma TrimSpace_line s :
  s <> "" -> Forall (fun z => plain z = true) (bytes_of_string s) ->
  TrimSpace (string_of_bytes (bytes_of_string s ++ [10])) = s.
Proof.
  intros Hs Hp. unfold TrimSpace. rewrite bytes_of_string_of_bytes.
  { apply Forall_app; split; [apply bytes_of_string_byte|by repeat constructor]. }
  destruct s as [|c s]; [done|]. cbn [bytes_of_string] in *. rewrite trim_bytes_newline //.
  apply (string_of_bytes_of_string (String c s)).
Qed.

(** A character that is no digit spoils a number. *)
Lemma ParseUint32_bad a c b : digit_value c = None -> ParseUint32 (a +:+ String c b) = None.
Proof.
  intros Hc. unfold ParseUint32. destruct (eqs _ ""); [done|].
  destruct (digits_value 0 (a +:+ String c b)) as [v|] eqn:E; [|done]. exfalso.
  apply digits_value_all in E. revert E. induction a as [|d a IH]; simpl.
  - by rewrite Hc.
  - intros [_ E]%andb_prop. by apply IH.
Qed.

(** ** Sockets

    What will arrive on a socket, segment by segment; a read returns bytes of one
    segment, and fails once nothing more comes or the deadline has passed. *)
Record socket := mkSocket {
  so_in : list bytes;
  so_deadline : option time;
}.

Definition past_deadline (now : time) (so : socket) : bool :=
  match so_deadline so with Some d => d <=? now | None => false end.

(** A read into a buffer of [n] bytes. An empty buffer is full at once. *)
Definition net_Read (n : nat) (now : time) (so : socket) : res bytes * socket :=
  if past_deadline now so then (Err "i/o timeout", so)
  else if (n =? 0)%nat then (Ok [], so)
  else match so_in so with
       | [] => (Err "EOF", so)
       | seg :: rest =>
           if (length seg <=? n)%nat then (Ok seg, mkSocket rest (so_deadline so))
           else (Ok (take n seg), mkSocket (drop n seg :: rest) (so_deadline so))
       end.

(** Bytes and segments still to come. *)
Definition input_left (so : socket) : nat := sum_list_with (fun seg => S (length seg)) (so_in so).

Lemma net_Read_left n now so b so' :
  net_Read n now so = (Ok b, so') ->
  (input_left so' <= input_left so)%nat /\ (n <> 0%nat -> (input_left so' < input_left so)%nat).
Proof.
  unfold net_Read, input_left. destruct (past_deadline now so); [done|].
  destruct (Nat.eqb_spec n 0) as [->|Hn]; [intros [= _ <-]; by split|].
  destruct (so_in so) as [|seg rest]; [done|].
  destruct (Nat.leb_spec (length seg) n); intros [= _ <-]; cbn [so_in sum_list_with]; [lia|].
  rewrite length_drop. lia.
Qed.

(** A read of a segment that fits the buffer. *)
Lemma net_Read_segment n now seg rest d :
  (0 < length seg <= n)%nat -> past_deadline now (mkSocket [] d) = false ->
  net_Read n now (mkSocket (seg :: rest) d) = (Ok seg, mkSocket rest d).
Proof.
  intros Hl Hd. unfold net_Read, past_deadline in *. cbn [so_deadline so_in] in *. rewrite Hd.
  destruct (Nat.eqb_spec n 0); [lia|]. by destruct (Nat.leb_spec (length seg) n); [|lia].
Qed.

(** A line of visible characters that comes as a segment of its own. *)
Lemma read_line_segment now line rest d :
  line <> "" -> Forall (fun z => plain z = true) (bytes_of_string line) -> (String.length line < 1024)%nat ->
  past_deadline now (mkSocket [] d) = false ->
  exists b, net_Read 1024 now (mkSocket ((bytes_of_string line ++ [10]) :: rest) d) = (Ok b, mkSocket rest d)
    /\ TrimSpace (string_of_bytes b) = line.
Proof.
  intros Hne Hp Hl Hd. eexists. split; [|by apply TrimSpace_line].
  apply net_Read_segment; [|done]. rewrite length_app length_bytes_of_string. simpl. lia.
Qed.
