(* ===== verification/GoCrypto.v ===== *)
(** What the servers use of Go's cryptographic packages: DES (FIPS 46-3), SHA-1
    (RFC 3174), HMAC (RFC 2104) and MD5 (RFC 1321), as executable functions on
    bytes. DES decryption inverts encryption because a Feistel network does, for
    every round function. *)

From S2P Require Import Prelude CoreTypes NetMessage GoText.

(** ** Bits *)

(** The [n] low bits of [z], most significant first, and back. *)
Fixpoint bits (n : nat) (z : Z) : list bool :=
  match n with O => [] | S n' => Z.testbit z (Z.of_nat n') :: bits n' z end.
Definition bits_value (b : list bool) : Z := fold_left (fun acc x => acc * 2 + Z.b2z x) b 0.

Fixpoint block_bits (b : bytes) : list bool :=
  match b with [] => [] | z :: b' => bits 8 z ++ block_bits b' end.
Fixpoint bits_block (n : nat) (b : list bool) : bytes :=
  match n with O => [] | S n' => bits_value (take 8 b) :: bits_block n' (drop 8 b) end.

Lemma length_bits n z : length (bits n z) = n.
Proof. induction n as [|n IH]; simpl; [done|by rewrite IH]. Qed.

#[local] Arguments bits : simpl never.

Lemma byte_bits z : Net.is_byte z -> bits_value (bits 8 z) = z.
Proof.
  intros Hz. apply Z.eqb_eq. by apply (upto_check (fun z => bits_value (bits 8 z) =? z) 256); [vm_compute|].
Qed.

Lemma bits_byte b : length b = 8%nat -> bits 8 (bits_value b) = b /\ Net.is_byte (bits_value b).
Proof.
  destruct b as [|b7 [|b6 [|b5 [|b4 [|b3 [|b2 [|b1 [|b0 [|? ?]]]]]]]]]; try done. intros _.
  destruct b7, b6, b5, b4, b3, b2, b1, b0; by vm_compute.
Qed.

Lemma length_block_bits b : length (block_bits b) = (8 * length b)%nat.
Proof. induction b as [|z b IH]; [done|]. cbn [block_bits length]. rewrite length_app length_bits IH. lia. Qed.

Lemma bits_block_bits b : Forall Net.is_byte b -> bits_block (length b) (block_bits b) = b.
Proof.
  induction 1 as [|z b Hz _ IH]; [done|]. cbn [length bits_block]. cbn [block_bits length].
  rewrite take_app_length' ?length_bits // drop_app_length' ?length_bits // IH byte_bits //.
Qed.

Lemma block_bits_block n b :
  length b = (8 * n)%nat ->
  block_bits (bits_block n b) = b /\ length (bits_block n b) = n /\ Forall Net.is_byte (bits_block n b).
Proof.
  revert b. induction n as [|n IH]; intros b Hb; [by destruct b|].
  assert (length (take 8 b) = 8%nat) as Ht by (rewrite length_take; lia).
  destruct (bits_byte _ Ht) as [E1 E2].
  destruct (IH (drop 8 b)) as (I1 & I2 & I3); [rewrite length_drop; lia|].
  cbn [bits_block]. cbn [block_bits length]. rewrite I1 I2 E1 take_drop. auto.
Qed.

(** ** DES

    The tables of the standard; positions count from 1. *)

Definition des_IP : list nat :=
  [58; 50; 42; 34; 26; 18; 10; 2; 60; 52; 44; 36; 28; 20; 12; 4;
   62; 54; 46; 38; 30; 22; 14; 6; 64; 56; 48; 40; 32; 24; 16; 8;
   57; 49; 41; 33; 25; 17; 9; 1; 59; 51; 43; 35; 27; 19; 11; 3;
   61; 53; 45; 37; 29; 21; 13; 5; 63; 55; 47; 39; 31; 23; 15; 7]%nat.
Definition des_FP : list nat :=
  [40; 8; 48; 16; 56; 24; 64; 32; 39; 7; 47; 15; 55; 23; 63; 31;
   38; 6; 46; 14; 54; 22; 62; 30; 37; 5; 45; 13; 53; 21; 61; 29;
   36; 4; 44; 12; 52; 20; 60; 28; 35; 3; 43; 11; 51; 19; 59; 27;
   34; 2; 42; 10; 50; 18; 58; 26; 33; 1; 41; 9; 49; 17; 57; 25]%nat.
Definition des_E : list nat :=
  [32; 1; 2; 3; 4; 5; 4; 5; 6; 7; 8; 9; 8; 9; 10; 11;
   12; 13; 12; 13; 14; 15; 16; 17; 16; 17; 18; 19; 20; 21; 20; 21;
   22; 23; 24; 25; 24; 25; 26; 27; 28; 29; 28; 29; 30; 31; 32; 1]%nat.
Definition des_P : list nat :=
  [16; 7; 20; 21; 29; 12; 28; 17; 1; 15; 23; 26; 5; 18; 31; 10;
   2; 8; 24; 14; 32; 27; 3; 9; 19; 13; 30; 6; 22; 11; 4; 25]%nat.
Definition des_PC1 : list nat :=
  [57; 49; 41; 33; 25; 17; 9; 1; 58; 50; 42; 34; 26; 18; 10; 2;
   59; 51; 43; 35; 27; 19; 11; 3; 60; 52; 44; 36; 63; 55; 47; 39;
   31; 23; 15; 7; 62; 54; 46; 38; 30; 22; 14; 6; 61; 53; 45; 37;
   29; 21; 13; 5; 28; 20; 12; 4]%nat.
Definition des_PC2 : list nat :=
  [14; 17; 11; 24; 1; 5; 3; 28; 15; 6; 21; 10; 23; 19; 12; 4;
   26; 8; 16; 7; 27; 20; 13; 2; 41; 52; 31; 37; 47; 55; 30; 40;
   51; 45; 33; 48; 44; 49; 39; 56; 34; 53; 46; 42; 50; 36; 29; 32]%nat.
Definition des_shifts : list nat := [1; 1; 2; 2; 2; 2; 2; 2; 1; 2; 2; 2; 2; 2; 2; 1]%nat.
Definition des_S : list (list Z) :=
  [[14; 4; 13; 1; 2; 15; 11; 8; 3; 10; 6; 12; 5; 9; 0; 7; 0; 15; 7; 4; 14; 2; 13; 1; 10; 6; 12; 11; 9; 5; 3; 8;
   4; 1; 14; 8; 13; 6; 2; 11; 15; 12; 9; 7; 3; 10; 5; 0; 15; 12; 8; 2; 4; 9; 1; 7; 5; 11; 3; 14; 10; 0; 6; 13];
   [15; 1; 8; 14; 6; 11; 3; 4; 9; 7; 2; 13; 12; 0; 5; 10; 3; 13; 4; 7; 15; 2; 8; 14; 12; 0; 1; 10; 6; 9; 11; 5;
   0; 14; 7; 11; 10; 4; 13; 1; 5; 8; 12; 6; 9; 3; 2; 15; 13; 8; 10; 1; 3; 15; 4; 2; 11; 6; 7; 12; 0; 5; 14; 9];
   [10; 0; 9; 14; 6; 3; 15; 5; 1; 13; 12; 7; 11; 4; 2; 8; 13; 7; 0; 9; 3; 4; 6; 10; 2; 8; 5; 14; 12; 11; 15; 1;
   13; 6; 4; 9; 8; 15; 3; 0; 11; 1; 2; 12; 5; 10; 14; 7; 1; 10; 13; 0; 6; 9; 8; 7; 4; 15; 14; 3; 11; 5; 2; 12];
   [7; 13; 14; 3; 0; 6; 9; 10; 1; 2; 8; 5; 11; 12; 4; 15; 13; 8; 11; 5; 6; 15; 0; 3; 4; 7; 2; 12; 1; 10; 14; 9;
   10; 6; 9; 0; 12; 11; 7; 13; 15; 1; 3; 14; 5; 2; 8; 4; 3; 15; 0; 6; 10; 1; 13; 8; 9; 4; 5; 11; 12; 7; 2; 14];
   [2; 12; 4; 1; 7; 10; 11; 6; 8; 5; 3; 15; 13; 0; 14; 9; 14; 11; 2; 12; 4; 7; 13; 1; 5; 0; 15; 10; 3; 9; 8; 6;
   4; 2; 1; 11; 10; 13; 7; 8; 15; 9; 12; 5; 6; 3; 0; 14; 11; 8; 12; 7; 1; 14; 2; 13; 6; 15; 0; 9; 10; 4; 5; 3];
   [12; 1; 10; 15; 9; 2; 6; 8; 0; 13; 3; 4; 14; 7; 5; 11; 10; 15; 4; 2; 7; 12; 9; 5; 6; 1; 13; 14; 0; 11; 3; 8;
   9; 14; 15; 5; 2; 8; 12; 3; 7; 0; 4; 10; 1; 13; 11; 6; 4; 3; 2; 12; 9; 5; 15; 10; 11; 14; 1; 7; 6; 0; 8; 13];
   [4; 11; 2; 14; 15; 0; 8; 13; 3; 12; 9; 7; 5; 10; 6; 1; 13; 0; 11; 7; 4; 9; 1; 10; 14; 3; 5; 12; 2; 15; 8; 6;
   1; 4; 11; 13; 12; 3; 7; 14; 10; 15; 6; 8; 0; 5; 9; 2; 6; 11; 13; 8; 1; 4; 10; 7; 9; 5; 0; 15; 14; 2; 3; 12];
   [13; 2; 8; 4; 6; 15; 11; 1; 10; 9; 3; 14; 5; 0; 12; 7; 1; 15; 13; 8; 10; 3; 7; 4; 12; 5; 6; 11; 0; 14; 9; 2;
   7; 11; 4; 1; 9; 12; 14; 2; 0; 6; 10; 13; 15; 3; 5; 8; 2; 1; 14; 7; 4; 10; 8; 13; 15; 12; 9; 0; 3; 5; 6; 11]].

Definition permute (t : list nat) (b : list bool) : list bool := map (fun i => nth (i - 1) b false) t.
Definition xorl (a b : list bool) : list bool := zip_with xorb a b.
Definition rotl (n : nat) (b : list bool) : list bool := drop n b ++ take n b.

(** The sixteen subkeys. *)
Fixpoint des_schedule (sh : list nat) (c d : list bool) : list (list bool) :=
  match sh with
  | [] => []
  | s :: sh' => let c' := rotl s c in let d' := rotl s d in
                permute des_PC2 (c' ++ d') :: des_schedule sh' c' d'
  end.
Definition des_keys (key : bytes) : list (list bool) :=
  let cd := permute des_PC1 (block_bits key) in des_schedule des_shifts (take 28 cd) (drop 28 cd).

Fixpoint des_sboxes (ss : list (list Z)) (x : list bool) : list bool :=
  match ss with
  | [] => []
  | s :: ss' =>
      let c := take 6 x in
      let row := 2 * Z.b2z (nth 0 c false) + Z.b2z (nth 5 c false) in
      let col := bits_value (take 4 (drop 1 c)) in
      bits 4 (nth (Z.to_nat (row * 16 + col)) s 0) ++ des_sboxes ss' (drop 6 x)
  end.
Definition des_f (r k : list bool) : list bool := permute des_P (des_sboxes des_S (xorl (permute des_E r) k)).

(** Rounds of a Feistel network. *)
Fixpoint feistel (ks : list (list bool)) (l r : list bool) : list bool * list bool :=
  match ks with
  | [] => (l, r)
  | k :: ks' => feistel ks' r (xorl l (des_f r k))
  end.

Definition des_block (ks : list (list bool)) (b : bytes) : bytes :=
  let x := permute des_IP (block_bits b) in
  let '(l, r) := feistel ks (take 32 x) (drop 32 x) in
  bits_block 8 (permute des_FP (r ++ l)).

(** [cipher.Block] of [des.NewCipher(key)] for a key of eight bytes. *)
Definition des_Encrypt (key block : bytes) : bytes := des_block (des_keys key) block.
Definition des_Decrypt (key block : bytes) : bytes := des_block (rev (des_keys key)) block.

Lemma length_xorl a b : length a = length b -> length (xorl a b) = length a.
Proof. intros E. unfold xorl. rewrite length_zip_with. lia. Qed.

Lemma xorl_twice a b : length a = length b -> xorl (xorl a b) b = a.
Proof.
  revert b. induction a as [|x a IH]; intros [|y b]; intros [=]; [done|].
  unfold xorl in *. simpl. rewrite IH //. by destruct x, y.
Qed.

Lemma length_des_f r k : length (des_f r k) = 32%nat.
Proof. unfold des_f, permute. by rewrite length_map. Qed.

Lemma feistel_length ks l r :
  length l = 32%nat -> length r = 32%nat ->
  length (feistel ks l r).1 = 32%nat /\ length (feistel ks l r).2 = 32%nat.
Proof.
  revert l r. induction ks as [|k ks IH]; intros l r Hl Hr; simpl; [done|].
  apply IH; [done|]. rewrite length_xorl // length_des_f //.
Qed.

Lemma feistel_app ks1 ks2 l r :
  feistel (ks1 ++ ks2) l r = feistel ks2 (feistel ks1 l r).1 (feistel ks1 l r).2.
Proof. revert l r. induction ks1 as [|k ks1 IH]; intros l r; simpl; [done|apply IH]. Qed.

(** Running the rounds backwards on the swapped halves undoes them. *)
Lemma feistel_inverse ks l r :
  length l = 32%nat -> length r = 32%nat ->
  feistel (rev ks) (feistel ks l r).2 (feistel ks l r).1 = (r, l).
Proof.
  revert l r. induction ks as [|k ks IH]; intros l r Hl Hr; [done|]. cbn [rev feistel].
  rewrite feistel_app IH; [done|by rewrite length_xorl // length_des_f|].
  cbn [feistel fst snd]. f_equal. apply xorl_twice. by rewrite length_des_f.
Qed.

(** The two outer permutations are inverse. *)
Lemma permute_compose t1 t2 b :
  Forall (fun i => (i - 1 < length t2)%nat) t1 ->
  permute t1 (permute t2 b) = permute (map (fun i => nth (i - 1) t2 O) t1) b.
Proof.
  unfold permute. intros Ht. rewrite map_map. apply map_ext_in. intros i Hi%list_elem_of_In.
  rewrite Forall_forall in Ht. specialize (Ht i Hi).
  rewrite (nth_indep _ false (nth (0 - 1) b false)); [by rewrite length_map|].
  by rewrite (map_nth (fun i => nth (i - 1) b false)).
Qed.

Lemma permute_id b : permute (seq 1 (length b)) b = b.
Proof.
  unfold permute. apply (nth_ext _ _ false false); [by rewrite length_map length_seq|].
  intros i. rewrite length_map length_seq. intros Hi.
  rewrite (nth_indep _ false (nth (0 - 1) b false)); [by rewrite length_map length_seq|].
  rewrite (map_nth (fun i => nth (i - 1) b false)) seq_nth //. f_equal. lia.
Qed.

Lemma permute_IP_FP b : length b = 64%nat -> permute des_FP (permute des_IP b) = b.
Proof.
  intros Hb. rewrite permute_compose; [by apply (bool_decide_unpack _); vm_compute|].
  change (map _ des_FP) with (seq 1 64). rewrite -Hb. apply permute_id.
Qed.

Lemma permute_FP_IP b : length b = 64%nat -> permute des_IP (permute des_FP b) = b.
Proof.
  intros Hb. rewrite permute_compose; [by apply (bool_decide_unpack _); vm_compute|].
  change (map _ des_IP) with (seq 1 64). rewrite -Hb. apply permute_id.
Qed.

Lemma length_permute t b : length (permute t b) = length t.
Proof. apply length_map. Qed.

(** A block of eight bytes goes to one, and the reverse order of the subkeys
    takes it back. *)
Lemma des_block_block ks b : length (des_block ks b) = 8%nat /\ Forall Net.is_byte (des_block ks b).
Proof.
  unfold des_block. destruct (feistel ks _ _) as [l r].
  destruct (block_bits_block 8 (permute des_FP (r ++ l))) as (_ & ? & ?); [|done]. by rewrite length_permute.
Qed.

Lemma des_block_inverse ks b :
  length b = 8%nat -> Forall Net.is_byte b -> des_block (rev ks) (des_block ks b) = b.
Proof.
  intros Hlen Hb. unfold des_block at 2. cbv zeta.
  assert (length (block_bits b) = 64%nat) as Hbits by (rewrite length_block_bits; lia).
  set x := permute des_IP (block_bits b).
  assert (length x = 64%nat) as Hx by by rewrite length_permute.
  assert (length (take 32 x) = 32%nat) as Ht by (rewrite length_take; lia).
  assert (length (drop 32 x) = 32%nat) as Hd by (rewrite length_drop; lia).
  pose proof (feistel_length ks _ _ Ht Hd) as [F1 F2]. pose proof (feistel_inverse ks _ _ Ht Hd) as FI.
  destruct (feistel ks (take 32 x) (drop 32 x)) as [l r]. cbn [fst snd] in *.
  assert (length (r ++ l) = 64%nat) as Hrl by (rewrite length_app; lia).
  unfold des_block. destruct (block_bits_block 8 (permute des_FP (r ++ l))) as (E & _); [by rewrite length_permute|].
  rewrite E permute_FP_IP // take_app_length' // drop_app_length' // FI take_drop.
  rewrite /x permute_IP_FP // -Hlen. by apply bits_block_bits.
Qed.

Lemma des_decrypt_encrypt key b :
  length b = 8%nat -> Forall Net.is_byte b -> des_Decrypt key (des_Encrypt key b) = b.
Proof. apply des_block_inverse. Qed.

(** A published test vector. *)
Example des_vector :
  des_Encrypt [19; 52; 87; 121; 155; 188; 223; 241] [1; 35; 69; 103; 137; 171; 205; 239]
  = [133; 232; 19; 84; 15; 10; 180; 5].
Proof. by vm_compute. Qed.

(** ** SHA-1, MD5 and HMAC *)

Definition rol32 (n x : Z) : Z := u32 (Z.lor (Z.shiftl x n) (Z.shiftr x (32 - n))).
Definition not32 (x : Z) : Z := 2 ^ 32 - 1 - x.

(** The bit 1, zeros, and the length of the message in bits make whole blocks of
    64 bytes. *)
Definition md_pad (len8 : Z -> bytes) (m : bytes) : bytes :=
  m ++ [128] ++ replicate (Z.to_nat ((55 - Z.of_nat (length m)) mod 64)) 0
    ++ len8 (8 * Z.of_nat (length m)).

Fixpoint chunks (fuel n : nat) (b : bytes) : list bytes :=
  match fuel, b with
  | S fuel', _ :: _ => take n b :: chunks fuel' n (drop n b)
  | _, _ => []
  end.

Definition be_words (b : bytes) : list Z := map Net.be_get (chunks (length b) 4 b).
Definition le_words (b : bytes) : list Z := map (fun w => Net.be_get (rev w)) (chunks (length b) 4 b).

(** The message schedule, the last sixteen words first. *)
Fixpoint sha1_schedule (n : nat) (ws : list Z) : list Z :=
  match n with
  | O => ws
  | S n' => sha1_schedule n'
              (rol32 1 (Z.lxor (nth 2 ws 0) (Z.lxor (nth 7 ws 0) (Z.lxor (nth 13 ws 0) (nth 15 ws 0)))) :: ws)
  end.

Definition sha1_fk (i : nat) (b c d : Z) : Z * Z :=
  if (i <? 20)%nat then (Z.lor (Z.land b c) (Z.land (not32 b) d), 1518500249)
  else if (i <? 40)%nat then (Z.lxor b (Z.lxor c d), 1859775393)
  else if (i <? 60)%nat then (Z.lor (Z.land b c) (Z.lor (Z.land b d) (Z.land c d)), 2400959708)
  else (Z.lxor b (Z.lxor c d), 3395469782).

Fixpoint sha1_rounds (i : nat) (ws : list Z) (a b c d e : Z) : list Z :=
  match ws with
  | [] => [a; b; c; d; e]
  | w :: ws' => let '(f, k) := sha1_fk i b c d in
                sha1_rounds (S i) ws' (u32 (rol32 5 a + f + e + k + w)) a (rol32 30 b) c d
  end.

Definition sha1_block (h : list Z) (blk : bytes) : list Z :=
  match h with
  | [a; b; c; d; e] =>
      zip_with (fun x y => u32 (x + y)) h
        (sha1_rounds 0 (rev (sha1_schedule 64 (rev (be_words blk)))) a b c d e)
  | _ => h
  end.

Definition sha1_Sum (m : bytes) : bytes :=
  let p := md_pad (Net.be_put 8) m in
  fold_left sha1_block (chunks (length p) 64 p)
    [1732584193; 4023233417; 2562383102; 271733878; 3285377520] ≫= Net.be_put 4.

Definition md5_K : list Z :=
  [3614090360; 3905402710; 606105819; 3250441966; 4118548399; 1200080426; 2821735955; 4249261313;
   1770035416; 2336552879; 4294925233; 2304563134; 1804603682; 4254626195; 2792965006; 1236535329;
   4129170786; 3225465664; 643717713; 3921069994; 3593408605; 38016083; 3634488961; 3889429448;
   568446438; 3275163606; 4107603335; 1163531501; 2850285829; 4243563512; 1735328473; 2368359562;
   4294588738; 2272392833; 1839030562; 4259657740; 2763975236; 1272893353; 4139469664; 3200236656;
   681279174; 3936430074; 3572445317; 76029189; 3654602809; 3873151461; 530742520; 3299628645;
   4096336452; 1126891415; 2878612391; 4237533241; 1700485571; 2399980690; 4293915773; 2240044497;
   1873313359; 4264355552; 2734768916; 1309151649; 4149444226; 3174756917; 718787259; 3951481745].
Definition md5_R : list Z :=
  [7; 12; 17; 22; 7; 12; 17; 22; 7; 12; 17; 22; 7; 12; 17; 22; 5; 9; 14; 20; 5; 9; 14; 20; 5; 9; 14; 20; 5; 9; 14; 20;
   4; 11; 16; 23; 4; 11; 16; 23; 4; 11; 16; 23; 4; 11; 16; 23; 6; 10; 15; 21; 6; 10; 15; 21; 6; 10; 15; 21; 6; 10; 15; 21].

Definition md5_fg (i : nat) (b c d : Z) : Z * nat :=
  if (i <? 16)%nat then (Z.lor (Z.land b c) (Z.land (not32 b) d), i)
  else if (i <? 32)%nat then (Z.lor (Z.land d b) (Z.land (not32 d) c), (5 * i + 1) mod 16)%nat
  else if (i <? 48)%nat then (Z.lxor b (Z.lxor c d), (3 * i + 5) mod 16)%nat
  else (Z.lxor c (Z.lor b (not32 d)), (7 * i) mod 16)%nat.

Fixpoint md5_rounds (n i : nat) (ws : list Z) (a b c d : Z) : list Z :=
  match n with
  | O => [a; b; c; d]
  | S n' => let '(f, g) := md5_fg i b c d in
            md5_rounds n' (S i) ws d
              (u32 (b + rol32 (nth i md5_R 0) (u32 (a + f + nth i md5_K 0 + nth g ws 0)))) b c
  end.

Definition md5_block (h : list Z) (blk : bytes) : list Z :=
  match h with
  | [a; b; c; d] => zip_with (fun x y => u32 (x + y)) h (md5_rounds 64 0 (le_words blk) a b c d)
  | _ => h
  end.

Definition le_put (n : nat) (z : Z) : bytes := rev (Net.be_put n z).

Definition md5_Sum (m : bytes) : bytes :=
  let p := md_pad (le_put 8) m in
  fold_left md5_block (chunks (length p) 64 p) [1732584193; 4023233417; 2562383102; 271733878] ≫= le_put 4.

(** A key of more than a block is hashed first. *)
Definition hmac_sha1 (key msg : bytes) : bytes :=
  let k := if (64 <? length key)%nat then sha1_Sum key else key in
  let k := k ++ replicate (64 - length k) 0 in
  sha1_Sum (map (Z.lxor 92) k ++ sha1_Sum (map (Z.lxor 54) k ++ msg)).

Example sha1_vector :
  hex_EncodeToString (sha1_Sum (bytes_of_string "abc")) = "a9993e364706816aba3e25717850c26c9cd0d89d".
Proof. by vm_compute. Qed.
Example md5_vector :
  hex_EncodeToString (md5_Sum (bytes_of_string "message digest")) = "f96b697d7cb7938d525a2f31aaf161d0".
Proof. by vm_compute. Qed.
Example hmac_vector :
  hex_EncodeToString (hmac_sha1 (bytes_of_string "Jefe") (bytes_of_string "what do ya want for nothing?"))
  = "effcdf6ae5eb2fa2d27416d5f184df9c259a7c79".
Proof. by vm_compute. Qed.

(** The digests have their length, so that slices of them are in range. *)
Lemma length_be_words_bytes n (h : list Z) : length (h ≫= Net.be_put n) = (n * length h)%nat.
Proof.
  induction h as [|x h IH]; [by rewrite Nat.mul_0_r|]. rewrite bind_cons length_app Net.length_be_put IH /=. lia.
Qed.

Lemma sha1_rounds_length i ws a b c d e : length (sha1_rounds i ws a b c d e) = 5%nat.
Proof. revert i a b c d e. induction ws; intros; simpl; [done|]. by destruct (sha1_fk _ _ _ _). Qed.

Lemma sha1_block_length h blk : length h = 5%nat -> length (sha1_block h blk) = 5%nat.
Proof.
  intros Hh. destruct h as [|a [|b [|c [|d [|e [|? ?]]]]]]; try discriminate Hh.
  unfold sha1_block. by rewrite length_zip_with sha1_rounds_length.
Qed.

Lemma sha1_Sum_length m : length (sha1_Sum m) = 20%nat.
Proof.
  unfold sha1_Sum. rewrite length_be_words_bytes.
  assert (forall l h, length h = 5%nat -> length (fold_left sha1_block l h) = 5%nat) as H.
  { intros l. induction l as [|blk l IH]; intros h Hh; simpl; [done|]. by apply IH, sha1_block_length. }
  by rewrite H.
Qed.

Lemma md5_rounds_length n i ws a b c d : length (md5_rounds n i ws a b c d) = 4%nat.
Proof. revert i a b c d. induction n; intros; simpl; [done|]. by destruct (md5_fg _ _ _ _). Qed.

Lemma md5_block_length h blk : length h = 4%nat -> length (md5_block h blk) = 4%nat.
Proof.
  intros Hh. destruct h as [|a [|b [|c [|d [|? ?]]]]]; try discriminate Hh.
  unfold md5_block. by rewrite length_zip_with md5_rounds_length.
Qed.

Lemma md5_Sum_length m : length (md5_Sum m) = 16%nat.
Proof.
  unfold md5_Sum.
  assert (forall l h, length h = 4%nat -> length (fold_left md5_block l h) = 4%nat) as H.
  { intros l. induction l as [|blk l IH]; intros h Hh; simpl; [done|]. by apply IH, md5_block_length. }
  specialize (H (chunks (length (md_pad (le_put 8) m)) 64 (md_pad (le_put 8) m))
                [1732584193; 4023233417; 2562383102; 271733878] eq_refl). revert H.
  generalize (fold_left md5_block). intros f Hf. cbv zeta.
  destruct (f _ _) as [|x1 [|x2 [|x3 [|x4 [|? ?]]]]]; try done.
Qed.

Lemma hmac_sha1_length k m : length (hmac_sha1 k m) = 20%nat.
Proof. apply sha1_Sum_length. Qed.
