(* ===== verification/Crypt.v ===== *)
(** src/crypt/crypt.go: the key exchange, the text encodings, the hashes and the
    DES envelope the login and message servers use. Both ends of an exchange
    derive the same secret; decryption of an envelope gives the data back
    exactly when its length is no multiple of eight or its last byte does not
    look like padding. *)

From S2P Require Import Prelude CoreTypes NetMessage GoText GoCrypto.

(** ** Arbitrary-precision integers (math/big)

    [Exp] squares and multiplies, as the exponents have up to 31 bits. *)

Fixpoint exp_mod (m x acc : Z) (p : positive) : Z :=
  match p with
  | xH => acc * x mod m
  | xO p' => exp_mod m (x * x mod m) acc p'
  | xI p' => exp_mod m (x * x mod m) (acc * x mod m) p'
  end.
Definition big_Exp (x y m : Z) : Z :=
  match y with Zpos p => exp_mod m x 1 p | _ => 1 mod m end.

(** [Bytes]: big endian, without leading zeros. *)
Definition byte_len (z : Z) : nat := if z =? 0 then O else Z.to_nat (Z.log2 z / 8 + 1).
Definition big_Bytes (z : Z) : bytes := Net.be_put (byte_len z) z.
Definition big_SetBytes (b : bytes) : Z := Net.be_get b.

(** ** The package *)

Definition dhP : Z := 4294967291.
Definition dhG : Z := 2.

(** [rand.Read] fills the slice from the system's random source. *)
Definition RandomKey (rnd : nat -> Z) : bytes := map (fun i => u8 (rnd i)) (seq 0 8).

(** The private number of a key: the low 31 bits, and at least 2. *)
Definition private_number (key : bytes) : Z :=
  let private := Z.land (big_SetBytes key) 2147483647 in
  if private <=? 1 then 2 else private.

(** The copy into the end of eight zero bytes. *)
Definition pad_to_8 (b : bytes) : bytes :=
  if decide (length b <= 8)%nat then replicate (8 - length b) 0 ++ b else drop (length b - 8) b.

Definition DHExchange (key : bytes) : go bytes :=
  if negb (length key =? 8)%nat then Panic "DH key must be 8 bytes"
  else Ret (pad_to_8 (big_Bytes (big_Exp dhG (private_number key) dhP))).

Definition DHSecret (privateKey publicKey : bytes) : go bytes :=
  if negb (length privateKey =? 8)%nat || negb (length publicKey =? 8)%nat
  then Panic "DH keys must be 8 bytes"
  else Ret (pad_to_8 (big_Bytes (big_Exp (big_SetBytes publicKey) (private_number privateKey) dhP))).

Definition Base64Encode (data : bytes) : string := b64_EncodeToString data.
Definition Base64Decode (s : string) : option bytes := b64_DecodeString s.
Definition HexEncode (data : bytes) : string := hex_EncodeToString data.
Definition HexDecode (s : string) : option bytes := hex_DecodeString s.

Definition HMAC64 (challenge secret : bytes) : bytes := take 8 (hmac_sha1 secret challenge).
Definition HMACHash (secret : bytes) (text : string) : bytes := HMAC64 (bytes_of_string text) secret.
Definition HashKey (text : string) : bytes := take 8 (md5_Sum (bytes_of_string text)).

(** The loop over the blocks of eight bytes. *)
Definition blockwise (f : bytes -> bytes) (b : bytes) : bytes := concat (map f (chunks (length b) 8 b)).

Definition pad_len (n : nat) : nat := let p := (8 - n mod 8)%nat in if (p =? 8)%nat then O else p.
Definition pad_data (data : bytes) : bytes :=
  let padLen := pad_len (length data) in data ++ replicate padLen (Z.of_nat padLen).

Definition DESEncode (key data : bytes) : go bytes :=
  if negb (length key =? 8)%nat then Panic "DES key must be 8 bytes"
  else Ret (blockwise (des_Encrypt key) (pad_data data)).

Definition unpad (decrypted : bytes) : bytes :=
  match last decrypted with
  | None => decrypted
  | Some z => if (0 <? z) && (z <=? 8) && (z <=? Z.of_nat (length decrypted))
              then take (length decrypted - Z.to_nat z) decrypted else decrypted
  end.

Definition DESDecode (key data : bytes) : go bytes :=
  if negb (length key =? 8)%nat then Panic "DES key must be 8 bytes"
  else if negb (length data mod 8 =? 0)%nat then Panic "DES data must be multiple of 8 bytes"
  else Ret (unpad (blockwise (des_Decrypt key) data)).

Definition DesEncode (secret data : bytes) : go bytes := DESEncode secret data.
Definition DesDecode (secret data : bytes) : go bytes := DESDecode secret data.

(** ** Exponentiation *)

Lemma mul_pow_mod m x acc n :
  0 < m -> 0 <= n -> acc * (x mod m) ^ n mod m = acc * x ^ n mod m.
Proof.
  intros Hm Hn. revert acc. pattern n. apply natlike_ind; [done| |done].
  intros k Hk IH acc. rewrite !Z.pow_succ_r //.
  replace (acc * (x mod m * (x mod m) ^ k)) with ((acc * (x mod m)) * (x mod m) ^ k) by ring.
  rewrite IH. replace (acc * (x mod m) * x ^ k) with ((acc * x ^ k) * (x mod m)) by ring.
  rewrite Z.mul_mod_idemp_r; [lia|]. f_equal. ring.
Qed.

(** The loop keeps [acc * x ^ p] modulo [m]. *)
Lemma exp_mod_spec m p x acc : 0 < m -> exp_mod m x acc p = acc * x ^ Zpos p mod m.
Proof.
  intros Hm. revert x acc. induction p as [p IH|p IH|]; intros x acc; cbn [exp_mod].
  - rewrite IH mul_pow_mod //. rewrite Z.mul_mod_idemp_l; [lia|]. f_equal.
    rewrite (Pos2Z.inj_xI p) Z.pow_add_r // Z.pow_mul_r // Z.pow_2_r. ring.
  - rewrite IH mul_pow_mod // (Pos2Z.inj_xO p) Z.pow_mul_r // Z.pow_2_r //.
  - by rewrite Z.pow_1_r.
Qed.

Lemma big_Exp_spec x y m : 0 < m -> 0 <= y -> big_Exp x y m = x ^ y mod m.
Proof.
  intros Hm Hy. destruct y as [|p|p]; [done| |lia]. cbn [big_Exp]. by rewrite exp_mod_spec // Z.mul_1_l.
Qed.

(** ** Eight bytes *)

Lemma byte_len_bound z : 0 <= z < 2 ^ 64 -> (byte_len z <= 8)%nat /\ z < 256 ^ Z.of_nat (byte_len z).
Proof.
  intros Hz. unfold byte_len. destruct (Z.eqb_spec z 0) as [->|Hz0]; [split; [lia|done]|].
  pose proof (Z.log2_spec z ltac:(lia)) as [Hl Hu]. pose proof (Z.log2_nonneg z).
  assert (Z.log2 z < 64) by (apply Z.log2_lt_pow2; lia).
  split.
  - assert (Z.log2 z / 8 < 8) by (apply Z.div_lt_upper_bound; lia). lia.
  - rewrite Z2Nat.id; [pose proof (Z.div_pos (Z.log2 z) 8); lia|].
    change 256 with (2 ^ 8). rewrite -Z.pow_mul_r; [lia|pose proof (Z.div_pos (Z.log2 z) 8); lia|].
    eapply Z.lt_le_trans; [exact Hu|]. apply Z.pow_le_mono_r; [lia|].
    pose proof (Z.div_mod (Z.log2 z) 8 ltac:(lia)). pose proof (Z.mod_pos_bound (Z.log2 z) 8 ltac:(lia)). lia.
Qed.

Lemma be_put_small k n z :
  0 <= z < 256 ^ Z.of_nat n -> Net.be_put (k + n) z = replicate k 0 ++ Net.be_put n z.
Proof.
  intros Hz. induction k as [|k IH]; [done|]. simpl. f_equal; [|done].
  rewrite Z.shiftr_div_pow2; [lia|]. rewrite Z.div_small //. split; [lia|].
  eapply Z.lt_le_trans; [apply Hz|]. change 256 with (2 ^ 8). rewrite -Z.pow_mul_r; [lia|lia|].
  apply Z.pow_le_mono_r; lia.
Qed.

(** Padding the short form gives the eight-byte form. *)
Lemma pad_to_8_Bytes z : 0 <= z < 2 ^ 64 -> pad_to_8 (big_Bytes z) = Net.be_put 8 z.
Proof.
  intros Hz. destruct (byte_len_bound z Hz) as [Hle Hlt]. unfold pad_to_8, big_Bytes.
  rewrite Net.length_be_put decide_True //.
  rewrite -(be_put_small _ _ _ (conj (proj1 Hz) Hlt)). f_equal. lia.
Qed.

Lemma private_number_pos key : Forall Net.is_byte key -> 2 <= private_number key < 2 ^ 31.
Proof.
  intros Hk. unfold private_number, big_SetBytes. pose proof (Net.be_get_nonneg key Hk).
  change 2147483647 with (Z.ones 31). rewrite Z.land_ones; [lia|].
  pose proof (Z.mod_pos_bound (Net.be_get key) (2 ^ 31)).
  destruct (Z.leb_spec (Net.be_get key mod 2 ^ 31) 1); lia.
Qed.

Lemma exchange_reference x y :
  0 <= y -> pad_to_8 (big_Bytes (big_Exp x y dhP)) = Net.be_put 8 (x ^ y mod dhP).
Proof.
  intros Hy. rewrite big_Exp_spec //. apply pad_to_8_Bytes.
  pose proof (Z.mod_pos_bound (x ^ y) dhP). unfold dhP in *. lia.
Qed.

Lemma DHExchange_reference key :
  length key = 8%nat -> Forall Net.is_byte key ->
  DHExchange key = Ret (Net.be_put 8 (dhG ^ private_number key mod dhP)).
Proof.
  intros Hl Hk. unfold DHExchange. rewrite Hl /= exchange_reference //. pose proof (private_number_pos key Hk). lia.
Qed.

Lemma DHSecret_reference key public :
  length key = 8%nat -> length public = 8%nat -> Forall Net.is_byte key ->
  DHSecret key public = Ret (Net.be_put 8 (Net.be_get public ^ private_number key mod dhP)).
Proof.
  intros Hl Hp Hk. unfold DHSecret. rewrite Hl Hp /= exchange_reference //. pose proof (private_number_pos key Hk). lia.
Qed.

(** The published keys and the common secret, as numbers. *)
Lemma dh_keys a b :
  length a = 8%nat -> length b = 8%nat -> Forall Net.is_byte a -> Forall Net.is_byte b ->
  let pub k := Net.be_put 8 (dhG ^ private_number k mod dhP) in
  let secret := Net.be_put 8 (dhG ^ (private_number a * private_number b) mod dhP) in
  DHExchange a = Ret (pub a) /\ DHExchange b = Ret (pub b)
  /\ DHSecret a (pub b) = Ret secret /\ DHSecret b (pub a) = Ret secret.
Proof.
  intros Ha Hb Ba Bb pub secret.
  pose proof (private_number_pos a Ba) as Pa. pose proof (private_number_pos b Bb) as Pb.
  assert (forall n, is_u64 (n mod dhP)) as Hu.
  { intros n. pose proof (Z.mod_pos_bound n dhP). unfold is_u64, dhP in *. lia. }
  assert (forall x n, 0 <= n -> (x mod dhP) ^ n mod dhP = x ^ n mod dhP) as Hpow.
  { intros x n Hn. pose proof (mul_pow_mod dhP x 1 n) as H. rewrite !Z.mul_1_l in H. by apply H. }
  unfold pub, secret.
  rewrite !DHExchange_reference // !DHSecret_reference ?Net.length_be_put // !Net.be_get_put64 // !Hpow; try lia.
  rewrite -!Z.pow_mul_r; try lia. by rewrite (Z.mul_comm (private_number b)).
Qed.

Lemma be_put_bytes n z : Forall Net.is_byte (Net.be_put n z).
Proof. induction n as [|n IH]; constructor; [|done]. apply Z.mod_pos_bound. lia. Qed.

Lemma dh_agreement_facts a b :
  length a = 8%nat -> length b = 8%nat -> Forall Net.is_byte a -> Forall Net.is_byte b ->
  exists pubA pubB secret, DHExchange a = Ret pubA /\ DHExchange b = Ret pubB
    /\ DHSecret a pubB = Ret secret /\ DHSecret b pubA = Ret secret /\ length secret = 8%nat
    /\ length pubA = 8%nat /\ length pubB = 8%nat /\ Forall Net.is_byte pubA /\ Forall Net.is_byte pubB.
Proof.
  intros Ha Hb Ba Bb. destruct (dh_keys a b Ha Hb Ba Bb) as (E1 & E2 & E3 & E4).
  eexists _, _, _. split_and!; [exact E1|exact E2|exact E3|exact E4|..];
    first [apply Net.length_be_put|apply be_put_bytes].
Qed.

(** The two ends of a key exchange agree: for any two private keys of eight
    bytes, each side publishes a key and derives from the other's the same
    secret, the big-endian form of g to the product of the two private numbers
    modulo p, eight bytes of which the first four are zero. *)
Theorem dh_agreement a b :
  length a = 8%nat -> length b = 8%nat -> Forall Net.is_byte a -> Forall Net.is_byte b ->
  exists pubA pubB secret,
    DHExchange a = Ret pubA /\ DHExchange b = Ret pubB
    /\ DHSecret a pubB = Ret secret /\ DHSecret b pubA = Ret secret
    /\ secret = Net.be_put 8 (dhG ^ (private_number a * private_number b) mod dhP)
    /\ length secret = 8%nat /\ take 4 secret = [0; 0; 0; 0].
Proof.
  intros Ha Hb Ba Bb. destruct (dh_keys a b Ha Hb Ba Bb) as (E1 & E2 & E3 & E4).
  eexists _, _, _. split_and!; [exact E1|exact E2|exact E3|exact E4|done|apply Net.length_be_put|].
  rewrite (be_put_small 4 4); [|by rewrite take_app_length'].
  pose proof (Z.mod_pos_bound (dhG ^ (private_number a * private_number b)) dhP). unfold dhP in *.
  change (256 ^ Z.of_nat 4) with 4294967296. lia.
Qed.

Lemma dh_agreement_witness :
  exists pubA pubB secret,
    DHExchange [1;2;3;4;5;6;7;8] = Ret pubA /\ DHExchange [9;9;9;9;9;9;9;9] = Ret pubB
    /\ DHSecret [1;2;3;4;5;6;7;8] pubB = Ret secret /\ DHSecret [9;9;9;9;9;9;9;9] pubA = Ret secret
    /\ take 4 secret = [0; 0; 0; 0].
Proof.
  destruct (dh_agreement [1;2;3;4;5;6;7;8] [9;9;9;9;9;9;9;9])
    as (pA & pB & s & H1 & H2 & H3 & H4 & _ & _ & H5);
    [reflexivity|reflexivity|by repeat constructor|by repeat constructor|].
  exists pA, pB, s. exact (conj H1 (conj H2 (conj H3 (conj H4 H5)))).
Defined.

(** ** The DES envelope *)

Lemma chunks_concat n bs :
  (0 < n)%nat -> Forall (fun b => length b = n) bs -> chunks (length (concat bs)) n (concat bs) = bs.
Proof.
  intros Hn Hbs.
  assert (forall fuel, (length (concat bs) <= fuel)%nat -> chunks fuel n (concat bs) = bs) as H;
    [|by apply H].
  induction Hbs as [|b bs Hb Hbs IH]; intros fuel Hf; [by destruct fuel|].
  cbn [concat] in *. destruct b as [|z b]; [simpl in Hb; lia|].
  destruct fuel as [|fuel]; [simpl in Hf; lia|].
  cbn [app chunks]. change (z :: b ++ concat bs) with ((z :: b) ++ concat bs).
  rewrite take_app_length' // drop_app_length' // IH //. rewrite length_app in Hf. simpl in Hf. lia.
Qed.

(** A text of whole blocks. *)
Lemma blocks_of b :
  (length b mod 8 = 0)%nat -> Forall Net.is_byte b ->
  exists bs, b = concat bs /\ Forall (fun b => length b = 8%nat /\ Forall Net.is_byte b) bs.
Proof.
  intros Hmod Hb. apply Nat.Div0.div_exact in Hmod. remember (length b / 8)%nat as k eqn:Hk. clear Hk.
  revert b Hmod Hb. induction k as [|k IH]; intros b Hlen Hb; [exists []; by destruct b|].
  destruct (IH (drop 8 b)) as (bs & E & Hbs); [rewrite length_drop; lia|by apply Forall_drop|].
  exists (take 8 b :: bs). simpl. rewrite -E take_drop. split; [done|]. constructor; [|done].
  split; [rewrite length_take; lia|by apply Forall_take].
Qed.

Lemma blockwise_concat f bs :
  Forall (fun b => length b = 8%nat) bs -> blockwise f (concat bs) = concat (map f bs).
Proof. intros Hbs. unfold blockwise. rewrite chunks_concat //. lia. Qed.

Lemma concat_length8 bs : Forall (fun b : bytes => length b = 8%nat) bs -> length (concat bs) = (8 * length bs)%nat.
Proof. induction 1 as [|b bs Hb _ IH]; [done|]. simpl. rewrite length_app Hb IH. lia. Qed.

(** Block by block, decryption undoes encryption. *)
Lemma blockwise_des key b :
  (length b mod 8 = 0)%nat -> Forall Net.is_byte b ->
  blockwise (des_Decrypt key) (blockwise (des_Encrypt key) b) = b
  /\ length (blockwise (des_Encrypt key) b) = length b.
Proof.
  intros Hmod Hb. destruct (blocks_of b Hmod Hb) as (bs & -> & Hbs).
  assert (Forall (fun b => length b = 8%nat) bs) as H8 by (eapply Forall_impl; [exact Hbs|naive_solver]).
  assert (Forall (fun b => length b = 8%nat) (map (des_Encrypt key) bs)) as H8'.
  { apply Forall_map, Forall_true. intros. apply des_block_block. }
  rewrite (blockwise_concat _ bs) // blockwise_concat // !concat_length8 // length_map. split; [|done].
  f_equal. rewrite map_map -{2}(map_id bs). apply map_ext_in. intros b Hin%list_elem_of_In.
  rewrite Forall_forall in Hbs. destruct (Hbs b Hin). by apply des_decrypt_encrypt.
Qed.

Lemma pad_len_spec n :
  (pad_len n <= 7 /\ (n + pad_len n) mod 8 = 0 /\ (pad_len n = 0 <-> n mod 8 = 0))%nat.
Proof.
  unfold pad_len. pose proof (Nat.mod_upper_bound n 8 ltac:(lia)) as Hb.
  pose proof (Nat.div_mod n 8 ltac:(lia)) as Hn.
  destruct (Nat.eqb_spec (8 - n mod 8) 8) as [E|E].
  - rewrite Nat.add_0_r. lia.
  - split; [lia|]. split; [|lia].
    replace (n + (8 - n mod 8))%nat with ((n / 8 + 1) * 8)%nat by lia. apply Nat.Div0.mod_mul.
Qed.

(** Whether the last byte of a text is a padding length. *)
Definition looks_padded (data : bytes) : bool :=
  match last data with Some z => (0 <? z) && (z <=? 8) | None => false end.

Lemma pad_data_blocks data :
  Forall Net.is_byte data -> (length (pad_data data) mod 8 = 0)%nat /\ Forall Net.is_byte (pad_data data).
Proof.
  intros Hd. destruct (pad_len_spec (length data)) as (H7 & Hm & _). unfold pad_data.
  split; [by rewrite length_app length_replicate|].
  apply Forall_app; split; [done|]. apply Forall_replicate. unfold Net.is_byte. lia.
Qed.

Lemma unpad_pad data :
  unpad (pad_data data) =
    if decide (length data mod 8 = 0)%nat then unpad data else data.
Proof.
  destruct (pad_len_spec (length data)) as (H7 & Hm & Hz). unfold pad_data. case_decide as E.
  - rewrite (proj2 Hz E) /=. by rewrite app_nil_r.
  - destruct (pad_len (length data)) as [|p] eqn:Hp; [by destruct E; apply Hz|].
    unfold unpad. rewrite replicate_S_end assoc_L last_snoc.
    rewrite !length_app length_replicate. cbn [length].
    destruct (Z.ltb_spec 0 (Z.of_nat (S p))), (Z.leb_spec (Z.of_nat (S p)) 8),
      (Z.leb_spec (Z.of_nat (S p)) (Z.of_nat (length data + p + 1))); try lia. cbn [andb].
    rewrite -app_assoc take_app_length'; [lia|done].
Qed.

Lemma unpad_id data :
  (length data mod 8 = 0)%nat -> unpad data = data <-> looks_padded data = false.
Proof.
  intros Hm. unfold unpad, looks_padded. destruct (last data) as [z|] eqn:Hl; [|done].
  assert (8 <= length data)%nat as H8.
  { pose proof (Nat.div_mod (length data) 8 ltac:(lia)). destruct (length data / 8)%nat; [|lia].
    assert (length data = 0%nat) as E by lia. destruct data; [done|by simpl in E]. }
  destruct (Z.ltb_spec 0 z), (Z.leb_spec z 8); cbn [andb]; [|done..].
  destruct (Z.leb_spec z (Z.of_nat (length data))); [|lia]. split; [|done].
  intros E. apply (f_equal length) in E. rewrite length_take in E. lia.
Qed.

Lemma des_envelope_facts key data :
  length key = 8%nat -> Forall Net.is_byte data ->
  exists sealed, DESEncode key data = Ret sealed /\ length sealed = (length data + pad_len (length data))%nat
    /\ (DESDecode key sealed = Ret data <-> (length data mod 8 <> 0)%nat \/ looks_padded data = false).
Proof.
  intros Hk Hd. destruct (pad_data_blocks data Hd) as [Hm Hb].
  destruct (blockwise_des key _ Hm Hb) as [E El].
  exists (blockwise (des_Encrypt key) (pad_data data)).
  unfold DESEncode, DESDecode. rewrite Hk El Hm E /=. split_and!; [done| |].
  - by rewrite /pad_data length_app length_replicate.
  - rewrite unpad_pad. case_decide as Ha; [|split; [by left|done]].
    pose proof (unpad_id data Ha) as Hu. split; [intros [= E']; right; by apply Hu|].
    intros [?|?%Hu]; [done|by f_equal].
Qed.

(** Whole blocks are decrypted without a panic. *)
Lemma DESDecode_returns key sealed :
  length key = 8%nat -> (length sealed mod 8 = 0)%nat -> returns (DESDecode key sealed).
Proof. intros Hk Hm. unfold DESDecode. rewrite Hk Hm /=. by eexists. Qed.

(** The DES envelope: with a key of eight bytes, any data is encrypted to whole
    blocks and the blocks are decrypted without a panic; the data comes back
    exactly when its length is no multiple of eight or its last byte is not
    between 1 and 8. (Whole blocks are sent unpadded, and the receiver takes
    such a byte for padding.) *)
Theorem des_envelope key data :
  length key = 8%nat -> Forall Net.is_byte data ->
  exists sealed opened,
    DESEncode key data = Ret sealed /\ length sealed = (length data + pad_len (length data))%nat
    /\ DESDecode key sealed = Ret opened
    /\ (opened = data <-> (length data mod 8 <> 0)%nat \/ looks_padded data = false).
Proof.
  intros Hk Hd. destruct (des_envelope_facts key data Hk Hd) as (sealed & E1 & E2 & E3).
  assert (length sealed mod 8 = 0)%nat as Hm 
    by (rewrite E2; by destruct (pad_len_spec (length data)) as (_ & ? & _)).
  destruct (DESDecode_returns key sealed Hk Hm) as [opened Eo].
  exists sealed, opened. split_and!; [done|done|done|]. rewrite -E3 Eo. split; [by intros ->|by intros [= ->]].
Qed.

Lemma des_envelope_witness :
  exists sealed opened,
    DESEncode [1;2;3;4;5;6;7;8] [104;105] = Ret sealed /\ length sealed = 8%nat
    /\ DESDecode [1;2;3;4;5;6;7;8] sealed = Ret opened /\ opened = [104;105].
Proof.
  destruct (des_envelope [1;2;3;4;5;6;7;8] [104;105]) as (s & o & H1 & H2 & H3 & H4);
    [reflexivity|by repeat constructor|].
  exists s, o. split; [exact H1|]. split; [exact H2|]. split; [exact H3|]. apply H4. left. by vm_compute.
Defined.

(** A token of eight bytes whose last is 1 to 8 loses its end. *)
Example des_envelope_loses :
  exists sealed, DESEncode [1;2;3;4;5;6;7;8] [9;9;9;9;9;9;9;3] = Ret sealed
    /\ DESDecode [1;2;3;4;5;6;7;8] sealed = Ret [9;9;9;9;9].
Proof. eexists. split; by vm_compute. Qed.

(** The text encodings and hashes. *)
Lemma Base64_roundtrip data : Forall Net.is_byte data -> Base64Decode (Base64Encode data) = Some data.
Proof. apply b64_roundtrip. Qed.

Lemma Hex_roundtrip data : Forall Net.is_byte data -> HexDecode (HexEncode data) = Some data.
Proof. apply hex_roundtrip. Qed.

Lemma HMAC64_length c s : length (HMAC64 c s) = 8%nat.
Proof. unfold HMAC64. rewrite length_take hmac_sha1_length. lia. Qed.

Lemma HashKey_length s : length (HashKey s) = 8%nat.
Proof. unfold HashKey. rewrite length_take md5_Sum_length. lia. Qed.

Lemma RandomKey_key rnd : length (RandomKey rnd) = 8%nat /\ Forall Net.is_byte (RandomKey rnd).
Proof.
  split; [done|]. unfold RandomKey. apply Forall_map, Forall_true. intros i.
  unfold Net.is_byte, u8. apply Z.mod_pos_bound. lia.
Qed.
