(* ===== verification/Protocol.v ===== *)
(** src/protocol/protocol.go: message schemas and the lookup of a message type,
    the binary frame with its 16-bit length, and the package header in front of
    a body. JSON of arbitrary messages is a parameter; the JSON text of a
    [Package] is written out, since [findJSONEnd] scans it. *)

From S2P Require Import Prelude CoreTypes NetMessage GoText.
From Stdlib Require Import Ascii.

(** ** Schemas *)

Record FieldSchema := mkFieldSchema { fs_Tag : Z; fs_Type : string }.

(** A nil map of fields is the empty one: it is never written to. *)
Record MessageSchema := mkMessageSchema {
  ms_Name : string;
  ms_Type : Z;
  ms_Request : gmap string FieldSchema;
  ms_Response : gmap string FieldSchema;
}.

Record SimpleProtocol := mkSimpleProtocol {
  sp_c2sSchema : gmap string MessageSchema;
  sp_s2cSchema : gmap string MessageSchema;
}.

Record Package := mkPackage { pkg_Type : Z; pkg_Session : Z }.

Definition NewSimpleProtocol : SimpleProtocol := mkSimpleProtocol ∅ ∅.

Definition RegisterC2S (name : string) (msgType : Z) (request response : gmap string FieldSchema)
    (sp : SimpleProtocol) : SimpleProtocol :=
  mkSimpleProtocol (<[name := mkMessageSchema name msgType request response]> (sp_c2sSchema sp)) (sp_s2cSchema sp).
Definition RegisterS2C (name : string) (msgType : Z) (request response : gmap string FieldSchema)
    (sp : SimpleProtocol) : SimpleProtocol :=
  mkSimpleProtocol (sp_c2sSchema sp) (<[name := mkMessageSchema name msgType request response]> (sp_s2cSchema sp)).

(** The loop over one map of schemas, in the order [ks] of the runtime. *)
Fixpoint find_type (m : gmap string MessageSchema) (ks : list string) (t : Z) : option string :=
  match ks with
  | [] => None
  | k :: ks' => match m !! k with
                | Some schema => if ms_Type schema =? t then Some k else find_type m ks' t
                | None => find_type m ks' t
                end
  end.

Section json.
(** [json.Marshal] and [json.Unmarshal] of messages, and of a package. *)
Context {M : Type}.
Variable json_Marshal : M -> res bytes.
Variable json_Unmarshal : bytes -> res M.
Variable json_Unmarshal_Package : bytes -> res Package.

Definition sp_Encode (msg : M) : res bytes := json_Marshal msg.
Definition sp_Decode (data : bytes) : res M := json_Unmarshal data.

Definition GetMessageType (sp : SimpleProtocol) (c2s s2c : list string) (data : bytes) : res string :=
  match json_Unmarshal_Package data with
  | Err e => Err ("failed to decode package: " +:+ e)
  | Ok pkg =>
      match find_type (sp_c2sSchema sp) c2s (pkg_Type pkg) with
      | Some name => Ok name
      | None => match find_type (sp_s2cSchema sp) s2c (pkg_Type pkg) with
                | Some name => Ok name
                | None => Err ("unknown message type: " +:+ pretty (pkg_Type pkg))
                end
      end
  end.

Definition sp_GetSession (data : bytes) : res Z :=
  match json_Unmarshal_Package data with
  | Err e => Err ("failed to decode package: " +:+ e)
  | Ok pkg => Ok (pkg_Session pkg)
  end.
End json.

Definition str_field (tag : Z) : FieldSchema := mkFieldSchema tag "string".

Definition DefaultProtocol : SimpleProtocol :=
  RegisterS2C "heartbeat" 1 ∅ ∅
  (RegisterC2S "quit" 4 ∅ ∅
  (RegisterC2S "set" 3 {["what" := str_field 0; "value" := str_field 1]} ∅
  (RegisterC2S "get" 2 {["what" := str_field 0]} {["result" := str_field 0]}
  (RegisterC2S "handshake" 1 ∅ {["msg" := str_field 0]} NewSimpleProtocol)))).

(** ** Structs as maps

    What [structToMap] sees of a value by reflection. Only one pointer is
    followed, so a pointer to anything but a struct is [OOther]. *)

Record StructField (V : Type) := mkStructField {
  sf_Name : string;
  sf_json : string;            (** [Tag.Get("json")] *)
  sf_CanInterface : bool;
  sf_value : V;
}.
Arguments mkStructField {V}. Arguments sf_Name {V}. Arguments sf_json {V}.
Arguments sf_CanInterface {V}. Arguments sf_value {V}.

Inductive reflected (V : Type) :=
| OStruct (fields : list (StructField V))
| OPtr (elem : option (list (StructField V)))    (** a pointer to a struct, or nil *)
| OOther.
Arguments OStruct {V}. Arguments OPtr {V}. Arguments OOther {V}.

(** The part of a tag before its first comma. *)
Definition tag_name (tag : string) : string :=
  match Split "," tag with name :: _ => name | [] => "" end.

Definition field_key {V} (f : StructField V) : string :=
  if nonempty (sf_json f) then tag_name (sf_json f) else sf_Name f.

Definition fields_to_map {V} (fs : list (StructField V)) : gmap string V :=
  fold_left (fun m f => if sf_CanInterface f then <[field_key f := sf_value f]> m else m) fs ∅.

Definition structToMap {V} (obj : reflected V) : res (gmap string V) :=
  match obj with
  | OStruct fs => Ok (fields_to_map fs)
  | OPtr (Some fs) => Ok (fields_to_map fs)
  | OPtr None => Err "object is not a struct"
  | OOther => Err "object is not a struct"
  end.

(** ** The binary protocol *)

Section binary.
Context {V M : Type}.
Variable json_Marshal_map : gmap string V -> res bytes.
Variable json_Unmarshal : bytes -> res M.

(** [NewBinaryProtocol] embeds the default protocol. *)
Definition NewBinaryProtocol : SimpleProtocol := DefaultProtocol.

(** The header is the length as a [uint16], which is all that fits. *)
Definition bp_frame (jsonData : bytes) : bytes :=
  let length := u16 (Z.of_nat (length jsonData)) in
  Z.shiftr length 8 :: Z.land length 255 :: jsonData.

Definition bp_Encode (msg : reflected V) : res bytes :=
  match structToMap msg with
  | Err e => Err ("failed to convert message to map: " +:+ e)
  | Ok msgMap => match json_Marshal_map msgMap with
                 | Err e => Err ("failed to marshal message: " +:+ e)
                 | Ok jsonData => Ok (bp_frame jsonData)
                 end
  end.

(** The bound [2+length] of the slice is computed as a [uint16]. *)
Definition bp_Decode (data : bytes) : go (res M) :=
  match data with
  | d0 :: d1 :: _ =>
      let len := Z.lor (u16 (Z.shiftl d0 8)) d1 in
      if Z.of_nat (length data) <? len + 2 then Ret (Err "incomplete data")
      else
        let hi := u16 (2 + len) in
        if hi <? 2 then Panic "slice bounds out of range"
        else Ret (json_Unmarshal (Net.slice 2 (Z.to_nat hi) data))
  | _ => Ret (Err "data too short")
  end.
End binary.

(** ** The package header *)

(** [json.Marshal] of a [Package]. *)
Definition quoted (s : string) : string := String "034" (s +:+ String "034" "").
Definition marshal_Package (p : Package) : bytes :=
  bytes_of_string ("{" +:+ quoted "type" +:+ ":" +:+ pretty (pkg_Type p) +:+ ","
    +:+ quoted "session" +:+ ":" +:+ pretty (pkg_Session p) +:+ "}").

Definition PackMessage (msgType session : Z) (data : bytes) : bytes :=
  marshal_Package (mkPackage msgType session) ++ data.

(** The state of the scan: open braces, inside a string, after a backslash. *)
Record scan := mkScan { sc_braces : Z; sc_inString : bool; sc_escape : bool }.

(** One byte of the loop: go on, or the brace that closes the first object. *)
Definition scan1 (s : scan) (b : Z) : scan + unit :=
  if sc_escape s then inl (mkScan (sc_braces s) (sc_inString s) false)
  else if b =? 92 then inl (mkScan (sc_braces s) (sc_inString s) true)
  else if b =? 34 then inl (mkScan (sc_braces s) (negb (sc_inString s)) false)
  else if sc_inString s then inl s
  else if b =? 123 then inl (mkScan (sc_braces s + 1) false false)
  else if b =? 125 then
    if sc_braces s - 1 =? 0 then inr tt else inl (mkScan (sc_braces s - 1) false false)
  else inl s.

Fixpoint scan_from (i : Z) (s : scan) (data : bytes) : Z :=
  match data with
  | [] => -1
  | b :: data' => match scan1 s b with inr _ => i + 1 | inl s' => scan_from (i + 1) s' data' end
  end.
Definition findJSONEnd (data : bytes) : Z := scan_from 0 (mkScan 0 false false) data.

Section unpack.
Variable json_Unmarshal_Package : bytes -> res Package.

Definition UnpackMessage (data : bytes) : res (Z * Z * bytes) :=
  let headerEnd := findJSONEnd data in
  if headerEnd =? -1 then Err "invalid message format"
  else match json_Unmarshal_Package (take (Z.to_nat headerEnd) data) with
       | Err e => Err ("failed to decode package header: " +:+ e)
       | Ok pkg => Ok (pkg_Type pkg, pkg_Session pkg, drop (Z.to_nat headerEnd) data)
       end.
End unpack.

(** ** The message types: each embeds [Package], the fields carry json tags *)

Inductive fval := FPackage (p : Package) | FString (s : string).

Record HandshakeRequest := mkHandshakeRequest { hq_Package : Package }.
Record HandshakeResponse := mkHandshakeResponse { hr_Package : Package; hr_Msg : string }.
Record GetRequest := mkGetRequest { gq_Package : Package; gq_What : string }.
Record GetResponse := mkGetResponse { gr_Package : Package; gr_Result : string }.
Record SetRequest := mkSetRequest { sq_Package : Package; sq_What : string; sq_Value : string }.
Record SetResponse := mkSetResponse { sr_Package : Package }.
Record QuitRequest := mkQuitRequest { qq_Package : Package }.
Record HeartbeatMessage := mkHeartbeatMessage { hb_Package : Package }.

(** What reflection finds in them. *)
Definition embedded (p : Package) : StructField fval := mkStructField "Package" "" true (FPackage p).
Definition reflect_HandshakeRequest (r : HandshakeRequest) : reflected fval := OStruct [embedded (hq_Package r)].
Definition reflect_HandshakeResponse (r : HandshakeResponse) : reflected fval :=
  OStruct [embedded (hr_Package r); mkStructField "Msg" "msg" true (FString (hr_Msg r))].
Definition reflect_GetRequest (r : GetRequest) : reflected fval :=
  OStruct [embedded (gq_Package r); mkStructField "What" "what" true (FString (gq_What r))].
Definition reflect_GetResponse (r : GetResponse) : reflected fval :=
  OStruct [embedded (gr_Package r); mkStructField "Result" "result" true (FString (gr_Result r))].
Definition reflect_SetRequest (r : SetRequest) : reflected fval :=
  OStruct [embedded (sq_Package r); mkStructField "What" "what" true (FString (sq_What r));
           mkStructField "Value" "value" true (FString (sq_Value r))].
Definition reflect_SetResponse (r : SetResponse) : reflected fval := OStruct [embedded (sr_Package r)].
Definition reflect_QuitRequest (r : QuitRequest) : reflected fval := OStruct [embedded (qq_Package r)].
Definition reflect_HeartbeatMessage (r : HeartbeatMessage) : reflected fval := OStruct [embedded (hb_Package r)].

(** ** Lookup of a message type *)

Lemma find_type_Some m ks t name :
  find_type m ks t = Some name -> exists s, m !! name = Some s /\ ms_Type s = t /\ name ∈ ks.
Proof.
  induction ks as [|k ks IH]; [done|]. cbn [find_type]. destruct (m !! k) as [s|] eqn:Hk.
  - destruct (Z.eqb_spec (ms_Type s) t); [intros; simplify_eq; set_solver|set_solver].
  - set_solver.
Qed.

Lemma find_type_None m ks t :
  find_type m ks t = None <-> (forall k s, k ∈ ks -> m !! k = Some s -> ms_Type s <> t).
Proof.
  induction ks as [|k ks IH]; [set_solver|]. cbn [find_type]. setoid_rewrite elem_of_cons.
  destruct (m !! k) as [s|] eqn:Hk; [|rewrite IH; naive_solver].
  destruct (Z.eqb_spec (ms_Type s) t) as [E|E]; [naive_solver|]. rewrite IH. naive_solver.
Qed.

(** The types of a map of schemas tell its messages apart. *)
Definition distinct_types (m : gmap string MessageSchema) : Prop :=
  forall a b s s', m !! a = Some s -> m !! b = Some s' -> ms_Type s = ms_Type s' -> a = b.

Lemma find_type_exact m ks t name s :
  range_order m ks -> distinct_types m -> m !! name = Some s -> ms_Type s = t -> find_type m ks t = Some name.
Proof.
  intros Hks Hd Hn Ht. destruct (find_type m ks t) as [n'|] eqn:E.
  - apply find_type_Some in E as (s' & Hs' & Ht' & _). f_equal. apply (Hd _ _ s' s); congruence.
  - exfalso. assert (name ∈ ks) as Hin by (apply (elem_of_range_order m); [done|by exists s]).
    by apply (proj1 (find_type_None m ks t) E name s Hin Hn).
Qed.

Lemma find_type_absent m ks t :
  range_order m ks -> (forall k s, m !! k = Some s -> ms_Type s <> t) -> find_type m ks t = None.
Proof. intros Hks Hn. apply find_type_None. eauto. Qed.

(** The name of a message type: for every order in which the runtime visits
    the schemas, a type registered for client-to-server messages is answered
    with its name, a type only registered for server-to-client messages with
    that one's, when the types of a direction are distinct; a type in neither
    is an error, as is data that holds no package. *)
Theorem message_type_lookup unm sp c2s s2c data :
  range_order (sp_c2sSchema sp) c2s -> range_order (sp_s2cSchema sp) s2c ->
  distinct_types (sp_c2sSchema sp) -> distinct_types (sp_s2cSchema sp) ->
  match unm data with
  | Err e => GetMessageType unm sp c2s s2c data = Err ("failed to decode package: " +:+ e)
  | Ok pkg =>
      (forall name s, sp_c2sSchema sp !! name = Some s -> ms_Type s = pkg_Type pkg ->
         GetMessageType unm sp c2s s2c data = Ok name)
      /\ ((forall k s, sp_c2sSchema sp !! k = Some s -> ms_Type s <> pkg_Type pkg) ->
          (forall name s, sp_s2cSchema sp !! name = Some s -> ms_Type s = pkg_Type pkg ->
             GetMessageType unm sp c2s s2c data = Ok name)
          /\ ((forall k s, sp_s2cSchema sp !! k = Some s -> ms_Type s <> pkg_Type pkg) ->
              GetMessageType unm sp c2s s2c data = Err ("unknown message type: " +:+ pretty (pkg_Type pkg))))
  end.
Proof.
  intros Hc Hs Dc Ds. unfold GetMessageType. destruct (unm data) as [pkg|e]; [|done]. split; [|intros Hnc; split].
  - intros name s Hn Ht. by rewrite (find_type_exact _ _ _ name s).
  - intros name s Hn Ht. rewrite find_type_absent //. by rewrite (find_type_exact _ _ _ name s).
  - intros Hns. by rewrite !find_type_absent.
Qed.

Lemma default_schemas :
  (forall k s, sp_c2sSchema DefaultProtocol !! k = Some s ->
     (k = "handshake" /\ ms_Type s = 1) \/ (k = "get" /\ ms_Type s = 2)
     \/ (k = "set" /\ ms_Type s = 3) \/ (k = "quit" /\ ms_Type s = 4))
  /\ (forall k s, sp_s2cSchema DefaultProtocol !! k = Some s -> k = "heartbeat" /\ ms_Type s = 1).
Proof.
  unfold DefaultProtocol. split; intros k s; cbn [sp_c2sSchema sp_s2cSchema RegisterC2S RegisterS2C NewSimpleProtocol].
  - rewrite !lookup_insert_Some lookup_empty. intros H.
    destruct H as [[<- <-]|[_ [[<- <-]|[_ [[<- <-]|[_ [[<- <-]|[_ H]]]]]]]]; cbn; [tauto..|done].
  - rewrite lookup_insert_Some lookup_empty. intros [[<- <-]|[_ H]]; [done|done].
Qed.

Lemma default_distinct :
  distinct_types (sp_c2sSchema DefaultProtocol) /\ distinct_types (sp_s2cSchema DefaultProtocol).
Proof.
  destruct default_schemas as [H1 H2]. split; intros a b s s' Ha Hb E.
  - apply H1 in Ha, Hb. naive_solver lia.
  - apply H2 in Ha, Hb. naive_solver.
Qed.

Lemma message_type_lookup_witness :
  GetMessageType (fun _ => Ok (mkPackage 3 0)) DefaultProtocol
    (keys (sp_c2sSchema DefaultProtocol)) (keys (sp_s2cSchema DefaultProtocol)) [] = Ok "set".
Proof.
  apply (proj1 (message_type_lookup (fun _ => Ok (mkPackage 3 0)) DefaultProtocol _ _ []
    (range_order_keys _) (range_order_keys _) (proj1 default_distinct) (proj2 default_distinct))
    "set" (mkMessageSchema "set" 3 {["what" := str_field 0; "value" := str_field 1]} ∅)); reflexivity.
Defined.

(** The heartbeat has the number of the handshake, and is taken for it. *)
Lemma default_heartbeat_shadowed unm c2s s2c data session :
  range_order (sp_c2sSchema DefaultProtocol) c2s ->
  unm data = Ok (mkPackage 1 session) ->
  GetMessageType unm DefaultProtocol c2s s2c data = Ok "handshake".
Proof.
  intros Hc Hd. unfold GetMessageType. rewrite Hd.
  rewrite (find_type_exact _ _ _ "handshake" (mkMessageSchema "handshake" 1 ∅ {["msg" := str_field 0]})) //.
  apply default_distinct.
Qed.

(** ** The package header *)

(** A piece of text the scan reads to its end. *)
Fixpoint scan_run (s : scan) (data : bytes) : option scan :=
  match data with
  | [] => Some s
  | b :: data' => match scan1 s b with inr _ => None | inl s' => scan_run s' data' end
  end.

Lemma scan_from_run s s' p rest i :
  scan_run s p = Some s' -> scan_from i s (p ++ rest) = scan_from (i + Z.of_nat (length p)) s' rest.
Proof.
  revert s i. induction p as [|b p IH]; intros s i; cbn [scan_run].
  - intros [= <-]. simpl. f_equal. lia.
  - intros H. cbn [app scan_from length]. destruct (scan1 s b) as [s1|]; [|done]. rewrite (IH _ _ H). f_equal. lia.
Qed.

Lemma scan_run_app s p q : scan_run s (p ++ q) = scan_run s p ≫= fun s' => scan_run s' q.
Proof. revert s. induction p as [|b p IH]; intros s; [done|]. cbn [app scan_run]. by destruct (scan1 s b). Qed.

Lemma scan_run_digits c s : all_digits s = true -> scan_run (mkScan c false false) (bytes_of_string s) = Some (mkScan c false false).
Proof.
  induction s as [|d s IH]; [done|]. cbn [all_digits bytes_of_string scan_run].
  intros [[v Hv]%bool_decide_eq_true Hs]%andb_prop. unfold digit_value in Hv.
  case_match eqn:E; [|done]. apply andb_prop in E as [E1%Z.leb_le E2%Z.leb_le].
  unfold scan1; cbn [sc_escape sc_inString sc_braces].
  repeat match goal with |- context [?x =? ?y] => destruct (Z.eqb_spec x y); [lia|] end. by apply IH.
Qed.

Lemma scan_run_number c (z : Z) : scan_run (mkScan c false false) (bytes_of_string (pretty z)) = Some (mkScan c false false).
Proof.
  destruct z as [|p|p]; [done|apply scan_run_digits, (all_digits_pretty (Npos p))|].
  change (pretty (Z.neg p)) with ("-" +:+ pretty (Npos p)). rewrite bytes_of_string_app scan_run_app.
  apply scan_run_digits, all_digits_pretty.
Qed.

(** The literal text of a header around its two numbers. *)
Lemma marshal_Package_parts p :
  marshal_Package p =
    (bytes_of_string ("{" +:+ quoted "type" +:+ ":") ++ bytes_of_string (pretty (pkg_Type p))
     ++ bytes_of_string ("," +:+ quoted "session" +:+ ":") ++ bytes_of_string (pretty (pkg_Session p))) ++ [125].
Proof.
  unfold marshal_Package. by rewrite !bytes_of_string_app -!app_assoc.
Qed.

(** The scan of a header stops at its last byte, whatever follows. *)
Lemma findJSONEnd_header p data :
  findJSONEnd (marshal_Package p ++ data) = Z.of_nat (length (marshal_Package p)).
Proof.
  unfold findJSONEnd. rewrite marshal_Package_parts.
  set A := bytes_of_string ("{" +:+ quoted "type" +:+ ":"). set B := bytes_of_string ("," +:+ quoted "session" +:+ ":").
  set q := A ++ _ ++ _.
  assert (scan_run (mkScan 0 false false) q = Some (mkScan 1 false false)) as Hrun.
  { unfold q. rewrite scan_run_app.
    assert (scan_run (mkScan 0 false false) A = Some (mkScan 1 false false)) as -> by done.
    cbn [mbind option_bind]. rewrite scan_run_app scan_run_number. cbn [mbind option_bind]. rewrite scan_run_app.
    assert (scan_run (mkScan 1 false false) B = Some (mkScan 1 false false)) as -> by done.
    cbn [mbind option_bind]. apply scan_run_number. }
  rewrite -app_assoc (scan_from_run _ _ _ _ _ Hrun) length_app.
  change (scan_from ?i (mkScan 1 false false) ([125] ++ data)) with (i + 1). cbn [length]. lia.
Qed.

(** C32. Packing a message and unpacking it gives its type, its session and its
    body back, whatever the body holds (braces, quotes and backslashes too),
    where decoding the JSON of a package gives the package that was encoded. *)
Theorem pack_unpack_roundtrip (unm : bytes -> res Package) msgType session data :
  unm (marshal_Package (mkPackage msgType session)) = Ok (mkPackage msgType session) ->
  UnpackMessage unm (PackMessage msgType session data) = Ok (msgType, session, data).
Proof.
  intros Hu. unfold UnpackMessage, PackMessage. rewrite findJSONEnd_header.
  destruct (Z.eqb_spec (Z.of_nat (length (marshal_Package (mkPackage msgType session)))) (-1)); [lia|].
  by rewrite Nat2Z.id take_app_length drop_app_length Hu.
Qed.

(** A decoder of exactly these headers. *)
Definition unmarshal_header (b : bytes) : res Package :=
  match Split ":" (string_of_bytes b) with
  | [_; t; s] =>
      match Split "," t, Split "}" s with
      | t' :: _, s' :: _ => match Atoi t', ParseUint32 s' with
                            | Some t'', Some s'' => Ok (mkPackage t'' s'')
                            | _, _ => Err "bad number"
                            end
      | _, _ => Err "bad header"
      end
  | _ => Err "bad header"
  end.

Lemma pack_unpack_roundtrip_witness :
  UnpackMessage unmarshal_header (PackMessage 7 42 (bytes_of_string "}{\")) = Ok (7, 42, bytes_of_string "}{\").
Proof. apply pack_unpack_roundtrip. by vm_compute. Defined.

(** ** The binary frame *)

Lemma u16_header n : 0 <= n < 2 ^ 16 -> Z.lor (u16 (Z.shiftl (Z.shiftr n 8) 8)) (Z.land n 255) = n.
Proof.
  intros Hn. assert (u16 (Z.shiftl (Z.shiftr n 8) 8) = Z.shiftl (Z.shiftr n 8) 8) as ->.
  { unfold u16. rewrite Z.shiftl_mul_pow2 // Z.shiftr_div_pow2 //. apply Z.mod_small.
    pose proof (Z.mod_pos_bound n (2 ^ 8)). pose proof (Z.div_mod n (2 ^ 8)). pose proof (Z.div_pos n (2 ^ 8)). lia. }
  change 255 with (Z.ones 8). apply Z.bits_inj'. intros i Hi. rewrite Z.lor_spec Z.land_spec Z.testbit_ones_nonneg //.
  rewrite Z.shiftl_spec //. destruct (Z.ltb_spec i 8) as [Hlt|Hge].
  - by rewrite (Z.testbit_neg_r _ (i - 8)) ?andb_true_r; [lia|].
  - rewrite Z.shiftr_spec; [lia|]. rewrite andb_false_r orb_false_r. f_equal. lia.
Qed.

(** C33. The binary frame: for JSON of fewer than 65534 bytes, what the receiver
    decodes is exactly the JSON the sender encoded. With 65534 or 65535 bytes the
    bound of the receiver's slice wraps around and [Decode] panics; longer JSON is
    cut to its length modulo 65536 before it is decoded (or the frame panics). *)
Theorem binary_frame_exact {V M} (marshal : gmap string V -> res bytes) (unm : bytes -> res M) msg m j :
  structToMap msg = Ok m -> marshal m = Ok j ->
  exists frame, bp_Encode marshal msg = Ok frame
    /\ bp_Decode unm frame =
         (if 65534 <=? Z.of_nat (length j) mod 2 ^ 16 then Panic "slice bounds out of range"
          else Ret (unm (take (Z.to_nat (Z.of_nat (length j) mod 2 ^ 16)) j)))
    /\ (Z.of_nat (length j) < 65534 -> bp_Decode unm frame = Ret (unm j)).
Proof.
  intros Hm Hj. exists (bp_frame j). unfold bp_Encode. rewrite Hm Hj. split; [done|].
  set L := Z.of_nat (length j). pose proof (Z.mod_pos_bound L (2 ^ 16)) as HL.
  assert (bp_Decode unm (bp_frame j) =
    (if 65534 <=? L mod 2 ^ 16 then Panic "slice bounds out of range"
     else Ret (unm (take (Z.to_nat (L mod 2 ^ 16)) j)))) as E.
  { unfold bp_Decode, bp_frame. change (u16 (Z.of_nat (length j))) with (L mod 2 ^ 16).
    rewrite u16_header; [lia|]. cbn [length].
    pose proof (Z.mod_le L (2 ^ 16)). destruct (Z.ltb_spec (Z.of_nat (S (S (length j)))) (L mod 2 ^ 16 + 2)); [lia|].
    destruct (Z.leb_spec 65534 (L mod 2 ^ 16)).
    - assert (u16 (2 + L mod 2 ^ 16) = 2 + L mod 2 ^ 16 - 2 ^ 16) as ->.
      { symmetry. apply (Z.mod_unique_pos _ _ 1); lia. }
      by destruct (Z.ltb_spec (2 + L mod 2 ^ 16 - 2 ^ 16) 2); [|lia].
    - unfold u16. rewrite (Z.mod_small (2 + L mod 2 ^ 16)); [lia|].
      destruct (Z.ltb_spec (2 + L mod 2 ^ 16) 2); [lia|]. unfold Net.slice. cbn [drop]. do 3 f_equal. lia. }
  rewrite E. split; [done|]. intros HL2. rewrite (Z.mod_small L); [lia|].
  destruct (Z.leb_spec 65534 L); [lia|]. unfold L. by rewrite Nat2Z.id firstn_all.
Qed.

Lemma binary_frame_exact_witness :
  exists frame, bp_Encode (fun _ : gmap string fval => Ok [123; 125]) (reflect_QuitRequest (mkQuitRequest (mkPackage 4 9))) = Ok frame
    /\ bp_Decode (fun j => Ok j) frame = Ret (Ok [123; 125]).
Proof.
  destruct (binary_frame_exact (fun _ : gmap string fval => Ok [123; 125]) (fun j => Ok j)
    (reflect_QuitRequest (mkQuitRequest (mkPackage 4 9))) _ [123; 125] eq_refl eq_refl) as (f & H1 & _ & H3).
  exists f. split; [exact H1|]. by apply H3.
Defined.

(** The embedded package becomes one entry of its own name: the type and the
    session are not where a receiver that decodes the struct looks for them. *)
Lemma embedded_package_nested p s :
  structToMap (reflect_HandshakeResponse (mkHandshakeResponse p s)) = Ok {["Package" := FPackage p; "msg" := FString s]}
  /\ exists m, structToMap (reflect_HandshakeResponse (mkHandshakeResponse p s)) = Ok m
       /\ m !! "type" = None /\ m !! "session" = None.
Proof.
  assert (structToMap (reflect_HandshakeResponse (mkHandshakeResponse p s))
          = Ok {["Package" := FPackage p; "msg" := FString s]}) as E.
  { unfold structToMap, reflect_HandshakeResponse, fields_to_map. cbn.
    by rewrite insert_insert_ne. }
  split; [done|]. eexists. split; [exact E|]. done.
Qed.
