(* ===== verification/MsgServer.v ===== *)
(** src/msgserver/msgserver.go: the message server. A connection is accepted,
    authenticates with a handshake line, and then exchanges framed messages until
    its socket fails. Sessions are kept by user name and shared with the
    connections; connection and session objects live on heaps. The handler is
    the class [MsgHandler], the Go interface [Handler]; what it and the sockets
    are told is kept in a log, oldest first.

    Every connection has a goroutine; its phases between two calls that can
    block are the operations below, and any interleaving of the goroutines is a
    list of operations. *)

From S2P Require Import Prelude CoreTypes NetMessage GoText Crypt.
From Stdlib Require Import Ascii.

Record MsgServerConfig := mkMsgServerConfig {
  mc_Host : string;
  mc_Port : Z;
  mc_Name : string;
  mc_MaxConn : Z;
  mc_Timeout : Z;
}.

(** [Session], kept by user name. *)
Record UserSession := mkUserSession {
  us_ID : Z;
  us_UserID : string;
  us_SubID : string;
  us_Username : string;
  us_Secret : bytes;
  us_Seq : Z;
  us_ConnTime : time;
  us_LastSeen : time;
}.

Definition set_us_Seq (q : Z) (t : time) (s : UserSession) : UserSession :=
  mkUserSession (us_ID s) (us_UserID s) (us_SubID s) (us_Username s) (us_Secret s) q (us_ConnTime s) t.
Definition set_us_LastSeen (t : time) (s : UserSession) : UserSession :=
  mkUserSession (us_ID s) (us_UserID s) (us_SubID s) (us_Username s) (us_Secret s) (us_Seq s) (us_ConnTime s) t.

(** ** Reading lines *)

Definition readLine (now : time) (so : socket) : res string * socket :=
  match net_Read 1024 now so with
  | (Err e, so') => (Err e, so')
  | (Ok b, so') => (Ok (TrimSpace (string_of_bytes b)), so')
  end.

(** ** Connections and the server *)

(** Where the goroutine of a connection is. *)
Inductive phase := Handshaking | Looping | Ended.
#[export] Instance phase_eq_dec : EqDecision phase.
Proof. solve_decision. Defined.

Record Connection := mkConnection {
  cn_fd : Z;
  cn_conn : socket;
  cn_session : option nat;
  cn_seq : Z;
  cn_phase : phase;
}.

Definition set_cn (so : socket) (p : phase) (c : Connection) : Connection :=
  mkConnection (cn_fd c) so (cn_session c) (cn_seq c) p.
Definition set_cn_session (sid : nat) (seq : Z) (c : Connection) : Connection :=
  mkConnection (cn_fd c) (cn_conn c) (Some sid) seq (cn_phase c).

(** What the handler and the sockets are told. *)
Inductive event :=
| EvConnect (fd : Z) (addr : string)
| EvDisconnect (fd : Z)
| EvError (fd : Z) (msg : string)
| EvAuth (fd : Z) (username : string) (signature : bytes) (r : res (string * string))
| EvMessage (fd : Z) (session : Z) (msg : bytes)
| EvWrite (fd : Z) (data : bytes)
| EvClose (fd : Z).

Class MsgHandler (H : Type) := {
  h_Connect : H -> Z -> string -> H;
  h_Disconnect : H -> Z -> H;
  h_Error : H -> Z -> string -> H;
  h_Message : H -> Z -> Z -> bytes -> H * option bytes;
  h_Auth : H -> string -> bytes -> H * res (string * string);
}.

Record MsgServer (H : Type) := mkMsgServer {
  ms_config : MsgServerConfig;
  ms_handler : H;
  ms_listener : bool;
  ms_connections : gmap Z nat;
  ms_sessions : gmap string nat;
  ms_nextFD : Z;
  ms_running : bool;
  ms_conns : list Connection;        (** the heap of connections *)
  ms_sess : list UserSession;        (** the heap of sessions *)
  ms_log : list event;
}.
Arguments mkMsgServer {H}. Arguments ms_config {H}. Arguments ms_handler {H}. Arguments ms_listener {H}.
Arguments ms_connections {H}. Arguments ms_sessions {H}. Arguments ms_nextFD {H}. Arguments ms_running {H}.
Arguments ms_conns {H}. Arguments ms_sess {H}. Arguments ms_log {H}.

Section server.
Context {H : Type} `{MsgHandler H}.
Notation MsgServer := (MsgServer H).

Definition NewMsgServer (config : MsgServerConfig) (handler : H) : MsgServer :=
  mkMsgServer config handler false ∅ ∅ 1 false [] [] [].

(** Assignments to parts of the state. *)
Definition ms_set_conn (i : nat) (c : Connection) (s : MsgServer) : MsgServer :=
  mkMsgServer (ms_config s) (ms_handler s) (ms_listener s) (ms_connections s) (ms_sessions s) (ms_nextFD s)
    (ms_running s) (<[i := c]> (ms_conns s)) (ms_sess s) (ms_log s).
Definition ms_set_sess (i : nat) (u : UserSession) (s : MsgServer) : MsgServer :=
  mkMsgServer (ms_config s) (ms_handler s) (ms_listener s) (ms_connections s) (ms_sessions s) (ms_nextFD s)
    (ms_running s) (ms_conns s) (<[i := u]> (ms_sess s)) (ms_log s).
Definition ms_new_session (u : UserSession) (s : MsgServer) : MsgServer :=
  mkMsgServer (ms_config s) (ms_handler s) (ms_listener s) (ms_connections s)
    (<[us_Username u := length (ms_sess s)]> (ms_sessions s)) (ms_nextFD s)
    (ms_running s) (ms_conns s) (ms_sess s ++ [u]) (ms_log s).
Definition ms_set_tables (cs : gmap Z nat) (ss : gmap string nat) (s : MsgServer) : MsgServer :=
  mkMsgServer (ms_config s) (ms_handler s) (ms_listener s) cs ss (ms_nextFD s)
    (ms_running s) (ms_conns s) (ms_sess s) (ms_log s).
Definition ms_set_running (listener running : bool) (s : MsgServer) : MsgServer :=
  mkMsgServer (ms_config s) (ms_handler s) listener (ms_connections s) (ms_sessions s) (ms_nextFD s)
    running (ms_conns s) (ms_sess s) (ms_log s).

(** A call of the handler, or a write to a socket, with the handler's new state. *)
Definition tell (h : H) (es : list event) (s : MsgServer) : MsgServer :=
  mkMsgServer (ms_config s) h (ms_listener s) (ms_connections s) (ms_sessions s) (ms_nextFD s)
    (ms_running s) (ms_conns s) (ms_sess s) (ms_log s ++ es).
Definition net_Write (fd : Z) (data : bytes) (s : MsgServer) : MsgServer :=
  tell (ms_handler s) [EvWrite fd data] s.

(** ** Starting, stopping, accepting *)

(** [listen] is what [net.Listen] answers. *)
Definition ms_Start (listen : option error) (s : MsgServer) : MsgServer * option error :=
  match listen with
  | Some e => (s, Some ("failed to listen on " +:+ mc_Host (ms_config s) +:+ ":" +:+ pretty (mc_Port (ms_config s))
                        +:+ ": " +:+ e))
  | None => (ms_set_running true true s, None)
  end.

(** [close] is what closing the listener answers. *)
Definition ms_Stop (close : option error) (s : MsgServer) : MsgServer * option error :=
  (ms_set_running (ms_listener s) false s, if ms_listener s then close else None).

(** [handleConnection] up to the handshake: the descriptor, the table, the call
    of [Connect], the deadline. [nextFD] is an [int32]. *)
Definition i32 (z : Z) : Z := (z + 2 ^ 31) mod 2 ^ 32 - 2 ^ 31.
Definition ms_accept (addr : string) (segs : list bytes) (now : time) (s : MsgServer) : MsgServer :=
  let fd := ms_nextFD s in
  let i := length (ms_conns s) in
  let deadline := if 0 <? mc_Timeout (ms_config s)
                  then Some (now + i64 (mc_Timeout (ms_config s) * Second)) else None in
  let s1 := mkMsgServer (ms_config s) (ms_handler s) (ms_listener s) (<[fd := i]> (ms_connections s))
              (ms_sessions s) (i32 (fd + 1)) (ms_running s)
              (ms_conns s ++ [mkConnection fd (mkSocket segs deadline) None 0 Handshaking]) (ms_sess s) (ms_log s) in
  tell (h_Connect (ms_handler s) fd addr) [EvConnect fd addr] s1.

(** One round of [acceptLoop]: a connection, or the error that ends the loop. *)
Definition acceptLoop1 (conn : res (string * list bytes)) (now : time) (s : MsgServer) : MsgServer :=
  if ms_running s then
    match conn with Ok (addr, segs) => ms_accept addr segs now s | Err _ => s end
  else s.

(** The deferred calls of [handleConnection]. *)
Definition ms_finish (i : nat) (c : Connection) (s : MsgServer) : MsgServer :=
  let s1 := ms_set_tables (delete (cn_fd c) (ms_connections s)) (ms_sessions s)
              (ms_set_conn i (set_cn (cn_conn c) Ended c) s) in
  let s2 := match cn_session c with
            | Some _ => tell (h_Disconnect (ms_handler s1) (cn_fd c)) [EvDisconnect (cn_fd c)] s1
            | None => s1
            end in
  tell (ms_handler s2) [EvClose (cn_fd c)] s2.

(** ** The handshake *)

Definition handshake_fields (line : string) : option (string * Z * bytes) :=
  match Split ":"%char line with
  | [username; seqStr; signatureStr] =>
      match ParseUint32 seqStr with
      | None => None
      | Some seq => match Base64Decode signatureStr with
                    | None => None
                    | Some signature => Some (username, seq, signature)
                    end
      end
  | _ => None
  end.

(** The part under the lock: the session of the user, or why there is none. *)
Definition handshake_session (i : nat) (c : Connection) (username uid subid : string) (seq : Z) (clk : clock)
    (s : MsgServer) : MsgServer * bool :=
  match ms_sessions s !! username with
  | Some sid =>
      match ms_sess s !! sid with
      | Some session =>
          if seq <=? us_Seq session then
            (net_Write (cn_fd c) (bytes_of_string "402 Invalid sequence" ++ [10]) s, false)
          else
            (net_Write (cn_fd c) (bytes_of_string "200 OK" ++ [10])
               (ms_set_conn i (set_cn_session sid seq c) (ms_set_sess sid (set_us_Seq seq (clk 0%nat) session) s)), true)
      | None => (s, false)     (* a nil session is never stored *)
      end
  | None =>
      let sid := length (ms_sess s) in
      let session := mkUserSession (u32 (cn_fd c)) uid subid username [] 0 (clk 0%nat) (clk 1%nat) in
      (net_Write (cn_fd c) (bytes_of_string "200 OK" ++ [10])
         (ms_set_conn i (set_cn_session sid seq c) (ms_new_session session s)), true)
  end.

Definition handleHandshake (i : nat) (c0 : Connection) (now : time) (clk : clock) (s0 : MsgServer)
    : MsgServer * bool :=
  let '(r, so) := readLine now (cn_conn c0) in
  let c := set_cn so Handshaking c0 in
  let s := ms_set_conn i c s0 in
  match r with
  | Err _ => (s, false)
  | Ok line =>
      match handshake_fields line with
      | None => (s, false)
      | Some (username, seq, signature) =>
          let '(h, a) := h_Auth (ms_handler s) username signature in
          let s1 := tell h [EvAuth (cn_fd c) username signature a] s in
          match a with
          | Err _ => (net_Write (cn_fd c) (bytes_of_string "401 Auth failed" ++ [10]) s1, false)
          | Ok (uid, subid) => handshake_session i c username uid subid seq clk s1
          end
      end
  end.

(** ** The message loop *)

Definition message_header (line : string) : option (Z * Z) :=
  match Split ":"%char line with
  | [a; b] => match ParseUint32 a with
              | None => None
              | Some sessionID => match ParseUint32 b with
                                  | None => None
                                  | Some length => Some (sessionID, length)
                                  end
              end
  | _ => None
  end.

Definition frame_header (sessionID : Z) (n : nat) : bytes :=
  bytes_of_string (pretty sessionID +:+ ":" +:+ pretty (Z.of_nat n)) ++ [10].

(** [msgData]: a zeroed slice of the announced length, filled by one read. *)
Definition fill (n : nat) (got : bytes) : bytes := got ++ replicate (n - length got) 0.

Definition touch_session (c : Connection) (now : time) (s : MsgServer) : MsgServer :=
  match cn_session c with
  | Some sid => match ms_sess s !! sid with
                | Some u => ms_set_sess sid (set_us_LastSeen now u) s
                | None => s
                end
  | None => s
  end.

(** One round of [messageLoop]; whether it goes on. *)
Definition messageLoop1 (i : nat) (c0 : Connection) (now : time) (s0 : MsgServer) : MsgServer * bool :=
  let '(r, so) := readLine now (cn_conn c0) in
  let c := set_cn so Looping c0 in
  let s := ms_set_conn i c s0 in
  match r with
  | Err e => (tell (h_Error (ms_handler s) (cn_fd c) e) [EvError (cn_fd c) e] s, false)
  | Ok line =>
      match message_header line with
      | None => (s, true)
      | Some (sessionID, len) =>
          let '(rb, so') := net_Read (Z.to_nat len) now so in
          let c' := set_cn so' Looping c in
          let s' := ms_set_conn i c' s in
          match rb with
          | Err e => (tell (h_Error (ms_handler s') (cn_fd c) e) [EvError (cn_fd c) e] s', false)
          | Ok got =>
              let msgData := fill (Z.to_nat len) got in
              let '(h, response) := h_Message (ms_handler s') (cn_fd c) sessionID msgData in
              let s1 := tell h [EvMessage (cn_fd c) sessionID msgData] s' in
              let s2 := match response with
                        | Some r => net_Write (cn_fd c) r (net_Write (cn_fd c) (frame_header sessionID (length r)) s1)
                        | None => s1
                        end in
              (touch_session c' now s2, true)
          end
      end
  end.

(** ** Operations on connections and sessions *)

(** [w1], [w2]: what the two writes answer. *)
Definition ms_Send (fd : Z) (data : bytes) (w1 w2 : option error) (s : MsgServer) : MsgServer * option error :=
  match ms_connections s !! fd with
  | None => (s, Some ("connection not found: " +:+ pretty fd))
  | Some _ =>
      match w1 with
      | Some e => (s, Some e)
      | None =>
          let s1 := net_Write fd (frame_header 0 (length data)) s in
          match w2 with Some e => (s1, Some e) | None => (net_Write fd data s1, None) end
      end
  end.

(** Closing the socket fails the reads that follow. *)
Definition Kick (fd : Z) (close : option error) (s : MsgServer) : MsgServer * option error :=
  match ms_connections s !! fd with
  | None => (s, Some ("connection not found: " +:+ pretty fd))
  | Some i =>
      match ms_conns s !! i with
      | Some c => (ms_set_conn i (set_cn (mkSocket [] (so_deadline (cn_conn c))) (cn_phase c) c) s, close)
      | None => (s, close)
      end
  end.

Definition ms_GetSession (username : string) (s : MsgServer) : option nat := ms_sessions s !! username.
Definition GetConnections (s : MsgServer) : gmap Z nat := ms_connections s.

Definition session_expired (now : time) (timeout : duration) (s : MsgServer) (sid : nat) : bool :=
  match ms_sess s !! sid with
  | Some u => timeout <? time_sub now (us_LastSeen u)
  | None => false
  end.

(** The loop over the table, which deletes as it goes. *)
Fixpoint cleanup_loop (now : time) (timeout : duration) (ks : list string) (s : MsgServer) : MsgServer :=
  match ks with
  | [] => s
  | k :: ks' =>
      let s' := match ms_sessions s !! k with
                | Some sid => if session_expired now timeout s sid
                              then ms_set_tables (ms_connections s) (delete k (ms_sessions s)) s else s
                | None => s
                end in
      cleanup_loop now timeout ks' s'
  end.
Definition CleanupSessions (timeout : duration) (now : time) (ks : list string) (s : MsgServer) : MsgServer :=
  cleanup_loop now timeout ks s.

(** ** Interleavings *)

Inductive msop :=
| OpStart (listen : option error)
| OpStop (close : option error)
| OpAccept (conn : res (string * list bytes)) (now : time)
| OpHandshake (i : nat) (now : time) (clk : clock)
| OpRound (i : nat) (now : time)
| OpSend (fd : Z) (data : bytes) (w1 w2 : option error)
| OpKick (fd : Z) (close : option error)
| OpCleanup (timeout : duration) (now : time) (ks : list string).

(** [handleConnection] goes from the handshake to the loop, and to the deferred
    calls when either gives up. *)
Definition conn_goes (i : nat) (r : MsgServer * bool) : MsgServer :=
  match ms_conns r.1 !! i with
  | Some c => if r.2 then ms_set_conn i (set_cn (cn_conn c) Looping c) r.1 else ms_finish i c r.1
  | None => r.1
  end.

Definition ms_step (s : MsgServer) (op : msop) : MsgServer :=
  match op with
  | OpStart l => (ms_Start l s).1
  | OpStop c => (ms_Stop c s).1
  | OpAccept conn now => acceptLoop1 conn now s
  | OpHandshake i now clk =>
      match ms_conns s !! i with
      | Some c => if decide (cn_phase c = Handshaking) then conn_goes i (handleHandshake i c now clk s) else s
      | None => s
      end
  | OpRound i now =>
      match ms_conns s !! i with
      | Some c => if decide (cn_phase c = Looping) then conn_goes i (messageLoop1 i c now s) else s
      | None => s
      end
  | OpSend fd d w1 w2 => (ms_Send fd d w1 w2 s).1
  | OpKick fd c => (Kick fd c s).1
  | OpCleanup t now ks => CleanupSessions t now ks s
  end.

Definition ms_run (config : MsgServerConfig) (h : H) (ops : list msop) : MsgServer :=
  fold_left ms_step ops (NewMsgServer config h).

(** ** Nobody is heard before authenticating *)

Definition authed (fd : Z) (l : list event) : Prop :=
  exists username signature r, EvAuth fd username signature (Ok r) ∈ l.

Definition heard_authed (l : list event) : Prop :=
  forall l1 fd sid msg l2, l = l1 ++ EvMessage fd sid msg :: l2 -> authed fd l1.

Definition needs_auth (l : list event) (e : event) : Prop :=
  match e with EvMessage fd _ _ => authed fd l | _ => True end.

Lemma authed_app fd l es : authed fd l -> authed fd (l ++ es).
Proof. intros (u & g & r & Hin). exists u, g, r. set_solver. Qed.

Lemma heard_authed_snoc l e : heard_authed l -> needs_auth l e -> heard_authed (l ++ [e]).
Proof.
  intros Hl He l1 fd sid msg l2 E. destruct l2 as [|e' l2 _] using rev_ind.
  - apply app_inj_tail in E as [<- ->]. done.
  - rewrite app_comm_cons app_assoc in E. apply app_inj_tail in E as [-> _]. by eapply Hl.
Qed.

Record ms_good (s : MsgServer) : Prop := {
  mg_loop : forall i c, ms_conns s !! i = Some c -> cn_phase c = Looping -> authed (cn_fd c) (ms_log s);
  mg_heard : heard_authed (ms_log s);
}.

Lemma good_tell h e s : ms_good s -> needs_auth (ms_log s) e -> ms_good (tell h [e] s).
Proof.
  intros [Hl Hh] He. split; cbn.
  - intros i c Hc Hp. by apply authed_app, (Hl i c).
  - by apply heard_authed_snoc.
Qed.

Lemma good_set_conn i c s :
  ms_good s -> (cn_phase c = Looping -> authed (cn_fd c) (ms_log s)) -> ms_good (ms_set_conn i c s).
Proof.
  intros [Hl Hh] Hc. split; cbn; [|done]. intros j d Hd Hp.
  apply list_lookup_insert_Some in Hd as [(-> & <- & _)|[_ Hd]]; [by apply Hc|by apply (Hl j d)].
Qed.

(** The fields the invariant reads are the log and the connections. *)
Lemma good_ext s s' : ms_conns s' = ms_conns s -> ms_log s' = ms_log s -> ms_good s -> ms_good s'.
Proof. intros E1 E2 [Hl Hh]. split; rewrite ?E1 E2; done. Qed.

#[local] Hint Resolve good_tell good_set_conn authed_app : sngo.

Lemma good_finish i c s : ms_good s -> ms_good (ms_finish i c s).
Proof.
  intros Hs. unfold ms_finish. apply good_tell; [|done].
  assert (ms_good (ms_set_conn i (set_cn (cn_conn c) Ended c) s)) as Hc by by apply good_set_conn.
  assert (ms_good (ms_set_tables (delete (cn_fd c) (ms_connections s)) (ms_sessions s)
            (ms_set_conn i (set_cn (cn_conn c) Ended c) s))) as Ht
    by (by eapply good_ext; [| |exact Hc]).
  destruct (cn_session c); [by apply good_tell|done].
Qed.

Lemma good_handshake_session i c u uid subid seq clk s :
  ms_good s -> cn_phase c = Handshaking -> authed (cn_fd c) (ms_log s) ->
  ms_good (handshake_session i c u uid subid seq clk s).1
  /\ authed (cn_fd c) (ms_log (handshake_session i c u uid subid seq clk s).1)
  /\ (forall c', ms_conns (handshake_session i c u uid subid seq clk s).1 !! i = Some c' ->
        ms_conns s !! i = Some c -> cn_fd c' = cn_fd c).
Proof.
  intros Hs Hp Ha. unfold handshake_session, net_Write.
  assert (forall sid, ms_good (ms_set_conn i (set_cn_session sid seq c) s)) as Hc.
  { intros sid. apply good_set_conn; [done|]. cbn. by rewrite Hp. }
  destruct (ms_sessions s !! u) as [sid|]; [destruct (ms_sess s !! sid) as [session|]; [case_match|]|]; cbn [fst].
  - split_and!; [by apply good_tell|by apply authed_app|]. cbn. naive_solver.
  - split_and!; [|by apply authed_app|].
    + apply good_tell; [|done]. by eapply good_ext; [| |apply (Hc sid)].
    + cbn. intros c' Hc'. apply list_lookup_insert_Some in Hc' as [(_ & <- & _)|[? _]]; [done|done].
  - split_and!; [done|done|naive_solver].
  - split_and!; [|by apply authed_app|].
    + apply good_tell; [|done]. by eapply good_ext; [| |apply (Hc (length (ms_sess s)))].
    + cbn. intros c' Hc'. apply list_lookup_insert_Some in Hc' as [(_ & <- & _)|[? _]]; [done|done].
Qed.

Lemma good_handshake i c now clk s :
  ms_good s -> ms_conns s !! i = Some c ->
  ms_good (handleHandshake i c now clk s).1
  /\ ((handleHandshake i c now clk s).2 = true ->
      forall c', ms_conns (handleHandshake i c now clk s).1 !! i = Some c' ->
        authed (cn_fd c') (ms_log (handleHandshake i c now clk s).1)).
Proof.
  intros Hs Hi. unfold handleHandshake. destruct (readLine now (cn_conn c)) as [r so].
  set c1 := set_cn so Handshaking c. set s1 := ms_set_conn i c1 s.
  assert (ms_good s1) as G1 by by apply good_set_conn.
  destruct r as [line|e]; [|done]. destruct (handshake_fields line) as [[[u seq] sg]|]; [|done].
  destruct (h_Auth (ms_handler s1) u sg) as [h a].
  assert (ms_good (tell h [EvAuth (cn_fd c1) u sg a] s1)) as G2 by by apply good_tell.
  destruct a as [[uid subid]|e]; [|split; [by apply good_tell|done]].
  assert (authed (cn_fd c1) (ms_log (tell h [EvAuth (cn_fd c1) u sg (Ok (uid, subid))] s1))) as Ha.
  { exists u, sg, (uid, subid). cbn. set_solver. }
  destruct (good_handshake_session i c1 u uid subid seq clk _ G2 eq_refl Ha) as (G3 & A3 & F3).
  split; [done|]. intros _ c' Hc'. rewrite (F3 c' Hc'); [|done]. cbn.
  apply list_lookup_insert_eq. exact (lookup_lt_Some _ _ _ Hi).
Qed.

Lemma good_touch c now s : ms_good s -> ms_good (touch_session c now s).
Proof.
  intros Hs. unfold touch_session. destruct (cn_session c) as [sid|]; [|done].
  destruct (ms_sess s !! sid); [|done]. by eapply good_ext; [| |exact Hs].
Qed.

Lemma touch_session_fields c now s :
  ms_conns (touch_session c now s) = ms_conns s /\ ms_log (touch_session c now s) = ms_log s.
Proof. unfold touch_session. destruct (cn_session c) as [sid|]; [|done]. by destruct (ms_sess s !! sid). Qed.

Lemma good_round i c now s :
  ms_good s -> ms_conns s !! i = Some c -> cn_phase c = Looping ->
  ms_good (messageLoop1 i c now s).1
  /\ forall c', ms_conns (messageLoop1 i c now s).1 !! i = Some c' ->
        authed (cn_fd c') (ms_log (messageLoop1 i c now s).1).
Proof.
  intros Hs Hi Hp. pose proof (mg_loop _ Hs i c Hi Hp) as Ha. unfold messageLoop1.
  destruct (readLine now (cn_conn c)) as [r so]. set c1 := set_cn so Looping c. set s1 := ms_set_conn i c1 s.
  assert (ms_good s1) as G1 by by apply good_set_conn.
  assert (forall x, ms_conns s1 !! i = Some x -> cn_fd x = cn_fd c) as F1.
  { cbn. intros x Hx. by apply list_lookup_insert_Some in Hx as [(_ & <- & _)|[? _]]. }
  destruct r as [line|e].
  2: { split; [by apply good_tell|]. cbn. intros x Hx. rewrite (F1 x Hx). by apply authed_app. }
  destruct (message_header line) as [[sid len]|].
  2: { split; [done|]. cbn. intros x Hx. by rewrite (F1 x Hx). }
  destruct (net_Read (Z.to_nat len) now so) as [rb so']. set c2 := set_cn so' Looping c1. set s2 := ms_set_conn i c2 s1.
  assert (ms_good s2) as G2 by by apply good_set_conn.
  assert (forall x, ms_conns s2 !! i = Some x -> cn_fd x = cn_fd c) as F2.
  { cbn. intros x Hx. apply list_lookup_insert_Some in Hx as [(_ & <- & _)|[? _]]; done. }
  destruct rb as [got|e].
  2: { split; [by apply good_tell|]. cbn. intros x Hx. rewrite (F2 x Hx). by apply authed_app. }
  destruct (h_Message (ms_handler s2) (cn_fd c1) sid (fill (Z.to_nat len) got)) as [h response]. cbn [fst].
  set s3 := tell h _ s2. assert (ms_good s3) as G3 by by apply good_tell.
  assert (forall x, ms_conns s3 !! i = Some x -> cn_fd x = cn_fd c) as F3 by exact F2.
  assert (authed (cn_fd c) (ms_log s3)) as A3 by by apply authed_app.
  match goal with |- context [touch_session c2 now ?t] => set s4 := t end.
  assert (ms_good s4 /\ ms_conns s4 = ms_conns s3 /\ authed (cn_fd c) (ms_log s4)) as (G4 & E4 & A4).
  { subst s4. unfold net_Write. destruct response as [r|]; [|done].
    split_and!; [by do 2 (apply good_tell; [|done])|done|by do 2 apply authed_app]. }
  destruct (touch_session_fields c2 now s4) as [E5 E6]. split; [by apply good_touch|].
  rewrite E5 E6 E4. intros x Hx. by rewrite (F3 x Hx).
Qed.

Lemma good_goes i (r : MsgServer * bool) :
  ms_good r.1 ->
  (r.2 = true -> forall c, ms_conns r.1 !! i = Some c -> authed (cn_fd c) (ms_log r.1)) ->
  ms_good (conn_goes i r).
Proof.
  intros G A. unfold conn_goes. destruct (ms_conns r.1 !! i) as [c|] eqn:Hc; [|done].
  destruct r.2 eqn:E; [|by apply good_finish]. apply good_set_conn; [done|]. intros _. exact (A eq_refl c eq_refl).
Qed.

Lemma cleanup_fields now timeout ks s :
  ms_conns (cleanup_loop now timeout ks s) = ms_conns s /\ ms_log (cleanup_loop now timeout ks s) = ms_log s
  /\ ms_sess (cleanup_loop now timeout ks s) = ms_sess s
  /\ ms_connections (cleanup_loop now timeout ks s) = ms_connections s.
Proof.
  revert s. induction ks as [|k ks IH]; intros s; [done|]. cbn [cleanup_loop].
  destruct (ms_sessions s !! k) as [sid|]; [destruct (session_expired _ _ _ _)|];
    by match goal with |- context [cleanup_loop _ _ ks ?t] => destruct (IH t) as (-> & -> & -> & ->) end.
Qed.

Lemma good_step s op : ms_good s -> ms_good (ms_step s op).
Proof.
  intros G. destruct op as [l|c|conn now|i now clk|i now|fd d w1 w2|fd c|t now ks]; cbn [ms_step].
  - destruct l; [done|by eapply good_ext; [| |exact G]].
  - by eapply good_ext; [| |exact G].
  - unfold acceptLoop1. destruct (ms_running s); [|done]. destruct conn as [[addr segs]|]; [|done].
    unfold ms_accept. apply good_tell; [|done]. split; cbn; [|apply G].
    intros i c Hc Hp. apply lookup_app_Some in Hc as [Hc|[_ Hc]]; [by apply (mg_loop _ G i)|].
    by apply list_lookup_singleton_Some in Hc as [_ <-].
  - destruct (ms_conns s !! i) as [c|] eqn:Hi; [|done]. case_decide; [|done].
    destruct (good_handshake i c now clk s G Hi). by apply good_goes.
  - destruct (ms_conns s !! i) as [c|] eqn:Hi; [|done]. case_decide; [|done].
    destruct (good_round i c now s G Hi) as [? A]; [done|]. apply good_goes; [done|]. intros _. exact A.
  - unfold ms_Send. destruct (ms_connections s !! fd); [|done]. destruct w1; [done|].
    destruct w2; cbn [fst]; by repeat (apply good_tell; [|done]).
  - unfold Kick. destruct (ms_connections s !! fd) as [i|]; [|done].
    destruct (ms_conns s !! i) as [cc|] eqn:Hi; [|done]. apply good_set_conn; [done|]. exact (mg_loop _ G i cc Hi).
  - unfold CleanupSessions. destruct (cleanup_fields now t ks s) as (E1 & E2 & _). by eapply good_ext; [exact E1|exact E2|].
Qed.

Lemma ms_run_snoc config h ops op : ms_run config h (ops ++ [op]) = ms_step (ms_run config h ops) op.
Proof. unfold ms_run. by rewrite fold_left_app. Qed.

Lemma good_run config h ops : ms_good (ms_run config h ops).
Proof.
  induction ops as [|op ops IH] using rev_ind; [|rewrite ms_run_snoc; by apply good_step].
  split; [done|]. intros l1 fd sid msg l2 E. by destruct l1.
Qed.

(** C10. Nobody is heard before authenticating: however the goroutines of the
    connections interleave with the operations of the server, every message the
    handler is given on a descriptor comes after a call of [Auth] for that
    descriptor that succeeded. *)
Theorem heard_only_authenticated config h ops l1 fd sid msg l2 :
  ms_log (ms_run config h ops) = l1 ++ EvMessage fd sid msg :: l2 -> authed fd l1.
Proof. apply (mg_heard _ (good_run config h ops)). Qed.

(** ** What is logged of authentications *)

(** Every recorded authentication is an answer of the handler, about a user name
    without a colon. *)
Definition auth_real (e : event) : Prop :=
  match e with
  | EvAuth _ u sg r => no_char ":" u = true /\ exists h, (h_Auth h u sg).2 = r
  | _ => True
  end.

Definition logs_real (s s' : MsgServer) : Prop := exists es, ms_log s' = ms_log s ++ es /\ Forall auth_real es.

Lemma logs_refl s s' : ms_log s' = ms_log s -> logs_real s s'.
Proof. intros E. exists []. by rewrite app_nil_r. Qed.

Lemma logs_tell s s' h e : logs_real s s' -> auth_real e -> logs_real s (tell h [e] s').
Proof.
  intros (es & E & Hes) He. exists (es ++ [e]). cbn. rewrite E app_assoc. split; [done|].
  apply Forall_app; split; [done|by constructor].
Qed.

Lemma logs_same s s1 s2 : ms_log s2 = ms_log s1 -> logs_real s s1 -> logs_real s s2.
Proof. intros E (es & E1 & Hes). exists es. by rewrite E. Qed.

Lemma handshake_fields_clean line u seq sg : handshake_fields line = Some (u, seq, sg) -> no_char ":" u = true.
Proof.
  unfold handshake_fields. pose proof (Split_parts_clean ":" line) as Hc.
  destruct (Split ":" line) as [|a [|b [|c [|? ?]]]]; try done.
  destruct (ParseUint32 b); [|done]. destruct (Base64Decode c); [|done]. intros [= <- _ _]. by inversion Hc.
Qed.

Lemma logs_finish s i c s' : logs_real s s' -> logs_real s (ms_finish i c s').
Proof.
  intros Hs. unfold ms_finish. apply logs_tell; [|done]. destruct (cn_session c); [apply logs_tell; [|done]|];
    by eapply logs_same; [|exact Hs].
Qed.

Lemma logs_goes s i r : logs_real s r.1 -> logs_real s (conn_goes i r).
Proof.
  intros Hs. unfold conn_goes. destruct (ms_conns r.1 !! i); [|done].
  destruct r.2; [by eapply logs_same; [|exact Hs]|by apply logs_finish].
Qed.

Lemma logs_handshake i c now clk s : logs_real s (handleHandshake i c now clk s).1.
Proof.
  unfold handleHandshake. destruct (readLine now (cn_conn c)) as [[line|e] so]; [|by apply logs_refl].
  destruct (handshake_fields line) as [[[u seq] sg]|] eqn:Hf; [|by apply logs_refl].
  match goal with |- context [h_Auth ?a ?b ?c] => destruct (h_Auth a b c) as [h a'] eqn:Ha end.
  match goal with |- context [tell h [?e] ?t] => assert (logs_real s (tell h [e] t)) as Hl end.
  { apply logs_tell; [by apply logs_refl|]. split; [exact (handshake_fields_clean _ _ _ _ Hf)|].
    eexists. exact (f_equal snd Ha). }
  destruct a' as [[uid subid]|e]; [|by apply logs_tell]. unfold handshake_session, net_Write.
  repeat case_match; cbn [fst]; try (apply logs_tell; [|done]); first [exact Hl|by eapply logs_same; [|exact Hl]].
Qed.

Lemma logs_round i c now s : logs_real s (messageLoop1 i c now s).1.
Proof.
  unfold messageLoop1. destruct (readLine now (cn_conn c)) as [[line|e] so];
    [|apply logs_tell; [by apply logs_refl|done]].
  destruct (message_header line) as [[sid len]|]; [|by apply logs_refl].
  destruct (net_Read (Z.to_nat len) now so) as [[got|e] so']; [|apply logs_tell; [by apply logs_refl|done]].
  match goal with |- context [h_Message ?a ?b ?c ?d] => destruct (h_Message a b c d) as [h response] end.
  match goal with |- context [touch_session ?c2 now ?t] => destruct (touch_session_fields c2 now t) as [_ Et] end.
  eapply logs_same; [exact Et|]. unfold net_Write.
  destruct response; repeat (apply logs_tell; [|done]); by apply logs_refl.
Qed.

Lemma logs_step s op : logs_real s (ms_step s op).
Proof.
  destruct op as [l|c|conn now|i now clk|i now|fd d w1 w2|fd c|t now ks]; cbn [ms_step].
  - destruct l; by apply logs_refl.
  - by apply logs_refl.
  - unfold acceptLoop1. destruct (ms_running s); [|by apply logs_refl].
    destruct conn as [[addr segs]|]; [|by apply logs_refl]. apply logs_tell; [by apply logs_refl|done].
  - destruct (ms_conns s !! i); [|by apply logs_refl]. case_decide; [|by apply logs_refl].
    apply logs_goes, logs_handshake.
  - destruct (ms_conns s !! i); [|by apply logs_refl]. case_decide; [|by apply logs_refl].
    apply logs_goes, logs_round.
  - unfold ms_Send. destruct (ms_connections s !! fd); [|by apply logs_refl]. destruct w1; [by apply logs_refl|].
    destruct w2; cbn [fst]; repeat (apply logs_tell; [|done]); by apply logs_refl.
  - unfold Kick. destruct (ms_connections s !! fd) as [i|]; [|by apply logs_refl].
    destruct (ms_conns s !! i); by apply logs_refl.
  - unfold CleanupSessions. apply logs_refl. by destruct (cleanup_fields now t ks s) as (_ & E & _).
Qed.

Lemma logs_run config h ops : Forall auth_real (ms_log (ms_run config h ops)).
Proof.
  induction ops as [|op ops IH] using rev_ind; [constructor|]. rewrite ms_run_snoc.
  destruct (logs_step (ms_run config h ops) op) as (es & -> & Hes). by apply Forall_app.
Qed.

(** ** The handshake *)

(** The line a client sends. *)
Definition client_hello (username : string) (seq : Z) (signature : bytes) : string :=
  username +:+ ":" +:+ pretty seq +:+ ":" +:+ Base64Encode signature.

(** A user name of visible characters without a colon. *)
Definition good_name (username : string) : Prop :=
  Forall (fun z => plain z = true) (bytes_of_string username) /\ no_char ":" username = true.

Lemma handshake_fields_hello u seq sg :
  good_name u -> is_u32 seq -> Forall Net.is_byte sg ->
  handshake_fields (client_hello u seq sg) = Some (u, seq, sg).
Proof.
  intros [_ Hu] Hq Hs. unfold handshake_fields, client_hello, Base64Encode, Base64Decode.
  rewrite (Split_app ":" u) //. rewrite (Split_app ":" (pretty seq)).
  { apply all_digits_no_colon. destruct Hq. rewrite (pretty_Z_nonneg seq) //. apply all_digits_pretty. }
  rewrite (Split_no_char ":"); [by apply b64_no_colon|]. by rewrite ParseUint32_pretty // b64_roundtrip.
Qed.

Lemma plain_app a b :
  Forall (fun z => plain z = true) (bytes_of_string a) -> Forall (fun z => plain z = true) (bytes_of_string b) ->
  Forall (fun z => plain z = true) (bytes_of_string (a +:+ b)).
Proof. intros. rewrite bytes_of_string_app. by apply Forall_app. Qed.

Lemma pretty_u32_plain z : is_u32 z -> Forall (fun z => plain z = true) (bytes_of_string (pretty z)).
Proof. intros [Hz _]. rewrite (pretty_Z_nonneg z Hz). apply all_digits_plain, all_digits_pretty. Qed.

(** One read of a line that has come as a segment of its own. *)
Lemma readLine_segment now line rest d :
  line <> "" -> Forall (fun z => plain z = true) (bytes_of_string line) -> (String.length line < 1024)%nat ->
  past_deadline now (mkSocket [] d) = false ->
  readLine now (mkSocket ((bytes_of_string line ++ [10]) :: rest) d) = (Ok line, mkSocket rest d).
Proof.
  intros Hne Hp Hl Hd. unfold readLine. by destruct (read_line_segment now line rest d Hne Hp Hl Hd) as (b & -> & ->).
Qed.

(** The handshake: a connection whose client has sent its hello as a line is
    answered by [Auth] on exactly the user name and signature sent. A refusal
    changes no session. When it agrees, a user with a session must send a
    greater sequence number, which is then stored; a user without one gets a
    session of that name with the ids [Auth] gave, whose stored sequence number
    is 0, whatever the client sent (so that the same hello is accepted again). *)
Theorem handshake_exact i c now clk s u seq sg rest d :
  ms_conns s !! i = Some c -> cn_conn c = mkSocket ((bytes_of_string (client_hello u seq sg) ++ [10]) :: rest) d ->
  past_deadline now (mkSocket [] d) = false ->
  good_name u -> is_u32 seq -> Forall Net.is_byte sg -> (String.length (client_hello u seq sg) < 1024)%nat ->
  let '(h, a) := h_Auth (ms_handler s) u sg in
  let '(s', ok) := handleHandshake i c now clk s in
  match a with
  | Err _ => ok = false /\ ms_sess s' = ms_sess s /\ ms_sessions s' = ms_sessions s
  | Ok (uid, subid) =>
      match ms_sessions s !! u with
      | Some sid => forall session, ms_sess s !! sid = Some session ->
          ms_sessions s' = ms_sessions s /\ ok = (us_Seq session <? seq)
          /\ ms_sess s' !! sid = Some (if us_Seq session <? seq then set_us_Seq seq (clk 0%nat) session else session)
      | None =>
          ok = true /\ ms_sessions s' = <[u := length (ms_sess s)]> (ms_sessions s)
          /\ ms_sess s' !! length (ms_sess s)
              = Some (mkUserSession (u32 (cn_fd c)) uid subid u [] 0 (clk 0%nat) (clk 1%nat))
      end
  end.
Proof.
  intros Hi Hso Hd Hu Hq Hs Hl. destruct (h_Auth (ms_handler s) u sg) as [h a] eqn:Ha.
  unfold handleHandshake. rewrite Hso readLine_segment //.
  - intros E. by destruct u.
  - unfold client_hello. destruct Hu. apply plain_app; [done|]. apply (plain_app ":"); [by repeat constructor|].
    apply plain_app; [by apply pretty_u32_plain|]. apply (plain_app ":"); [by repeat constructor|]. by apply b64_visible.
  - rewrite handshake_fields_hello //. cbn [ms_handler ms_set_conn]. rewrite Ha.
    destruct a as [[uid subid]|e]; [|done]. unfold handshake_session. cbn [ms_sessions ms_sess tell ms_set_conn].
    destruct (ms_sessions s !! u) as [sid|].
    + intros. destruct (ms_sess s !! sid) as [session|] eqn:Hsid.
      * rewrite Z.leb_antisym. destruct (Z.ltb_spec (us_Seq session) seq); cbn [negb net_Write]; intros ? [= <-]; cbn.
        -- split_and!; [done|by destruct (Z.ltb_spec (us_Seq session) seq); [|lia]|].
           destruct (Z.ltb_spec (us_Seq session) seq); [|lia].
           apply list_lookup_insert_eq. exact (lookup_lt_Some _ _ _ Hsid).
        -- destruct (Z.ltb_spec (us_Seq session) seq); [lia|done].
      * done.
    + cbn. split_and!; [done|done|]. rewrite lookup_app_r // Nat.sub_diag //.
Qed.

(** ** The message loop *)

Lemma message_header_frame sid n :
  is_u32 sid -> is_u32 n -> message_header (pretty sid +:+ ":" +:+ pretty n) = Some (sid, n).
Proof.
  intros Hs Hn. unfold message_header. assert (forall z, is_u32 z -> no_char ":" (pretty z) = true) as Hc.
  { intros z [Hz _]. rewrite (pretty_Z_nonneg z Hz). apply all_digits_no_colon, all_digits_pretty. }
  rewrite (Split_app ":" (pretty sid)); [by apply Hc|]. rewrite (Split_no_char ":"); [by apply Hc|].
  by rewrite !ParseUint32_pretty.
Qed.

Lemma read_frame_header now sid n rest d :
  is_u32 sid -> is_u32 (Z.of_nat n) -> past_deadline now (mkSocket [] d) = false ->
  readLine now (mkSocket (frame_header sid n :: rest) d)
  = (Ok (pretty sid +:+ ":" +:+ pretty (Z.of_nat n)), mkSocket rest d).
Proof.
  intros Hs Hn Hd. apply readLine_segment; [by destruct (pretty sid)| | |done].
  - apply plain_app; [by apply pretty_u32_plain|]. apply (plain_app ":"); [by repeat constructor|].
    by apply pretty_u32_plain.
  - rewrite -length_bytes_of_string !bytes_of_string_app !length_app !length_bytes_of_string.
    pose proof (pretty_u32_length sid Hs). pose proof (pretty_u32_length _ Hn). simpl. lia.
Qed.

(** What a round does with a message announced as [n] bytes of which one read
    gets [got]: the log it writes, and that the loop goes on. *)
Definition answered (fd sid : Z) (msg : bytes) (response : option bytes) : list event :=
  EvMessage fd sid msg ::
  match response with Some r => [EvWrite fd (frame_header sid (length r)); EvWrite fd r] | None => [] end.

(** One round of the message loop, when the header of a message has come as a
    segment of its own and the next segment is no longer than announced: the
    handler is called once, with the session of the header and the bytes of
    that segment, filled up with zero bytes to the announced length (the message
    itself exactly when it came in one segment); its response is framed with the
    same session; the loop goes on with the segments that follow. *)
Theorem message_round_exact i c now s sid n body rest d :
  ms_conns s !! i = Some c -> cn_conn c = mkSocket (frame_header sid n :: body :: rest) d ->
  past_deadline now (mkSocket [] d) = false -> is_u32 sid -> is_u32 (Z.of_nat n) ->
  (0 < length body <= n)%nat ->
  let msg := fill n body in
  let '(s', goes_on) := messageLoop1 i c now s in
  goes_on = true
  /\ ms_log s' = ms_log s ++ answered (cn_fd c) sid msg (h_Message (ms_handler s) (cn_fd c) sid msg).2
  /\ ms_handler s' = (h_Message (ms_handler s) (cn_fd c) sid msg).1
  /\ (exists c', ms_conns s' !! i = Some c' /\ cn_conn c' = mkSocket rest d /\ cn_fd c' = cn_fd c)
  /\ length msg = n /\ (msg = body <-> length body = n).
Proof.
  intros Hi Hso Hd Hs Hn Hb msg. unfold messageLoop1. rewrite Hso read_frame_header // message_header_frame //.
  rewrite Nat2Z.id. unfold net_Read, past_deadline in *. cbn [so_deadline so_in] in *. rewrite Hd.
  destruct (Nat.eqb_spec n 0); [lia|]. destruct (Nat.leb_spec (length body) n); [|lia].
  cbn [ms_handler ms_set_conn cn_fd set_cn]. fold msg.
  destruct (h_Message (ms_handler s) (cn_fd c) sid msg) as [h response]. cbn [fst snd].
  match goal with |- context [touch_session ?c2 now ?t] => set s4 := t; set c' := c2 end.
  assert (ms_log (touch_session c' now s4) = ms_log s4 /\ ms_conns (touch_session c' now s4) = ms_conns s4
          /\ ms_handler (touch_session c' now s4) = ms_handler s4) as (-> & -> & ->).
  { unfold touch_session. destruct (cn_session c') as [k|]; [|done]. by destruct (ms_sess s4 !! k). }
  assert (ms_log s4 = ms_log s ++ answered (cn_fd c) sid msg response /\ ms_handler s4 = h
          /\ ms_conns s4 = <[i := c']> (<[i := set_cn (mkSocket (body :: rest) d) Looping c]> (ms_conns s))) as (-> & -> & ->).
  { subst s4. unfold answered, net_Write. destruct response; cbn; [|done]. by rewrite -!app_assoc. }
  split_and!; try done.
  - exists c'. split; [|done]. apply list_lookup_insert_eq. rewrite length_insert. exact (lookup_lt_Some _ _ _ Hi).
  - unfold msg, fill. rewrite length_app length_replicate. lia.
  - unfold msg, fill. split.
    + intros E. apply (f_equal length) in E. rewrite length_app length_replicate in E. lia.
    + intros <-. by rewrite Nat.sub_diag app_nil_r.
Qed.

(** A header and its body that come in one segment are read as one line, which is
    no header: the message is dropped and nobody is told. *)
Lemma coalesced_message_lost i c now s sid n body z rest d :
  ms_conns s !! i = Some c -> cn_conn c = mkSocket ((frame_header sid n ++ body ++ [z]) :: rest) d ->
  past_deadline now (mkSocket [] d) = false -> is_u32 sid ->
  Forall Net.is_byte body -> plain z = true -> (length (frame_header sid n ++ body ++ [z]) <= 1024)%nat ->
  messageLoop1 i c now s = (ms_set_conn i (set_cn (mkSocket rest d) Looping c) s, true).
Proof.
  intros Hi Hso Hd Hs Hb Hz Hlen. unfold messageLoop1, readLine, net_Read, past_deadline in *.
  rewrite Hso. cbn [so_deadline so_in] in *. rewrite Hd. cbn [Nat.eqb].
  destruct (Nat.leb_spec (length (frame_header sid n ++ body ++ [z])) 1024); [|lia].
  match goal with |- context [message_header ?l] => assert (message_header l = None) as -> end; [|done].
  assert (Net.is_byte z) as Hzb.
  { unfold plain in Hz. apply andb_prop in Hz as [?%Z.leb_le ?%Z.leb_le]. unfold Net.is_byte. lia. }
  set tail := pretty (Z.of_nat n) +:+ String "010" (string_of_bytes (body ++ [z])).
  assert (TrimSpace (string_of_bytes (frame_header sid n ++ body ++ [z])) = pretty sid +:+ String ":" tail) as ->.
  { assert (bytes_of_string (pretty sid +:+ String ":" tail) = frame_header sid n ++ body ++ [z]) as E.
    { unfold tail, frame_header. rewrite !bytes_of_string_app. cbn [bytes_of_string].
      rewrite bytes_of_string_app. cbn [bytes_of_string].
      rewrite bytes_of_string_of_bytes; [by apply Forall_app; split; [|constructor]|].
      by rewrite -!app_assoc. }
    rewrite -E string_of_bytes_of_string. unfold TrimSpace. rewrite E.
    destruct (bytes_of_string (pretty sid)) as [|x m] eqn:Hps.
    { destruct (pretty sid) eqn:Hp; [|done]. destruct Hs as [Hs _]. rewrite (pretty_Z_nonneg sid Hs) in Hp.
      by apply pretty_N_nonempty in Hp. }
    pose proof (pretty_u32_plain sid Hs) as Hpl. rewrite Hps in Hpl. inversion Hpl; subst.
    assert (exists m', frame_header sid n ++ body ++ [z] = x :: m' ++ [z]) as [m' Em].
    { unfold frame_header. rewrite bytes_of_string_app Hps. eexists. cbn [app]. f_equal.
      rewrite !app_assoc. reflexivity. }
    rewrite Em trim_bytes_ends // -Em -E. apply string_of_bytes_of_string. }
  unfold message_header. assert (no_char ":" (pretty sid) = true) as Hc.
  { destruct Hs as [Hs _]. rewrite (pretty_Z_nonneg sid Hs). apply all_digits_no_colon, all_digits_pretty. }
  rewrite Split_app //. destruct (Split ":" tail) as [|q [|q2 l]] eqn:Hq; [done| |done].
  apply Split_single in Hq as ->. rewrite ParseUint32_pretty //. unfold tail. by rewrite ParseUint32_bad.
Qed.

(** ** The loop ends when its input does *)

(** A round keeps the connection, and uses up input when it goes on. *)
Lemma round_progress i c now s :
  ms_conns s !! i = Some c ->
  exists c', ms_conns (messageLoop1 i c now s).1 !! i = Some c'
    /\ ((messageLoop1 i c now s).2 = true -> (input_left (cn_conn c') < input_left (cn_conn c))%nat).
Proof.
  intros Hi. pose proof (lookup_lt_Some _ _ _ Hi) as Hlt. unfold messageLoop1, readLine.
  destruct (net_Read 1024 now (cn_conn c)) as [[b|e] so] eqn:Hr.
  2: { eexists. split; [cbn; by apply list_lookup_insert_eq|done]. }
  apply net_Read_left in Hr as [_ Hr]. specialize (Hr ltac:(done)).
  destruct (message_header _) as [[sid len]|].
  2: { eexists. split; [cbn; by apply list_lookup_insert_eq|done]. }
  destruct (net_Read (Z.to_nat len) now so) as [[got|e] so'] eqn:Hr'.
  2: { eexists. split; [cbn; apply list_lookup_insert_eq; by rewrite length_insert|done]. }
  apply net_Read_left in Hr' as [Hr' _].
  match goal with |- context [h_Message ?a ?b ?c ?d] => destruct (h_Message a b c d) as [h response] end. cbn [fst snd].
  match goal with |- context [touch_session ?c2 now ?t] => destruct (touch_session_fields c2 now t) as [-> _] end.
  exists (set_cn so' Looping (set_cn so Looping c)). split; [|cbn; lia].
  destruct response; cbn; apply list_lookup_insert_eq; by rewrite length_insert.
Qed.

(** C31. The message loop terminates: run at any times, the rounds of a connection
    come to their end, and the deferred calls to their turn, after no more
    rounds than there are segments and bytes to arrive, and one. *)
Theorem message_loop_ends i c s times :
  ms_conns s !! i = Some c -> cn_phase c = Looping -> (input_left (cn_conn c) < length times)%nat ->
  exists c', ms_conns (fold_left ms_step (map (OpRound i) times) s) !! i = Some c' /\ cn_phase c' = Ended.
Proof.
  assert (forall s, (exists c, ms_conns s !! i = Some c /\
      (cn_phase c = Ended \/ cn_phase c = Looping /\ (input_left (cn_conn c) < length times)%nat)) ->
    exists c', ms_conns (fold_left ms_step (map (OpRound i) times) s) !! i = Some c' /\ cn_phase c' = Ended) as Hgen.
  2: { intros Hi Hp Hl. apply Hgen. exists c. auto. }
  clear c s. induction times as [|t times IH]; intros s (c & Hi & Hc); [destruct Hc as [?|[_ ?]]; [by exists c|simpl in *; lia]|].
  cbn [map fold_left]. apply IH. cbn [ms_step]. rewrite Hi. case_decide as Hp.
  2: { exists c. destruct Hc as [?|[? _]]; [auto|done]. }
  destruct Hc as [?|[_ Hl]]; [congruence|]. destruct (round_progress i c t s Hi) as (c' & Hi' & Hdec).
  unfold conn_goes. rewrite Hi'. pose proof (lookup_lt_Some _ _ _ Hi') as Hlt. destruct (messageLoop1 i c t s).2.
  - exists (set_cn (cn_conn c') Looping c'). split; [by apply list_lookup_insert_eq|]. right. split; [done|].
    specialize (Hdec eq_refl). simpl in *. lia.
  - exists (set_cn (cn_conn c') Ended c'). split; [|by left]. unfold ms_finish.
    destruct (cn_session c'); by apply list_lookup_insert_eq.
Qed.

(** ** Sessions that have not been seen for long *)

(** Cleaning up removes exactly the expired sessions, in any order of the map. *)
Lemma cleanup_sessions_exact timeout now ks s u sid :
  range_order (ms_sessions s) ks ->
  ms_sessions (CleanupSessions timeout now ks s) !! u = Some sid <->
  ms_sessions s !! u = Some sid /\ session_expired now timeout s sid = false.
Proof.
  intros Hks. unfold CleanupSessions.
  assert (forall ks s, ms_sessions (cleanup_loop now timeout ks s) !! u = Some sid <->
    ms_sessions s !! u = Some sid /\ (u ∈ ks -> session_expired now timeout s sid = false)) as Hgen.
  { clear ks s Hks. induction ks as [|k ks IH]; intros s; [set_solver|]. cbn [cleanup_loop].
    destruct (ms_sessions s !! k) as [sk|] eqn:Hk.
    2: { rewrite IH. set_solver. }
    destruct (session_expired now timeout s sk) eqn:Hx.
    - rewrite IH. cbn [ms_sessions ms_set_tables]. rewrite lookup_delete_Some elem_of_cons.
      change (session_expired now timeout (ms_set_tables _ _ s) sid) with (session_expired now timeout s sid).
      naive_solver congruence.
    - rewrite IH elem_of_cons. naive_solver congruence. }
  rewrite Hgen. split; [|naive_solver]. intros [Hu Hx]. split; [done|]. apply Hx.
  apply (elem_of_range_order (ms_sessions s)); [done|by exists sid].
Qed.

End server.

(** ** A run *)

(** A handler that lets everybody in and echoes. *)
#[local] Instance echo_handler : MsgHandler unit := {|
  h_Connect := fun h _ _ => h;
  h_Disconnect := fun h _ => h;
  h_Error := fun h _ _ => h;
  h_Message := fun h _ _ m => (h, Some m);
  h_Auth := fun h u _ => (h, Ok (u, "1"));
|}.

Definition demo_config := mkMsgServerConfig "127.0.0.1" 8888 "demo" 10 0.
Definition demo_hello : bytes := bytes_of_string (client_hello "ann" 5 [1; 2; 3]) ++ [10].
Definition demo_ops : list msop :=
  [OpStart None; OpAccept (Ok ("a", [demo_hello; frame_header 7 2; [104; 105]])) 0;
   OpHandshake 0 0 (fun _ => 0); OpRound 0 0].

Lemma heard_only_authenticated_witness :
  exists l1 l2, ms_log (ms_run demo_config tt demo_ops) = l1 ++ EvMessage 1 7 [104; 105] :: l2 /\ authed 1 l1.
Proof.
  exists [EvConnect 1 "a"; EvAuth 1 "ann" [1; 2; 3] (Ok ("ann", "1")); EvWrite 1 (bytes_of_string "200 OK" ++ [10])],
    [EvWrite 1 (frame_header 7 2); EvWrite 1 [104; 105]].
  assert (ms_log (ms_run demo_config tt demo_ops) =
    [EvConnect 1 "a"; EvAuth 1 "ann" [1; 2; 3] (Ok ("ann", "1")); EvWrite 1 (bytes_of_string "200 OK" ++ [10])]
    ++ EvMessage 1 7 [104; 105] :: [EvWrite 1 (frame_header 7 2); EvWrite 1 [104; 105]]) as E
    by (vm_compute; reflexivity).
  split; [exact E|]. exact (heard_only_authenticated demo_config tt demo_ops _ 1 7 [104; 105] _ E).
Defined.

Definition demo_conn (segs : list bytes) (p : phase) : Connection := mkConnection 1 (mkSocket segs None) None 0 p.
Definition demo_server (c : Connection) : MsgServer unit :=
  mkMsgServer demo_config tt true {[1 := 0%nat]} ∅ 2 true [c] [] [].

Lemma handshake_exact_witness :
  (handleHandshake 0 (demo_conn [demo_hello] Handshaking) 0 (fun _ => 0)
     (demo_server (demo_conn [demo_hello] Handshaking))).2 = true.
Proof.
  pose proof (handshake_exact 0 (demo_conn [demo_hello] Handshaking) 0 (fun _ => 0)
    (demo_server (demo_conn [demo_hello] Handshaking)) "ann" 5 [1; 2; 3] [] None eq_refl eq_refl eq_refl) as W.
  cbn [h_Auth echo_handler] in W.
  destruct (handleHandshake 0 (demo_conn [demo_hello] Handshaking) 0 (fun _ => 0)
     (demo_server (demo_conn [demo_hello] Handshaking))) as [s' ok].
  cbn [ms_sessions demo_server lookup] in W. apply W; clear W; [by split; [repeat constructor|]|done|by repeat constructor|].
  vm_compute. lia.
Defined.

Lemma message_round_exact_witness :
  (messageLoop1 0 (demo_conn [frame_header 7 2; [104; 105]] Looping) 0
     (demo_server (demo_conn [frame_header 7 2; [104; 105]] Looping))).2 = true.
Proof.
  pose proof (message_round_exact 0 (demo_conn [frame_header 7 2; [104; 105]] Looping) 0
    (demo_server (demo_conn [frame_header 7 2; [104; 105]] Looping)) 7 2 [104; 105] [] None
    eq_refl eq_refl eq_refl ltac:(done) ltac:(done) ltac:(simpl; lia)) as W.
  cbv zeta in W. by destruct (messageLoop1 _ _ _ _) as [s' ok]; destruct W.
Defined.

Lemma message_loop_ends_witness :
  exists c', ms_conns (fold_left ms_step (map (OpRound 0) (replicate 9 0))
    (demo_server (demo_conn [frame_header 7 2; [104; 105]] Looping))) !! 0%nat = Some c' /\ cn_phase c' = Ended.
Proof.
  apply (message_loop_ends 0 (demo_conn [frame_header 7 2; [104; 105]] Looping)
    (demo_server (demo_conn [frame_header 7 2; [104; 105]] Looping)) (replicate 9 0));
    [reflexivity|reflexivity|vm_compute; lia].
Defined.

(** The hello that made the session is accepted a second time: a recorded
    handshake opens a connection of its own. *)
Example first_handshake_replayed :
  let s := ms_run demo_config tt
    [OpStart None; OpAccept (Ok ("a", [demo_hello])) 0; OpHandshake 0 0 (fun _ => 0);
     OpAccept (Ok ("thief", [demo_hello])) 0; OpHandshake 1 0 (fun _ => 0)] in
  map cn_phase (ms_conns s) = [Looping; Looping] /\ map cn_session (ms_conns s) = [Some 0%nat; Some 0%nat].
Proof. by vm_compute. Qed.

(** A server with a timeout ends a connection at that time after its start,
    however active it has been: the deadline is set once. *)
Example deadline_is_absolute :
  let s := ms_run (mkMsgServerConfig "h" 1 "n" 10 30) tt
    [OpStart None; OpAccept (Ok ("a", [demo_hello; frame_header 7 2; [104; 105]; frame_header 8 2; [104; 105]])) 0;
     OpHandshake 0 0 (fun _ => 0); OpRound 0 (29 * Second); OpRound 0 (30 * Second)] in
  map cn_phase (ms_conns s) = [Ended].
Proof. by vm_compute. Qed.
