(* ===== verification/LoginServer.v ===== *)
(** src/loginserver/loginserver.go: the login server. A client exchanges keys,
    proves the shared secret with an HMAC of the challenge, sends its token
    encrypted, and is told its sub-id. The client of
    src/examples/login/client/main.go is modelled beside it, and the two together
    log in. The handler is the class [LoginHandler], the Go interface [Handler]. *)

From S2P Require Import Prelude CoreTypes NetMessage GoText GoCrypto Crypt.

Record LoginServerConfig := mkLoginServerConfig {
  lc_Host : string;
  lc_Port : Z;
  lc_Name : string;
  lc_MultiLogin : bool;
}.

Record UserInfo := mkUserInfo {
  ui_UID : string;
  ui_Server : string;
  ui_Address : string;
  ui_SubID : string;
  ui_LoginAt : time;
}.

Class LoginHandler (H : Type) := {
  lh_Auth : H -> string -> H * res (string * string);
  lh_Login : H -> string -> string -> bytes -> H * res string;
}.

(** What the client and the game servers are sent. A game server gets the JSON of
    a map of three strings, which [json.Marshal] always accepts. *)
Inductive lout :=
| LWrite (data : bytes)
| LKick (server : string) (uid subid : string).

(** A registered game server is known by its handle. *)
Record LoginServer (H : Type) := mkLoginServer {
  ls_config : LoginServerConfig;
  ls_handler : H;
  ls_listener : bool;
  ls_actors : gmap string string;
  ls_users : gmap string UserInfo;
}.
Arguments mkLoginServer {H}. Arguments ls_config {H}. Arguments ls_handler {H}. Arguments ls_listener {H}.
Arguments ls_actors {H}. Arguments ls_users {H}.

Section server.
Context {H : Type} `{LoginHandler H}.
Notation LoginServer := (LoginServer H).

Definition NewLoginServer (config : LoginServerConfig) (handler : H) : LoginServer :=
  mkLoginServer config handler false ∅ ∅.

Definition ls_set_handler (h : H) (s : LoginServer) : LoginServer :=
  mkLoginServer (ls_config s) h (ls_listener s) (ls_actors s) (ls_users s).
Definition ls_set_users (us : gmap string UserInfo) (s : LoginServer) : LoginServer :=
  mkLoginServer (ls_config s) (ls_handler s) (ls_listener s) (ls_actors s) us.

(** [listen], [close]: what the network answers. *)
Definition ls_Start (listen : option error) (s : LoginServer) : LoginServer * option error :=
  match listen with
  | Some e => (s, Some ("failed to listen on " +:+ lc_Host (ls_config s) +:+ ":" +:+ pretty (lc_Port (ls_config s))
                        +:+ ": " +:+ e))
  | None => (mkLoginServer (ls_config s) (ls_handler s) true (ls_actors s) (ls_users s), None)
  end.
Definition ls_Stop (close : option error) (s : LoginServer) : option error :=
  if ls_listener s then close else None.

Definition RegisterGameServer (server : string) (handle : string) (s : LoginServer) : LoginServer :=
  mkLoginServer (ls_config s) (ls_handler s) (ls_listener s) (<[server := handle]> (ls_actors s)) (ls_users s).

Definition Logout (uid subid : string) (s : LoginServer) : LoginServer :=
  match ls_users s !! uid with
  | Some userInfo => if eqs (ui_SubID userInfo) subid then ls_set_users (delete uid (ls_users s)) s else s
  | None => s
  end.

Definition GetOnlineUsers (s : LoginServer) : gmap string UserInfo := ls_users s.

Definition kickUser (userInfo : UserInfo) (s : LoginServer) : LoginServer * list lout :=
  (ls_set_users (delete (ui_UID userInfo) (ls_users s)) s,
   match ls_actors s !! ui_Server userInfo with
   | Some _ => [LKick (ui_Server userInfo) (ui_UID userInfo) (ui_SubID userInfo)]
   | None => []
   end).

Definition ls_readLine (now : time) (so : socket) : res string * socket :=
  match net_Read 1024 now so with
  | (Err e, so') => (Err e, so')
  | (Ok b, so') => (Ok (TrimSpace (string_of_bytes b)), so')
  end.

Definition line_of (s : string) : bytes := bytes_of_string s ++ [10].

(** ** One connection *)

(** A line of the client, decoded from base64. *)
Definition read_b64 (now : time) (so : socket) : option bytes * socket :=
  match ls_readLine now so with
  | (Err _, so') => (None, so')
  | (Ok line, so') => (Base64Decode line, so')
  end.

(** The key exchange, up to the decrypted token: what was written, and the secret
    and the token, if it came so far. A panic of the crypt package ends the
    connection like an error, since [handleConnection] recovers.
    [w1], [w2]: what the two first writes answer. *)
Definition exchange (challenge serverPrivate : bytes) (w1 w2 : option error) (now : time) (so0 : socket)
    : list lout * go (option (bytes * string)) :=
  match w1 with
  | Some _ => ([], Ret None)
  | None =>
      let out1 := [LWrite (line_of (Base64Encode challenge))] in
      let '(k, so1) := read_b64 now so0 in
      match k with
      | None => (out1, Ret None)
      | Some clientKey =>
          match DHExchange serverPrivate with
          | Panic w => (out1, Panic w)
          | Hang => (out1, Hang)
          | Ret serverPublic =>
              match w2 with
              | Some _ => (out1, Ret None)
              | None =>
                  let out2 := out1 ++ [LWrite (line_of (Base64Encode serverPublic))] in
                  match DHSecret serverPrivate clientKey with
                  | Panic w => (out2, Panic w)
                  | Hang => (out2, Hang)
                  | Ret secret =>
                      let '(m, so2) := read_b64 now so1 in
                      match m with
                      | None => (out2, Ret None)
                      | Some clientHMAC =>
                          if negb (bool_decide (clientHMAC = HMAC64 challenge secret)) then
                            (out2 ++ [LWrite (line_of "401 HMAC verification failed")], Ret None)
                          else
                            let '(t, _) := read_b64 now so2 in
                            match t with
                            | None => (out2, Ret None)
                            | Some encryptedToken =>
                                match DesDecode secret encryptedToken with
                                | Panic w => (out2, Panic w)
                                | Hang => (out2, Hang)
                                | Ret tokenBytes => (out2, Ret (Some (secret, string_of_bytes tokenBytes)))
                                end
                            end
                      end
                  end
              end
          end
      end
  end.

(** The rest of the handler: the token is checked, an earlier login of the user
    ends, the game server is asked, the user is recorded. *)
Definition login (secret : bytes) (token : string) (now : time) (s : LoginServer) : LoginServer * list lout :=
  let '(h, a) := lh_Auth (ls_handler s) token in
  let s := ls_set_handler h s in
  match a with
  | Err e => (s, [LWrite (line_of ("403 " +:+ e))])
  | Ok (server, uid) =>
      match ls_actors s !! server with
      | None => (s, [LWrite (line_of "404 Unknown server")])
      | Some handle =>
          let '(s1, out) :=
            if lc_MultiLogin (ls_config s) then (s, [])
            else match ls_users s !! uid with
                 | Some existingUser => kickUser existingUser s
                 | None => (s, [])
                 end in
          let '(h2, l) := lh_Login (ls_handler s1) server uid secret in
          let s2 := ls_set_handler h2 s1 in
          match l with
          | Err e => (s2, out ++ [LWrite (line_of ("500 " +:+ e))])
          | Ok subid =>
              (ls_set_users (<[uid := mkUserInfo uid server handle subid now]> (ls_users s2)) s2,
               out ++ [LWrite (line_of ("200 " +:+ Base64Encode (bytes_of_string subid)))])
          end
      end
  end.

(** [rnd1], [rnd2]: what the random source gives for the challenge and the key. *)
Definition ls_handleConnection (segs : list bytes) (rnd1 rnd2 : nat -> Z) (w1 w2 : option error) (start now : time)
    (s : LoginServer) : LoginServer * list lout :=
  let so := mkSocket segs (Some (start + 30 * Second)) in
  match exchange (RandomKey rnd1) (RandomKey rnd2) w1 w2 now so with
  | (out, Ret (Some (secret, token))) => let '(s', out') := login secret token now s in (s', out ++ out')
  | (out, _) => (s, out)
  end.

(** ** The client of the example *)

(** [performLogin] up to the response: the three lines it sends, given the two it
    is sent and its random key. The user, server and password are its constants. *)
Definition performLogin (challengeLine serverKeyLine : string) (clientPrivate : bytes) (token : string)
    : go (option (bytes * bytes * bytes)) :=
  match Base64Decode (TrimSpace challengeLine) with
  | None => Ret None
  | Some challenge =>
      clientPublic ← DHExchange clientPrivate;
      match Base64Decode (TrimSpace serverKeyLine) with
      | None => Ret None
      | Some serverPublic =>
          secret ← DHSecret clientPrivate serverPublic;
          encryptedToken ← DesEncode secret (bytes_of_string token);
          Ret (Some (line_of (Base64Encode clientPublic), line_of (Base64Encode (HMAC64 challenge secret)),
                     line_of (Base64Encode encryptedToken)))
      end
  end.
Definition login_token (user server password : string) : string :=
  Base64Encode (bytes_of_string user) +:+ "@" +:+ Base64Encode (bytes_of_string server) +:+ ":"
  +:+ Base64Encode (bytes_of_string password).

(** ** Lines of base64 *)

Lemma b64_length b : String.length (b64_EncodeToString b) = (4 * ((length b + 2) / 3))%nat.
Proof.
  induction b as [|x|x y|x y z b IH] using triple_ind; [done|done|done|].
  cbn [b64_EncodeToString String.length length]. rewrite IH.
  replace (S (S (S (length b))) + 2)%nat with (1 * 3 + (length b + 2))%nat by lia.
  rewrite Nat.div_add_l; lia.
Qed.

(** A line that carries bytes is read and decoded to them. *)
Lemma read_b64_line now b rest d :
  b <> [] -> Forall Net.is_byte b -> (length b <= 760)%nat -> past_deadline now (mkSocket [] d) = false ->
  read_b64 now (mkSocket (line_of (Base64Encode b) :: rest) d) = (Some b, mkSocket rest d).
Proof.
  intros Hne Hb Hl Hd. assert (b64_EncodeToString b <> "") as Hs by (destruct b; [done|apply b64_nonempty]).
  assert (String.length (b64_EncodeToString b) < 1024)%nat as Hsl.
  { rewrite b64_length. pose proof (Nat.div_le_mono (length b + 2) 762 3 ltac:(lia) ltac:(lia)) as Hdiv.
    change (762 / 3)%nat with 254%nat in Hdiv. lia. }
  destruct (read_line_segment now _ rest d Hs (b64_visible b Hb) Hsl Hd) as (seg & E1 & E2).
  unfold read_b64, ls_readLine, line_of, Base64Encode, Base64Decode. rewrite E1 E2. by rewrite b64_roundtrip.
Qed.

Lemma b64_line_back b :
  b <> [] -> Forall Net.is_byte b -> Base64Decode (TrimSpace (string_of_bytes (line_of (Base64Encode b)))) = Some b.
Proof.
  intros Hne Hb. unfold line_of, Base64Encode. rewrite TrimSpace_line; [|by apply b64_visible|by apply b64_roundtrip].
  destruct b; [done|apply b64_nonempty].
Qed.

Lemma HMAC64_bytes c k : Forall Net.is_byte (HMAC64 c k).
Proof.
  unfold HMAC64, hmac_sha1, sha1_Sum. apply Forall_take. cbv zeta. generalize (fold_left sha1_block). intros f.
  apply Forall_bind, Forall_true. intros. apply be_put_bytes.
Qed.

Lemma sealed_bytes key b : Forall Net.is_byte (blockwise (des_Encrypt key) b).
Proof.
  unfold blockwise. induction (chunks (length b) 8 b) as [|x l IH]; [done|]. cbn [map concat].
  apply Forall_app; split; [apply des_block_block|done].
Qed.

Lemma ne_of_length {A} (b : list A) n : length b = S n -> b <> [].
Proof. by intros E ->. Qed.

(** The exchange between an honest client and the server: both compute what they
    need, and the server hands the token to the login step. *)
Lemma exchange_honest rnd1 rnd2 clientPrivate token start now s :
  length clientPrivate = 8%nat -> Forall Net.is_byte clientPrivate ->
  token <> "" -> (String.length token <= 700)%nat ->
  (String.length token mod 8 <> 0)%nat \/ looks_padded (bytes_of_string token) = false ->
  now < start + 30 * Second ->
  exists challenge pubC pubS secret sealed,
    (challenge <> [] /\ Forall Net.is_byte challenge) /\ (pubS <> [] /\ Forall Net.is_byte pubS)
    /\ DHExchange clientPrivate = Ret pubC /\ DHSecret clientPrivate pubS = Ret secret
    /\ DesEncode secret (bytes_of_string token) = Ret sealed /\ length secret = 8%nat
    /\ ls_handleConnection [line_of (Base64Encode pubC); line_of (Base64Encode (HMAC64 challenge secret)); line_of (Base64Encode sealed)]
         rnd1 rnd2 None None start now s
       = (let '(s', out) := login secret token now s in
          (s', [LWrite (line_of (Base64Encode challenge)); LWrite (line_of (Base64Encode pubS))] ++ out)).
Proof.
  intros Hcl Hcb Htne Htl Htok Hnow. destruct (RandomKey_key rnd1) as [Hch Hchb]. destruct (RandomKey_key rnd2) as [Hsp Hspb].
  remember (RandomKey rnd1) as challenge eqn:Ec. remember (RandomKey rnd2) as private eqn:Ep.
  destruct (dh_agreement_facts clientPrivate private Hcl Hsp Hcb Hspb)
    as (pubC & pubS & secret & HpC & HpS & Hs1 & Hs2 & Hlen & LC & LS & BC & BS).
  destruct (des_envelope_facts secret (bytes_of_string token) Hlen (bytes_of_string_byte token)) as (sealed & He & Hsl & Hdec).
  assert (Forall Net.is_byte sealed) as Hsb.
  { unfold DESEncode in He. destruct (negb _); [done|]. injection He as <-. apply sealed_bytes. }
  assert (DESDecode secret sealed = Ret (bytes_of_string token)) as Hopen by (apply Hdec; by rewrite length_bytes_of_string).
  exists challenge, pubC, pubS, secret, sealed.
  assert (past_deadline now (mkSocket [] (Some (start + 30 * Second))) = false) as Hd by (cbn; lia).
  assert (sealed <> []) as Hsne.
  { intros ->. rewrite length_bytes_of_string in Hsl. destruct token; [done|]. simpl in Hsl. lia. }
  split_and!; try done; [exact (ne_of_length _ _ Hch)|exact (ne_of_length _ _ LS)|].
  unfold ls_handleConnection, exchange. rewrite -Ec -Ep.
  rewrite read_b64_line; [exact (ne_of_length _ _ LC)|done|rewrite LC; lia|done|]. rewrite HpS Hs2.
  rewrite read_b64_line; [exact (ne_of_length _ _ (HMAC64_length _ _))|apply HMAC64_bytes|rewrite HMAC64_length; lia|done|].
  rewrite bool_decide_true //. cbn [negb].
  rewrite read_b64_line; [done|done| |done|].
  { rewrite Hsl length_bytes_of_string. pose proof (pad_len_spec (String.length token)). lia. }
  unfold DesDecode. rewrite Hopen string_of_bytes_of_string. by destruct (login secret token now s).
Qed.


(** ** The login step *)

(** A user is kept under its own id. *)
Definition users_wf (s : LoginServer) : Prop := forall uid u, ls_users s !! uid = Some u -> ui_UID u = uid.

(** The user that is logged in already and has to go. *)
Definition displaced (uid : string) (s : LoginServer) : option UserInfo :=
  if lc_MultiLogin (ls_config s) then None else ls_users s !! uid.

Definition kick_note (uid : string) (s : LoginServer) : list lout :=
  match displaced uid s with Some u => (kickUser u s).2 | None => [] end.

Lemma login_users_kept secret token now s : users_wf s -> users_wf (login secret token now s).1.
Proof.
  intros Hwf. unfold login, kickUser. destruct (lh_Auth (ls_handler s) token) as [h [[server uid]|e]]; [|done].
  cbn [ls_actors ls_set_handler ls_users ls_config]. destruct (ls_actors s !! server) as [handle|]; [|done].
  assert (forall us : gmap string UserInfo, (forall v u, us !! v = Some u -> ui_UID u = v) ->
    forall v u subid, <[uid := mkUserInfo uid server handle subid now]> us !! v = Some u -> ui_UID u = v) as Hins.
  { intros us Hus v u subid [[<- <-]|[_ ?]]%lookup_insert_Some; [done|by apply Hus]. }
  assert (forall v u k, delete k (ls_users s) !! v = Some u -> ui_UID u = v) as Hdel.
  { intros v u k [_ ?]%lookup_delete_Some. by apply Hwf. }
  destruct (lc_MultiLogin (ls_config s)); [|destruct (ls_users s !! uid) as [old|]]; cbn;
    match goal with |- context [lh_Login ?a ?b ?c ?d] => destruct (lh_Login a b c d) as [h2 [subid|e]] end;
    intros v u; cbn; try apply Hins; try apply Hwf; try apply Hdel; intros v' u'; try apply Hdel; apply Hwf.
Qed.

Lemma Logout_exact uid subid s v :
  ls_users (Logout uid subid s) !! v =
    if bool_decide (v = uid) && bool_decide (ui_SubID <$> ls_users s !! uid = Some subid) then None else ls_users s !! v.
Proof.
  unfold Logout. destruct (ls_users s !! uid) as [u|] eqn:Hu; cbn [fmap option_fmap option_map].
  - destruct (eqs (ui_SubID u) subid) eqn:E.
    + apply eqs_true in E as <-. rewrite (bool_decide_true (Some _ = Some _)) // andb_true_r. cbn.
      case_bool_decide as Ev; [subst; apply lookup_delete_eq|].
      rewrite lookup_delete_ne; [congruence|done].
    + rewrite (bool_decide_false (Some (ui_SubID u) = Some subid)) ?andb_false_r //.
      intros [= Es]. by rewrite (proj2 (eqs_true _ _) Es) in E.
  - by rewrite (bool_decide_false (None = Some subid)) ?andb_false_r.
Qed.

(** The login step, on every branch: a token the handler refuses, and a server
    nobody registered, are answered with 403 and 404 and change no user. With a
    registered server, a user who is logged in already is sent a kick first when
    multiple logins are off, and is gone whether or not the new login succeeds;
    if the game server agrees, the user is recorded with the sub-id it gave,
    nobody else is touched, and the client is told 200 and the sub-id. *)
Theorem login_exact secret token now s :
  users_wf s ->
  let '(h, a) := lh_Auth (ls_handler s) token in
  let '(s', out) := login secret token now s in
  match a with
  | Err e => ls_users s' = ls_users s /\ out = [LWrite (line_of ("403 " +:+ e))]
  | Ok (server, uid) =>
      match ls_actors s !! server with
      | None => ls_users s' = ls_users s /\ out = [LWrite (line_of "404 Unknown server")]
      | Some handle =>
          (forall v, v <> uid -> ls_users s' !! v = ls_users s !! v)
          /\ match (lh_Login h server uid secret).2 with
             | Ok subid =>
                 ls_users s' !! uid = Some (mkUserInfo uid server handle subid now)
                 /\ out = kick_note uid s ++ [LWrite (line_of ("200 " +:+ Base64Encode (bytes_of_string subid)))]
             | Err e =>
                 ls_users s' !! uid = (if lc_MultiLogin (ls_config s) then ls_users s !! uid else None)
                 /\ out = kick_note uid s ++ [LWrite (line_of ("500 " +:+ e))]
             end
      end
  end.
Proof.
  intros Hwf. unfold login, kick_note, displaced, kickUser.
  destruct (lh_Auth (ls_handler s) token) as [h [[server uid]|e]]; [|done].
  cbn [ls_actors ls_set_handler ls_users ls_config]. destruct (ls_actors s !! server) as [handle|]; [|done].
  destruct (lc_MultiLogin (ls_config s)); [|destruct (ls_users s !! uid) as [old|] eqn:Hold; [rewrite (Hwf uid old Hold)|]];
    cbn; destruct (lh_Login h server uid secret) as [h2 [subid|e]]; cbn;
    (split; [intros v Hv; rewrite ?lookup_insert_ne ?lookup_delete_ne; congruence
            |split; [rewrite ?lookup_insert_eq ?lookup_delete_eq //|done]]).
Qed.

End server.

(** ** A run *)

#[local] Instance any_login : LoginHandler unit := {|
  lh_Auth := fun h token => (h, Ok ("sample", token));
  lh_Login := fun h _ _ _ => (h, Ok "1");
|}.

Definition demo_login : LoginServer unit :=
  RegisterGameServer "sample" "gate" (NewLoginServer (mkLoginServerConfig "h" 8001 "l" false) tt).


Lemma login_exact_witness :
  ls_users (login [] "ann" 5 demo_login).1 !! "ann" = Some (mkUserInfo "ann" "sample" "gate" "1" 5).
Proof.
  assert (users_wf demo_login) as Hwf by done.
  exact (proj1 (proj2 (login_exact [] "ann" 5 demo_login Hwf))).
Defined.

(** The HMAC and the token that the client writes one after the other may come in
    one segment: they are read as one line, and the login fails. *)
Definition demo_challenge : bytes := line_of (Base64Encode (RandomKey (fun _ => 7))).
Definition demo_key : bytes :=
  match DHExchange (RandomKey (fun _ => 9)) with Ret b => line_of (Base64Encode b) | _ => [] end.
Definition demo_lines : bytes * bytes * bytes :=
  match performLogin (string_of_bytes demo_challenge) (string_of_bytes demo_key) [1;2;3;4;5;6;7;8] "ann" with
  | Ret (Some ls) => ls
  | _ => ([], [], [])
  end.

Example coalesced_login_fails :
  let '(l1, l2, l3) := demo_lines in
  (ls_handleConnection [l1; l2; l3] (fun _ => 7) (fun _ => 9) None None 0 0 demo_login).2
    = [LWrite demo_challenge; LWrite demo_key; LWrite (line_of "200 MQ==")]
  /\ (ls_handleConnection [l1; l2 ++ l3] (fun _ => 7) (fun _ => 9) None None 0 0 demo_login).2
    = [LWrite demo_challenge; LWrite demo_key].
Proof. vm_compute. by split. Qed.
