(* ===== verification/LoginExample.v ===== *)
(** src/examples/login: the login and message handlers of the example server, as
    instances of the handler classes of [LoginServer] and [MsgServer], and what
    the two servers do with them. *)

From S2P Require Import Prelude CoreTypes NetMessage GoText Crypt MsgServer LoginServer.
From Stdlib Require Import Ascii.

(** ** LoginHandler *)

(** [gameServers]; the pointers to the two servers are the servers' own states. *)
Record ExLogin := mkExLogin { xl_gameServers : gmap string string }.
Definition NewLoginHandler : ExLogin := mkExLogin ∅.

Definition AuthHandler (h : ExLogin) (token : string) : res (string * string) :=
  match Split "@" token with
  | [userPart; serverPassPart] =>
      match Split ":" serverPassPart with
      | [serverPart; passwordPart] =>
          match Base64Decode userPart with
          | None => Err "invalid user encoding"
          | Some userBytes =>
              match Base64Decode serverPart with
              | None => Err "invalid server encoding"
              | Some serverBytes =>
                  match Base64Decode passwordPart with
                  | None => Err "invalid password encoding"
                  | Some passwordBytes =>
                      let user := string_of_bytes userBytes in
                      let server := string_of_bytes serverBytes in
                      if negb (eqs (string_of_bytes passwordBytes) "password") then Err "invalid password"
                      else match xl_gameServers h !! server with
                           | None => Err ("unknown server: " +:+ server)
                           | Some _ => Ok (server, user)
                           end
                  end
              end
          end
      | _ => Err "invalid token format"
      end
  | _ => Err "invalid token format"
  end.

(** The sub-id is the time in seconds. *)
Definition ex_LoginHandler (now : time) : string := pretty (Unix now).

(** The arguments of a command are values of any type; an assertion of another
    type panics. *)
Inductive arg := AString (s : string) | AOther.
Definition arg_string (a : arg) : go string :=
  match a with AString s => Ret s | AOther => Panic "interface conversion" end.

(** The handler as the login server sees it, at a time. *)
Definition ex_login_handler (now : time) : LoginHandler ExLogin := {|
  lh_Auth := fun h token => (h, AuthHandler h token);
  lh_Login := fun h _ _ _ => (h, Ok (ex_LoginHandler now));
|}.

Definition CommandHandler (command : string) (args : list arg) (s : LoginServer ExLogin)
    : go (LoginServer ExLogin * res string) :=
  if eqs command "register_gate" then
    match args with
    | a0 :: a1 :: _ =>
        server ← arg_string a0;
        address ← arg_string a1;
        Ret (ls_set_handler (mkExLogin (<[server := address]> (xl_gameServers (ls_handler s)))) s, Ok "OK")
    | _ => Ret (s, Err "register_gate requires server and address")
    end
  else if eqs command "logout" then
    match args with
    | a0 :: a1 :: _ =>
        uid ← arg_string a0;
        subid ← arg_string a1;
        Ret (Logout uid subid s, Ok "OK")
    | _ => Ret (s, Err "logout requires uid and subid")
    end
  else Ret (s, Err ("unknown command: " +:+ command)).

(** ** MsgHandler *)

(** Its session table is never used. *)
Definition ex_Message (msg : bytes) : option bytes := Some (bytes_of_string "Echo: " ++ msg).

Definition ex_Auth (username : string) (signature : bytes) : res (string * string) :=
  match Split ":" username with
  | [uid; subid; seqStr] =>
      match ParseUint32 seqStr with
      | None => Err "invalid sequence number"
      | Some _ => if (length signature =? 0)%nat then Err "missing signature" else Ok (uid, subid)
      end
  | _ => Err "invalid username format"
  end.

#[export] Instance ex_msg_handler : MsgHandler unit := {|
  h_Connect := fun h _ _ => h;
  h_Disconnect := fun h _ => h;
  h_Error := fun h _ _ => h;
  h_Message := fun h _ _ m => (h, ex_Message m);
  h_Auth := fun h u sg => (h, ex_Auth u sg);
|}.

(** ** main: the servers as the program starts them *)

Definition ex_loginConfig : LoginServerConfig := mkLoginServerConfig "127.0.0.1" 8001 "login_master" false.
Definition ex_msgConfig : MsgServerConfig := mkMsgServerConfig "127.0.0.1" 8888 "sample" 64 300.

Definition ex_main : go (LoginServer ExLogin * MsgServer unit) :=
  let loginServer := NewLoginServer ex_loginConfig NewLoginHandler in
  '(loginServer, _) ← CommandHandler "register_gate" [AString "sample"; AString "127.0.0.1:8888"] loginServer;
  Ret ((ls_Start None loginServer).1, (ms_Start None (NewMsgServer ex_msgConfig tt)).1).

(** The hello of [performGameHandshake]: its user name holds the sub-id and a
    sequence number. *)
Definition ex_hello : string :=
  "testuser:12345:1" +:+ ":" +:+ "1" +:+ ":" +:+ Base64Encode (bytes_of_string "dummy_signature").

(** ** Tokens *)

Lemma b64_no_at b : Forall Net.is_byte b -> no_char "@" (b64_EncodeToString b) = true.
Proof.
  assert (forall d, 0 <= d < 64 -> Ascii.eqb (b64_digit d) "@" = false) as Hd.
  { intros d Hd. apply negb_true_iff.
    apply (upto_check (fun d => negb (Ascii.eqb (b64_digit d) "@")) 64); [by vm_compute|done]. }
  assert (forall z, 0 <= z < 256 -> 0 <= z / 4 < 64 /\ 0 <= z mod 4 < 4 /\ 0 <= z / 16 < 16 /\ 0 <= z mod 16 < 16
    /\ 0 <= z / 64 < 4 /\ 0 <= z mod 64 < 64) as Hz by (intros; Z.div_mod_to_equations; lia).
  induction b as [|x|x y|x y z b IH] using triple_ind; rewrite ?Forall_cons; [done| | |];
    intros Hb; destruct_and?;
    repeat match goal with E : Net.is_byte ?v |- _ => apply Hz in E as (? & ? & ? & ? & ? & ?) end;
    cbn [b64_EncodeToString no_char]; rewrite !Hd; try lia; try done.
  by rewrite IH.
Qed.

(** A token built by the client of the example names its user and server to the
    handler, if the password is right and the server is registered. *)
Lemma token_roundtrip h user server address :
  xl_gameServers h !! server = Some address ->
  AuthHandler h (login_token user server "password") = Ok (server, user).
Proof.
  intros Hs. unfold AuthHandler, login_token, Base64Encode, Base64Decode.
  set u := b64_EncodeToString (bytes_of_string user). set sv := b64_EncodeToString (bytes_of_string server).
  set pw := b64_EncodeToString (bytes_of_string "password").
  rewrite (Split_app "@" u); [apply b64_no_at, bytes_of_string_byte|].
  rewrite (Split_no_char "@" (sv +:+ String ":" pw)).
  { rewrite no_char_app (b64_no_at (bytes_of_string server) (bytes_of_string_byte _)). by vm_compute. }
  rewrite (Split_app ":" sv); [apply b64_no_colon, bytes_of_string_byte|].
  rewrite (Split_no_char ":" pw); [by vm_compute|]. unfold u, sv, pw.
  rewrite !b64_roundtrip; [apply bytes_of_string_byte..|]. rewrite !string_of_bytes_of_string. cbn.
  by rewrite Hs.
Qed.

(** ** The example cannot log anybody in *)

(** The login of the example: the program registers its game server with the
    handler only, never with the login server, so that every token, however
    good, is answered with an error of the handler or with 404, and nobody is
    ever recorded as logged in. *)
Theorem example_login_404 now secret token ls ms :
  ex_main = Ret (ls, ms) ->
  exists s' text, @login ExLogin (ex_login_handler now) secret token now ls = (s', [LWrite (line_of text)])
    /\ ls_users s' = ∅ /\ ls_actors s' = ∅
    /\ (text = "404 Unknown server" \/ exists e, AuthHandler (ls_handler ls) token = Err e /\ text = "403 " +:+ e).
Proof.
  intros [= <- <-]. unfold login. cbn [lh_Auth ex_login_handler].
  match goal with |- context [AuthHandler ?h token] => destruct (AuthHandler h token) as [[server uid]|e] end.
  - match goal with |- context [match ?x !! server with _ => _ end] => change (x !! server) with (None : option string) end.
    eexists _, "404 Unknown server". split_and!; [reflexivity|done|done|by left].
  - eexists _, ("403 " +:+ e). split_and!; [reflexivity|done|done|]. right. by exists e.
Qed.

Lemma example_login_404_witness :
  exists s' text, @login ExLogin (ex_login_handler 0) [] (login_token "ann" "sample" "password") 0
      (match ex_main with Ret (ls, _) => ls | _ => NewLoginServer ex_loginConfig NewLoginHandler end)
    = (s', [LWrite (line_of text)]) /\ text = "404 Unknown server".
Proof.
  destruct (example_login_404 0 [] (login_token "ann" "sample" "password") _ _ eq_refl) as (s' & text & E & _ & _ & Ht).
  exists s', text. split; [exact E|]. destruct Ht as [Ht|(e & He & _)]; [exact Ht|].
  by rewrite (token_roundtrip _ "ann" "sample" "127.0.0.1:8888") in He.
Defined.

(** The message server of the example: its handler wants a user name of three
    parts separated by colons, and the handshake separates its own three parts
    with colons, so that no user name it passes on has any. No run of the server
    authenticates anybody or hears a message. *)
Theorem example_hears_nobody ops fd sid msg u sg r :
  EvMessage fd sid msg ∉ ms_log (ms_run ex_msgConfig tt ops)
  /\ EvAuth fd u sg (Ok r) ∉ ms_log (ms_run ex_msgConfig tt ops).
Proof.
  pose proof (logs_run ex_msgConfig tt ops) as Hreal. rewrite Forall_forall in Hreal.
  assert (forall fd u sg r, EvAuth fd u sg (Ok r) ∉ ms_log (ms_run ex_msgConfig tt ops)) as Hno.
  { intros fd' u' sg' r' Hin. destruct (Hreal _ Hin) as (Hc & [] & Hr). cbn in Hr. unfold ex_Auth in Hr.
    by rewrite (Split_no_char ":") in Hr. }
  split; [|apply Hno]. intros Hin. apply list_elem_of_split in Hin as (l1 & l2 & E).
  destruct (mg_heard _ (good_run ex_msgConfig tt ops) _ _ _ _ _ E) as (u' & sg' & r' & Hin').
  apply (Hno fd u' sg' r'). rewrite E. set_solver.
Qed.

(** The client's own hello has five parts and is refused before [Auth]. *)
Example ex_hello_refused : handshake_fields ex_hello = None.
Proof. by vm_compute. Qed.
