(* ===== verification/LoginClient.v ===== *)
(** src/examples/login/client/main.go on its two connections: the login, the
    handshake with the game server and the test messages, read through Go's
    [bufio.Reader]; and the client against the servers of the example. *)

From S2P Require Import Prelude CoreTypes NetMessage GoText GoCrypto Crypt MsgServer LoginServer LoginExample.
From Stdlib Require Import Ascii.

(** ** bufio.Reader *)

(** The bytes up to the first newline, with it, and what follows. *)
Fixpoint cut_line (b : bytes) : option (bytes * bytes) :=
  match b with
  | [] => None
  | z :: b' =>
      if z =? 10 then Some ([z], b')
      else match cut_line b' with Some (line, rest) => Some (z :: line, rest) | None => None end
  end.

(** [ReadString] of the newline: [buf] is what the reader holds, at most 4096 bytes;
    a full buffer without a newline is put aside and the reader goes on. *)
Fixpoint read_string (n : nat) (now : time) (acc buf : bytes) (so : socket) : go (res bytes * bytes * socket) :=
  match cut_line buf with
  | Some (line, rest) => Ret (Ok (acc ++ line), rest, so)
  | None =>
      match n with
      | O => Hang
      | S n' =>
          if (4096 <=? length buf)%nat then read_string n' now (acc ++ buf) [] so
          else match net_Read (4096 - length buf) now so with
               | (Err e, so') => Ret (Err e, [], so')
               | (Ok got, so') => read_string n' now acc (buf ++ got) so'
               end
      end
  end.
Definition ReadString (now : time) (buf : bytes) (so : socket) : go (res bytes * bytes * socket) :=
  read_string (S (2 * input_left so + length buf)) now [] buf so.

Definition trimmed (b : bytes) : string := TrimSpace (string_of_bytes b).

(** ** The login *)

(** The answer of the login server: the sub-id of a login that went well. *)
Definition login_response (response : string) : res string :=
  if negb (String.prefix "200" response) then Err ("login failed: " +:+ response)
  else match Split " "%char response with
       | _ :: part :: _ =>
           match b64_DecodeString part with
           | None => Err "invalid subid"
           | Some subid => Ok (string_of_bytes subid)
           end
       | _ => Err "invalid response format"
       end.

(** The token of [performLogin], whose user, server and password are constants. *)
Definition client_token : string := login_token "testuser" "sample" "password".

(** [performLogin]: the lines it writes and how it ends. [w k]: what its [k]-th write
    answers. The texts of the errors of a decoder are left out. *)
Definition performLogin_on (w : nat -> option error) (clientPrivate : bytes) (now : time) (so0 : socket)
    : go (list bytes * res string) :=
  '(r1, buf1, so1) ← ReadString now [] so0;
  match r1 with
  | Err e => Ret ([], Err ("failed to read challenge: " +:+ e))
  | Ok challengeLine =>
      match b64_DecodeString (trimmed challengeLine) with
      | None => Ret ([], Err "invalid challenge")
      | Some challenge =>
          clientPublic ← DHExchange clientPrivate;
          match w 0%nat with
          | Some e => Ret ([], Err ("failed to send client key: " +:+ e))
          | None =>
              let out1 := [line_of (b64_EncodeToString clientPublic)] in
              '(r2, buf2, so2) ← ReadString now buf1 so1;
              match r2 with
              | Err e => Ret (out1, Err ("failed to read server key: " +:+ e))
              | Ok serverKeyLine =>
                  match b64_DecodeString (trimmed serverKeyLine) with
                  | None => Ret (out1, Err "invalid server key")
                  | Some serverPublic =>
                      secret ← DHSecret clientPrivate serverPublic;
                      match w 1%nat with
                      | Some e => Ret (out1, Err ("failed to send HMAC: " +:+ e))
                      | None =>
                          let out2 := out1 ++ [line_of (b64_EncodeToString (HMAC64 challenge secret))] in
                          encryptedToken ← DesEncode secret (bytes_of_string client_token);
                          match w 2%nat with
                          | Some e => Ret (out2, Err ("failed to send token: " +:+ e))
                          | None =>
                              let out3 := out2 ++ [line_of (b64_EncodeToString encryptedToken)] in
                              '(r3, _, _) ← ReadString now buf2 so2;
                              Ret (out3, match r3 with
                                         | Err e => Err ("failed to read response: " +:+ e)
                                         | Ok response => login_response (trimmed response)
                                         end)
                          end
                      end
                  end
              end
          end
      end
  end.

(** ** The game server *)

(** [performGameHandshake]: its reader goes with it, and what the reader has read
    beyond the first line. *)
Definition performGameHandshake (w : option error) (now : time) (so : socket)
    : go (list bytes * option error * socket) :=
  match w with
  | Some e => Ret ([], Some ("failed to send handshake: " +:+ e), so)
  | None =>
      '(r, _, so') ← ReadString now [] so;
      Ret ([line_of ex_hello],
           match r with
           | Err e => Some ("failed to read handshake response: " +:+ e)
           | Ok line =>
               let response := trimmed line in
               if String.prefix "200" response then None else Some ("handshake failed: " +:+ response)
           end, so')
  end.

Definition test_text (i : Z) : bytes := bytes_of_string ("Hello from client, message " +:+ pretty i).

(** The largest slice [make] can allocate. *)
Definition maxAlloc : Z := 2 ^ 48.

(** One turn of the loop of [sendTestMessages]: what it writes and prints. The header
    of the response is read through the reader, its data from the connection. *)
Definition test_message (w1 w2 : option error) (i : Z) (now : time) (buf : bytes) (so : socket)
    : go (list bytes * option bytes * (bytes * socket)) :=
  let message := test_text i in
  match w1 with
  | Some _ => Ret ([], None, (buf, so))
  | None =>
      let out1 := [frame_header (u32 i) (length message)] in
      match w2 with
      | Some _ => Ret (out1, None, (buf, so))
      | None =>
          let out := out1 ++ [message] in
          '(r, buf', so') ← ReadString now buf so;
          match r with
          | Err _ => Ret (out, None, (buf', so'))
          | Ok responseHeader =>
              match Split ":"%char (trimmed responseHeader) with
              | [_; part] =>
                  match Atoi part with
                  | None => Ret (out, None, (buf', so'))
                  | Some len =>
                      if (len <? 0) || (maxAlloc <? len) then Panic "makeslice: len out of range"
                      else match net_Read (Z.to_nat len) now so' with
                           | (Err _, so2) => Ret (out, None, (buf', so2))
                           | (Ok got, so2) =>
                               Ret (out, Some (bytes_of_string ("Response " +:+ pretty i +:+ ": ") ++ fill (Z.to_nat len) got ++ [10]),
                                    (buf', so2))
                           end
                  end
              | _ => Ret (out, None, (buf', so'))
              end
          end
      end
  end.

(** The loop: [w k]: what the [k]-th write answers. *)
Fixpoint test_messages (w : nat -> option error) (k : nat) (ids : list Z) (now : time) (buf : bytes) (so : socket)
    : go (list bytes * list bytes * (bytes * socket)) :=
  match ids with
  | [] => Ret ([], [], (buf, so))
  | i :: ids' =>
      '(out, line, (buf1, so1)) ← test_message (w k) (w (S k)) i now buf so;
      '(out', lines, end_) ← test_messages w (S (S k)) ids' now buf1 so1;
      Ret (out ++ out', option_list line ++ lines, end_)
  end.
Definition sendTestMessages (w : nat -> option error) (now : time) (so : socket) : go (list bytes * list bytes * (bytes * socket)) :=
  test_messages w 0 [1; 2; 3] now [] so.

(** ** main *)

(** How the program ends: with a fatal message, or after its test messages with the
    lines it has printed for them. *)
Inductive ending := Fatal (message : string) | Finished (lines : list bytes).

(** [dial1], [dial2]: the connections to the two servers; [w1], [w2], [w3]: what the
    writes of the three parts answer. *)
Definition client_main (dial1 dial2 : res socket) (w1 : nat -> option error) (w2 : option error) (w3 : nat -> option error)
    (clientPrivate : bytes) (now : time) : go ending :=
  match dial1 with
  | Err e => Ret (Fatal ("Failed to connect to login server: " +:+ e))
  | Ok loginConn =>
      '(_, r) ← performLogin_on w1 clientPrivate now loginConn;
      match r with
      | Err e => Ret (Fatal ("Login failed: " +:+ e))
      | Ok _ =>
          match dial2 with
          | Err e => Ret (Fatal ("Failed to connect to game server: " +:+ e))
          | Ok gameConn =>
              '(_, e, gameConn') ← performGameHandshake w2 now gameConn;
              match e with
              | Some e => Ret (Fatal ("Game handshake failed: " +:+ e))
              | None =>
                  '(_, lines, _) ← sendTestMessages w3 now gameConn';
                  Ret (Finished lines)
              end
          end
      end
  end.

(** ** Lines however they arrive *)

Definition no_newline (b : bytes) : Prop := Forall (fun z => z <> 10) b.

Lemma cut_line_here line rest : no_newline line -> cut_line (line ++ 10 :: rest) = Some (line ++ [10], rest).
Proof.
  induction 1 as [|z line Hz _ IH]; [done|]. cbn [app cut_line]. destruct (Z.eqb_spec z 10); [done|]. by rewrite IH.
Qed.

Lemma cut_line_none b : no_newline b -> cut_line b = None.
Proof. induction 1 as [|z b Hz _ IH]; [done|]. cbn [cut_line]. destruct (Z.eqb_spec z 10); [done|]. by rewrite IH. Qed.

(** A read without a deadline takes the bytes that come next. *)
Lemma net_Read_takes n now segs : segs <> [] -> (0 < n)%nat ->
  exists got segs', net_Read n now (mkSocket segs None) = (Ok got, mkSocket segs' None) /\
    got ++ concat segs' = concat segs /\ (length got <= n)%nat /\
    (length got + input_left (mkSocket segs' None) <= input_left (mkSocket segs None))%nat /\
    (input_left (mkSocket segs' None) < input_left (mkSocket segs None))%nat.
Proof.
  intros Hs Hn. destruct segs as [|seg segs]; [done|]. unfold net_Read, input_left. cbn [past_deadline so_deadline so_in].
  destruct (Nat.eqb_spec n 0); [lia|]. destruct (Nat.leb_spec (length seg) n).
  - exists seg, segs. cbn [sum_list_with so_in]. split_and!; try done; lia.
  - exists (take n seg), (drop n seg :: segs). cbn [concat sum_list_with so_in]. rewrite app_assoc take_drop length_take length_drop.
    split_and!; try done; lia.
Qed.

(** [ReadString] gives the next line, however it is cut into segments and whatever
    the reader has in its buffer. *)
Lemma read_string_line n now acc buf segs line rest :
  buf ++ concat segs = line ++ 10 :: rest -> no_newline line -> (2 * input_left (mkSocket segs None) + length buf < n)%nat ->
  exists buf' segs', read_string n now acc buf (mkSocket segs None) = Ret (Ok (acc ++ line ++ [10]), buf', mkSocket segs' None) /\
    buf' ++ concat segs' = rest.
Proof.
  revert acc buf segs line. induction n as [|n IH]; intros acc buf segs line E Hl Hn; [lia|]. cbn [read_string].
  destruct (decide (length buf <= length line)%nat) as [Hlen|Hlen].
  - assert (line = buf ++ drop (length buf) line) as Hline.
    { rewrite -{1}(take_drop (length buf) line). f_equal. rewrite -(take_app_le line (10 :: rest)) // -E. by rewrite take_app_length. }
    set (tail := drop (length buf) line) in *. clearbody tail. subst line. apply Forall_app in Hl as [Hb Ht].
    rewrite (cut_line_none buf Hb). rewrite -assoc_L in E. apply app_inv_head in E.
    destruct (Nat.leb_spec 4096 (length buf)).
    + destruct (IH (acc ++ buf) [] segs tail E Ht) as (buf' & segs' & E' & Hr); [cbn [length]; lia|].
      exists buf', segs'. rewrite E'. split; [|done]. by rewrite !assoc_L.
    + destruct segs as [|seg segs]; [by destruct tail|].
      destruct (net_Read_takes (4096 - length buf) now (seg :: segs)) as (got & segs' & -> & Hg & _ & Hg1 & Hg2); [done|lia|].
      apply (IH acc (buf ++ got) segs' (buf ++ tail)); [|by apply Forall_app|rewrite length_app; lia].
      by rewrite -!assoc_L Hg E.
  - assert (exists b, buf = line ++ 10 :: b) as [b ->].
    { exists (drop (S (length line)) buf). rewrite -{1}(take_drop (S (length line)) buf).
      assert (take (S (length line)) buf = line ++ [10]) as ->; [|by rewrite -assoc_L].
      rewrite -(take_app_le buf (concat segs) (S (length line))); [lia|]. rewrite E take_app_ge; [lia|]. by rewrite Nat.sub_succ_l // Nat.sub_diag. }
    rewrite (cut_line_here line b Hl). exists b, segs. split; [done|]. rewrite -assoc_L in E. apply app_inv_head in E. by injection E.
Qed.

Lemma ReadString_line now buf segs line rest :
  buf ++ concat segs = line ++ 10 :: rest -> no_newline line ->
  exists buf' segs', ReadString now buf (mkSocket segs None) = Ret (Ok (line ++ [10]), buf', mkSocket segs' None) /\ buf' ++ concat segs' = rest.
Proof. intros E Hl. apply (read_string_line _ now [] buf segs line rest E Hl). lia. Qed.

(** ** The login *)

(** What reaches the client of what the server does. *)
Fixpoint written (out : list lout) : bytes :=
  match out with
  | [] => []
  | LWrite b :: out' => b ++ written out'
  | _ :: out' => written out'
  end.

Lemma written_app a b : written (a ++ b) = written a ++ written b.
Proof. induction a as [|[] a IH]; cbn; rewrite ?IH ?app_assoc; done. Qed.

(** Visible characters are no newlines. *)
Lemma plain_no_newline b : Forall (fun z => plain z = true) b -> no_newline b.
Proof. intros H. eapply Forall_impl; [exact H|]. intros z Hz ->. done. Qed.

Lemma b64_line b : Forall Net.is_byte b -> no_newline (bytes_of_string (Base64Encode b)).
Proof. intros Hb. by apply plain_no_newline, b64_visible. Qed.

Lemma trimmed_b64 b : b <> [] -> Forall Net.is_byte b -> b64_DecodeString (trimmed (line_of (Base64Encode b))) = Some b.
Proof. intros. by apply b64_line_back. Qed.

(** The client's side, when the server writes a challenge, its key and a line of text,
    in whatever segments that arrives. *)
Lemma performLogin_lines clientPrivate challenge pubC pubS secret sealed text rest now segs :
  challenge <> [] /\ Forall Net.is_byte challenge -> pubS <> [] /\ Forall Net.is_byte pubS ->
  DHExchange clientPrivate = Ret pubC -> DHSecret clientPrivate pubS = Ret secret ->
  DesEncode secret (bytes_of_string client_token) = Ret sealed -> no_newline (bytes_of_string text) ->
  concat segs = line_of (Base64Encode challenge) ++ line_of (Base64Encode pubS) ++ line_of text ++ rest ->
  performLogin_on (fun _ => None) clientPrivate now (mkSocket segs None)
  = Ret ([line_of (Base64Encode pubC); line_of (Base64Encode (HMAC64 challenge secret)); line_of (Base64Encode sealed)],
         login_response (trimmed (line_of text))).
Proof.
  intros [Hc Hcb] [Hs Hsb] HpC Hs1 He Ht E. unfold performLogin_on, line_of in *. rewrite -!assoc_L in E.
  destruct (ReadString_line now [] segs _ _ E (b64_line challenge Hcb)) as (buf1 & segs1 & -> & E1). cbn [mbind go_bind].
  rewrite (trimmed_b64 challenge Hc Hcb) HpC. cbn [mbind go_bind].
  destruct (ReadString_line now buf1 segs1 _ _ E1 (b64_line pubS Hsb)) as (buf2 & segs2 & -> & E2). cbn [mbind go_bind].
  rewrite (trimmed_b64 pubS Hs Hsb) Hs1. cbn [mbind go_bind]. rewrite He. cbn [mbind go_bind].
  destruct (ReadString_line now buf2 segs2 _ rest E2 Ht) as (buf3 & segs3 & -> & _). done.
Qed.

Lemma client_token_ok : client_token <> "" /\ (String.length client_token <= 700)%nat /\
  ((String.length client_token mod 8 <> 0)%nat \/ looks_padded (bytes_of_string client_token) = false).
Proof. vm_compute. split; [done|]. split; [lia|by left]. Qed.

(** The answer to a login that went well gives the client its sub-id. *)
Lemma plain_200 subid : Forall (fun z => plain z = true \/ z = 32) (bytes_of_string ("200 " +:+ Base64Encode (bytes_of_string subid))).
Proof.
  rewrite bytes_of_string_app. apply Forall_app. split; [by repeat (constructor; [vm_compute; tauto|])|].
  eapply Forall_impl; [apply b64_visible, bytes_of_string_byte|]. by left.
Qed.

(** A line that starts and ends with visible characters. *)
Lemma trim_bytes_line x m y : plain x = true -> plain y = true -> trim_bytes (x :: m ++ [y; 10]) = x :: m ++ [y].
Proof.
  intros Hx Hy. unfold trim_bytes. cbv zeta. rewrite (trim_left_plain _ _ x (m ++ [y; 10]) spaces_left Hx).
  change (x :: m ++ [y; 10]) with ((x :: m) ++ [y; 10]). rewrite rev_app_distr. change (rev [y; 10] ++ ?l) with (10 :: y :: l).
  replace (length ((x :: m) ++ [y; 10])) with (S (S (length (x :: m)))) by (rewrite length_app /=; lia).
  generalize (S (length (x :: m))); intros n. cbn [trim_left].
  change (strip_space (map (@rev Z) spaces) (10 :: y :: rev (x :: m))) with (Some (y :: rev (x :: m))). cbn iota beta.
  rewrite (trim_left_plain _ _ y (rev (x :: m)) spaces_right Hy). change (rev (y :: rev (x :: m))) with (rev (rev (x :: m)) ++ [y]).
  by rewrite rev_involutive.
Qed.

Lemma trimmed_line_of x m y text :
  bytes_of_string text = x :: m ++ [y] -> plain x = true -> plain y = true -> trimmed (line_of text) = text.
Proof.
  intros E Hx Hy. unfold trimmed, line_of, TrimSpace. rewrite bytes_of_string_of_bytes.
  { apply Forall_app; split; [apply bytes_of_string_byte|by repeat constructor]. }
  rewrite E. change ((x :: m ++ [y]) ++ [10]) with (x :: (m ++ [y]) ++ [10]). rewrite -assoc_L.
  change ([y] ++ [10]) with [y; 10]. rewrite trim_bytes_line // -E. apply string_of_bytes_of_string.
Qed.

Lemma login_200_line subid : subid <> "" ->
  let text := "200 " +:+ Base64Encode (bytes_of_string subid) in
  no_newline (bytes_of_string text) /\ login_response (trimmed (line_of text)) = Ok subid.
Proof.
  intros Hs text. split.
  { eapply Forall_impl; [apply plain_200|]. cbn. intros z [Hz|Hz] ->; done. }
  set (code := Base64Encode (bytes_of_string subid)) in *.
  assert (Forall (fun z => plain z = true) (bytes_of_string code)) as Hp by apply b64_visible, bytes_of_string_byte.
  assert (exists m y, bytes_of_string code = m ++ [y]) as (m & y & E).
  { assert (bytes_of_string code <> []) as Hne.
    { unfold code, Base64Encode. destruct (bytes_of_string subid) as [|z b] eqn:Eb; [by destruct subid|].
      pose proof (b64_nonempty z b). by destruct (b64_EncodeToString (z :: b)). }
    destruct (exists_last Hne) as (m & y & ->). by exists m, y. }
  rewrite E in Hp. apply Forall_app in Hp as [_ Hy]. inversion Hy; subst.
  rewrite (trimmed_line_of 50 ([48; 48; 32] ++ m) y text); [|done|done|].
  { unfold text. rewrite bytes_of_string_app E. done. }
  unfold login_response, text. change (String.prefix "200" ("200 " +:+ code)) with (String.prefix "" (" " +:+ code)).
  assert (forall s, String.prefix "" s = true) as -> by (by intros []). cbn [negb].
  change ("200 " +:+ code) with ("200" +:+ String " " code). rewrite Split_app //. destruct (Split " " code) as [|p l] eqn:Ep; [by apply Split_not_nil in Ep|].
  assert (no_char " " code = true) as Hn.
  { clear -E. assert (Forall (fun z => plain z = true) (bytes_of_string code)) as Hp by apply b64_visible, bytes_of_string_byte.
    clear E. induction code as [|c s IH]; [done|]. cbn [bytes_of_string no_char] in *. inversion Hp as [|? ? Hc Hs]; subst.
    rewrite (IH Hs) andb_true_r. destruct (Ascii.eqb_spec c " "); [subst; done|done]. }
  rewrite Split_no_char // in Ep. injection Ep as <- <-.
  unfold code, Base64Encode. rewrite b64_roundtrip; [apply bytes_of_string_byte|]. by rewrite string_of_bytes_of_string.
Qed.

(** An empty sub-id is lost: the answer ends in the space that is trimmed. *)
Example empty_subid_refused :
  login_response (trimmed (line_of ("200 " +:+ Base64Encode []))) = Err "invalid response format".
Proof. reflexivity. Qed.

Section logs_in.
Context {H : Type} `{LoginHandler H}.

End logs_in.

(** Against the servers of the example the client never gets further than its login:
    the server answers its token with 404, in whatever segments, and [main] ends. *)
Theorem example_client_refused rnd1 rnd2 clientPrivate start now ls ms :
  ex_main = Ret (ls, ms) -> length clientPrivate = 8%nat -> Forall Net.is_byte clientPrivate -> now < start + 30 * Second ->
  exists lines s' out,
    @ls_handleConnection ExLogin (ex_login_handler now) lines rnd1 rnd2 None None start now ls = (s', out) /\ ls_users s' = ∅ /\
    forall dial2 w2 w3 now' segs, concat segs = written out ->
      performLogin_on (fun _ => None) clientPrivate now' (mkSocket segs None) = Ret (lines, Err "login failed: 404 Unknown server") /\
      client_main (Ok (mkSocket segs None)) dial2 (fun _ => None) w2 w3 clientPrivate now'
      = Ret (Fatal "Login failed: login failed: 404 Unknown server").
Proof.
  intros [= <- <-] Hcl Hcb Hnow. destruct client_token_ok as (Ht1 & Ht2 & Ht3).
  set (ls := mkLoginServer _ _ _ _ _).
  destruct (@exchange_honest ExLogin (ex_login_handler now) rnd1 rnd2 clientPrivate client_token start now ls Hcl Hcb Ht1 Ht2 Ht3 Hnow)
    as (challenge & pubC & pubS & secret & sealed & Hc & Hp & HpC & Hs1 & He & _ & Hserve).
  assert (lh_Auth (LoginHandler := ex_login_handler now) (ls_handler ls) client_token = (ls_handler ls, Ok ("sample", "testuser"))) as Ha.
  { cbn [lh_Auth ex_login_handler]. unfold client_token. by rewrite (token_roundtrip _ "testuser" "sample" "127.0.0.1:8888"). }
  exists [line_of (Base64Encode pubC); line_of (Base64Encode (HMAC64 challenge secret)); line_of (Base64Encode sealed)]. eexists _, _.
  split; [rewrite Hserve; unfold login; rewrite Ha; reflexivity|]. split; [done|].
  intros dial2 w2 w3 now' segs E. cbn [written app] in E.
  assert (performLogin_on (fun _ => None) clientPrivate now' (mkSocket segs None)
    = Ret ([line_of (Base64Encode pubC); line_of (Base64Encode (HMAC64 challenge secret)); line_of (Base64Encode sealed)],
           Err "login failed: 404 Unknown server")) as Hlog.
  { rewrite (performLogin_lines _ challenge pubC pubS secret sealed "404 Unknown server" [] now' segs Hc Hp HpC Hs1 He) //.
    by repeat (constructor; [done|]). }
  split; [exact Hlog|]. unfold client_main. by rewrite Hlog.
Qed.

(** ** The test messages *)

(** A line at the head of a segment leaves the rest of the segment in the buffer. *)
Lemma ReadString_segment now line body segs :
  no_newline line -> (length (line ++ 10%Z :: body) <= 4096)%nat ->
  ReadString now [] (mkSocket ((line ++ 10 :: body) :: segs) None) = Ret (Ok (line ++ [10]), body, mkSocket segs None).
Proof.
  intros Hl Hlen. unfold ReadString. cbn [read_string cut_line length Nat.leb].
  rewrite net_Read_segment //; [rewrite length_app in Hlen |- *; cbn [length] in *; lia|].
  assert (exists n, 2 * input_left (mkSocket ((line ++ 10%Z :: body) :: segs) None) + 0 = S n)%nat as [n ->].
  { unfold input_left. cbn [so_in sum_list_with]. eexists. rewrite Nat.add_0_r. cbn [Nat.mul Nat.add]. reflexivity. }
  cbn [read_string app]. by rewrite cut_line_here.
Qed.

Lemma no_newline_pretty z : is_u32 z -> no_newline (bytes_of_string (pretty z)).
Proof. intros Hz. by apply plain_no_newline, pretty_u32_plain. Qed.

Lemma frame_header_line sid n : is_u32 sid -> is_u32 (Z.of_nat n) ->
  exists line, frame_header sid n = line ++ [10] /\ no_newline line /\ (length line <= 21)%nat /\
    Split ":" (trimmed (line ++ [10])) = [pretty sid; pretty (Z.of_nat n)].
Proof.
  intros Hs Hn. exists (bytes_of_string (pretty sid +:+ ":" +:+ pretty (Z.of_nat n))).
  assert (Forall (fun z => plain z = true) (bytes_of_string (pretty sid +:+ ":" +:+ pretty (Z.of_nat n)))) as Hp.
  { apply plain_app; [by apply pretty_u32_plain|]. apply (plain_app ":"); [by repeat constructor|]. by apply pretty_u32_plain. }
  split; [done|]. split; [by apply plain_no_newline|]. split.
  { rewrite !bytes_of_string_app !length_app !length_bytes_of_string.
    pose proof (pretty_u32_length sid Hs). pose proof (pretty_u32_length _ Hn). simpl. lia. }
  unfold trimmed. rewrite TrimSpace_line; [by destruct (pretty sid)|exact Hp|].
  assert (forall z, is_u32 z -> no_char ":" (pretty z) = true) as Hc.
  { intros z [Hz _]. rewrite (pretty_Z_nonneg z Hz). apply all_digits_no_colon, all_digits_pretty. }
  rewrite (Split_app ":" (pretty sid)); [by apply Hc|]. by rewrite (Split_no_char ":"); [apply Hc|].
Qed.

Lemma Atoi_pretty z : is_u32 z -> Atoi (pretty z) = Some z.
Proof.
  intros [Hz Hlt]. rewrite (pretty_Z_nonneg z Hz). pose proof (all_digits_pretty (Z.to_N z)) as Hd.
  assert (signed_value false (pretty (Z.to_N z)) = Some z) as E.
  { unfold signed_value. destruct (eqs _ "") eqn:E; [by apply eqs_true, pretty_N_nonempty in E|].
    rewrite digits_value_pretty Z2N.id //. destruct (Z.leb_spec (- 2 ^ 63) z), (Z.ltb_spec z (2 ^ 63)); done || lia. }
  unfold Atoi. destruct (pretty (Z.to_N z)) as [|c s]; [done|]. cbn in Hd. apply andb_prop in Hd as [Hc _].
  destruct c as [[] [] [] [] [] [] [] []]; try done; exact E.
Qed.

(** The answer [r] to message [i], when its header comes in a segment of its own ... *)
Definition response_line (i : Z) (r : bytes) : bytes := bytes_of_string ("Response " +:+ pretty i +:+ ": ") ++ r ++ [10].
Definition test_writes (i : Z) : list bytes := [frame_header (u32 i) (length (test_text i)); test_text i].

Lemma test_message_answered i sid r now segs :
  is_u32 sid -> is_u32 (Z.of_nat (length r)) -> r <> [] ->
  test_message None None i now [] (mkSocket (frame_header sid (length r) :: r :: segs) None)
  = Ret (test_writes i, Some (response_line i r), ([], mkSocket segs None)).
Proof.
  intros Hs Hn Hr. destruct (frame_header_line sid (length r) Hs Hn) as (line & E & Hl & Hlen & Hsp). unfold test_message. rewrite E.
  rewrite (ReadString_segment now line [] (r :: segs) Hl); [rewrite length_app; cbn [length]; lia|]. cbn [mbind go_bind].
  rewrite Hsp (Atoi_pretty _ Hn). destruct (Z.ltb_spec (Z.of_nat (length r)) 0); [lia|].
  destruct (Z.ltb_spec maxAlloc (Z.of_nat (length r))) as [Hm|]; [unfold maxAlloc, is_u32 in *; lia|]. cbn [orb]. rewrite Nat2Z.id.
  rewrite net_Read_segment //; [destruct r; [done|cbn [length]; lia]|]. unfold fill. by rewrite Nat.sub_diag app_nil_r.
Qed.

(** ... and when it comes with its header in one segment: the data stays in the
    buffer of the reader while the client waits for it on the connection. *)
Theorem coalesced_response_lost i sid r now :
  is_u32 sid -> is_u32 (Z.of_nat (length r)) -> (0 < length r <= 4000)%nat ->
  test_message None None i now [] (mkSocket [frame_header sid (length r) ++ r] None)
  = Ret (test_writes i, None, (r, mkSocket [] None)).
Proof.
  intros Hs Hn Hr. destruct (frame_header_line sid (length r) Hs Hn) as (line & E & Hl & Hlen & Hsp). unfold test_message. rewrite E.
  rewrite -assoc_L. cbn [app]. rewrite (ReadString_segment now line r [] Hl); [rewrite length_app; cbn [length]; lia|]. cbn [mbind go_bind].
  rewrite Hsp (Atoi_pretty _ Hn). destruct (Z.ltb_spec (Z.of_nat (length r)) 0); [lia|].
  destruct (Z.ltb_spec maxAlloc (Z.of_nat (length r))) as [Hm|]; [unfold maxAlloc, is_u32 in *; lia|]. cbn [orb]. rewrite Nat2Z.id.
  unfold net_Read. cbn [past_deadline so_deadline so_in]. destruct (Nat.eqb_spec (length r) 0); [lia|]. done.
Qed.

(** A response with a negative length ends the program. *)
Example negative_length_panics now :
  test_message None None 1 now [] (mkSocket [bytes_of_string "1:-1" ++ [10]] None) = Panic "makeslice: len out of range".
Proof. reflexivity. Qed.

(** [n] rounds of the message loop of a connection of the server. *)
Section serving.
Context {H : Type} `{MsgHandler H}.

Fixpoint serve (n : nat) (i : nat) (now : time) (s : MsgServer H) : MsgServer H :=
  match n with
  | O => s
  | S n' => match ms_conns s !! i with Some c => serve n' i now (messageLoop1 i c now s).1 | None => s end
  end.

(** What the server writes to a connection, write by write. *)
Definition writes_to (fd : Z) (log : list event) : list bytes :=
  omap (fun e => match e with EvWrite fd' b => if decide (fd' = fd) then Some b else None | _ => None end) log.
Definition heard (fd : Z) (log : list event) : list (Z * bytes) :=
  omap (fun e => match e with EvMessage fd' sid m => if decide (fd' = fd) then Some (sid, m) else None | _ => None end) log.

Context (echoes : forall h fd sid m, (h_Message h fd sid m).2 = ex_Message m).

Definition test_id (i : Z) : Prop := 0 < i < 2 ^ 32.

Lemma test_text_short i : test_id i -> (0 < length (test_text i) <= 40)%nat.
Proof.
  intros Hi. unfold test_text. rewrite bytes_of_string_app length_app !length_bytes_of_string. cbn [String.length].
  pose proof (pretty_u32_length i ltac:(unfold is_u32, test_id in *; lia)). lia.
Qed.

Definition echo_of (i : Z) : bytes := bytes_of_string "Echo: " ++ test_text i.

(** The rounds of the server on the writes of the client, and the client's turns on
    the writes of the server. *)
Lemma serve_tests ids i now d rest s c :
  Forall test_id ids -> ms_conns s !! i = Some c -> cn_conn c = mkSocket (concat (map test_writes ids) ++ rest) d ->
  past_deadline now (mkSocket [] d) = false ->
  exists es, ms_log (serve (length ids) i now s) = ms_log s ++ es /\
    heard (cn_fd c) es = map (fun k => (k, test_text k)) ids /\
    writes_to (cn_fd c) es = concat (map (fun k => [frame_header k (length (echo_of k)); echo_of k]) ids).
Proof.
  intros Hids. revert s c. induction Hids as [|k ids Hk _ IH]; intros s c Hc Hso Hd.
  { exists []. by rewrite app_nil_r. }
  pose proof (test_text_short k Hk) as Hlen. assert (u32 k = k) as Hu by (apply u32_id; unfold is_u32, test_id in *; lia).
  cbn [length serve map concat] in *. rewrite Hc. unfold test_writes in Hso at 1. rewrite Hu in Hso. cbn [app] in Hso.
  pose proof (message_round_exact i c now s k (length (test_text k)) (test_text k) (concat (map test_writes ids) ++ rest) d Hc Hso Hd
    ltac:(unfold is_u32, test_id in *; lia) ltac:(unfold is_u32; lia) ltac:(lia)) as Hround. cbv zeta in Hround.
  assert (fill (length (test_text k)) (test_text k) = test_text k) as Hfill by (unfold fill; by rewrite Nat.sub_diag app_nil_r).
  rewrite Hfill echoes in Hround.
  destruct (messageLoop1 i c now s) as [s1 go]. destruct Hround as (_ & Hlog & _ & (c' & Hc' & Hso' & Hfd) & _).
  destruct (IH s1 c' Hc' Hso' Hd) as (es & He & Hh & Hw). cbn [fst]. rewrite Hfd in Hh, Hw.
  eexists. rewrite He Hlog -assoc_L. split; [reflexivity|]. unfold answered, ex_Message. unfold heard, writes_to in *.
  rewrite !omap_app Hh Hw. cbn. by rewrite !decide_True.
Qed.

Lemma client_turns ids k now :
  Forall test_id ids ->
  test_messages (fun _ => None) k ids now [] (mkSocket (concat (map (fun k => [frame_header k (length (echo_of k)); echo_of k]) ids)) None)
  = Ret (concat (map test_writes ids), map (fun k => response_line k (echo_of k)) ids, ([], mkSocket [] None)).
Proof.
  intros Hids. revert k. induction Hids as [|i ids Hi _ IH]; intros k; [done|]. cbn [map concat app test_messages].
  pose proof (test_text_short i Hi) as Hlen.
  rewrite test_message_answered; [unfold is_u32, test_id in *; lia| |by destruct (echo_of i) eqn:E; [unfold echo_of in E|]|].
  { unfold is_u32, echo_of. rewrite length_app length_bytes_of_string. cbn [String.length]. lia. }
  cbn [mbind go_bind]. by rewrite IH.
Qed.

(** The test messages of the client come back: on a connection of a message server
    whose handler answers as the one of the example, and on which the writes of the
    client arrive one by one, the three messages are heard with their sessions, and the
    client, when the writes of the server arrive one by one, sends exactly those
    messages and prints the three echoes. *)
Theorem test_messages_echoed i now now' d rest s c :
  ms_conns s !! i = Some c -> past_deadline now (mkSocket [] d) = false ->
  cn_conn c = mkSocket (concat (map test_writes [1; 2; 3]) ++ rest) d ->
  exists es, ms_log (serve 3 i now s) = ms_log s ++ es /\
    heard (cn_fd c) es = [(1, test_text 1); (2, test_text 2); (3, test_text 3)] /\
    sendTestMessages (fun _ => None) now' (mkSocket (writes_to (cn_fd c) es) None)
    = Ret (concat (map test_writes [1; 2; 3]),
           map (fun k => response_line k (bytes_of_string "Echo: " ++ test_text k)) [1; 2; 3], ([], mkSocket [] None)).
Proof.
  intros Hc Hd Hso. assert (Forall test_id [1; 2; 3]) as Hids by (repeat constructor).
  destruct (serve_tests [1; 2; 3] i now d rest s c Hids Hc Hso Hd) as (es & He & Hh & Hw).
  exists es. split; [exact He|]. split; [exact Hh|]. rewrite Hw. apply (client_turns [1; 2; 3] 0 now' Hids).
Qed.
End serving.

(** ** Runs the properties apply to *)

Definition demo_login_server : LoginServer ExLogin :=
  RegisterGameServer "sample" "game" (mkLoginServer ex_loginConfig (mkExLogin {[ "sample" := "127.0.0.1:8888" ]}) true ∅ ∅).


Definition demo_message_server : MsgServer unit :=
  demo_server (demo_conn (concat (map test_writes [1; 2; 3])) Looping).

Lemma test_messages_echoed_witness :
  exists es, ms_log (@serve unit ex_msg_handler 3 0 0 demo_message_server) = ms_log demo_message_server ++ es /\
    heard 1 es = [(1, test_text 1); (2, test_text 2); (3, test_text 3)] /\
    sendTestMessages (fun _ => None) 0 (mkSocket (writes_to 1 es) None)
    = Ret (concat (map test_writes [1; 2; 3]),
           map (fun k => response_line k (bytes_of_string "Echo: " ++ test_text k)) [1; 2; 3], ([], mkSocket [] None)).
Proof.
  apply (@test_messages_echoed unit ex_msg_handler (fun _ _ _ _ => eq_refl) 0 0 0 None [] demo_message_server
    (demo_conn (concat (map test_writes [1; 2; 3])) Looping)).
  - reflexivity.
  - reflexivity.
  - reflexivity.
Defined.
