(* ===== verification/LoginProbe.v ===== *)
(** src/examples/login/simple_client/main.go: a client that reads the challenge of the
    login server, answers with a word that is no key, and prints what comes back. *)

From S2P Require Import Prelude CoreTypes NetMessage GoText GoCrypto Crypt LoginServer.

Definition probe_line : bytes := bytes_of_string "test" ++ [10].

(** [main]: what is written to the socket and what each call prints. [dialled]: what
    dialling answers; [w]: what the write does. *)
Definition probe_main (dialled : res socket) (w : option error) (now : time) : list bytes * list string :=
  match dialled with
  | Err e => ([], ["Failed to connect: " +:+ e])
  | Ok so =>
      let out := ["Connected to login server"] in
      match net_Read 1024 now so with
      | (Err e, _) => ([], out ++ ["Failed to read challenge: " +:+ e])
      | (Ok b, so1) =>
          let out1 := out ++ ["Received: " +:+ string_of_bytes b] in
          match w with
          | Some e => ([], out1 ++ ["Failed to send response: " +:+ e])
          | None =>
              ([probe_line], out1 ++ [match net_Read 1024 now so1 with
                                      | (Err e, _) => "Read error (expected): " +:+ e
                                      | (Ok b2, _) => "Server response: " +:+ string_of_bytes b2
                                      end])
          end
      end
  end.

(** A line of eight bytes in base64 is shorter than the buffer. *)
Lemma key_line_read b rest d now : length b = 8%nat -> past_deadline now (mkSocket [] d) = false ->
  net_Read 1024 now (mkSocket (line_of (Base64Encode b) :: rest) d) = (Ok (line_of (Base64Encode b)), mkSocket rest d).
Proof.
  intros Hb Hd. unfold net_Read. change (past_deadline now (mkSocket (line_of (Base64Encode b) :: rest) d)) with (past_deadline now (mkSocket [] d)).
  rewrite Hd. cbn [Nat.eqb so_in so_deadline]. rewrite (proj2 (Nat.leb_le _ _)); [|done]. unfold line_of, Base64Encode.
  rewrite length_app length_bytes_of_string b64_length Hb. by apply Nat.leb_le.
Qed.

(** The word is base64 for three bytes, so the server takes it for a key and answers
    with its own before it gives up: whatever keys it draws, the client prints the
    challenge and then a response, not the read error it calls expected, and nobody
    was logged in. *)
Theorem probe_is_answered {H} `{!LoginHandler H} rnd1 rnd2 start now now' (s : LoginServer H) :
  now < start + 30 * Second ->
  exists public, DHExchange (RandomKey rnd2) = Ret public /\
    let challengeLine := line_of (Base64Encode (RandomKey rnd1)) in
    let keyLine := line_of (Base64Encode public) in
    ls_handleConnection [probe_line] rnd1 rnd2 None None start now s = (s, [LWrite challengeLine; LWrite keyLine]) /\
    probe_main (Ok (mkSocket [challengeLine; keyLine] None)) None now'
      = ([probe_line], ["Connected to login server"; "Received: " +:+ string_of_bytes challengeLine; "Server response: " +:+ string_of_bytes keyLine]).
Proof.
  intros Hnow. destruct (RandomKey_key rnd1) as [Hch _]. destruct (RandomKey_key rnd2) as [Hsp Hspb].
  rewrite (DHExchange_reference _ Hsp Hspb). eexists. split; [reflexivity|]. cbv zeta. split.
  - unfold ls_handleConnection, exchange. unfold read_b64 at 1, ls_readLine. unfold net_Read at 1.
    assert (past_deadline now (mkSocket [probe_line] (Some (start + 30 * Second))) = false) as -> by (cbn; lia).
    change (TrimSpace (string_of_bytes probe_line)) with "test". cbn [Nat.eqb so_in length probe_line].
    change (Base64Decode "test") with (Some [181; 235; 45]). rewrite (DHExchange_reference _ Hsp Hspb). unfold DHSecret. by rewrite Hsp.
  - unfold probe_main. by rewrite !key_line_read.
Qed.
