(* ===== verification/ClusterNode.v ===== *)
(** src/cluster/node.go, the data types of src/cluster/interfaces.go, and the
    ClusterService of src/cluster/integration.go: cluster nodes, the cluster
    manager with its event channel, and the service that starts and stops it.

    Nodes are shared between the table and whoever holds them, so they live on a
    heap. The transport is a parameter: what starting and stopping it answers.
    The event channel is closed by [Stop], and a publication after that panics;
    operations that publish are in the monad [go]. *)

From S2P Require Import Prelude CoreTypes NetMessage GoText LoadBalancer Lifecycle.

(** ** Data *)

Definition NodeID := string.

Inductive NodeState :=
| NodeStateUnknown | NodeStateJoining | NodeStateActive | NodeStateSuspected
| NodeStateLeaving | NodeStateLeft | NodeStateFailed.
#[export] Instance NodeState_eq_dec : EqDecision NodeState.
Proof. solve_decision. Defined.

Definition NodeState_String (ns : NodeState) : string :=
  match ns with
  | NodeStateUnknown => "unknown"
  | NodeStateJoining => "joining"
  | NodeStateActive => "active"
  | NodeStateSuspected => "suspected"
  | NodeStateLeaving => "leaving"
  | NodeStateLeft => "left"
  | NodeStateFailed => "failed"
  end.

Record NodeInfo := mkNodeInfo {
  ni_ID : NodeID;
  ni_Address : string;
  ni_Port : Z;
  ni_State : NodeState;
  ni_Metadata : gmap string string;
  ni_JoinedAt : time;
  ni_LastSeen : time;
  ni_StateChange : time;
  ni_Load : float64;
  ni_Version : string;
}.

Definition ni_set_State (st : NodeState) (now : time) (i : NodeInfo) : NodeInfo :=
  mkNodeInfo (ni_ID i) (ni_Address i) (ni_Port i) st (ni_Metadata i) (ni_JoinedAt i) (ni_LastSeen i) now
    (ni_Load i) (ni_Version i).
Definition ni_set_Load (load : float64) (now : time) (i : NodeInfo) : NodeInfo :=
  mkNodeInfo (ni_ID i) (ni_Address i) (ni_Port i) (ni_State i) (ni_Metadata i) (ni_JoinedAt i) now
    (ni_StateChange i) load (ni_Version i).

Inductive ClusterEventType :=
| EventNodeJoined | EventNodeLeft | EventNodeFailed | EventNodeRecovered
| EventLeaderElected | EventPartition | EventMerge.

(** The data of a state change: the names of the two states. *)
Record ClusterEvent := mkClusterEvent {
  ce_Type : ClusterEventType;
  ce_NodeID : NodeID;
  ce_Timestamp : time;
  ce_Data : option (string * string);
}.

Record ClusterHealth := mkClusterHealth {
  chl_TotalNodes : Z;
  chl_ActiveNodes : Z;
  chl_SuspectedNodes : Z;
  chl_FailedNodes : Z;
  chl_HasLeader : bool;
  chl_LeaderID : NodeID;
  chl_PartitionCount : Z;
  chl_LastUpdate : time;
  chl_IsHealthy : bool;
}.

Record ClusterConfig := mkClusterConfig {
  cc_NodeID : NodeID;
  cc_BindAddr : string;
  cc_BindPort : Z;
  cc_ClusterName : string;
  cc_SeedNodes : list string;
  cc_HeartbeatInterval : duration;
  cc_ElectionTimeout : duration;
  cc_JoinTimeout : duration;
  cc_LeaveTimeout : duration;
  cc_SuspicionTimeout : duration;
  cc_SuspicionMultiplier : Z;
  cc_MessageTimeout : duration;
  cc_MaxMessageSize : Z;
  cc_CompressionEnabled : bool;
  cc_EncryptionEnabled : bool;
  cc_GossipFanout : Z;
  cc_GossipInterval : duration;
  cc_PushPullInterval : duration;
  cc_Metadata : gmap string string;
}.

Definition DefaultClusterConfig : ClusterConfig :=
  mkClusterConfig "" "0.0.0.0" 7946 "sngo-cluster" [] (1 * Second) (10 * Second) (30 * Second) (10 * Second)
    (5 * Second) 3 (10 * Second) (1024 * 1024) true false 3 (200 * Millisecond) (30 * Second) ∅.

(** [ClusterError.Error]. *)
Definition ClusterError_Error (operation nodeID err : string) : string :=
  if nonempty nodeID then "cluster " +:+ operation +:+ " failed for node " +:+ nodeID +:+ ": " +:+ err
  else "cluster " +:+ operation +:+ " failed: " +:+ err.

(** ** Nodes *)

(** An address as the net package shows it: its text, and its port if it is a TCP
    address. *)
Record addr := mkAddr { ad_String : string; ad_Port : option Z }.
Definition extractPort (a : addr) : Z := match ad_Port a with Some p => p | None => 0 end.

(** [generateNodeID]: the hex of eight random bytes. *)
Definition generateNodeID (rnd : nat -> Z) : NodeID :=
  "node-" +:+ hex_EncodeToString (map (fun i => u8 (rnd i)) (seq 0 8)).

(** A [localNode] or a [remoteNode]; [nd_managed]: its manager is set. *)
Record node := mkNode {
  nd_local : bool;
  nd_address : option addr;
  nd_info : NodeInfo;
  nd_managed : bool;
  nd_lastPing : Z;
}.

Definition NewLocalNode (id : NodeID) (address : addr) (metadata : gmap string string) (rnd : nat -> Z) (now : time) : node :=
  let id := if eqs id "" then generateNodeID rnd else id in
  mkNode true (Some address)
    (mkNodeInfo id (ad_String address) (extractPort address) NodeStateJoining metadata now now now
       (float64_of_int 0) "1.0.0") false 0.

Definition NewRemoteNode (info : NodeInfo) : node := mkNode false None info false 0.

Definition nd_ID (n : node) : NodeID := ni_ID (nd_info n).
Definition nd_Info (n : node) : NodeInfo := nd_info n.
Definition nd_IsLocal (n : node) : bool := nd_local n.
Definition nd_IsActive (n : node) : bool := bool_decide (ni_State (nd_info n) = NodeStateActive).

Definition nd_set_info (i : NodeInfo) (n : node) : node :=
  mkNode (nd_local n) (nd_address n) i (nd_managed n) (nd_lastPing n).
Definition nd_manage (n : node) : node := mkNode (nd_local n) (nd_address n) (nd_info n) true (nd_lastPing n).
Definition nd_UpdateLoad (load : float64) (now : time) (n : node) : node := nd_set_info (ni_set_Load load now (nd_info n)) n.

(** The address of a remote node is resolved each time; [resolve]: what
    [net.ResolveTCPAddr] gives, [None] for an error. *)
Definition nd_Address (resolve : string -> option addr) (n : node) : option addr :=
  if nd_local n then nd_address n
  else resolve (ni_Address (nd_info n) +:+ ":" +:+ pretty (ni_Port (nd_info n))).

(** A ping of the local node takes no time; of a remote one, ten milliseconds
    unless its context ends first. [d]: what the clock measures. *)
Definition local_Ping (start d : time) (n : node) : node * res duration :=
  (mkNode (nd_local n) (nd_address n) (nd_info n) (nd_managed n) start, Ok d).
Definition remote_Ping (start d : time) (ctx_done : option error) (n : node) : node * res duration :=
  match ctx_done with
  | Some e => (n, Err e)
  | None => (mkNode (nd_local n) (nd_address n) (nd_info n) (nd_managed n) start, Ok d)
  end.
Definition nd_Ping (start d : time) (ctx_done : option error) (n : node) : node * res duration :=
  if nd_local n then local_Ping start d n else remote_Ping start d ctx_done n.

Definition getStateChangeEventType (oldState newState : NodeState) : ClusterEventType :=
  match newState with
  | NodeStateActive => if decide (oldState = NodeStateJoining) then EventNodeJoined else EventNodeRecovered
  | NodeStateLeft => EventNodeLeft
  | NodeStateFailed => EventNodeFailed
  | _ => EventNodeJoined
  end.

(** ** The manager *)

Record clusterManager := mkClusterManager {
  cm_config : ClusterConfig;
  cm_localNode : nat;
  cm_nodes : gmap NodeID nat;
  cm_events : chan ClusterEvent;
  cm_listeners : nat;                            (** how many there are *)
  cm_leader : NodeID;
  cm_running : bool;                             (** its three loops *)
  cm_transport : bool;                           (** created *)
  cm_started : bool;
  cm_heap : list node;
  cm_heard : list ClusterEvent;                  (** events handed to the listeners *)
}.

(** [resolved]: what [net.ResolveTCPAddr] answers for the bind address. *)
Definition NewClusterManager (config : option ClusterConfig) (resolved : res addr) (rnd : nat -> Z) (now : time)
    : go clusterManager :=
  let config := match config with Some c => c | None => DefaultClusterConfig end in
  match resolved with
  | Err e => Panic ("invalid bind address: " +:+ e)
  | Ok bindAddr =>
      Ret (mkClusterManager config 0 ∅ (make_chan 100) 0 "" false false false
             [NewLocalNode (cc_NodeID config) bindAddr (cc_Metadata config) rnd now] [])
  end.

Definition cm_set_events (ch : chan ClusterEvent) (heard : list ClusterEvent) (cm : clusterManager) : clusterManager :=
  mkClusterManager (cm_config cm) (cm_localNode cm) (cm_nodes cm) ch (cm_listeners cm) (cm_leader cm) (cm_running cm)
    (cm_transport cm) (cm_started cm) (cm_heap cm) heard.
Definition cm_set_node (i : nat) (n : node) (cm : clusterManager) : clusterManager :=
  mkClusterManager (cm_config cm) (cm_localNode cm) (cm_nodes cm) (cm_events cm) (cm_listeners cm) (cm_leader cm) (cm_running cm)
    (cm_transport cm) (cm_started cm) (<[i := n]> (cm_heap cm)) (cm_heard cm).
Definition cm_set_nodes (ns : gmap NodeID nat) (cm : clusterManager) : clusterManager :=
  mkClusterManager (cm_config cm) (cm_localNode cm) ns (cm_events cm) (cm_listeners cm) (cm_leader cm) (cm_running cm)
    (cm_transport cm) (cm_started cm) (cm_heap cm) (cm_heard cm).
Definition cm_set_flags (running transport started : bool) (cm : clusterManager) : clusterManager :=
  mkClusterManager (cm_config cm) (cm_localNode cm) (cm_nodes cm) (cm_events cm) (cm_listeners cm) (cm_leader cm) running
    transport started (cm_heap cm) (cm_heard cm).
Definition cm_set_leader (l : NodeID) (cm : clusterManager) : clusterManager :=
  mkClusterManager (cm_config cm) (cm_localNode cm) (cm_nodes cm) (cm_events cm) (cm_listeners cm) l (cm_running cm)
    (cm_transport cm) (cm_started cm) (cm_heap cm) (cm_heard cm).

(** Into the channel if there is room, and to every listener. *)
Definition publishEvent (e : ClusterEvent) (cm : clusterManager) : go clusterManager :=
  '(_, ch) ← try_send (cm_events cm) e;
  Ret (cm_set_events ch (cm_heard cm ++ replicate (cm_listeners cm) e) cm).

Definition nd_UpdateState (i : nat) (state : NodeState) (now : time) (cm : clusterManager) : go clusterManager :=
  match cm_heap cm !! i with
  | None => Ret cm
  | Some n =>
      let oldState := ni_State (nd_info n) in
      let cm1 := cm_set_node i (nd_set_info (ni_set_State state now (nd_info n)) n) cm in
      if nd_managed n then
        publishEvent (mkClusterEvent (getStateChangeEventType oldState state) (nd_ID n) now
                        (Some (NodeState_String oldState, NodeState_String state))) cm1
      else Ret cm1
  end.

Definition local_id (cm : clusterManager) : NodeID :=
  match cm_heap cm !! cm_localNode cm with Some n => nd_ID n | None => "" end.

Definition addNode (i : nat) (cm : clusterManager) : clusterManager :=
  match cm_heap cm !! i with
  | Some n => cm_set_node i (nd_manage n) (cm_set_nodes (<[nd_ID n := i]> (cm_nodes cm)) cm)
  | None => cm
  end.

Definition electSelf (now : time) (cm : clusterManager) : go clusterManager :=
  publishEvent (mkClusterEvent EventLeaderElected (local_id cm) now None) (cm_set_leader (local_id cm) cm).

(** The tickers of the two loops, which panic on an interval that is not positive
    and take the program with them. *)
Definition tickers_ok (c : ClusterConfig) : bool :=
  (0 <? cc_HeartbeatInterval c) && (0 <? cc_SuspicionTimeout c).

(** [transport]: what starting the transport answers. *)
Definition cm_Start (transport : option error) (now : time) (cm : clusterManager) : go (clusterManager * option error) :=
  if cm_started cm then Ret (cm, Some "cluster manager already started")
  else
    let cm1 := cm_set_flags (cm_running cm) true true cm in
    match transport with
    | Some e => Ret (cm1, Some ("failed to start transport: " +:+ e))
    | None =>
        let cm2 := cm_set_flags true true true (addNode (cm_localNode cm) cm1) in
        if negb (tickers_ok (cm_config cm)) then Panic "non-positive interval for NewTicker"
        else
          cm3 ← nd_UpdateState (cm_localNode cm) NodeStateActive now cm2;
          match cc_SeedNodes (cm_config cm) with
          | [] => cm4 ← electSelf now cm3; Ret (cm4, None)
          | _ => Ret (cm3, None)
          end
    end.

(** [stopped]: what stopping the transport answers. Broadcasting the departure is
    not implemented and always succeeds. *)
Definition cm_Stop (stopped : option error) (now : time) (cm : clusterManager) : go (clusterManager * option error) :=
  if negb (cm_started cm) then Ret (cm, None)
  else
    let cm1 := cm_set_flags (cm_running cm) (cm_transport cm) false cm in
    cm2 ← nd_UpdateState (cm_localNode cm) NodeStateLeaving now cm1;
    let cm3 := cm_set_flags false (cm_transport cm2) false cm2 in
    match (if cm_transport cm3 then stopped else None) with
    | Some e => Ret (cm3, Some ("failed to stop transport: " +:+ e))
    | None =>
        cm4 ← nd_UpdateState (cm_localNode cm) NodeStateLeft now cm3;
        ch ← close_chan (cm_events cm4);
        Ret (cm_set_events ch (cm_heard cm4) cm4, None)
    end.

(** Joining through a seed is not implemented: every seed fails. *)
Definition joinViaSeed (seed : string) : option error := Some "seed joining not implemented".
Definition cm_Join (seeds : list string) (now : time) (cm : clusterManager) : go (clusterManager * option error) :=
  match seeds with
  | [] => cm1 ← electSelf now cm; Ret (cm1, None)
  | _ => if existsb (fun s => match joinViaSeed s with None => true | Some _ => false end) seeds
         then Ret (cm, None) else Ret (cm, Some "failed to join cluster via any seed node")
  end.
Definition cm_Leave := cm_Stop.

Definition cm_GetNode (id : NodeID) (cm : clusterManager) : option nat := cm_nodes cm !! id.

Definition node_at (cm : clusterManager) (i : nat) : list node :=
  match cm_heap cm !! i with Some n => [n] | None => [] end.
Definition GetAllNodes (ks : list NodeID) (cm : clusterManager) : list node :=
  range_vals (cm_nodes cm) ks ≫= node_at cm.
Definition GetActiveNodes (ks : list NodeID) (cm : clusterManager) : list node :=
  filter (fun n => nd_IsActive n = true) (GetAllNodes ks cm).
Definition IsLeader (cm : clusterManager) : bool := eqs (cm_leader cm) (local_id cm).
Definition GetLeader (cm : clusterManager) : option nat :=
  if eqs (cm_leader cm) "" then None else cm_GetNode (cm_leader cm) cm.
Definition AddEventListener (cm : clusterManager) : clusterManager :=
  mkClusterManager (cm_config cm) (cm_localNode cm) (cm_nodes cm) (cm_events cm) (S (cm_listeners cm)) (cm_leader cm)
    (cm_running cm) (cm_transport cm) (cm_started cm) (cm_heap cm) (cm_heard cm).
Definition GetClusterSize (ks : list NodeID) (cm : clusterManager) : Z := Z.of_nat (length (GetActiveNodes ks cm)).

(** One turn of the loop over the nodes. *)
Definition count1 (c : Z * Z * Z) (n : node) : Z * Z * Z :=
  let '(active, suspected, failed) := c in
  match ni_State (nd_info n) with
  | NodeStateActive => (active + 1, suspected, failed)
  | NodeStateSuspected => (active, suspected + 1, failed)
  | NodeStateFailed | NodeStateLeft => (active, suspected, failed + 1)
  | _ => c
  end.

Definition GetClusterHealth (ks : list NodeID) (now : time) (cm : clusterManager) : ClusterHealth :=
  let nodes := GetAllNodes ks cm in
  let '(active, suspected, failed) := fold_left count1 nodes (0, 0, 0) in
  let leader := GetLeader cm in
  let hasLeader := bool_decide (is_Some leader) in
  let leaderID := match leader with
                  | Some i => match cm_heap cm !! i with Some n => nd_ID n | None => "" end
                  | None => ""
                  end in
  let total := Z.of_nat (length nodes) in
  let isHealthy := if 1 <? total then hasLeader && (Z.quot total 2 <? active) else hasLeader && (0 <? active) in
  mkClusterHealth total active suspected failed hasLeader leaderID 1 now isHealthy.

(** The callbacks of the transport. *)
Definition HandleConnectionLost (id : NodeID) (now : time) (cm : clusterManager) : go clusterManager :=
  match cm_GetNode id cm with Some i => nd_UpdateState i NodeStateSuspected now cm | None => Ret cm end.
Definition HandleConnectionEstablished (id : NodeID) (now : time) (cm : clusterManager) : go clusterManager :=
  match cm_GetNode id cm with Some i => nd_UpdateState i NodeStateActive now cm | None => Ret cm end.

Definition LocalNode (cm : clusterManager) : option node := cm_heap cm !! cm_localNode cm.
Definition cm_HandleMessage (from : NodeID) (cm : clusterManager) : clusterManager * option error := (cm, None).

(** The bodies of the three loops are empty in the source. *)
Definition sendHeartbeat (cm : clusterManager) : clusterManager := cm.
Definition detectFailures (cm : clusterManager) : clusterManager := cm.
Definition processEvent (e : ClusterEvent) (cm : clusterManager) : clusterManager := cm.

(** One turn of a loop on a ticker: [None] when it leaves, its context being done. *)
Definition heartbeatLoop1 (ctx_done : bool) (cm : clusterManager) : option clusterManager :=
  if ctx_done then None else Some (sendHeartbeat cm).
Definition failureDetectionLoop1 (ctx_done : bool) (cm : clusterManager) : option clusterManager :=
  if ctx_done then None else Some (detectFailures cm).

(** One turn of [eventProcessingLoop]: it takes an event and drops it. *)
Definition eventProcessing1 (cm : clusterManager) : clusterManager :=
  match try_recv (cm_events cm) with
  | Got e ch => if cm_running cm then processEvent e (cm_set_events ch (cm_heard cm) cm) else cm
  | _ => cm
  end.

(** ** ClusterService (integration.go) *)

Record ClusterService := mkClusterService {
  csv_manager : option clusterManager;
  csv_config : ClusterConfig;
  csv_started : bool;
}.

Definition NewClusterService (cfg : option ClusterConfig) : ClusterService :=
  mkClusterService None (match cfg with Some c => c | None => DefaultClusterConfig end) false.

Definition csv_Start (resolved : res addr) (rnd : nat -> Z) (transport : option error) (now : time) (cs : ClusterService)
    : go (ClusterService * option error) :=
  if csv_started cs then Ret (cs, Some "cluster service already started")
  else
    cm ← NewClusterManager (Some (csv_config cs)) resolved rnd now;
    '(cm1, err) ← cm_Start transport now cm;
    match err with
    | Some e => Ret (mkClusterService (Some cm1) (csv_config cs) false, Some ("failed to start cluster manager: " +:+ e))
    | None =>
        match cc_SeedNodes (csv_config cs) with
        | [] => Ret (mkClusterService (Some cm1) (csv_config cs) true, None)
        | seeds =>
            '(cm2, jerr) ← cm_Join seeds now cm1;
            match jerr with
            | Some e => Ret (mkClusterService (Some cm2) (csv_config cs) false, Some ("failed to join cluster: " +:+ e))
            | None => Ret (mkClusterService (Some cm2) (csv_config cs) true, None)
            end
        end
    end.

Definition csv_Stop (stopped : option error) (now : time) (cs : ClusterService) : go (ClusterService * option error) :=
  match csv_started cs, csv_manager cs with
  | true, Some cm =>
      '(cm1, err) ← cm_Stop stopped now cm;
      Ret (mkClusterService (Some cm1) (csv_config cs) false, err)
  | _, _ => Ret (cs, None)
  end.

(** [GetManager], and whether [GetRemoteService] and [GetServiceRegistry] give a
    service: the manager makes both when it is started, with its transport. *)
Definition csv_GetManager (cs : ClusterService) : option clusterManager := csv_manager cs.
Definition csv_GetRemoteService (cs : ClusterService) : bool :=
  match csv_manager cs with Some cm => cm_transport cm | None => false end.
Definition csv_GetServiceRegistry (cs : ClusterService) : bool :=
  match csv_manager cs with Some cm => cm_transport cm | None => false end.

Definition csv_Health (ks : list NodeID) (now : time) (cs : ClusterService) : HealthStatus :=
  match csv_started cs, csv_manager cs with
  | true, Some cm =>
      let h := GetClusterHealth ks now cm in
      let count := pretty (chl_ActiveNodes h) +:+ "/" +:+ pretty (chl_TotalNodes h) +:+ " nodes active" in
      if negb (chl_HasLeader h) then mkHealthStatus "critical" "no cluster leader" now
      else if negb (chl_IsHealthy h) then mkHealthStatus HealthUnhealthy ("cluster unhealthy: " +:+ count) now
      else mkHealthStatus "healthy" ("cluster healthy: " +:+ count) now
  | _, _ => mkHealthStatus "stopped" "cluster service not running" zero_time
  end.

(** ** Table and heap agree *)

Record cm_wf (cm : clusterManager) : Prop := {
  cw_table : forall id i, cm_nodes cm !! id = Some i ->
    exists n, cm_heap cm !! i = Some n /\ nd_ID n = id /\ nd_managed n = true;
  cw_local : is_Some (cm_heap cm !! cm_localNode cm);
  cw_events : chan_wf (cm_events cm);
}.

Lemma wf_publish e cm cm' : cm_wf cm -> publishEvent e cm = Ret cm' -> cm_wf cm'.
Proof.
  intros [H1 H2 H3]. unfold publishEvent. destruct (try_send (cm_events cm) e) as [[b ch]| |] eqn:E; [|done..].
  intros [= <-]. split; [done|done|]. eapply try_send_wf; eassumption.
Qed.

Lemma insert_is_Some {A} (l : list A) i j x : is_Some (l !! j) -> is_Some (<[i := x]> l !! j).
Proof. by rewrite !lookup_lt_is_Some length_insert. Qed.

(** Changing the info or the manager of a node but not its id. *)
Lemma wf_set_node i n n' cm :
  cm_wf cm -> cm_heap cm !! i = Some n -> nd_ID n' = nd_ID n -> (nd_managed n = true -> nd_managed n' = true) ->
  cm_wf (cm_set_node i n' cm).
Proof.
  intros [H1 H2 H3] Hi Hid Hm. split; cbn; [|by apply insert_is_Some|done].
  intros id j Hj. destruct (H1 id j Hj) as (m & Em & <- & Mm). destruct (decide (i = j)) as [->|Hij].
  - simplify_eq. exists n'. rewrite list_lookup_insert_eq; [exact (lookup_lt_Some _ _ _ Hi)|]. auto.
  - exists m. by rewrite list_lookup_insert_ne.
Qed.

Lemma wf_update i st now cm cm' : cm_wf cm -> nd_UpdateState i st now cm = Ret cm' -> cm_wf cm'.
Proof.
  intros Hwf. unfold nd_UpdateState. destruct (cm_heap cm !! i) as [n|] eqn:Hi; [|by intros [= <-]].
  assert (cm_wf (cm_set_node i (nd_set_info (ni_set_State st now (nd_info n)) n) cm)) as Hwf'
    by (by apply (wf_set_node i n)).
  destruct (nd_managed n); [by apply wf_publish|by intros [= <-]].
Qed.

Lemma wf_flags a b c cm : cm_wf cm -> cm_wf (cm_set_flags a b c cm).
Proof. by intros [? ? ?]. Qed.

Lemma wf_addNode i cm : cm_wf cm -> cm_wf (addNode i cm).
Proof.
  intros Hwf. unfold addNode. destruct (cm_heap cm !! i) as [n|] eqn:Hi; [|done].
  destruct Hwf as [H1 H2 H3]. split; cbn; [|by apply insert_is_Some|done].
  assert (i < length (cm_heap cm))%nat as Hlt by exact (lookup_lt_Some _ _ _ Hi).
  intros id j Hj. destruct (decide (i = j)) as [<-|Hij].
  - exists (nd_manage n). rewrite list_lookup_insert_eq //. split; [done|]. split; [|done].
    apply lookup_insert_Some in Hj as [[<- _]|[_ Hj]]; [done|]. destruct (H1 id i Hj) as (m & Em & <- & _).
    by simplify_eq.
  - rewrite list_lookup_insert_ne //. apply lookup_insert_Some in Hj as [[_ ?]|[_ Hj]]; [done|by apply H1].
Qed.

Lemma wf_elect now cm cm' : cm_wf cm -> electSelf now cm = Ret cm' -> cm_wf cm'.
Proof. intros Hwf. apply wf_publish. by destruct Hwf. Qed.

Lemma wf_Start tr now cm cm' e : cm_wf cm -> cm_Start tr now cm = Ret (cm', e) -> cm_wf cm'.
Proof.
  intros Hwf. unfold cm_Start. destruct (cm_started cm); [by intros [= <- _]|].
  destruct tr as [e'|]; [intros [= <- _]; by apply wf_flags|]. destruct (negb (tickers_ok (cm_config cm))); [done|].
  destruct (nd_UpdateState _ _ _ _) as [cm3| |] eqn:E3; [|done..]. cbn [mbind go_bind].
  assert (cm_wf cm3) as W3 by (eapply wf_update; [|exact E3]; by apply wf_flags, wf_addNode, wf_flags).
  destruct (cc_SeedNodes (cm_config cm)); [|by intros [= <- _]].
  destruct (electSelf now cm3) as [cm4| |] eqn:E4; [|done..]. intros [= <- _]. eapply wf_elect; eassumption.
Qed.

Lemma wf_Stop st now cm cm' e : cm_wf cm -> cm_Stop st now cm = Ret (cm', e) -> cm_wf cm'.
Proof.
  intros Hwf. unfold cm_Stop. destruct (cm_started cm); cbn [negb]; [|by intros [= <- _]].
  destruct (nd_UpdateState _ _ _ _) as [cm2| |] eqn:E2; [|done..]. cbn [mbind go_bind].
  assert (cm_wf cm2) as W2 by (eapply wf_update; [|exact E2]; by apply wf_flags).
  case_match; [intros [= <- _]; by apply wf_flags|].
  destruct (nd_UpdateState _ NodeStateLeft _ _) as [cm4| |] eqn:E4; [|done..]. cbn [mbind go_bind].
  assert (cm_wf cm4) as W4 by (eapply wf_update; [|exact E4]; by apply wf_flags).
  unfold close_chan. destruct (ch_closed (cm_events cm4)); [done|]. cbn [mbind go_bind]. intros [= <- _].
  destruct W4. by split.
Qed.

(** What can happen to a manager. *)
Inductive cmop :=
| CStart (transport : option error) (now : time)
| CStop (stopped : option error) (now : time)
| CJoin (seeds : list string) (now : time)
| CLost (id : NodeID) (now : time)
| CEstablished (id : NodeID) (now : time)
| CListen
| CProcess
| CUpdate (st : NodeState) (now : time).

Definition cm_step (cm : clusterManager) (op : cmop) : go clusterManager :=
  match op with
  | CStart tr now => '(cm', _) ← cm_Start tr now cm; Ret cm'
  | CStop st now => '(cm', _) ← cm_Stop st now cm; Ret cm'
  | CJoin seeds now => '(cm', _) ← cm_Join seeds now cm; Ret cm'
  | CLost id now => HandleConnectionLost id now cm
  | CEstablished id now => HandleConnectionEstablished id now cm
  | CListen => Ret (AddEventListener cm)
  | CProcess => Ret (eventProcessing1 cm)
  | CUpdate st now => nd_UpdateState (cm_localNode cm) st now cm
  end.

Inductive cm_reach (config : ClusterConfig) : clusterManager -> Prop :=
| cm_reach_new a rnd now cm : NewClusterManager (Some config) (Ok a) rnd now = Ret cm -> cm_reach config cm
| cm_reach_step cm op cm' : cm_reach config cm -> cm_step cm op = Ret cm' -> cm_reach config cm'.

Lemma wf_step cm op cm' : cm_wf cm -> cm_step cm op = Ret cm' -> cm_wf cm'.
Proof.
  intros Hwf. destruct op as [tr now|st now|seeds now|id now|id now| | |st now]; cbn [cm_step].
  - destruct (cm_Start tr now cm) as [[c e]| |] eqn:E; [|done..]. intros [= <-]. eapply wf_Start; eassumption.
  - destruct (cm_Stop st now cm) as [[c e]| |] eqn:E; [|done..]. intros [= <-]. eapply wf_Stop; eassumption.
  - unfold cm_Join. destruct seeds; [|case_match; by intros [= <-]].
    destruct (electSelf now cm) as [c| |] eqn:E; [|done..]. intros [= <-]. eapply wf_elect; eassumption.
  - unfold HandleConnectionLost. destruct (cm_GetNode id cm); [by apply wf_update|by intros [= <-]].
  - unfold HandleConnectionEstablished. destruct (cm_GetNode id cm); [by apply wf_update|by intros [= <-]].
  - intros [= <-]. by destruct Hwf.
  - intros [= <-]. unfold eventProcessing1. destruct (try_recv (cm_events cm)) as [x ch| |] eqn:E; [|done..].
    destruct (cm_running cm); [|done]. destruct Hwf as [H1 H2 H3]. split; [done|done|]. cbn.
    unfold try_recv in E. destruct (ch_buf (cm_events cm)) as [|y l] eqn:Eb; [by destruct (ch_closed _)|].
    injection E as <- <-. unfold chan_wf in *. cbn. rewrite Eb in H3. cbn in H3. lia.
  - by apply wf_update.
Qed.

Lemma reach_wf config cm : cm_reach config cm -> cm_wf cm.
Proof.
  induction 1 as [a rnd now cm E|cm op cm' _ IH E]; [|eapply wf_step; eassumption].
  injection E as <-. split; [done|by eexists|cbn; unfold chan_wf; cbn; lia].
Qed.

(** ** Health *)

Definition in_state (sts : list NodeState) (n : node) : bool :=
  existsb (fun st => bool_decide (ni_State (nd_info n) = st)) sts.
Definition count_in (sts : list NodeState) (ns : list node) : Z := Z.of_nat (length (filter (fun n => in_state sts n = true) ns)).

Lemma count_in_cons sts n ns : count_in sts (n :: ns) = (if in_state sts n then 1 else 0) + count_in sts ns.
Proof. unfold count_in. rewrite filter_cons. destruct (in_state sts n); case_decide; try done; cbn [length]; lia. Qed.

Lemma count1_fold ns a s f :
  fold_left count1 ns (a, s, f) =
    (a + count_in [NodeStateActive] ns, s + count_in [NodeStateSuspected] ns,
     f + count_in [NodeStateFailed; NodeStateLeft] ns).
Proof.
  revert a s f. induction ns as [|n ns IH]; intros a s f; [cbn; by rewrite !Z.add_0_r|].
  rewrite !count_in_cons. cbn [fold_left]. unfold count1 at 2, in_state.
  destruct (ni_State (nd_info n)); rewrite IH; cbn;
    repeat case_bool_decide; try congruence; cbn; (apply (f_equal2 pair); [apply (f_equal2 pair)|]); lia.
Qed.

Lemma count_in_bound sts ns : 0 <= count_in sts ns <= Z.of_nat (length ns).
Proof. unfold count_in. pose proof (length_filter (fun n => in_state sts n = true) ns). lia. Qed.

Lemma all_nodes_total cm ks :
  cm_wf cm -> range_order (cm_nodes cm) ks -> length (GetAllNodes ks cm) = size (cm_nodes cm).
Proof.
  intros Hwf Hks. rewrite -(length_range_vals _ _ Hks). unfold GetAllNodes.
  assert (Forall (fun i => is_Some (cm_heap cm !! i)) (range_vals (cm_nodes cm) ks)) as Hall.
  { apply Forall_forall. intros i Hi. apply elem_of_range_vals in Hi as [id Hi]; [|done].
    destruct (cw_table _ Hwf id i Hi) as (n & -> & _). by eexists. }
  induction Hall as [|i l [n Hn] _ IH]; [done|]. rewrite bind_cons length_app IH /node_at Hn. done.
Qed.


Definition demo_new : clusterManager :=
  mkClusterManager DefaultClusterConfig 0 ∅ (make_chan 100) 0 "" false false false
    [NewLocalNode "" (mkAddr "0.0.0.0:7946" (Some 7946)) ∅ (fun _ => 1) 5] [].
Definition demo_cluster : clusterManager :=
  match cm_Start None 6 demo_new with Ret (cm', _) => cm' | _ => demo_new end.

Lemma demo_cluster_reach : cm_reach DefaultClusterConfig demo_cluster.
Proof.
  apply (cm_reach_step _ demo_new (CStart None 6)).
  - apply (cm_reach_new _ (mkAddr "0.0.0.0:7946" (Some 7946)) (fun _ => 1) 5). reflexivity.
  - vm_compute. reflexivity.
Qed.


(** ** The life of a manager *)

(** The names of the events in the channel, oldest first. *)
Definition announced (cm : clusterManager) : list ClusterEventType := map ce_Type (ch_buf (cm_events cm)).

(** An event is queued while the channel is open and has room. *)
Lemma publish_room e cm :
  ch_closed (cm_events cm) = false -> (length (ch_buf (cm_events cm)) < ch_cap (cm_events cm))%nat ->
  publishEvent e cm =
    Ret (cm_set_events (mkChan (ch_buf (cm_events cm) ++ [e]) (ch_cap (cm_events cm)) false)
           (cm_heard cm ++ replicate (cm_listeners cm) e) cm).
Proof. intros Hc Hr. unfold publishEvent. rewrite try_send_open // decide_True //. Qed.

Lemma publish_closed e cm : ch_closed (cm_events cm) = true -> publishEvent e cm = Panic "send on closed channel".
Proof. intros Hc. unfold publishEvent, try_send. by rewrite Hc. Qed.

(** A manager whose heap is its local node. *)
Definition lone (config : ClusterConfig) (ns : gmap NodeID nat) (es : list ClusterEvent) (closed : bool) (leader : NodeID)
    (running transport started : bool) (n : node) : clusterManager :=
  mkClusterManager config 0 ns (mkChan es 100 closed) 0 leader running transport started [n] [].

Definition moved (st : NodeState) (now : time) (n : node) : node := nd_set_info (ni_set_State st now (nd_info n)) n.
Definition moved_event (st : NodeState) (now : time) (n : node) : ClusterEvent :=
  mkClusterEvent (getStateChangeEventType (ni_State (nd_info n)) st) (nd_ID n) now
    (Some (NodeState_String (ni_State (nd_info n)), NodeState_String st)).

Lemma lone_update config ns es leader r tr stt n st now :
  nd_managed n = true -> (length es < 100)%nat ->
  nd_UpdateState 0 st now (lone config ns es false leader r tr stt n)
  = Ret (lone config ns (es ++ [moved_event st now n]) false leader r tr stt (moved st now n)).
Proof.
  intros Hm Hl. unfold nd_UpdateState, lone. cbn [cm_heap lookup list_lookup]. rewrite Hm publish_room //.
Qed.

Lemma lone_Start config ns leader r tr n now :
  tickers_ok config = true ->
  cm_Start None now (lone config ns [] false leader r tr false n)
  = Ret (lone config (<[nd_ID n := 0%nat]> ns)
           (moved_event NodeStateActive now n :: match cc_SeedNodes config with
              [] => [mkClusterEvent EventLeaderElected (nd_ID n) now None] | _ => [] end) false
           (match cc_SeedNodes config with [] => nd_ID n | _ => leader end) true true true
           (moved NodeStateActive now (nd_manage n)), None).
Proof.
  intros Ht. unfold cm_Start. cbn [cm_started lone cm_config cm_localNode]. rewrite Ht. cbn [negb].
  change (cm_set_flags true true true (addNode 0 (cm_set_flags r true true (lone config ns [] false leader r tr false n))))
    with (lone config (<[nd_ID n := 0%nat]> ns) [] false leader true true true (nd_manage n)).
  rewrite lone_update; [done|cbn; lia|]. cbn [mbind go_bind].
  destruct (cc_SeedNodes config); [|done]. unfold electSelf. rewrite publish_room //. cbn. lia.
Qed.

Lemma lone_Stop config ns es leader r n now :
  nd_managed n = true -> (length es + 2 <= 100)%nat ->
  cm_Stop None now (lone config ns es false leader r true true n)
  = Ret (lone config ns (es ++ [moved_event NodeStateLeaving now n; moved_event NodeStateLeft now (moved NodeStateLeaving now n)])
           true leader false true false (moved NodeStateLeft now (moved NodeStateLeaving now n)), None).
Proof.
  intros Hm Hl. unfold cm_Stop. cbn [cm_started lone negb cm_localNode cm_running cm_transport].
  change (cm_set_flags r true false (lone config ns es false leader r true true n))
    with (lone config ns es false leader r true false n).
  rewrite lone_update; [done|lia|]. cbn [mbind go_bind].
  change (cm_set_flags false ?t false (lone config ns ?es' false leader r true false ?n'))
    with (lone config ns es' false leader false true false n').
  cbn [cm_transport lone]. rewrite lone_update; [done|rewrite length_app; cbn; lia|]. cbn [mbind go_bind].
  by rewrite -app_assoc.
Qed.

(** The life of a cluster manager: on a new manager with positive intervals,
    [Start] makes the local node active, lists it under its id, announces that
    it joined, and without seeds elects it leader; a second [Start] is refused.
    [Stop] then takes the node out through the state leaving, which is announced
    as another node_joined, to left, and closes the event channel; a second
    [Stop] does nothing. Starting again panics on the closed channel. *)
Theorem cluster_manager_life config a rnd t0 t1 t2 t3 cm :
  NewClusterManager (Some config) (Ok a) rnd t0 = Ret cm -> tickers_ok config = true ->
  exists cm1 cm2 n1 n2,
    cm_Start None t1 cm = Ret (cm1, None)
    /\ cm_heap cm1 = [n1] /\ nd_IsActive n1 = true /\ cm_nodes cm1 = {[nd_ID n1 := 0%nat]}
    /\ cm_leader cm1 = (match cc_SeedNodes config with [] => nd_ID n1 | _ => "" end)
    /\ announced cm1 = EventNodeJoined :: match cc_SeedNodes config with [] => [EventLeaderElected] | _ => [] end
    /\ cm_Start None t1 cm1 = Ret (cm1, Some "cluster manager already started")
    /\ cm_Stop None t2 cm1 = Ret (cm2, None)
    /\ announced cm2 = announced cm1 ++ [EventNodeJoined; EventNodeLeft]
    /\ cm_heap cm2 = [n2] /\ ni_State (nd_info n2) = NodeStateLeft
    /\ ch_closed (cm_events cm2) = true
    /\ cm_Stop None t3 cm2 = Ret (cm2, None)
    /\ cm_Start None t3 cm2 = Panic "send on closed channel".
Proof.
  intros [= <-] Ht. set (n := NewLocalNode _ _ _ _ _).
  assert (ni_State (nd_info n) = NodeStateJoining) as Hn by reflexivity. clearbody n.
  change (mkClusterManager config 0 ∅ (make_chan 100) 0 "" false false false [n] [])
    with (lone config ∅ [] false "" false false false n).
  eexists _, _, _, _. rewrite lone_Start //. split; [reflexivity|]. split; [reflexivity|]. split; [done|].
  split; [by rewrite insert_empty|]. split; [done|].
  split; [cbn; rewrite Hn; by destruct (cc_SeedNodes config)|]. split; [done|].
  rewrite lone_Stop; [done|destruct (cc_SeedNodes config); cbn; lia|]. split; [reflexivity|].
  split; [unfold announced; cbn [lone cm_events ch_buf]; by rewrite map_app|].
  split; [reflexivity|]. split; [done|]. split; [done|]. split; [done|].
  unfold cm_Start. cbn [cm_started lone cm_config cm_localNode]. rewrite Ht. cbn [negb].
  unfold nd_UpdateState. cbn -[publishEvent]. by rewrite publish_closed.
Qed.

Lemma cluster_manager_life_witness :
  exists cm1 cm2,
    cm_Start None 1 (lone DefaultClusterConfig ∅ [] false "" false false false
        (NewLocalNode "" (mkAddr "a" None) ∅ (fun _ => 1) 0)) = Ret (cm1, None)
    /\ cm_Stop None 2 cm1 = Ret (cm2, None)
    /\ cm_Start None 3 cm2 = Panic "send on closed channel".
Proof.
  destruct (cluster_manager_life DefaultClusterConfig (mkAddr "a" None) (fun _ => 1) 0 1 2 3
    (lone DefaultClusterConfig ∅ [] false "" false false false
        (NewLocalNode "" (mkAddr "a" None) ∅ (fun _ => 1) 0)) eq_refl eq_refl)
    as (cm1 & cm2 & n1 & n2 & H1 & _ & _ & _ & _ & _ & _ & H6 & _ & _ & _ & _ & _ & H11).
  exists cm1, cm2. split; [exact H1|]. split; [exact H6|exact H11].
Defined.

(** ** The service *)

Lemma no_seed_joins l : existsb (fun s => match joinViaSeed s with None => true | Some _ => false end) l = false.
Proof. by induction l. Qed.

(** With seed nodes a cluster service never starts: joining through a seed is
    not implemented, so [Start] answers an error, but the manager it created is
    running and its transport listens; the service counts as stopped, and its
    [Stop] returns without stopping the manager. *)
Theorem seeded_service_leaks config a rnd now now' :
  cc_SeedNodes config <> [] -> tickers_ok config = true ->
  exists cs cm,
    csv_Start (Ok a) rnd None now (NewClusterService (Some config))
      = Ret (cs, Some "failed to join cluster: failed to join cluster via any seed node")
    /\ csv_manager cs = Some cm /\ cm_started cm = true /\ cm_running cm = true
    /\ csv_started cs = false
    /\ csv_Stop None now' cs = Ret (cs, None).
Proof.
  intros Hs Ht. unfold csv_Start, NewClusterService. cbn [csv_started csv_config NewClusterManager mbind go_bind].
  set (n := NewLocalNode _ _ _ _ _). clearbody n.
  change (mkClusterManager config 0 ∅ (make_chan 100) 0 "" false false false [n] [])
    with (lone config ∅ [] false "" false false false n).
  rewrite lone_Start //. cbn [mbind go_bind]. destruct (cc_SeedNodes config) as [|seed seeds]; [done|].
  unfold cm_Join. rewrite no_seed_joins. cbn [mbind go_bind]. eexists _, _. split; [reflexivity|]. done.
Qed.

Definition seeded_config : ClusterConfig :=
  mkClusterConfig "n" "0.0.0.0" 7946 "c" ["10.0.0.1:7946"] Second Second Second Second Second 3 Second 1024 true false 3
    Second Second ∅.

Lemma seeded_service_leaks_witness :
  exists cs cm, csv_Start (Ok (mkAddr "a" None)) (fun _ => 0) None 0 (NewClusterService (Some seeded_config))
      = Ret (cs, Some "failed to join cluster: failed to join cluster via any seed node")
    /\ csv_manager cs = Some cm /\ cm_running cm = true.
Proof.
  destruct (seeded_service_leaks seeded_config (mkAddr "a" None) (fun _ => 0) 0 0 ltac:(discriminate) eq_refl)
    as (cs & cm & H1 & H2 & _ & H4 & _).
  exists cs, cm. split; [exact H1|]. split; [exact H2|exact H4].
Defined.
