(* ===== verification/ClusterRemote.v ===== *)
(** src/cluster/service.go: the service registry of a cluster node and remote
    calls between nodes.

    Watchers own channels, which live on a heap; the goroutine that ends a watch
    first removes its channel from the table and then closes it, and the two are
    separate steps. A remote call puts a pending call into a table, sends a
    request and waits; the reply is put into the channel of the pending call.
    JSON, the transport's answers and the handlers are parameters. *)

From S2P Require Import Prelude CoreTypes NetMessage GoText LoadBalancer ClusterNode.
From Stdlib Require Import Ascii.

(** ** Data (interfaces.go) *)

Inductive ServiceHealth := ServiceHealthHealthy | ServiceHealthUnhealthy | ServiceHealthUnknown.

Record ServiceInstance := mkServiceInstance {
  ins_ServiceID : string;
  ins_NodeID : NodeID;
  ins_Address : string;
  ins_Metadata : gmap string string;
  ins_Health : ServiceHealth;
  ins_RegisteredAt : time;
  ins_LastSeen : time;
}.

Inductive ServiceEventType := ServiceEventRegistered | ServiceEventUnregistered | ServiceEventHealthy | ServiceEventUnhealthy.

Record ServiceEvent := mkServiceEvent {
  se_Type : ServiceEventType;
  se_ServiceID : string;
  se_Instance : ServiceInstance;
  se_Timestamp : time;
}.

Record RemoteActorRef := mkRemoteActorRef { ref_NodeID : NodeID; ref_ActorID : string; ref_Address : string }.

Inductive CMessageType :=
| MessageTypeJoin | MessageTypeLeave | MessageTypeHeartbeat | MessageTypeElection
| MessageTypeActorCall | MessageTypeActorReply | MessageTypeSync | MessageTypeBroadcast.
#[export] Instance CMessageType_eq_dec : EqDecision CMessageType.
Proof. solve_decision. Defined.

(** The metadata, hops and path of a message are never set or read. *)
Record ClusterMessage := mkClusterMessage {
  cmsg_ID : string;
  cmsg_Type : CMessageType;
  cmsg_From : NodeID;
  cmsg_To : NodeID;
  cmsg_Payload : bytes;
  cmsg_Headers : gmap string string;
  cmsg_Timestamp : time;
  cmsg_TTL : duration;
}.

Definition generateMessageID (now : time) : string := "msg-" +:+ pretty now.

(** ** The service registry *)

(** Where the goroutine of a watch is. *)
Inductive wphase := Watching (serviceID : string) | Removed | Closed.

Record serviceRegistry := mkServiceRegistry {
  sr_nodeID : NodeID;                              (** the manager's local node *)
  sr_address : string;
  sr_services : gmap string (list ServiceInstance);
  sr_watchers : gmap string (list nat);
  sr_chans : list (chan ServiceEvent);             (** the heap of channels *)
  sr_phases : list wphase;
}.

Definition NewServiceRegistry (nodeID : NodeID) (address : string) : serviceRegistry :=
  mkServiceRegistry nodeID address ∅ ∅ [] [].

Definition sr_set_services (m : gmap string (list ServiceInstance)) (sr : serviceRegistry) : serviceRegistry :=
  mkServiceRegistry (sr_nodeID sr) (sr_address sr) m (sr_watchers sr) (sr_chans sr) (sr_phases sr).
Definition sr_set_chans (cs : list (chan ServiceEvent)) (sr : serviceRegistry) : serviceRegistry :=
  mkServiceRegistry (sr_nodeID sr) (sr_address sr) (sr_services sr) (sr_watchers sr) cs (sr_phases sr).
Definition sr_set_watchers (m : gmap string (list nat)) (ph : list wphase) (sr : serviceRegistry) : serviceRegistry :=
  mkServiceRegistry (sr_nodeID sr) (sr_address sr) (sr_services sr) m (sr_chans sr) ph.

(** The loop over the channels of the watchers; a full one is skipped. *)
Fixpoint notify_loop (e : ServiceEvent) (ws : list nat) (cs : list (chan ServiceEvent)) : go (list (chan ServiceEvent)) :=
  match ws with
  | [] => Ret cs
  | w :: ws' =>
      match cs !! w with
      | None => notify_loop e ws' cs
      | Some ch => '(_, ch') ← try_send ch e; notify_loop e ws' (<[w := ch']> cs)
      end
  end.

Definition notifyWatchers (serviceID : string) (e : ServiceEvent) (sr : serviceRegistry) : go serviceRegistry :=
  match sr_watchers sr !! serviceID with
  | None => Ret sr
  | Some ws => cs ← notify_loop e ws (sr_chans sr); Ret (sr_set_chans cs sr)
  end.

(** The first instance of the local node is replaced; without one, the new
    instance is appended. *)
Fixpoint put_instance (nodeID : NodeID) (inst : ServiceInstance) (l : list ServiceInstance) : list ServiceInstance :=
  match l with
  | [] => [inst]
  | x :: l' => if eqs (ins_NodeID x) nodeID then inst :: l' else x :: put_instance nodeID inst l'
  end.

Definition sr_RegisterService (serviceID : string) (metadata : gmap string string) (clk : clock) (sr : serviceRegistry)
    : go serviceRegistry :=
  let instance := mkServiceInstance serviceID (sr_nodeID sr) (sr_address sr) metadata ServiceHealthHealthy
                    (clk 0%nat) (clk 1%nat) in
  let instances := default [] (sr_services sr !! serviceID) in
  notifyWatchers serviceID (mkServiceEvent ServiceEventRegistered serviceID instance (clk 2%nat))
    (sr_set_services (<[serviceID := put_instance (sr_nodeID sr) instance instances]> (sr_services sr)) sr).

(** The last removed instance is the one the watchers are told of. *)
Definition sr_UnregisterService (serviceID : string) (now : time) (sr : serviceRegistry) : go serviceRegistry :=
  match sr_services sr !! serviceID with
  | None => Ret sr
  | Some instances =>
      let newInstances := filter (fun i => ins_NodeID i <> sr_nodeID sr) instances in
      let removed := last (filter (fun i => ins_NodeID i = sr_nodeID sr) instances) in
      let m := match newInstances with
               | [] => delete serviceID (sr_services sr)
               | _ => <[serviceID := newInstances]> (sr_services sr)
               end in
      let sr1 := sr_set_services m sr in
      match removed with
      | Some inst => if nonempty (ins_ServiceID inst)
                     then notifyWatchers serviceID (mkServiceEvent ServiceEventUnregistered serviceID inst now) sr1
                     else Ret sr1
      | None => Ret sr1
      end
  end.

Definition sr_DiscoverService (serviceID : string) (sr : serviceRegistry) : list ServiceInstance :=
  default [] (sr_services sr !! serviceID).
Definition GetAllServices (sr : serviceRegistry) : gmap string (list ServiceInstance) := sr_services sr.

Definition sr_Watch (serviceID : string) (sr : serviceRegistry) : serviceRegistry * nat :=
  let w := length (sr_chans sr) in
  (mkServiceRegistry (sr_nodeID sr) (sr_address sr) (sr_services sr)
     (<[serviceID := default [] (sr_watchers sr !! serviceID) ++ [w]]> (sr_watchers sr))
     (sr_chans sr ++ [make_chan 100]) (sr_phases sr ++ [Watching serviceID]), w).

Definition removeWatcher (serviceID : string) (w : nat) (sr : serviceRegistry) : serviceRegistry :=
  match sr_watchers sr !! serviceID with
  | None => sr
  | Some ws =>
      let newWatchers := filter (fun x => x <> w) ws in
      sr_set_watchers (match newWatchers with
                       | [] => delete serviceID (sr_watchers sr)
                       | _ => <[serviceID := newWatchers]> (sr_watchers sr)
                       end) (sr_phases sr) sr
  end.

(** The two steps of the goroutine that ends watch [w] when its context is done. *)
Definition watch_remove (w : nat) (sr : serviceRegistry) : serviceRegistry :=
  match sr_phases sr !! w with
  | Some (Watching serviceID) =>
      let sr1 := removeWatcher serviceID w sr in sr_set_watchers (sr_watchers sr1) (<[w := Removed]> (sr_phases sr1)) sr1
  | _ => sr
  end.
Definition watch_close (w : nat) (sr : serviceRegistry) : go serviceRegistry :=
  match sr_phases sr !! w, sr_chans sr !! w with
  | Some Removed, Some ch =>
      ch' ← close_chan ch;
      Ret (sr_set_watchers (sr_watchers sr) (<[w := Closed]> (sr_phases sr)) (sr_set_chans (<[w := ch']> (sr_chans sr)) sr))
  | _, _ => Ret sr
  end.

Inductive srop :=
| SrRegister (serviceID : string) (metadata : gmap string string) (clk : clock)
| SrUnregister (serviceID : string) (now : time)
| SrWatch (serviceID : string)
| SrRemove (w : nat)
| SrClose (w : nat)
| SrReceive (w : nat).

Definition sr_step (sr : serviceRegistry) (op : srop) : go serviceRegistry :=
  match op with
  | SrRegister id md clk => sr_RegisterService id md clk sr
  | SrUnregister id now => sr_UnregisterService id now sr
  | SrWatch id => Ret (sr_Watch id sr).1
  | SrRemove w => Ret (watch_remove w sr)
  | SrClose w => watch_close w sr
  | SrReceive w => match sr_chans sr !! w with
                   | Some ch => match try_recv ch with
                                | Got _ ch' => Ret (sr_set_chans (<[w := ch']> (sr_chans sr)) sr)
                                | _ => Ret sr
                                end
                   | None => Ret sr
                   end
  end.

Fixpoint sr_run (sr : serviceRegistry) (ops : list srop) : go serviceRegistry :=
  match ops with [] => Ret sr | op :: ops' => sr1 ← sr_step sr op; sr_run sr1 ops' end.

(** ** The registry keeps one instance per service, and open channels in its table *)

Definition is_closed (p : wphase) : bool := match p with Closed => true | _ => false end.

Record sr_inv (sr : serviceRegistry) : Prop := {
  si_heap : length (sr_chans sr) = length (sr_phases sr);
  si_open : forall w p ch, sr_phases sr !! w = Some p -> sr_chans sr !! w = Some ch -> ch_closed ch = is_closed p;
  si_watch : forall id ws w, sr_watchers sr !! id = Some ws -> w ∈ ws -> sr_phases sr !! w = Some (Watching id);
  si_single : forall id l, sr_services sr !! id = Some l ->
    exists inst, l = [inst] /\ ins_NodeID inst = sr_nodeID sr /\ ins_ServiceID inst = id;
}.

Definition same_flags (cs cs' : list (chan ServiceEvent)) : Prop :=
  length cs' = length cs
  /\ forall w ch', cs' !! w = Some ch' -> exists ch, cs !! w = Some ch /\ ch_closed ch' = ch_closed ch.

Lemma same_flags_insert cs w ch ch' :
  cs !! w = Some ch -> ch_closed ch' = ch_closed ch -> same_flags cs (<[w := ch']> cs).
Proof.
  intros Hw Hc. split; [by rewrite length_insert|]. intros v c Hv. destruct (decide (v = w)) as [->|Hne].
  - rewrite list_lookup_insert_eq in Hv; [exact (lookup_lt_Some _ _ _ Hw)|]. simplify_eq. eauto.
  - rewrite list_lookup_insert_ne in Hv; [congruence|]. eauto.
Qed.

Lemma same_flags_trans a b c : same_flags a b -> same_flags b c -> same_flags a c.
Proof.
  intros [L1 F1] [L2 F2]. split; [congruence|]. intros w ch Hw. destruct (F2 w ch Hw) as (ch1 & H1 & E1).
  destruct (F1 w ch1 H1) as (ch2 & H2 & E2). exists ch2. split; [done|congruence].
Qed.

(** Open channels are notified without a panic, and stay open. *)
Lemma notify_loop_open e ws cs :
  (forall w ch, w ∈ ws -> cs !! w = Some ch -> ch_closed ch = false) ->
  exists cs', notify_loop e ws cs = Ret cs' /\ same_flags cs cs'.
Proof.
  revert cs. induction ws as [|w ws IH]; intros cs Hopen; cbn [notify_loop].
  { exists cs. split; [done|]. split; [done|]. eauto. }
  destruct (cs !! w) as [ch|] eqn:Hw; [|apply IH; set_solver].
  assert (ch_closed ch = false) as Hch by (apply (Hopen w ch); [left|exact Hw]).
  rewrite try_send_open //. set ch' := if decide (length (ch_buf ch) < ch_cap ch)%nat
    then mkChan (ch_buf ch ++ [e]) (ch_cap ch) false else ch.
  assert (ch_closed ch' = ch_closed ch) as Hc' by (unfold ch'; by case_decide).
  assert (same_flags cs (<[w := ch']> cs)) as Hs by by apply (same_flags_insert cs w ch).
  destruct (IH (<[w := ch']> cs)) as (cs' & E & S').
  { intros v c Hv Hc. destruct (proj2 Hs v c Hc) as (c0 & H0 & ->). apply (Hopen v c0); [by right|done]. }
  exists cs'. split; [|exact (same_flags_trans _ _ _ Hs S')]. rewrite -E /ch'. by case_decide.
Qed.

Lemma inv_set_chans cs sr : sr_inv sr -> same_flags (sr_chans sr) cs -> sr_inv (sr_set_chans cs sr).
Proof.
  intros [H1 H2 H3 H4] [L F]. split; cbn; [congruence| |done|done].
  intros w p ch Hp Hc. destruct (F w ch Hc) as (ch0 & H0 & ->). by apply (H2 w).
Qed.

Lemma notify_ok id e sr :
  sr_inv sr -> exists sr', notifyWatchers id e sr = Ret sr' /\ sr_inv sr'
    /\ sr_services sr' = sr_services sr /\ sr_nodeID sr' = sr_nodeID sr /\ sr_address sr' = sr_address sr.
Proof.
  intros Hinv. unfold notifyWatchers. destruct (sr_watchers sr !! id) as [ws|] eqn:Hw; [|by exists sr].
  destruct (notify_loop_open e ws (sr_chans sr)) as (cs & -> & Hs).
  { intros w ch Hin Hch. by rewrite (si_open _ Hinv w (Watching id) ch (si_watch _ Hinv id ws w Hw Hin) Hch). }
  exists (sr_set_chans cs sr). split; [done|]. split; [by apply inv_set_chans|done].
Qed.

Lemma inv_set_services m sr :
  sr_inv sr -> (forall id l, m !! id = Some l ->
    exists inst, l = [inst] /\ ins_NodeID inst = sr_nodeID sr /\ ins_ServiceID inst = id) ->
  sr_inv (sr_set_services m sr).
Proof. intros [H1 H2 H3 H4] Hm. by split. Qed.

Lemma register_ok id md clk sr :
  sr_inv sr -> exists sr', sr_RegisterService id md clk sr = Ret sr' /\ sr_inv sr'
    /\ sr_services sr' = <[id := [mkServiceInstance id (sr_nodeID sr) (sr_address sr) md ServiceHealthHealthy
                                    (clk 0%nat) (clk 1%nat)]]> (sr_services sr)
    /\ sr_nodeID sr' = sr_nodeID sr /\ sr_address sr' = sr_address sr.
Proof.
  intros Hinv. unfold sr_RegisterService. set inst := mkServiceInstance _ _ _ _ _ _ _.
  assert (put_instance (sr_nodeID sr) inst (default [] (sr_services sr !! id)) = [inst]) as ->.
  { destruct (sr_services sr !! id) as [l|] eqn:Hl; [|done].
    destruct (si_single _ Hinv id l Hl) as (x & -> & Hx & _). cbn. by rewrite Hx (proj2 (eqs_true _ _)). }
  set e := mkServiceEvent _ _ _ _.
  destruct (notify_ok id e (sr_set_services (<[id := [inst]]> (sr_services sr)) sr)) as (sr' & E & I' & S' & N' & A').
  - apply inv_set_services; [done|]. intros id' l [[<- <-]|[_ Hl]]%lookup_insert_Some; [by exists inst|].
    by apply (si_single _ Hinv).
  - exists sr'. split_and!; [exact E|exact I'|exact S'|exact N'|exact A'].
Qed.

Lemma unregister_ok id now sr :
  sr_inv sr -> exists sr', sr_UnregisterService id now sr = Ret sr' /\ sr_inv sr'
    /\ sr_services sr' = delete id (sr_services sr)
    /\ sr_nodeID sr' = sr_nodeID sr /\ sr_address sr' = sr_address sr.
Proof.
  intros Hinv. unfold sr_UnregisterService. destruct (sr_services sr !! id) as [l|] eqn:Hl.
  2: { exists sr. by rewrite delete_id. }
  destruct (si_single _ Hinv id l Hl) as (x & -> & Hx & Hid).
  rewrite !filter_cons !filter_nil. do 2 (case_decide; [|]); try congruence.
  cbn [last]. assert (sr_inv (sr_set_services (delete id (sr_services sr)) sr)) as Hi.
  { apply inv_set_services; [done|]. intros id' l' [_ Hl']%lookup_delete_Some. by apply (si_single _ Hinv). }
  destruct (nonempty (ins_ServiceID x)); [|eexists; done]. set e := mkServiceEvent _ _ _ _.
  destruct (notify_ok id e _ Hi) as (sr' & E & I' & S' & N' & A').
  exists sr'. split_and!; [exact E|exact I'|exact S'|exact N'|exact A'].
Qed.

Lemma watch_ok id sr : sr_inv sr -> sr_inv (sr_Watch id sr).1.
Proof.
  intros [H1 H2 H3 H4]. split; cbn; [by rewrite !length_app H1| | |done].
  - intros w p ch [Hp|[-> ->]]%lookup_snoc_inv [Hc|[Hw ->]]%lookup_snoc_inv; [by apply (H2 w)| | |done].
    + apply lookup_lt_Some in Hp. lia.
    + apply lookup_lt_Some in Hc. lia.
  - intros id' ws w Hws Hin.
    assert (forall v x, sr_phases sr !! v = Some x -> (sr_phases sr ++ [Watching id]) !! v = Some x) as Hext
      by (intros; by apply lookup_app_l_Some).
    apply lookup_insert_Some in Hws as [[<- <-]|[_ Hws]]; [|by apply Hext, (H3 id' ws)].
    apply elem_of_app in Hin as [Hin|Hin].
    + destruct (sr_watchers sr !! id) as [ws|] eqn:Hw; [by apply Hext, (H3 id ws)|by apply not_elem_of_nil in Hin].
    + apply list_elem_of_singleton in Hin as ->. rewrite H1. by apply list_lookup_middle.
Qed.

Lemma remove_watcher_sub id w sr id' ws v :
  sr_watchers (removeWatcher id w sr) !! id' = Some ws -> v ∈ ws ->
  (exists ws0, sr_watchers sr !! id' = Some ws0 /\ v ∈ ws0) /\ (id' = id -> v <> w).
Proof.
  unfold removeWatcher. destruct (sr_watchers sr !! id) as [l|] eqn:Hl.
  2: { intros Hw Hv. split; [eauto|]. intros ->. congruence. }
  cbn. destruct (filter (fun x => x <> w) l) as [|y l'] eqn:Hf.
  - intros [Hne Hw]%lookup_delete_Some Hv. split; [eauto|congruence].
  - intros [[<- <-]|[Hne Hw]]%lookup_insert_Some Hv; [|split; [eauto|congruence]].
    rewrite -Hf in Hv. apply list_elem_of_filter in Hv as [Hvw Hv]. split; [eauto|done].
Qed.

Lemma removeWatcher_fields id w sr :
  sr_phases (removeWatcher id w sr) = sr_phases sr /\ sr_chans (removeWatcher id w sr) = sr_chans sr
  /\ sr_services (removeWatcher id w sr) = sr_services sr /\ sr_nodeID (removeWatcher id w sr) = sr_nodeID sr
  /\ sr_address (removeWatcher id w sr) = sr_address sr.
Proof. unfold removeWatcher. by destruct (sr_watchers sr !! id). Qed.

Lemma remove_ok w sr : sr_inv sr -> sr_inv (watch_remove w sr).
Proof.
  intros Hinv. unfold watch_remove. destruct (sr_phases sr !! w) as [[id| |]|] eqn:Hp; [|done..].
  destruct (removeWatcher_fields id w sr) as (E1 & E2 & E3 & E4 & E5). destruct Hinv as [H1 H2 H3 H4].
  split; cbn; rewrite ?E1 ?E2 ?E3 ?E4; [by rewrite length_insert| | |done].
  - intros v p ch Hv Hc. apply list_lookup_insert_Some in Hv as [(-> & <- & _)|[_ Hv]]; [|by apply (H2 v)].
    by rewrite (H2 v (Watching id) ch Hp Hc).
  - intros id' ws v Hws Hv. destruct (remove_watcher_sub id w sr id' ws v Hws Hv) as [(ws0 & Hw0 & Hv0) Hne].
    pose proof (H3 id' ws0 v Hw0 Hv0) as Hph. rewrite list_lookup_insert_ne //. intros ->.
    rewrite Hp in Hph. injection Hph as ->. by apply Hne.
Qed.

Lemma close_ok w sr : sr_inv sr -> exists sr', watch_close w sr = Ret sr' /\ sr_inv sr'
  /\ sr_services sr' = sr_services sr /\ sr_nodeID sr' = sr_nodeID sr /\ sr_address sr' = sr_address sr.
Proof.
  intros Hinv. unfold watch_close. destruct (sr_phases sr !! w) as [[| |]|] eqn:Hp; try (by exists sr).
  destruct (sr_chans sr !! w) as [ch|] eqn:Hc; [|by exists sr]. destruct Hinv as [H1 H2 H3 H4].
  unfold close_chan. rewrite (H2 w Removed ch Hp Hc). cbn [mbind go_bind is_closed]. eexists. split; [done|]. split; [|done].
  split; cbn; [by rewrite !length_insert| | |done].
  - intros v p c Hv Hcv. apply list_lookup_insert_Some in Hv as [(-> & <- & _)|[Hne Hv]].
    + rewrite list_lookup_insert_eq in Hcv; [exact (lookup_lt_Some _ _ _ Hc)|]. by injection Hcv as <-.
    + rewrite list_lookup_insert_ne in Hcv; [done|]. by apply (H2 v).
  - intros id ws v Hws Hv. pose proof (H3 id ws v Hws Hv) as Hph.
    rewrite list_lookup_insert_ne //. intros ->. by rewrite Hp in Hph.
Qed.

Lemma receive_ok w ch x ch' sr :
  sr_inv sr -> sr_chans sr !! w = Some ch -> try_recv ch = Got x ch' ->
  sr_inv (sr_set_chans (<[w := ch']> (sr_chans sr)) sr).
Proof.
  intros Hinv Hc Hr. apply inv_set_chans; [done|]. apply (same_flags_insert _ w ch); [done|].
  unfold try_recv in Hr. destruct (ch_buf ch); [by destruct (ch_closed ch)|]. by injection Hr as _ <-.
Qed.

Lemma sr_step_ok op sr : sr_inv sr -> exists sr', sr_step sr op = Ret sr' /\ sr_inv sr'
  /\ sr_nodeID sr' = sr_nodeID sr /\ sr_address sr' = sr_address sr.
Proof.
  intros Hinv. destruct op as [id md clk|id now|id|w|w|w]; cbn [sr_step].
  - destruct (register_ok id md clk sr Hinv) as (sr' & E & I' & _ & ? & ?). eauto.
  - destruct (unregister_ok id now sr Hinv) as (sr' & E & I' & _ & ? & ?). eauto.
  - eexists. split; [done|]. split; [by apply watch_ok|done].
  - eexists. split; [done|]. split; [by apply remove_ok|]. unfold watch_remove.
    destruct (sr_phases sr !! w) as [[id| |]|]; try done. by destruct (removeWatcher_fields id w sr) as (_ & _ & _ & ? & ?).
  - destruct (close_ok w sr Hinv) as (sr' & E & I' & _ & ? & ?). eauto.
  - destruct (sr_chans sr !! w) as [ch|] eqn:Hc; [|by exists sr].
    destruct (try_recv ch) as [x ch'| |] eqn:Hr; [|by exists sr..].
    eexists. split; [done|]. split; [exact (receive_ok w ch x ch' sr Hinv Hc Hr)|done].
Qed.

Lemma sr_run_ok ops sr : sr_inv sr -> exists sr', sr_run sr ops = Ret sr' /\ sr_inv sr'
  /\ sr_nodeID sr' = sr_nodeID sr /\ sr_address sr' = sr_address sr.
Proof.
  revert sr. induction ops as [|op ops IH]; intros sr Hinv; [by exists sr|]. cbn [sr_run].
  destruct (sr_step_ok op sr Hinv) as (sr1 & -> & I1 & N1 & A1). cbn [mbind go_bind].
  destruct (IH sr1 I1) as (sr2 & E2 & I2 & N2 & A2). exists sr2. split_and!; [done|done|congruence..].
Qed.

Lemma sr_new_inv n a : sr_inv (NewServiceRegistry n a).
Proof. by split. Qed.

(** C19. The service registry of a node: no sequence of registrations, watches,
    notifications and watches that end ever sends on or closes a closed channel;
    and after any such sequence, registering a service makes it discoverable as
    exactly one instance, of this node with the given metadata, unregistering
    makes it undiscoverable, and neither changes what is found under other ids. *)
Theorem cluster_registry_correct nodeID address ops :
  exists sr, sr_run (NewServiceRegistry nodeID address) ops = Ret sr
    /\ (forall id md clk, exists sr', sr_RegisterService id md clk sr = Ret sr'
         /\ sr_DiscoverService id sr'
            = [mkServiceInstance id nodeID address md ServiceHealthHealthy (clk 0%nat) (clk 1%nat)]
         /\ forall id', id' <> id -> sr_DiscoverService id' sr' = sr_DiscoverService id' sr)
    /\ (forall id now, exists sr', sr_UnregisterService id now sr = Ret sr'
         /\ sr_DiscoverService id sr' = []
         /\ forall id', id' <> id -> sr_DiscoverService id' sr' = sr_DiscoverService id' sr).
Proof.
  destruct (sr_run_ok ops _ (sr_new_inv nodeID address)) as (sr & E & Hinv & HN & HA). cbn in HN, HA.
  exists sr. split; [done|]. unfold sr_DiscoverService. split.
  - intros id md clk. destruct (register_ok id md clk sr Hinv) as (sr' & E' & _ & S' & _). exists sr'.
    rewrite S' HN HA lookup_insert_eq. split; [done|]. split; [done|]. intros id' Hne.
    rewrite lookup_insert_ne; [congruence|done].
  - intros id now. destruct (unregister_ok id now sr Hinv) as (sr' & E' & _ & S' & _). exists sr'.
    rewrite S' lookup_delete_eq. split; [done|]. split; [done|]. intros id' Hne. rewrite lookup_delete_ne; [congruence|done].
Qed.

(** ** Remote calls *)

Section remote.
(** The values of messages and results ([interface{}]), and the handlers. *)
Context {V Hd : Type}.
Variable nilV : V.
Variable Handle : Hd -> V -> res V.

Record RemoteCallRequest := mkRequest { rq_CallID : string; rq_ServiceID : string; rq_Method : string; rq_Args : V }.
Record RemoteCallResponse := mkResponse { rp_CallID : string; rp_Result : V; rp_Error : string }.

Variable marshal_request : RemoteCallRequest -> res bytes.
Variable unmarshal_request : bytes -> res RemoteCallRequest.
Variable marshal_response : RemoteCallResponse -> res bytes.
Variable unmarshal_response : bytes -> res RemoteCallResponse.
Variable marshal_value : V -> res bytes.
Variable unmarshal_value : bytes -> res V.
(** [fmt.Errorf(text)]: the text is taken for a format. *)
Variable Errorf : string -> error.

Record pendingCall := mkPendingCall {
  pc_id : string;
  pc_result : chan V;
  pc_error : chan error;
  pc_timeout : time;
}.

(** [rs_launched]: the calls that goroutines were started for. *)
Record remoteService := mkRemoteService {
  rs_nodeID : NodeID;
  rs_transport : bool;                       (** not nil *)
  rs_registry : option serviceRegistry;
  rs_handlers : gmap string Hd;
  rs_pendingCalls : gmap string nat;
  rs_callCounter : Z;
  rs_calls : list pendingCall;               (** the heap of pending calls *)
  rs_sent : list ClusterMessage;             (** handed to the transport *)
  rs_launched : list (Hd * V);
}.

Definition NewRemoteService (nodeID : NodeID) : remoteService := mkRemoteService nodeID false None ∅ ∅ 0 [] [] [].

Definition rs_set_calls (m : gmap string nat) (l : list pendingCall) (rs : remoteService) : remoteService :=
  mkRemoteService (rs_nodeID rs) (rs_transport rs) (rs_registry rs) (rs_handlers rs) m (rs_callCounter rs) l
    (rs_sent rs) (rs_launched rs).
Definition rs_set_handlers (h : gmap string Hd) (rs : remoteService) : remoteService :=
  mkRemoteService (rs_nodeID rs) (rs_transport rs) (rs_registry rs) h (rs_pendingCalls rs) (rs_callCounter rs) (rs_calls rs)
    (rs_sent rs) (rs_launched rs).
Definition rs_set_registry (r : serviceRegistry) (rs : remoteService) : remoteService :=
  mkRemoteService (rs_nodeID rs) (rs_transport rs) (Some r) (rs_handlers rs) (rs_pendingCalls rs) (rs_callCounter rs)
    (rs_calls rs) (rs_sent rs) (rs_launched rs).
Definition rs_launch (h : Hd) (v : V) (rs : remoteService) : remoteService :=
  mkRemoteService (rs_nodeID rs) (rs_transport rs) (rs_registry rs) (rs_handlers rs) (rs_pendingCalls rs) (rs_callCounter rs)
    (rs_calls rs) (rs_sent rs) (rs_launched rs ++ [(h, v)]).

(** [rs.transport.Send]: a nil transport is dereferenced; [answer]: its error. *)
Definition transport_Send (m : ClusterMessage) (answer : option error) (rs : remoteService) : go (remoteService * option error) :=
  if rs_transport rs then
    match answer with
    | Some e => Ret (rs, Some e)
    | None => Ret (mkRemoteService (rs_nodeID rs) true (rs_registry rs) (rs_handlers rs) (rs_pendingCalls rs)
                     (rs_callCounter rs) (rs_calls rs) (rs_sent rs ++ [m]) (rs_launched rs), None)
    end
  else Panic "nil pointer dereference".

(** [atomic.AddInt64] wraps around. *)
Definition generateCallID (rs : remoteService) : string * remoteService :=
  let counter := i64 (rs_callCounter rs + 1) in
  ("call-" +:+ rs_nodeID rs +:+ "-" +:+ pretty counter,
   mkRemoteService (rs_nodeID rs) (rs_transport rs) (rs_registry rs) (rs_handlers rs) (rs_pendingCalls rs) counter
     (rs_calls rs) (rs_sent rs) (rs_launched rs)).

(** [Call] up to its wait: the error it returns at once, or the call it waits for. *)
Definition Call_send (ref : RemoteActorRef) (message : V) (answer : option error) (clk : clock) (rs0 : remoteService)
    : go (remoteService * res (string * nat)) :=
  let '(callID, rs) := generateCallID rs0 in
  match marshal_request (mkRequest callID (ref_ActorID ref) "handle" message) with
  | Err e => Ret (rs, Err ("failed to serialize request: " +:+ e))
  | Ok payload =>
      let msg := mkClusterMessage (generateMessageID (clk 0%nat)) MessageTypeActorCall (rs_nodeID rs) (ref_NodeID ref)
                   payload ∅ (clk 1%nat) (30 * Second) in
      let i := length (rs_calls rs) in
      let pending := mkPendingCall callID (make_chan 1) (make_chan 1) (clk 2%nat + 30 * Second) in
      let rs1 := rs_set_calls (<[callID := i]> (rs_pendingCalls rs)) (rs_calls rs ++ [pending]) rs in
      '(rs2, err) ← transport_Send msg answer rs1;
      match err with
      | Some e => Ret (rs_set_calls (delete callID (rs_pendingCalls rs2)) (rs_calls rs2) rs2,
                       Err ("failed to send remote call: " +:+ e))
      | None => Ret (rs2, Ok (callID, i))
      end
  end.

(** What wakes the waiting call up: a channel that has a value, its context, or
    the timer. The select takes any that is ready. *)
Inductive wake := WResult | WError | WContext (e : error) | WTimer.

Definition Call_wait (callID : string) (i : nat) (w : wake) (rs : remoteService) : option (remoteService * res V) :=
  match rs_calls rs !! i with
  | None => None
  | Some p =>
      let done l := rs_set_calls (delete callID (rs_pendingCalls rs)) l rs in
      match w with
      | WResult => match try_recv (pc_result p) with
                   | Got v ch => Some (done (<[i := mkPendingCall (pc_id p) ch (pc_error p) (pc_timeout p)]> (rs_calls rs)), Ok v)
                   | _ => None
                   end
      | WError => match try_recv (pc_error p) with
                  | Got e ch => Some (done (<[i := mkPendingCall (pc_id p) (pc_result p) ch (pc_timeout p)]> (rs_calls rs)), Err e)
                  | _ => None
                  end
      | WContext e => Some (done (rs_calls rs), Err e)
      | WTimer => Some (done (rs_calls rs), Err "remote call timeout")
      end
  end.

Definition rs_Send (ref : RemoteActorRef) (message : V) (answer : option error) (clk : clock) (rs : remoteService)
    : go (remoteService * option error) :=
  match marshal_value message with
  | Err e => Ret (rs, Some ("failed to serialize message: " +:+ e))
  | Ok payload =>
      transport_Send (mkClusterMessage (generateMessageID (clk 0%nat)) MessageTypeActorCall (rs_nodeID rs) (ref_NodeID ref)
                        payload {["target_actor" := ref_ActorID ref; "fire_forget" := "true"]} (clk 1%nat) 0) answer rs
  end.

Definition rs_Register (serviceID : string) (handler : Hd) (clk : clock) (rs : remoteService)
    : go (remoteService * option error) :=
  match rs_handlers rs !! serviceID with
  | Some _ => Ret (rs, Some ("service " +:+ serviceID +:+ " already registered"))
  | None =>
      let rs1 := rs_set_handlers (<[serviceID := handler]> (rs_handlers rs)) rs in
      match rs_registry rs1 with
      | None => Ret (rs1, None)
      | Some r => r' ← sr_RegisterService serviceID {["type" := "remote_service"]} clk r; Ret (rs_set_registry r' rs1, None)
      end
  end.

Definition rs_Unregister (serviceID : string) (now : time) (rs : remoteService) : go (remoteService * option error) :=
  let rs1 := rs_set_handlers (delete serviceID (rs_handlers rs)) rs in
  match rs_registry rs1 with
  | None => Ret (rs1, None)
  | Some r => r' ← sr_UnregisterService serviceID now r; Ret (rs_set_registry r' rs1, None)
  end.

Definition rs_Resolve (serviceID : string) (rs : remoteService) : res (list RemoteActorRef) :=
  match rs_registry rs with
  | None => Err "service registry not available"
  | Some r => Ok (map (fun i => mkRemoteActorRef (ins_NodeID i) serviceID (ins_Address i)) (sr_DiscoverService serviceID r))
  end.

Definition sendResponse (what : string) (to : NodeID) (response : RemoteCallResponse) (answer : option error) (clk : clock)
    (rs : remoteService) : go (remoteService * option error) :=
  match marshal_response response with
  | Err e => Ret (rs, Some (what +:+ e))
  | Ok payload =>
      transport_Send (mkClusterMessage (generateMessageID (clk 0%nat)) MessageTypeActorReply (rs_nodeID rs) to payload ∅
                        (clk 1%nat) 0) answer rs
  end.
Definition sendSuccessResponse (to : NodeID) (callID : string) (result : V) :=
  sendResponse "failed to serialize response: " to (mkResponse callID result "").
Definition sendErrorResponse (to : NodeID) (callID : string) (err : error) :=
  sendResponse "failed to serialize error response: " to (mkResponse callID nilV err).

Definition handleFireAndForget (m : ClusterMessage) (rs : remoteService) : go (remoteService * option error) :=
  let targetActor := default "" (cmsg_Headers m !! "target_actor") in
  if eqs targetActor "" then Ret (rs, Some "target_actor header missing")
  else match rs_handlers rs !! targetActor with
       | None => Ret (rs, Some ("actor not found: " +:+ targetActor))
       | Some handler =>
           match unmarshal_value (cmsg_Payload m) with
           | Err e => Ret (rs, Some ("failed to parse message: " +:+ e))
           | Ok args => Ret (rs_launch handler args rs, None)
           end
       end.

Definition handleRemoteCall (from : NodeID) (m : ClusterMessage) (answer : option error) (clk : clock) (rs : remoteService)
    : go (remoteService * option error) :=
  if eqs (default "" (cmsg_Headers m !! "fire_forget")) "true" then handleFireAndForget m rs
  else match unmarshal_request (cmsg_Payload m) with
       | Err e => Ret (rs, Some ("failed to parse remote call request: " +:+ e))
       | Ok request =>
           match rs_handlers rs !! rq_ServiceID request with
           | None => sendErrorResponse from (rq_CallID request) ("service not found: " +:+ rq_ServiceID request) answer clk rs
           | Some handler =>
               match Handle handler (rq_Args request) with
               | Err e => sendErrorResponse from (rq_CallID request) e answer clk rs
               | Ok result => sendSuccessResponse from (rq_CallID request) result answer clk rs
               end
           end
       end.

Definition handleRemoteReply (m : ClusterMessage) (rs : remoteService) : go (remoteService * option error) :=
  match unmarshal_response (cmsg_Payload m) with
  | Err e => Ret (rs, Some ("failed to parse remote call response: " +:+ e))
  | Ok response =>
      match rs_pendingCalls rs !! rp_CallID response with
      | None => Ret (rs, None)
      | Some i =>
          match rs_calls rs !! i with
          | None => Ret (rs, None)
          | Some p =>
              if nonempty (rp_Error response) then
                '(_, ch) ← try_send (pc_error p) (Errorf (rp_Error response));
                Ret (rs_set_calls (rs_pendingCalls rs) (<[i := mkPendingCall (pc_id p) (pc_result p) ch (pc_timeout p)]> (rs_calls rs)) rs, None)
              else
                '(_, ch) ← try_send (pc_result p) (rp_Result response);
                Ret (rs_set_calls (rs_pendingCalls rs) (<[i := mkPendingCall (pc_id p) ch (pc_error p) (pc_timeout p)]> (rs_calls rs)) rs, None)
          end
      end
  end.

Definition HandleMessage (from : NodeID) (m : ClusterMessage) (answer : option error) (clk : clock) (rs : remoteService)
    : go (remoteService * option error) :=
  match cmsg_Type m with
  | MessageTypeActorCall => handleRemoteCall from m answer clk rs
  | MessageTypeActorReply => handleRemoteReply m rs
  | _ => Ret (rs, None)
  end.

(** ** Without a transport *)

(** A service as it is created has no transport and no registry, and nothing sets
    them: calls and sends panic, and nothing resolves. *)
Lemma unlinked_call_panics ref v answer clk rs payload :
  rs_transport rs = false -> marshal_request (mkRequest (generateCallID rs).1 (ref_ActorID ref) "handle" v) = Ok payload ->
  Call_send ref v answer clk rs = Panic "nil pointer dereference".
Proof.
  intros Ht Hm. unfold Call_send. destruct (generateCallID rs) as [id rs1] eqn:Hg. cbn in Hm. rewrite Hm.
  unfold transport_Send. cbn [rs_transport rs_set_calls].
  assert (rs_transport rs1 = false) as -> by (unfold generateCallID in Hg; by injection Hg as _ <-). done.
Qed.

(** ** A call and its answer *)

(** What the caller gets of the handler's answer. *)
Definition answer_of (r : res V) : res V :=
  match r with Ok v => Ok v | Err e => if nonempty e then Err (Errorf e) else Ok nilV end.
Definition response_of (id : string) (r : res V) : RemoteCallResponse :=
  match r with Ok v => mkResponse id v "" | Err e => mkResponse id nilV e end.

Definition caller_waits (id : string) (i : nat) (p : pendingCall) (rs : remoteService) : Prop :=
  rs_pendingCalls rs !! id = Some i /\ rs_calls rs !! i = Some p
  /\ pc_result p = make_chan 1 /\ pc_error p = make_chan 1.

Lemma Call_send_waits ref v clk rs payload :
  rs_transport rs = true -> marshal_request (mkRequest (generateCallID rs).1 (ref_ActorID ref) "handle" v) = Ok payload ->
  exists rs1 m p,
    Call_send ref v None clk rs = Ret (rs1, Ok ((generateCallID rs).1, length (rs_calls rs)))
    /\ rs_sent rs1 = rs_sent rs ++ [m]
    /\ cmsg_Type m = MessageTypeActorCall /\ cmsg_To m = ref_NodeID ref /\ cmsg_Payload m = payload /\ cmsg_Headers m = ∅
    /\ caller_waits (generateCallID rs).1 (length (rs_calls rs)) p rs1
    /\ rs_pendingCalls rs1 = <[(generateCallID rs).1 := length (rs_calls rs)]> (rs_pendingCalls rs).
Proof.
  intros Ht Hm. unfold Call_send, generateCallID in *. cbn [fst] in *. rewrite Hm. unfold transport_Send.
  cbn [rs_transport rs_set_calls]. rewrite Ht. cbn [mbind go_bind]. eexists _, _, _. split; [reflexivity|].
  split; [reflexivity|]. do 4 (split; [reflexivity|]). split; [|done]. unfold caller_waits. cbn.
  rewrite lookup_insert_eq list_lookup_middle //.
Qed.

Lemma handle_call_answers from m request h clk rs payload r :
  rs_transport rs = true -> cmsg_Type m = MessageTypeActorCall -> cmsg_Headers m = ∅ ->
  unmarshal_request (cmsg_Payload m) = Ok request -> rs_handlers rs !! rq_ServiceID request = Some h ->
  Handle h (rq_Args request) = r -> marshal_response (response_of (rq_CallID request) r) = Ok payload ->
  exists rs1 m1, HandleMessage from m None clk rs = Ret (rs1, None)
    /\ rs_sent rs1 = rs_sent rs ++ [m1] /\ cmsg_Type m1 = MessageTypeActorReply /\ cmsg_To m1 = from
    /\ cmsg_Payload m1 = payload.
Proof.
  intros Ht Hty Hh Hu Hr HH Hp. unfold HandleMessage, handleRemoteCall. rewrite Hty Hh lookup_empty Hu Hr HH. cbn [default eqs].
  destruct r as [v|e]; unfold sendSuccessResponse, sendErrorResponse, sendResponse; cbn in Hp; rewrite Hp;
    unfold transport_Send; rewrite Ht; eexists _, _; (split; [reflexivity|]); done.
Qed.

Lemma handle_reply_wakes from m id i p r clk rs :
  cmsg_Type m = MessageTypeActorReply -> unmarshal_response (cmsg_Payload m) = Ok (response_of id r) ->
  caller_waits id i p rs ->
  exists rs1 w rs2, HandleMessage from m None clk rs = Ret (rs1, None)
    /\ Call_wait id i w rs1 = Some (rs2, answer_of r)
    /\ rs_pendingCalls rs2 = delete id (rs_pendingCalls rs)
    /\ (forall w' x, (w' = WResult \/ w' = WError) -> Call_wait id i w' rs1 = Some x -> w' = w).
Proof.
  intros Hty Hu (Hp & Hi & E1 & E2). pose proof (lookup_lt_Some _ _ _ Hi) as Hlt.
  unfold HandleMessage, handleRemoteReply. rewrite Hty Hu.
  assert (rp_CallID (response_of id r) = id) as -> by (by destruct r). rewrite Hp Hi E1 E2.
  destruct r as [v|e]; cbn [response_of rp_Error rp_Result answer_of]; [|destruct (nonempty e)]; cbn;
    [exists (rs_set_calls (rs_pendingCalls rs) (<[i := mkPendingCall (pc_id p) (mkChan [v] 1 false) (make_chan 1) (pc_timeout p)]> (rs_calls rs)) rs), WResult
    |exists (rs_set_calls (rs_pendingCalls rs) (<[i := mkPendingCall (pc_id p) (make_chan 1) (mkChan [Errorf e] 1 false) (pc_timeout p)]> (rs_calls rs)) rs), WError
    |exists (rs_set_calls (rs_pendingCalls rs) (<[i := mkPendingCall (pc_id p) (mkChan [nilV] 1 false) (make_chan 1) (pc_timeout p)]> (rs_calls rs)) rs), WResult];
    unfold Call_wait; cbn; rewrite list_lookup_insert_eq //; eexists; (split; [reflexivity|]); (split; [reflexivity|]);
    (split; [reflexivity|]); intros w' x [-> | ->]; done.
Qed.


End remote.

(** ** A call *)

(** Requests and responses of strings as lines of fields. *)
Definition enc_request (q : @RemoteCallRequest string) : res bytes :=
  Ok (bytes_of_string (rq_CallID q +:+ "|" +:+ rq_ServiceID q +:+ "|" +:+ rq_Method q +:+ "|" +:+ rq_Args q)).
Definition dec_request (b : bytes) : res (@RemoteCallRequest string) :=
  match Split "124"%char (string_of_bytes b) with
  | [a; b; c; d] => Ok (mkRequest a b c d)
  | _ => Err "bad request"
  end.
Definition enc_response (r : @RemoteCallResponse string) : res bytes :=
  Ok (bytes_of_string (rp_CallID r +:+ "|" +:+ rp_Result r +:+ "|" +:+ rp_Error r)).
Definition dec_response (b : bytes) : res (@RemoteCallResponse string) :=
  match Split "124"%char (string_of_bytes b) with
  | [a; b; c] => Ok (mkResponse a b c)
  | _ => Err "bad response"
  end.

Definition greet (_ : unit) (v : string) : res string := Ok ("Hello from " +:+ v).
Definition demo_caller : @remoteService string unit := mkRemoteService "a" true None ∅ ∅ 0 [] [] [].
Definition demo_callee : @remoteService string unit := mkRemoteService "b" true None {["greeter" := tt]} ∅ 0 [] [] [].

