(* ===== verification/ClusterTransport.v ===== *)
(** src/cluster/transport.go: the message transport between cluster nodes: a table
    of connections by node id, a send queue and two goroutines per connection.

    Connections live on a heap, since the table forgets them while their
    goroutines go on; messages are queued by pointer, so they live on a heap too,
    and are read when they are encoded. The sockets, the JSON coder and the message
    handler are parameters: what listening, dialling, decoding, encoding and
    handling answer. The operations are the steps between two calls that block:
    [Send] takes the connection under the lock and puts the message into its queue
    after it. *)

From S2P Require Import Prelude CoreTypes NetMessage GoText LoadBalancer ClusterNode ClusterRemote.

Record TransportStatistics := mkTransportStatistics {
  ts_MessagesSent : Z;
  ts_MessagesReceived : Z;
  ts_BytesSent : Z;
  ts_BytesReceived : Z;
  ts_ConnectionsOpen : Z;
  ts_ErrorCount : Z;
  ts_AverageLatency : duration;
}.

(** A pointer to a message. *)
Notation mptr := nat (only parsing).

Record connection := mkConnection {
  ct_nodeID : NodeID;
  ct_sendChan : chan mptr;
  ct_parent : nat;                      (** the context of the transport it was made under *)
  ct_live : bool;                       (** its context is not cancelled *)
  ct_lastActivity : Z;
  ct_reader : bool;                     (** [handleConnection] is running *)
  ct_sender : bool;                     (** [sendLoop] is running *)
  ct_wire : list (option mptr * option ClusterMessage);  (** encoded to the socket; nil is encoded as null *)
}.

(** What the message handler was told of connections. *)
Inductive told := Established (id : NodeID) | Lost (id : NodeID).

Record messageTransport := mkMessageTransport {
  mt_config : ClusterConfig;
  mt_ctx : option (nat * bool);         (** nil before the first [Start]; its number, and whether it is live *)
  mt_listener : bool;                   (** listening *)
  mt_handler : bool;                    (** not nil *)
  mt_connections : gmap NodeID nat;
  mt_stats : TransportStatistics;
  mt_started : bool;
  mt_conns : list connection;           (** the heap of connections *)
  mt_msgs : list ClusterMessage;        (** the heap of messages *)
  mt_told : list told;
}.

Definition NewMessageTransport (config : ClusterConfig) (msgs : list ClusterMessage) : messageTransport :=
  mkMessageTransport config None false false ∅ (mkTransportStatistics 0 0 0 0 0 0 0) false [] msgs [].

Definition mt_set_table (m : gmap NodeID nat) (mt : messageTransport) : messageTransport :=
  mkMessageTransport (mt_config mt) (mt_ctx mt) (mt_listener mt) (mt_handler mt) m (mt_stats mt) (mt_started mt)
    (mt_conns mt) (mt_msgs mt) (mt_told mt).
Definition mt_set_conns (l : list connection) (mt : messageTransport) : messageTransport :=
  mkMessageTransport (mt_config mt) (mt_ctx mt) (mt_listener mt) (mt_handler mt) (mt_connections mt) (mt_stats mt)
    (mt_started mt) l (mt_msgs mt) (mt_told mt).
Definition mt_set_conn (i : nat) (c : connection) (mt : messageTransport) : messageTransport :=
  mt_set_conns (<[i := c]> (mt_conns mt)) mt.
Definition mt_set_flags (ctx : option (nat * bool)) (listening started : bool) (mt : messageTransport) : messageTransport :=
  mkMessageTransport (mt_config mt) ctx listening (mt_handler mt) (mt_connections mt) (mt_stats mt) started
    (mt_conns mt) (mt_msgs mt) (mt_told mt).
Definition mt_set_msg (p : mptr) (m : ClusterMessage) (mt : messageTransport) : messageTransport :=
  mkMessageTransport (mt_config mt) (mt_ctx mt) (mt_listener mt) (mt_handler mt) (mt_connections mt) (mt_stats mt)
    (mt_started mt) (mt_conns mt) (<[p := m]> (mt_msgs mt)) (mt_told mt).
Definition mt_count (sent received errors : Z) (mt : messageTransport) : messageTransport :=
  let st := mt_stats mt in
  mkMessageTransport (mt_config mt) (mt_ctx mt) (mt_listener mt) (mt_handler mt) (mt_connections mt)
    (mkTransportStatistics (i64 (ts_MessagesSent st + sent)) (i64 (ts_MessagesReceived st + received)) (ts_BytesSent st)
       (ts_BytesReceived st) (ts_ConnectionsOpen st) (i64 (ts_ErrorCount st + errors)) (ts_AverageLatency st))
    (mt_started mt) (mt_conns mt) (mt_msgs mt) (mt_told mt).
Definition mt_tell (t : told) (mt : messageTransport) : messageTransport :=
  mkMessageTransport (mt_config mt) (mt_ctx mt) (mt_listener mt) (mt_handler mt) (mt_connections mt) (mt_stats mt)
    (mt_started mt) (mt_conns mt) (mt_msgs mt) (if mt_handler mt then mt_told mt ++ [t] else mt_told mt).
Definition SetMessageHandler (mt : messageTransport) : messageTransport :=
  mkMessageTransport (mt_config mt) (mt_ctx mt) (mt_listener mt) true (mt_connections mt) (mt_stats mt) (mt_started mt)
    (mt_conns mt) (mt_msgs mt) (mt_told mt).

Definition mt_GetStatistics (mt : messageTransport) : TransportStatistics :=
  let st := mt_stats mt in
  mkTransportStatistics (ts_MessagesSent st) (ts_MessagesReceived st) (ts_BytesSent st) (ts_BytesReceived st)
    (Z.of_nat (size (mt_connections mt))) (ts_ErrorCount st) (ts_AverageLatency st).

(** ** Connections *)

(** [lastActivity] is 0 until a message goes through. *)
Definition isActive (now : time) (c : connection) : bool := time_sub now (ct_lastActivity c) <? 60 * Second.

Definition ct_end (c : connection) : connection :=
  mkConnection (ct_nodeID c) (ct_sendChan c) (ct_parent c) false (ct_lastActivity c) (ct_reader c) (ct_sender c) (ct_wire c).

(** [close] cancels the context, closes the socket and closes the queue. *)
Definition close_conn (i : nat) (l : list connection) : go (list connection) :=
  match l !! i with
  | None => Panic "nil pointer"
  | Some c =>
      ch ← close_chan (ct_sendChan c);
      Ret (<[i := mkConnection (ct_nodeID c) ch (ct_parent c) false (ct_lastActivity c) (ct_reader c) (ct_sender c) (ct_wire c)]> l)
  end.

Fixpoint close_loop (ids : list nat) (l : list connection) : go (list connection) :=
  match ids with [] => Ret l | i :: ids' => l1 ← close_conn i l; close_loop ids' l1 end.

(** A connection whose context is made from that of the transport; [WithCancel] of
    a nil context panics. *)
Definition new_connection (id : NodeID) (ctx : option (nat * bool)) : go connection :=
  match ctx with
  | None => Panic "cannot create context from nil parent"
  | Some (n, live) => Ret (mkConnection id (make_chan 100) n live 0 true true [])
  end.

Definition mt_Start (listen : option error) (mt : messageTransport) : messageTransport * option error :=
  if mt_started mt then (mt, Some "transport already started")
  else
    let ctx := Some (S (default 0%nat (fst <$> mt_ctx mt)), true) in
    match listen with
       | Some e => (mt_set_flags ctx (mt_listener mt) false mt, Some ("failed to start listener: " +:+ e))
       | None => (mt_set_flags ctx true true mt, None)
       end.

(** [ks]: the order in which the table is closed. Cancelling the context of the
    transport cancels those of the
    connections made under it, in the table or not. *)
Definition mt_Stop (ks : list NodeID) (mt : messageTransport) : go messageTransport :=
  if negb (mt_started mt) then Ret mt
  else
    l ← close_loop (range_vals (mt_connections mt) ks) (mt_conns mt);
    let n := default 0%nat (fst <$> mt_ctx mt) in
    Ret (mt_set_flags (Some (n, false)) false false
           (mt_set_conns ((fun c => if decide (ct_parent c = n) then ct_end c else c) <$> l) (mt_set_table ∅ mt))).

Definition add_connection (id : NodeID) (c : connection) (mt : messageTransport) : messageTransport :=
  mt_set_conns (mt_conns mt ++ [c]) (mt_set_table (<[id := length (mt_conns mt)]> (mt_connections mt)) mt).

(** The connection the table has for [id], when it is active. *)
Definition active_conn (id : NodeID) (now : time) (mt : messageTransport) : option nat :=
  i ← mt_connections mt !! id;
  c ← mt_conns mt !! i;
  if isActive now c then Some i else None.

(** [dial]: what dialling the local port answers; the address does not depend on
    the node. *)
Definition createConnection (id : NodeID) (dial : option error) (now : time) (mt : messageTransport)
    : go (messageTransport * res nat) :=
  match active_conn id now mt with
  | Some i => Ret (mt, Ok i)
  | None =>
      match dial with
      | Some e => Ret (mt, Err ("failed to dial localhost:" +:+ pretty (cc_BindPort (mt_config mt)) +:+ ": " +:+ e))
      | None =>
          c ← new_connection id (mt_ctx mt);
          Ret (mt_tell (Established id) (add_connection id c mt), Ok (length (mt_conns mt)))
      end
  end.

Definition getConnection (id : NodeID) (dial : option error) (now now' : time) (mt : messageTransport)
    : go (messageTransport * res nat) :=
  match active_conn id now mt with
  | Some i => Ret (mt, Ok i)
  | None => createConnection id dial now' mt
  end.

Definition removeConnection (id : NodeID) (mt : messageTransport) : go messageTransport :=
  match mt_connections mt !! id with
  | Some i => l ← close_conn i (mt_conns mt); Ret (mt_set_conns l (mt_set_table (delete id (mt_connections mt)) mt))
  | None => Ret mt
  end.

(** ** Sending *)

(** Which case of the select goes: the queue, the context, or the timer. *)
Inductive pick := PQueue | PContext (e : error) | PTimer.

Definition ct_set_chan (ch : chan mptr) (c : connection) : connection :=
  mkConnection (ct_nodeID c) ch (ct_parent c) (ct_live c) (ct_lastActivity c) (ct_reader c) (ct_sender c) (ct_wire c).

(** A send into a queue that is closed panics; into a full one it cannot go. *)
Definition queue_send (i : nat) (p : mptr) (mt : messageTransport) : go (option messageTransport) :=
  match mt_conns mt !! i with
  | None => Panic "nil pointer"
  | Some c =>
      '(ok, ch) ← try_send (ct_sendChan c) p;
      Ret (if ok : bool then Some (mt_count 1 0 0 (mt_set_conn i (ct_set_chan ch c) mt)) else None)
  end.

(** The source, the target and the time are written into the caller's message. *)
Definition address (to : NodeID) (p : mptr) (now : time) (mt : messageTransport) : go messageTransport :=
  match mt_msgs mt !! p with
  | Some m => Ret (mt_set_msg p (mkClusterMessage (cmsg_ID m) (cmsg_Type m) (cc_NodeID (mt_config mt)) to (cmsg_Payload m)
                                  (cmsg_Headers m) now (cmsg_TTL m)) mt)
  | None => Panic "nil pointer"
  end.

(** One select of [Send] or [Broadcast]; [None] when the chosen case is not ready. *)
Definition select_send (i : nat) (p : mptr) (pk : pick) (mt : messageTransport)
    : go (option (messageTransport * option error)) :=
  match pk with
  | PQueue =>
      r ← queue_send i p mt;
      Ret (match r with Some mt' => Some (mt', None) | None => None end)
  | PContext e => Ret (Some (mt, Some e))
  | PTimer => Ret (Some (mt, Some "send timeout"))
  end.

(** [Send] up to the select, with the connection, and all of it. *)
Definition Send_get (id : NodeID) (p : mptr) (dial : option error) (now now' now'' : time) (mt : messageTransport)
    : go (messageTransport * res nat) :=
  '(mt', r) ← getConnection id dial now now' mt;
  match r with
  | Ok i => mt'' ← address id p now'' mt'; Ret (mt'', Ok i)
  | Err e => Ret (mt', Err ("failed to get connection to " +:+ id +:+ ": " +:+ e))
  end.
Definition Send (id : NodeID) (p : mptr) (dial : option error) (pk : pick) (now now' now'' : time) (mt : messageTransport)
    : go (option (messageTransport * option error)) :=
  '(mt', r) ← Send_get id p dial now now' now'' mt;
  match r with
  | Ok i => select_send i p pk mt'
  | Err e => Ret (Some (mt', Some e))
  end.

(** The loop of [Broadcast] over the connections it has collected, with the case
    each select takes; the errors are counted. *)
Fixpoint broadcast_loop (ids : list nat) (pks : list pick) (p : mptr) (errors : nat) (mt : messageTransport)
    : go (option (messageTransport * option error)) :=
  match ids, pks with
  | [], _ => Ret (Some (mt, if (0 <? errors)%nat
                            then Some ("broadcast failed to " +:+ pretty (Z.of_nat errors) +:+ " nodes") else None))
  | i :: ids', PQueue :: pks' =>
      r ← queue_send i p mt;
      match r with Some mt' => broadcast_loop ids' pks' p errors mt' | None => Ret None end
  | _ :: _, PContext e :: _ => Ret (Some (mt, Some e))
  | _ :: ids', PTimer :: pks' => broadcast_loop ids' pks' p (S errors) mt
  | _ :: _, [] => Ret None
  end.
Definition Broadcast (ks : list NodeID) (pks : list pick) (p : mptr) (now : time) (mt : messageTransport) :=
  mt' ← address "" p now mt;
  broadcast_loop (range_vals (mt_connections mt) ks) pks p 0 mt'.

(** ** The goroutines *)

(** [handleIncomingConnection] up to its wait: the handshake it decodes, and what
    encoding its response answers. *)
Definition handleIncomingConnection (handshake : res ClusterMessage) (encode : option error) (mt : messageTransport)
    : go messageTransport :=
  match handshake with
  | Err _ => Ret (mt_count 0 0 1 mt)
  | Ok h =>
      if negb (bool_decide (cmsg_Type h = MessageTypeJoin)) then Ret (mt_count 0 0 1 mt)
      else match encode with
           | Some _ => Ret (mt_count 0 0 1 mt)
           | None =>
               c ← new_connection (cmsg_From h) (mt_ctx mt);
               Ret (mt_tell (Established (cmsg_From h)) (add_connection (cmsg_From h) c mt))
           end
  end.

(** One turn of [acceptLoop] when [Accept] fails: whether it goes on. *)
Definition accept_error (mt : messageTransport) : messageTransport * bool :=
  match mt_ctx mt with
  | Some (_, false) => (mt, false)
  | _ => (mt_count 0 0 1 mt, true)
  end.

Definition ct_touch (now : time) (c : connection) : connection :=
  mkConnection (ct_nodeID c) (ct_sendChan c) (ct_parent c) (ct_live c) now (ct_reader c) (ct_sender c) (ct_wire c).
Definition ct_reader_end (c : connection) : connection :=
  mkConnection (ct_nodeID c) (ct_sendChan c) (ct_parent c) (ct_live c) (ct_lastActivity c) false (ct_sender c) (ct_wire c).

(** The deferred end of [handleConnection]: the connection is removed by its node
    id, and the handler is told. *)
Definition reader_end (i : nat) (c : connection) (mt : messageTransport) : go messageTransport :=
  mt1 ← removeConnection (ct_nodeID c) (mt_set_conn i (ct_reader_end c) mt);
  Ret (mt_tell (Lost (ct_nodeID c)) mt1).

(** One turn of [handleConnection]: [checked] when the context was looked at before
    it ended; [decoded] and [handled] are what the decoder and the handler answer. *)
Definition handleConnection1 (i : nat) (checked : bool) (decoded : res ClusterMessage) (handled : option error) (now : time)
    (mt : messageTransport) : go messageTransport :=
  match mt_conns mt !! i with
  | None => Ret mt
  | Some c =>
      if negb (ct_reader c) then Ret mt
      else if negb (ct_live c) && negb checked then reader_end i c mt
      else match decoded with
           | Err _ => reader_end i c (mt_count 0 0 1 mt)
           | Ok _ =>
               let mt1 := mt_count 0 1 0 (mt_set_conn i (ct_touch now c) mt) in
               Ret (if mt_handler mt then match handled with Some _ => mt_count 0 0 1 mt1 | None => mt1 end else mt1)
           end
  end.

(** A message is encoded: the sender notes the activity, or ends on an error. *)
Definition encoded (i : nat) (c : connection) (ch : chan mptr) (x : option mptr * option ClusterMessage) (encode : option error)
    (now : time) (mt : messageTransport) : messageTransport :=
  match encode with
  | Some _ => mt_count 0 0 1 (mt_set_conn i
      (mkConnection (ct_nodeID c) ch (ct_parent c) (ct_live c) (ct_lastActivity c) (ct_reader c) false (ct_wire c)) mt)
  | None => mt_set_conn i (mkConnection (ct_nodeID c) ch (ct_parent c) (ct_live c) now (ct_reader c) true (ct_wire c ++ [x])) mt
  end.

(** One turn of [sendLoop]; [ended] when the select takes the context, which must
    have ended. A queue that is closed and drained yields nil, encoded as null. *)
Definition sendLoop1 (i : nat) (ended : bool) (encode : option error) (now : time) (mt : messageTransport) : messageTransport :=
  match mt_conns mt !! i with
  | None => mt
  | Some c =>
      if negb (ct_sender c) then mt
      else if ended : bool then
        if ct_live c then mt
        else mt_set_conn i (mkConnection (ct_nodeID c) (ct_sendChan c) (ct_parent c) (ct_live c) (ct_lastActivity c) (ct_reader c) false (ct_wire c)) mt
      else match try_recv (ct_sendChan c) with
           | Got p ch => encoded i c ch (Some p, mt_msgs mt !! p) encode now mt
           | GotClosed => encoded i c (ct_sendChan c) (None, None) encode now mt
           | NotReady => mt
           end
  end.

(** ** Interleavings *)

Inductive mtop :=
| TStart (listen : option error)
| TStop
| TGet (id : NodeID) (p : mptr) (dial : option error) (now now' now'' : time)
| TAddress (p : mptr) (now : time)
| TPut (i : nat) (p : mptr) (pk : pick)
| TIncoming (handshake : res ClusterMessage) (encode : option error)
| TAcceptError
| TRead (i : nat) (checked : bool) (decoded : res ClusterMessage) (handled : option error) (now : time)
| TWrite (i : nat) (ended : bool) (encode : option error) (now : time).

(** The transport after a step, and the message that entered a queue. *)
Definition mt_step (mt : messageTransport) (op : mtop) : go (messageTransport * option (nat * mptr)) :=
  match op with
  | TStart l => Ret ((mt_Start l mt).1, None)
  | TStop => mt' ← mt_Stop (keys (mt_connections mt)) mt; Ret (mt', None)
  | TGet id p dial now now' now'' => '(mt', _) ← Send_get id p dial now now' now'' mt; Ret (mt', None)
  | TAddress p now => mt' ← address "" p now mt; Ret (mt', None)
  | TPut i p pk =>
      r ← select_send i p pk mt;
      Ret (match r with
           | Some (mt', None) => (mt', Some (i, p))
           | Some (mt', Some _) => (mt', None)
           | None => (mt, None)
           end)
  | TIncoming h e => mt' ← handleIncomingConnection h e mt; Ret (mt', None)
  | TAcceptError => Ret ((accept_error mt).1, None)
  | TRead i ck d h now => mt' ← handleConnection1 i ck d h now mt; Ret (mt', None)
  | TWrite i b e now => Ret (sendLoop1 i b e now mt, None)
  end.

(** [log]: what has entered the queues. *)
Inductive mt_reach (config : ClusterConfig) (msgs : list ClusterMessage) : list (nat * mptr) -> messageTransport -> Prop :=
| mt_reach_new : mt_reach config msgs [] (NewMessageTransport config msgs)
| mt_reach_handler log mt : mt_reach config msgs log mt -> mt_reach config msgs log (SetMessageHandler mt)
| mt_reach_step log mt op mt' x :
    mt_reach config msgs log mt -> mt_step mt op = Ret (mt', x) -> mt_reach config msgs (log ++ option_list x) mt'.

(** ** The invariant *)

(** The pointers put on the wire, and those that entered the queue of [i]. *)
Definition wired (c : connection) : list mptr := omap fst (ct_wire c).
Definition sent (i : nat) (log : list (nat * mptr)) : list mptr :=
  omap (fun x => if decide (x.1 = i) then Some x.2 else None) log.

Record conn_ok (s : list mptr) (c : connection) : Prop := {
  co_kept : ct_sender c = true -> wired c ++ ch_buf (ct_sendChan c) = s;
  co_prefix : wired c `prefix_of` s;
}.

Definition in_table (l : list connection) (id : NodeID) (i : nat) : Prop :=
  exists c, l !! i = Some c /\ ct_nodeID c = id /\ ch_closed (ct_sendChan c) = false.

Record mt_inv (log : list (nat * mptr)) (mt : messageTransport) : Prop := {
  mi_table : forall id i, mt_connections mt !! id = Some i -> in_table (mt_conns mt) id i;
  mi_conns : forall i c, mt_conns mt !! i = Some c -> conn_ok (sent i log) c;
  mi_log : forall i p, (i, p) ∈ log -> (i < length (mt_conns mt))%nat;
}.

(** A connection that changed without its identity, its queue opening or its
    messages getting out of step. *)
Lemma inv_set_conn log mt i c c' :
  mt_inv log mt -> mt_conns mt !! i = Some c -> ct_nodeID c' = ct_nodeID c ->
  ch_closed (ct_sendChan c') = ch_closed (ct_sendChan c) -> conn_ok (sent i log) c' ->
  mt_inv log (mt_set_conn i c' mt).
Proof.
  intros [Ht Hc Hl] Hi Hid Hcl Hok. split; cbn.
  - intros id j Hj. destruct (Ht _ _ Hj) as (d & Hd & Hn & Ho).
    destruct (decide (j = i)) as [-> | ].
    + exists c'. rewrite list_lookup_insert_eq; [exact (lookup_lt_Some _ _ _ Hi)|]. split; [done|]. simplify_eq. by rewrite Hid Hcl.
    + exists d. rewrite list_lookup_insert_ne; [congruence|]. done.
  - intros j d Hd. apply list_lookup_insert_Some in Hd as [(-> & <- & _) | (_ & Hd)]; [done|by apply Hc].
  - intros j p Hp. rewrite length_insert. exact (Hl _ _ Hp).
Qed.

Lemma sent_snoc i log x : sent i (log ++ [x]) = sent i log ++ (if decide (x.1 = i) then [x.2] else []).
Proof. unfold sent. rewrite omap_app. cbn. by case_decide. Qed.

Lemma sent_out i log (n : nat) : (forall j p, (j, p) ∈ log -> (j < n)%nat) -> (n <= i)%nat -> sent i log = [].
Proof.
  intros H Hn. unfold sent. induction log as [|[j p] log IH]; [done|]. cbn.
  rewrite decide_False.
  - intros ->. specialize (H i p). assert (i < n)%nat; [apply H, elem_of_cons; by left|lia].
  - apply IH. intros j' p' Hin. apply (H j' p'), elem_of_cons. by right.
Qed.

Lemma inv_add log mt id c :
  mt_inv log mt -> ct_nodeID c = id -> ch_closed (ct_sendChan c) = false -> wired c = [] -> ch_buf (ct_sendChan c) = [] ->
  mt_inv log (add_connection id c mt).
Proof.
  intros [Ht Hc Hl] Hid Ho Hw Hb. split; cbn.
  - intros id' j Hj. destruct (decide (id' = id)) as [-> | ].
    + rewrite lookup_insert_eq in Hj. simplify_eq. exists c. by rewrite list_lookup_middle.
    + rewrite lookup_insert_ne in Hj; [congruence|]. destruct (Ht _ _ Hj) as (d & Hd & ?).
      exists d. rewrite lookup_app_l; [exact (lookup_lt_Some _ _ _ Hd)|]. done.
  - intros j d Hd. apply lookup_app_Some in Hd as [Hd | [Hge Hd]]; [by apply Hc|].
    apply list_lookup_singleton_Some in Hd as [Hj <-].
    rewrite (sent_out j log (length (mt_conns mt))); [done|done|]. split; [by rewrite Hw Hb|rewrite Hw; done].
  - intros j p Hp. rewrite length_app. specialize (Hl _ _ Hp). lia.
Qed.

(** Closing connections: the queue of [i] only. *)
Lemma close_conn_open l i c :
  l !! i = Some c -> ch_closed (ct_sendChan c) = false ->
  close_conn i l = Ret (<[i := mkConnection (ct_nodeID c) (mkChan (ch_buf (ct_sendChan c)) (ch_cap (ct_sendChan c)) true)
                                 (ct_parent c) false (ct_lastActivity c) (ct_reader c) (ct_sender c) (ct_wire c)]> l).
Proof. intros Hi Ho. by rewrite /close_conn Hi /close_chan Ho. Qed.

(** Messages and identities are those of [l]; only the indices [ids] were closed. *)
Record closed_only (ids : list nat) (l l' : list connection) : Prop := {
  cl_len : length l' = length l;
  cl_same : forall i c', l' !! i = Some c' -> exists c, l !! i = Some c /\ ct_nodeID c' = ct_nodeID c /\
    ct_sender c' = ct_sender c /\ ct_wire c' = ct_wire c /\ ch_buf (ct_sendChan c') = ch_buf (ct_sendChan c) /\
    (i ∉ ids -> ch_closed (ct_sendChan c') = ch_closed (ct_sendChan c));
}.

Lemma closed_only_ok ids l l' s i c' :
  closed_only ids l l' -> l' !! i = Some c' -> (forall c, l !! i = Some c -> conn_ok s c) -> conn_ok s c'.
Proof.
  intros [_ Hs] Hi H. destruct (Hs _ _ Hi) as (c & Hc & _ & Hse & Hw & Hb & _). destruct (H _ Hc) as [H1 H2].
  split; unfold wired; rewrite ?Hw ?Hb ?Hse; done.
Qed.

Lemma close_conn_closed i l l' : close_conn i l = Ret l' -> closed_only [i] l l'.
Proof.
  unfold close_conn, close_chan. destruct (l !! i) as [c|] eqn:Hi; [|done].
  destruct (ch_closed _) eqn:Ho; cbn; [done|]. intros [= <-]. split; [apply length_insert|].
  intros j c' Hj. apply list_lookup_insert_Some in Hj as [(-> & <- & _) | (Hne & Hj)].
  - exists c. cbn. split_and!; try done. intros []. by apply elem_of_cons; left.
  - by exists c'.
Qed.

Lemma close_loop_ok ids : forall l, NoDup ids ->
  (forall i, i ∈ ids -> exists c, l !! i = Some c /\ ch_closed (ct_sendChan c) = false) ->
  exists l', close_loop ids l = Ret l' /\ closed_only ids l l'.
Proof.
  induction ids as [|i ids IH]; intros l Hnd H.
  { exists l. split; [done|]. split; [done|]. intros i c' Hi. by exists c'. }
  apply NoDup_cons in Hnd as [Hni Hnd]. destruct (H i) as (c & Hi & Ho); [apply elem_of_cons; by left|].
  assert (exists l1, close_conn i l = Ret l1 /\ forall j, j <> i -> l1 !! j = l !! j) as (l1 & Hcl & Hrest).
  { rewrite (close_conn_open _ _ _ Hi Ho). eexists. split; [done|]. intros j Hj. apply list_lookup_insert_ne. congruence. }
  cbn. rewrite Hcl. cbn.
  destruct (close_conn_closed _ _ _ Hcl) as [Hlen Hsame].
  destruct (IH l1 Hnd) as (l' & -> & [Hlen' Hsame']).
  { intros j Hj. destruct (H j) as (d & Hd & Hdo); [apply elem_of_cons; by right|]. exists d.
    rewrite Hrest; [congruence|done]. }
  exists l'. split; [done|]. split; [congruence|]. intros j c' Hj.
    destruct (Hsame' _ _ Hj) as (c1 & Hc1 & ? & ? & ? & ? & Hcl1). destruct (Hsame _ _ Hc1) as (c2 & Hc2 & ? & ? & ? & ? & Hcl2).
    exists c2. split_and!; try congruence. intros Hnin. rewrite not_elem_of_cons in Hnin. destruct Hnin as [Hji Hjids].
    rewrite Hcl1; [done|]. apply Hcl2. by rewrite list_elem_of_singleton.
Qed.

Lemma table_vals_inj log mt ks :
  mt_inv log mt -> NoDup ks -> NoDup (range_vals (mt_connections mt) ks) /\
  (forall i, i ∈ range_vals (mt_connections mt) ks -> exists c, mt_conns mt !! i = Some c /\ ch_closed (ct_sendChan c) = false).
Proof.
  intros [Ht _ _] Hnd. split.
  - induction ks as [|k ks IH]; [constructor|]. apply NoDup_cons in Hnd as [Hk Hnd]. cbn.
    destruct (mt_connections mt !! k) as [i|] eqn:Hi; [|by apply IH]. constructor; [|by apply IH].
    intros (k' & Hk' & Hi')%list_elem_of_omap. destruct (Ht _ _ Hi) as (c & Hc & <- & _), (Ht _ _ Hi') as (c' & Hc' & <- & _).
    by simplify_eq.
  - intros i (k & Hk & Hi)%list_elem_of_omap. destruct (Ht _ _ Hi) as (c & Hc & _ & Ho). by exists c.
Qed.

(** The rest of the transport does not matter. *)
Lemma inv_same log mt mt' :
  mt_connections mt' = mt_connections mt -> mt_conns mt' = mt_conns mt -> mt_inv log mt -> mt_inv log mt'.
Proof. intros Ht Hc [H1 H2 H3]. split; rewrite ?Ht ?Hc; done. Qed.

Lemma inv_remove log mt id :
  mt_inv log mt -> exists mt', removeConnection id mt = Ret mt' /\ mt_inv log mt' /\ mt_msgs mt' = mt_msgs mt /\ mt_ctx mt' = mt_ctx mt.
Proof.
  intros H. unfold removeConnection. destruct (mt_connections mt !! id) as [i|] eqn:Hi; [|by exists mt].
  destruct (mi_table _ _ H _ _ Hi) as (c & Hc & Hid & Ho).
  destruct (close_loop_ok [i] (mt_conns mt)) as (l' & Hcl & Hl).
  { apply NoDup_singleton. }
  { intros j ->%list_elem_of_singleton. by exists c. }
  cbn in Hcl. destruct (close_conn i (mt_conns mt)) as [l1| |]; try done. injection Hcl as ->. cbn. eexists. split; [done|].
  split; [|done]. destruct H as [Ht Hcs Hlog]. split; cbn.
  - intros id' j [Hne Hj]%lookup_delete_Some. destruct (Ht _ _ Hj) as (d & Hd & Hid' & Hdo).
    assert (Hji : j <> i) by (intros ->; simplify_eq; congruence).
    destruct (lookup_lt_is_Some_2 l' j) as [d' Hd']. { rewrite (cl_len _ _ _ Hl). exact (lookup_lt_Some _ _ _ Hd). }
    destruct (cl_same _ _ _ Hl _ _ Hd') as (d'' & Hd'' & Hn & _ & _ & _ & Hclo). exists d'. split; [done|].
    rewrite Hclo; [by rewrite list_elem_of_singleton|]. simplify_eq. done.
  - intros j d Hd. exact (closed_only_ok _ _ _ _ _ _ Hl Hd (fun c => Hcs j c)).
  - intros j p Hp. rewrite (cl_len _ _ _ Hl). exact (Hlog _ _ Hp).
Qed.

Lemma ok_same s c c' : ct_wire c' = ct_wire c -> ch_buf (ct_sendChan c') = ch_buf (ct_sendChan c) ->
  (ct_sender c' = true -> ct_sender c = true) -> conn_ok s c -> conn_ok s c'.
Proof. intros Hw Hb Hs [H1 H2]. split; unfold wired in *; rewrite Hw ?Hb; auto. Qed.

Lemma inv_reader_end log mt i c :
  mt_inv log mt -> mt_conns mt !! i = Some c ->
  exists mt', reader_end i c mt = Ret mt' /\ mt_inv log mt'.
Proof.
  intros H Hi. unfold reader_end.
  destruct (inv_remove log (mt_set_conn i (ct_reader_end c) mt) (ct_nodeID c)) as (mt' & -> & H' & _).
  { apply (inv_set_conn log mt i c); try done. eapply ok_same; last exact (mi_conns _ _ H _ _ Hi); done. }
  cbn. eexists. split; [done|]. by apply (inv_same _ mt').
Qed.

Lemma inv_read log mt i ck d h now :
  mt_inv log mt -> exists mt', handleConnection1 i ck d h now mt = Ret mt' /\ mt_inv log mt'.
Proof.
  intros H. unfold handleConnection1. destruct (mt_conns mt !! i) as [c|] eqn:Hi; [|by exists mt].
  destruct (ct_reader c); cbn; [|by exists mt].
  destruct (negb (ct_live c) && negb ck); [by apply inv_reader_end|]. destruct d as [m|e].
  - eexists. split; [done|].
    assert (mt_inv log (mt_set_conn i (ct_touch now c) mt)).
    { apply (inv_set_conn log mt i c); try done. eapply ok_same; last exact (mi_conns _ _ H _ _ Hi); done. }
    repeat case_match; by apply (inv_same _ (mt_set_conn i (ct_touch now c) mt)).
  - apply inv_reader_end; [|done]. by apply (inv_same _ mt).
Qed.

Lemma inv_encoded log mt i c ch x e now ps :
  mt_inv log mt -> mt_conns mt !! i = Some c -> ct_sender c = true -> ch_closed ch = ch_closed (ct_sendChan c) ->
  option_list x.1 = ps -> ch_buf (ct_sendChan c) = ps ++ ch_buf ch ->
  mt_inv log (encoded i c ch x e now mt).
Proof.
  intros H Hi Hs Hcl Hx Hb. destruct (mi_conns _ _ H _ _ Hi) as [Hk Hp]. specialize (Hk Hs). unfold encoded.
  destruct e; [apply (inv_same _ (mt_set_conn i (mkConnection (ct_nodeID c) ch (ct_parent c) (ct_live c) (ct_lastActivity c)
                                (ct_reader c) false (ct_wire c)) mt)); try done|]; apply (inv_set_conn log mt i c); try done.
  assert (Hwire : omap fst (ct_wire c ++ [x]) = wired c ++ ps).
  { rewrite omap_app /wired -Hx. by destruct x as [[]]. }
  split; unfold wired; cbn; rewrite Hwire.
  - intros _. by rewrite -app_assoc -Hb.
  - exists (ch_buf ch). by rewrite -app_assoc -Hb.
Qed.

Lemma inv_write log mt i b e now : mt_inv log mt -> mt_inv log (sendLoop1 i b e now mt).
Proof.
  intros H. unfold sendLoop1. destruct (mt_conns mt !! i) as [c|] eqn:Hi; [|done].
  destruct (ct_sender c) eqn:Hs; cbn; [|done]. destruct b.
  - destruct (ct_live c); [done|]. apply (inv_set_conn log mt i c); try done.
    eapply ok_same; last exact (mi_conns _ _ H _ _ Hi); done.
  - unfold try_recv. destruct (ch_buf (ct_sendChan c)) as [|p rest] eqn:Hb.
    + destruct (ch_closed _); [|done]. by eapply inv_encoded.
    + by apply (inv_encoded _ _ _ _ _ _ _ _ [p]).
Qed.

Lemma inv_new_connection log mt id c ctx :
  mt_inv log mt -> new_connection id ctx = Ret c -> mt_inv log (mt_tell (Established id) (add_connection id c mt)).
Proof.
  unfold new_connection. destruct ctx as [[n live]|]; [|done]. intros H [= <-].
  apply (inv_same _ (add_connection id (mkConnection id (make_chan 100) n live 0 true true []) mt)); try done. by apply inv_add.
Qed.

Lemma getConnection_ret id dial now now' mt :
  mt_ctx mt <> None -> exists mt' r, getConnection id dial now now' mt = Ret (mt', r).
Proof.
  intros Hctx. unfold getConnection, createConnection.
  destruct (active_conn id now mt); [by eauto|]. destruct (active_conn id now' mt); [by eauto|]. destruct dial; [by eauto|].
  destruct (mt_ctx mt) as [[n live]|]; [cbn; by eauto|done].
Qed.

Lemma getConnection_inv log id dial now now' mt mt' r :
  mt_inv log mt -> getConnection id dial now now' mt = Ret (mt', r) -> mt_inv log mt' /\ mt_msgs mt' = mt_msgs mt.
Proof.
  intros H. unfold getConnection, createConnection.
  destruct (active_conn id now mt); [by intros [= <- _]|]. destruct (active_conn id now' mt); [by intros [= <- _]|].
  destruct dial; [by intros [= <- _]|].
  destruct (new_connection id (mt_ctx mt)) as [c| |] eqn:Hnew; cbn; [|done|done].
  intros [= <- _]. split; [exact (inv_new_connection _ _ _ _ _ H Hnew)|done].
Qed.

Lemma inv_Stop log mt : mt_inv log mt -> exists mt', mt_Stop (keys (mt_connections mt)) mt = Ret mt' /\ mt_inv log mt'.
Proof.
  intros H. unfold mt_Stop. destruct (mt_started mt); cbn; [|by exists mt].
  destruct (table_vals_inj _ _ (keys (mt_connections mt)) H (NoDup_fst_map_to_list _)) as [Hnd Hin].
  destruct (close_loop_ok _ (mt_conns mt) Hnd Hin) as (l & -> & Hl). cbn. eexists. split; [done|]. split; cbn.
  - by intros id i ?%lookup_empty_Some.
  - intros i c (c0 & -> & Hc)%list_lookup_fmap_Some.
    assert (conn_ok (sent i log) c0) by exact (closed_only_ok _ _ _ _ _ _ Hl Hc (fun c => mi_conns _ _ H i c)).
    case_decide; [|done]. by apply (ok_same _ c0).
  - intros i p Hp. rewrite length_fmap (cl_len _ _ _ Hl). exact (mi_log _ _ H _ _ Hp).
Qed.

Lemma inv_put log mt i p mt' :
  mt_inv log mt -> queue_send i p mt = Ret (Some mt') -> mt_inv (log ++ [(i, p)]) mt'.
Proof.
  intros H. unfold queue_send. destruct (mt_conns mt !! i) as [c|] eqn:Hi; [|done].
  unfold try_send. destruct (ch_closed _) eqn:Ho; [done|]. case_decide; cbn; [|done]. intros [= <-].
  destruct H as [Ht Hc Hl]. split; cbn.
  - intros id j Hj. destruct (Ht _ _ Hj) as (d & Hd & Hid & Hdo). destruct (decide (j = i)) as [-> | ].
    + eexists. rewrite list_lookup_insert_eq; [exact (lookup_lt_Some _ _ _ Hi)|]. split; [done|]. simplify_eq. done.
    + exists d. rewrite list_lookup_insert_ne; [congruence|done].
  - intros j d Hd. rewrite sent_snoc. cbn. apply list_lookup_insert_Some in Hd as [(-> & <- & _) | (Hne & Hd)].
    + rewrite decide_True //. destruct (Hc _ _ Hi) as [Hk Hp]. split; cbn.
      * intros Hs. by rewrite app_assoc (Hk Hs).
      * by apply prefix_app_r.
    + rewrite decide_False // app_nil_r. by apply Hc.
  - intros j q Hq. rewrite length_insert. apply elem_of_app in Hq as [Hq | Hq]; [exact (Hl _ _ Hq)|].
    apply list_elem_of_singleton in Hq. simplify_eq. exact (lookup_lt_Some _ _ _ Hi).
Qed.

(** What a step needs: the message of the caller is not nil, and a send into a
    queue finds it open. *)
Definition op_ok (mt : messageTransport) (op : mtop) : Prop :=
  match op with
  | TGet _ p _ _ _ _ | TAddress p _ => is_Some (mt_msgs mt !! p)
  | TPut i p PQueue => exists c, mt_conns mt !! i = Some c /\ ch_closed (ct_sendChan c) = false
  | _ => True
  end.

Lemma address_inv log to p now mt mt' : mt_inv log mt -> address to p now mt = Ret mt' -> mt_inv log mt'.
Proof. unfold address. intros H. destruct (mt_msgs mt !! p); [|done]. intros [= <-]. by apply (inv_same _ mt). Qed.

Lemma address_ret to p now mt : is_Some (mt_msgs mt !! p) -> exists mt', address to p now mt = Ret mt'.
Proof. intros [m Hm]. unfold address. rewrite Hm. by eexists. Qed.

(** A step that returns keeps the invariant. *)
Lemma inv_step log mt op mt' x :
  mt_inv log mt -> mt_step mt op = Ret (mt', x) -> mt_inv (log ++ option_list x) mt'.
Proof.
  intros H. destruct op as [l| |id p dial t1 t2 t3|p t|i p pk|h e| |i ck d h t|i b e t]; cbn.
  - intros [= <- <-]. rewrite app_nil_r. unfold mt_Start. repeat case_match; by apply (inv_same _ mt).
  - destruct (inv_Stop _ _ H) as (mt1 & -> & H1). intros [= <- <-]. by rewrite app_nil_r.
  - unfold Send_get. destruct (getConnection _ _ _ _ _) as [[mt1 r]| |] eqn:Hg; cbn; [|done|done].
    destruct (getConnection_inv _ _ _ _ _ _ _ _ H Hg) as [H1 _]. destruct r as [i|e]; cbn.
    + destruct (address id p t3 mt1) as [mt2| |] eqn:Ha; cbn; [|done|done]. intros [= <- <-]. rewrite app_nil_r.
      exact (address_inv _ _ _ _ _ _ H1 Ha).
    + intros [= <- <-]. by rewrite app_nil_r.
  - destruct (address "" p t mt) as [mt1| |] eqn:Ha; cbn; [|done|done]. intros [= <- <-]. rewrite app_nil_r.
    exact (address_inv _ _ _ _ _ _ H Ha).
  - destruct pk as [|e|]; cbn; [|intros [= <- <-]; by rewrite app_nil_r|intros [= <- <-]; by rewrite app_nil_r].
    destruct (queue_send i p mt) as [[mt1|]| |] eqn:Hq; cbn; [|intros [= <- <-]; by rewrite app_nil_r|done|done].
    intros [= <- <-]. exact (inv_put _ _ _ _ _ H Hq).
  - unfold handleIncomingConnection. destruct h as [h|e']; [|intros [= <- <-]; rewrite app_nil_r; by apply (inv_same _ mt)].
    destruct (bool_decide _); cbn; [|intros [= <- <-]; rewrite app_nil_r; by apply (inv_same _ mt)].
    destruct e; [intros [= <- <-]; rewrite app_nil_r; by apply (inv_same _ mt)|].
    destruct (new_connection _ _) as [c| |] eqn:Hnew; cbn; [|done|done]. intros [= <- <-]. rewrite app_nil_r.
    exact (inv_new_connection _ _ _ _ _ H Hnew).
  - intros [= <- <-]. rewrite app_nil_r. unfold accept_error. repeat case_match; by apply (inv_same _ mt).
  - destruct (inv_read _ _ i ck d h t H) as (mt1 & -> & H1). intros [= <- <-]. by rewrite app_nil_r.
  - intros [= <- <-]. rewrite app_nil_r. by apply inv_write.
Qed.

Lemma mt_reach_inv config msgs log mt : mt_reach config msgs log mt -> mt_inv log mt.
Proof.
  induction 1 as [|log mt _ IH|log mt op mt' x _ IH Hs].
  - split; cbn; [by intros ???%lookup_empty_Some|done|]. by intros i p ?%not_elem_of_nil.
  - by apply (inv_same _ mt).
  - exact (inv_step _ _ _ _ _ IH Hs).
Qed.

(** C18. Once the transport was started no step of any interleaving of sends,
    stops, restarts, incoming connections and connection goroutines panics, but
    a send into a queue that is closed and a send of a nil message: no queue is
    ever closed twice, and no two nodes share a connection. *)
Theorem transport_never_double_closes config msgs log mt op :
  mt_reach config msgs log mt -> mt_ctx mt <> None -> op_ok mt op ->
  exists mt' x, mt_step mt op = Ret (mt', x).
Proof.
  intros H%mt_reach_inv Hctx. destruct op as [l| |id p dial t1 t2 t3|p t|i p pk|h e| |i ck d h t|i b e t]; cbn; try by eauto.
  - intros _. destruct (inv_Stop _ _ H) as (mt1 & -> & H1). cbn. by eauto.
  - intros Hp. unfold Send_get. destruct (getConnection_ret id dial t1 t2 mt Hctx) as (mt1 & r & Hg). rewrite Hg. cbn.
    destruct (getConnection_inv _ _ _ _ _ _ _ _ H Hg) as [_ Hm]. rewrite -Hm in Hp. destruct r as [i|e]; cbn; [|by eauto].
    destruct (address_ret id p t3 mt1 Hp) as (mt2 & ->). cbn. by eauto.
  - intros Hp. destruct (address_ret "" p t mt Hp) as (mt1 & ->). cbn. by eauto.
  - destruct pk as [|e|]; cbn; [|by eauto|by eauto]. intros (c & Hc & Ho). unfold queue_send, try_send. rewrite Hc Ho.
    case_decide; cbn; by eauto.
  - intros _. unfold handleIncomingConnection. destruct h as [h|e']; [|cbn; by eauto].
    destruct (bool_decide _); cbn; [|by eauto]. destruct e; cbn; [by eauto|].
    destruct (mt_ctx mt) as [[n live]|]; [cbn; by eauto|done].
  - intros _. destruct (inv_read _ _ i ck d h t H) as (mt1 & -> & H1). cbn. by eauto.
Qed.

(** C17. The socket of a connection carries what entered its queue, in order: a
    prefix of it whatever happens, and as long as its sender runs the rest is
    still in the queue, so nothing is lost and nothing comes twice. *)
Theorem transport_fifo config msgs log mt i c :
  mt_reach config msgs log mt -> mt_conns mt !! i = Some c ->
  wired c `prefix_of` sent i log /\
  (ct_sender c = true -> wired c ++ ch_buf (ct_sendChan c) = sent i log).
Proof. intros H%mt_reach_inv Hi. by destruct (mi_conns _ _ H _ _ Hi). Qed.

(** ** Connections that no message has gone through *)

Lemma fresh_inactive now c : 60 * Second <= now -> ct_lastActivity c = 0 -> isActive now c = false.
Proof.
  intros Hn Hc. unfold isActive, time_sub. rewrite Hc. apply Z.ltb_ge.
  assert (60 * Second <= max_int64) by (vm_compute; done). lia.
Qed.

(** No connection the table has for [id] has seen a message. *)
Definition unused (id : NodeID) (mt : messageTransport) : Prop :=
  forall i c, mt_connections mt !! id = Some i -> mt_conns mt !! i = Some c -> ct_lastActivity c = 0.

Lemma unused_inactive id now mt : unused id mt -> 60 * Second <= now -> active_conn id now mt = None.
Proof.
  intros Hu Hn. unfold active_conn. destruct (mt_connections mt !! id) as [i|] eqn:Hi; [cbn|done].
  destruct (mt_conns mt !! i) as [c|] eqn:Hc; [cbn|done]. by rewrite (fresh_inactive now c Hn (Hu _ _ Hi Hc)).
Qed.

Lemma unused_dials id now now' mt n live :
  unused id mt -> 60 * Second <= now -> 60 * Second <= now' -> mt_ctx mt = Some (n, live) ->
  getConnection id None now now' mt =
    Ret (mt_tell (Established id) (add_connection id (mkConnection id (make_chan 100) n live 0 true true []) mt),
         Ok (length (mt_conns mt))).
Proof. intros Hu Hn Hn' Hc. by rewrite /getConnection /createConnection !unused_inactive // /new_connection Hc. Qed.

(** A connection counts as active only after a message has gone through it.
    So of two sends to a node in a row the second dials again: its connection
    replaces the first in the table, while the goroutines of the first go on. When
    the first one ends, it removes its successor by the node id and closes its
    queue, and the send that was given the successor panics. *)
Theorem dropped_connection_takes_successor id t1 t2 t3 t4 now mt n p e h :
  mt_ctx mt = Some (n, true) -> mt_connections mt !! id = None ->
  60 * Second <= t1 -> 60 * Second <= t2 -> 60 * Second <= t3 -> 60 * Second <= t4 ->
  exists mt1 mt2 mt3, let i := length (mt_conns mt) in
    getConnection id None t1 t2 mt = Ret (mt1, Ok i) /\
    getConnection id None t3 t4 mt1 = Ret (mt2, Ok (S i)) /\
    mt_connections mt2 !! id = Some (S i) /\
    (exists c, mt_conns mt2 !! i = Some c /\ ct_reader c = true /\ ct_sender c = true) /\
    handleConnection1 i true (Err e) h now mt2 = Ret mt3 /\
    mt_connections mt3 !! id = None /\
    queue_send (S i) p mt3 = Panic "send on closed channel".
Proof.
  intros Hctx Hid H1 H2 H3 H4.
  set (c := mkConnection id (make_chan 100) n true 0 true true []).
  set (mt1 := mt_tell (Established id) (add_connection id c mt)).
  set (mt2 := mt_tell (Established id) (add_connection id c mt1)).
  assert (Hlen : length (mt_conns mt1) = S (length (mt_conns mt))) by (cbn; rewrite length_app /=; lia).
  assert (Hu : unused id mt) by (intros i d Hi; congruence).
  assert (Hu1 : unused id mt1).
  { intros i d. cbn. rewrite lookup_insert_eq. intros [= <-]. rewrite list_lookup_middle //. by intros [= <-]. }
  assert (Hi : mt_conns mt2 !! length (mt_conns mt) = Some c).
  { cbn. rewrite lookup_app_l; [rewrite length_app /=; lia|]. by rewrite list_lookup_middle. }
  assert (Hsi : mt_conns mt2 !! S (length (mt_conns mt)) = Some c).
  { rewrite -Hlen. cbn. by rewrite list_lookup_middle. }
  assert (Ht : mt_connections mt2 !! id = Some (S (length (mt_conns mt)))).
  { rewrite -Hlen. cbn. by rewrite lookup_insert_eq. }
  eexists mt1, mt2, _. cbn zeta. split_and!.
  - exact (unused_dials _ _ _ _ _ _ Hu H1 H2 Hctx).
  - rewrite -Hlen. exact (unused_dials _ _ _ _ _ _ Hu1 H3 H4 Hctx).
  - done.
  - by exists c.
  - rewrite /handleConnection1 Hi /= /reader_end /removeConnection. cbn -[mt2]. rewrite Ht.
    rewrite (close_conn_open _ (S (length (mt_conns mt))) c); [|done|done].
    rewrite list_lookup_insert_ne; [lia|done].
  - cbn. by rewrite lookup_delete_eq.
  - rewrite /queue_send. cbn -[mt2]. rewrite list_lookup_insert_eq; [|done].
    rewrite length_insert. exact (lookup_lt_Some _ _ _ Hsi).
Qed.

(** ** Witnesses *)

Definition demo_msg (id : string) : ClusterMessage :=
  mkClusterMessage id MessageTypeBroadcast "" "" [] ∅ 0 0.
Definition demo_msgs : list ClusterMessage := [demo_msg "a"; demo_msg "b"].

Fixpoint mt_run (ops : list mtop) (log : list (nat * mptr)) (mt : messageTransport) : go (list (nat * mptr) * messageTransport) :=
  match ops with
  | [] => Ret (log, mt)
  | op :: ops' => '(mt', x) ← mt_step mt op; mt_run ops' (log ++ option_list x) mt'
  end.

Lemma mt_run_reach config msgs ops : forall log mt log' mt',
  mt_reach config msgs log mt -> mt_run ops log mt = Ret (log', mt') -> mt_reach config msgs log' mt'.
Proof.
  induction ops as [|op ops IH]; intros log mt log' mt' H; cbn.
  - by intros [= <- <-].
  - destruct (mt_step mt op) as [[mt1 x]| |] eqn:Hs; cbn; [|done|done]. apply IH. exact (mt_reach_step _ _ _ _ _ _ _ H Hs).
Qed.

Definition demo_t : time := 100 * Second.
Definition demo_sends : list mtop :=
  [TStart None; TGet "n2" 0 None demo_t demo_t demo_t; TPut 0 0 PQueue; TPut 0 1 PQueue; TWrite 0 false None demo_t].
Definition demo_run : list (nat * mptr) * messageTransport :=
  match mt_run demo_sends [] (NewMessageTransport DefaultClusterConfig demo_msgs) with
  | Ret r => r
  | _ => ([], NewMessageTransport DefaultClusterConfig demo_msgs)
  end.

Lemma demo_run_reach : mt_reach DefaultClusterConfig demo_msgs demo_run.1 demo_run.2.
Proof.
  apply (mt_run_reach _ _ demo_sends [] (NewMessageTransport DefaultClusterConfig demo_msgs)); [constructor|].
  vm_compute. reflexivity.
Qed.

Lemma transport_never_double_closes_witness :
  exists mt' x, mt_step demo_run.2 TStop = Ret (mt', x).
Proof.
  apply (transport_never_double_closes DefaultClusterConfig demo_msgs demo_run.1).
  - exact demo_run_reach.
  - vm_compute. discriminate.
  - exact I.
Defined.

(** Two messages entered the queue of the first connection; one is on the wire. *)
Lemma transport_fifo_witness :
  exists c, mt_conns demo_run.2 !! 0%nat = Some c /\ wired c = [0%nat] /\ sent 0 demo_run.1 = [0; 1]%nat /\
    (ct_sender c = true -> wired c ++ ch_buf (ct_sendChan c) = sent 0 demo_run.1).
Proof.
  destruct (mt_conns demo_run.2 !! 0%nat) as [c|] eqn:Hc; [|vm_compute in Hc; discriminate].
  exists c. pose proof (transport_fifo DefaultClusterConfig demo_msgs demo_run.1 demo_run.2 0 c demo_run_reach Hc) as [_ H].
  split_and!; [done| |by vm_compute|exact H]. vm_compute in Hc. by injection Hc as <-.
Defined.

Definition demo_started : messageTransport := (mt_Start None (NewMessageTransport DefaultClusterConfig demo_msgs)).1.

Lemma dropped_connection_takes_successor_witness :
  exists mt1 mt2 mt3,
    getConnection "n2" None demo_t demo_t demo_started = Ret (mt1, Ok 0%nat) /\
    getConnection "n2" None demo_t demo_t mt1 = Ret (mt2, Ok 1%nat) /\
    mt_connections mt2 !! "n2" = Some 1%nat /\
    (exists c, mt_conns mt2 !! 0%nat = Some c /\ ct_reader c = true /\ ct_sender c = true) /\
    handleConnection1 0 true (Err "EOF") None demo_t mt2 = Ret mt3 /\
    mt_connections mt3 !! "n2" = None /\
    queue_send 1 0 mt3 = Panic "send on closed channel".
Proof.
  apply (dropped_connection_takes_successor "n2" demo_t demo_t demo_t demo_t demo_t demo_started 1 0 "EOF" None);
    first [reflexivity | vm_compute; discriminate].
Defined.

(** The message is the caller's: when it is sent to a second node before the first
    has encoded it, both get it addressed to the second. *)
Example resent_message_readdressed :
  match mt_run [TStart None; TGet "n2" 0 None demo_t demo_t demo_t; TPut 0 0 PQueue;
                TGet "n3" 0 None demo_t demo_t demo_t; TPut 1 0 PQueue;
                TWrite 0 false None demo_t; TWrite 1 false None demo_t] []
               (NewMessageTransport DefaultClusterConfig demo_msgs) with
  | Ret (_, mt) => List.map (fun c => List.map (fun x => option_map cmsg_To x.2) (ct_wire c)) (mt_conns mt) = [[Some "n3"]; [Some "n3"]]
  | _ => False
  end.
Proof. vm_compute. reflexivity. Qed.

(** Before the first [Start] there is no context to make a connection under. *)
Example unstarted_send_panics :
  getConnection "n2" None demo_t demo_t (NewMessageTransport DefaultClusterConfig demo_msgs) =
  Panic "cannot create context from nil parent".
Proof. vm_compute. reflexivity. Qed.
