(* ===== verification/GoPath.v ===== *)
(** What the configuration code uses of Go's packages path/filepath, strings and
    fmt: extensions and joined paths, lower case, and scanning a decimal number. *)

From S2P Require Import Prelude CoreTypes NetMessage GoText.
From Stdlib Require Import Ascii.

(** ** strings.ToLower, on ASCII letters

    No other character has one of the letters the sources compare with as its
    lower case. *)

Definition lower_char (c : ascii) : ascii :=
  let n := N_of_ascii c in
  if ((65 <=? n) && (n <=? 90))%N then ascii_of_N (n + 32) else c.

Fixpoint ToLower (s : string) : string :=
  match s with EmptyString => "" | String c s' => String (lower_char c) (ToLower s') end.

(** ** filepath *)

(** [filepath.Ext]: from the last dot after the last slash. *)
Fixpoint Ext (s : string) : string :=
  match s with
  | EmptyString => ""
  | String c s' =>
      let e := Ext s' in
      if Ascii.eqb c "." && eqs e "" && no_char "/" s' then String c s' else e
  end.

Fixpoint join_with (sep : string) (l : list string) : string :=
  match l with
  | [] => ""
  | [p] => p
  | p :: l' => p +:+ sep +:+ join_with sep l'
  end.

(** The elements of a cleaned path, last first: empty elements and dots go, a
    double dot takes the element before it, or stays when there is none to take
    and the path is not rooted. *)
Fixpoint clean_elems (rooted : bool) (stack : list string) (l : list string) : list string :=
  match l with
  | [] => stack
  | p :: l' =>
      if eqs p "" || eqs p "." then clean_elems rooted stack l'
      else if eqs p ".." then
        match stack with
        | q :: stack' => if eqs q ".." then clean_elems rooted (p :: stack) l' else clean_elems rooted stack' l'
        | [] => clean_elems rooted (if rooted then [] else [p]) l'
        end
      else clean_elems rooted (p :: stack) l'
  end.

Definition Clean (s : string) : string :=
  let rooted := match s with String c _ => Ascii.eqb c "/" | EmptyString => false end in
  let p := join_with "/" (rev (clean_elems rooted [] (Split "/" s))) in
  if rooted then "/" +:+ p else if eqs p "" then "." else p.

(** [filepath.Join] of two elements: empty ones are left out. *)
Definition Join (a b : string) : string :=
  match List.filter nonempty [a; b] with
  | [] => ""
  | l => Clean (join_with "/" l)
  end.

(** ** fmt.Sscanf with [%d]

    Leading space but no newline, a sign, digits; what follows is left alone. *)

Fixpoint take_digits (s : string) : string :=
  match s with
  | String c s' => match digit_value c with Some _ => String c (take_digits s') | None => "" end
  | EmptyString => ""
  end.

Definition inline_spaces : list bytes := List.filter (fun p => negb (bool_decide (p = [10]))) spaces.

Definition Sscanf_d (s : string) : option Z :=
  let b := bytes_of_string s in
  match string_of_bytes (trim_left (length b) inline_spaces b) with
  | String c s' =>
      if Ascii.eqb c "-" then signed_value true (take_digits s')
      else if Ascii.eqb c "+" then signed_value false (take_digits s')
      else signed_value false (take_digits (String c s'))
  | EmptyString => None
  end.

(** ** Facts *)

Lemma Ext_cons c s : Ext (String c s) = if Ascii.eqb c "." && eqs (Ext s) "" && no_char "/" s then String c s else Ext s.
Proof. done. Qed.

Lemma Ext_no_dot s : no_char "." s = true -> Ext s = "".
Proof.
  induction s as [|c s IH]; [done|]. rewrite Ext_cons. cbn [no_char]. by destruct (Ascii.eqb c ".").
Qed.

(** The extension of a name that ends in a dot and a suffix without one. *)
Lemma Ext_suffix a s : no_char "." s = true -> no_char "/" s = true -> Ext (a +:+ String "." s) = String "." s.
Proof.
  intros Hd Hs. induction a as [|c a IH].
  - by rewrite Ext_cons Hs (Ext_no_dot s Hd).
  - change (String c a +:+ String "." s) with (String c (a +:+ String "." s)). by rewrite Ext_cons IH andb_false_r.
Qed.

Lemma take_digits_all s : all_digits s = true -> take_digits s = s.
Proof.
  induction s as [|c s IH]; [done|]. cbn. destruct (digit_value c); [|done]. intros H. by rewrite IH.
Qed.

(** Digits are scanned up to the first character that is none. *)
Lemma take_digits_app s c t : all_digits s = true -> digit_value c = None -> take_digits (s +:+ String c t) = s.
Proof.
  induction s as [|d s IH]; intros H Hc.
  - change ("" +:+ String c t) with (String c t). cbn [take_digits]. by rewrite Hc.
  - change (String d s +:+ String c t) with (String d (s +:+ String c t)). cbn [take_digits all_digits] in *.
    destruct (digit_value d); [|done]. f_equal. by apply IH.
Qed.

Lemma digit_plain c : is_Some (digit_value c) -> plain (Z.of_N (N_of_ascii c)) = true.
Proof.
  unfold digit_value, plain. intros [d Hd]. case_match eqn:E; [|done]. apply andb_prop in E as [H1%Z.leb_le H2%Z.leb_le].
  apply andb_true_intro. split; apply Z.leb_le; lia.
Qed.

Lemma digit_no_sign c : is_Some (digit_value c) -> Ascii.eqb c "-" = false /\ Ascii.eqb c "+" = false.
Proof.
  intros [d Hd]. split; apply Ascii.eqb_neq; intros ->; by vm_compute in Hd.
Qed.

Lemma inline_left : Forall (fun p => match p with x :: _ => plain x = false | [] => False end) inline_spaces.
Proof. unfold inline_spaces. apply list.Forall_forall. intros p Hp. apply list_elem_of_In, filter_In in Hp as [Hp _].
  apply list_elem_of_In in Hp. revert p Hp. apply list.Forall_forall. exact spaces_left. Qed.

Lemma string_app_empty s : s +:+ "" = s.
Proof. induction s as [|c s IH]; [done|]. change (String c s +:+ "") with (String c (s +:+ "")). by rewrite IH. Qed.

(** A printed number is scanned back, whatever follows it. *)
Lemma Sscanf_d_pretty z t :
  0 <= z < 2 ^ 63 -> (forall c t', t = String c t' -> digit_value c = None) -> Sscanf_d (pretty z +:+ t) = Some z.
Proof.
  intros [Hz Hmax] Ht. rewrite (pretty_Z_nonneg z Hz). pose proof (all_digits_pretty (Z.to_N z)) as Hall.
  pose proof (digits_value_pretty (Z.to_N z)) as Hval. pose proof (pretty_N_nonempty (Z.to_N z)) as Hne.
  assert (Htd : take_digits (pretty (Z.to_N z) +:+ t) = pretty (Z.to_N z)).
  { destruct t as [|c t']; [|by apply take_digits_app, (Ht c t')].
    rewrite string_app_empty. by apply take_digits_all. }
  clear Ht. generalize dependent (pretty (Z.to_N z)). intros [|c s] Hall Hval Hne Htd; [done|]. cbn [all_digits] in Hall.
  assert (Hc : is_Some (digit_value c)) by (destruct (digit_value c); [by eexists|done]).
  assert (Happ : String c s +:+ t = String c (s +:+ t)) by done. rewrite Happ in Htd |- *.
  unfold Sscanf_d. cbn [bytes_of_string].
  rewrite trim_left_plain; [exact inline_left|by apply digit_plain|].
  change (Z.of_N (N_of_ascii c) :: bytes_of_string (s +:+ t)) with (bytes_of_string (String c (s +:+ t))).
  rewrite string_of_bytes_of_string. destruct (digit_no_sign c Hc) as [-> ->]. rewrite Htd. unfold signed_value.
  destruct (eqs _ _) eqn:E; [by apply eqs_true in E|]. rewrite Hval Z2N.id //.
  rewrite (proj2 (Z.leb_le (- 2 ^ 63) z)); [lia|]. by rewrite (proj2 (Z.ltb_lt z (2 ^ 63))).
Qed.
