(* ===== verification/Config.v ===== *)
(** src/config/types.go and errors.go: the configuration, its defaults and its
    validation.

    [V] is the type of the values of an [interface{}]; [M] is what a custom map is
    held by: the map itself in a configuration that was just decoded, the place of
    the map on the heap in one that is shared. A map that may be nil is an option. *)

From S2P Require Import Prelude CoreTypes NetMessage GoText GoPath.

(** ** Errors *)

Definition ErrInvalidAppName : error := "invalid application name".
Definition ErrInvalidEnvironment : error := "invalid environment".
Definition ErrInvalidLogLevel : error := "invalid log level".
Definition ErrInvalidPort : error := "invalid port number".
Definition ErrInvalidMaxConnections : error := "invalid max connections".
Definition ErrInvalidMaxActors : error := "invalid max actors".
Definition ErrInvalidMailboxSize : error := "invalid mailbox size".
Definition ErrConfigFileNotFound : error := "configuration file not found".

(** ** Environments and log levels *)

Definition Environment := string.
Definition EnvDevelopment : Environment := "development".
Definition EnvTesting : Environment := "testing".
Definition EnvStaging : Environment := "staging".
Definition EnvProduction : Environment := "production".
Definition Environment_IsValid (e : Environment) : bool :=
  eqs e EnvDevelopment || eqs e EnvTesting || eqs e EnvStaging || eqs e EnvProduction.

Definition LogLevel := string.
Definition LogLevelTrace : LogLevel := "trace".
Definition LogLevelDebug : LogLevel := "debug".
Definition LogLevelInfo : LogLevel := "info".
Definition LogLevelWarn : LogLevel := "warn".
Definition LogLevelError : LogLevel := "error".
Definition LogLevelFatal : LogLevel := "fatal".
Definition LogLevel_IsValid (l : LogLevel) : bool :=
  eqs l LogLevelTrace || eqs l LogLevelDebug || eqs l LogLevelInfo || eqs l LogLevelWarn || eqs l LogLevelError ||
  eqs l LogLevelFatal.

(** ** The sections of a configuration *)

Record AppConfig := mkAppConfig {
  app_Name : string;
  app_Version : string;
  app_Environment : Environment;
  app_Debug : bool;
  app_Description : string;
  app_Metadata : option (gmap string string);
}.

Record LogRotationConfig := mkLogRotationConfig {
  rot_Enabled : bool; rot_MaxSize : Z; rot_MaxBackups : Z; rot_MaxAge : Z; rot_Compress : bool;
}.

Record LogConfig (V : Type) := mkLogConfig {
  log_Level : LogLevel;
  log_Format : string;
  log_Output : string;
  log_Color : bool;
  log_Rotation : LogRotationConfig;
  log_Fields : option (gmap string V);
}.
Arguments mkLogConfig {V}. Arguments log_Level {V}. Arguments log_Format {V}. Arguments log_Output {V}.
Arguments log_Color {V}. Arguments log_Rotation {V}. Arguments log_Fields {V}.

Record TCPConfig := mkTCPConfig {
  tcp_Address : string; tcp_Port : Z; tcp_KeepAlive : bool; tcp_KeepAliveInterval : duration; tcp_BufferSize : Z;
}.
Record UDPConfig := mkUDPConfig { udp_Address : string; udp_Port : Z; udp_BufferSize : Z }.
Record ConnectionLimits := mkConnectionLimits { lim_MaxConnections : Z; lim_MaxConnectionsPerIP : Z; lim_RateLimit : Z }.
Record TimeoutConfig := mkTimeoutConfig { to_Read : duration; to_Write : duration; to_Idle : duration; to_Handshake : duration }.
Record NetworkConfig := mkNetworkConfig {
  net_TCP : TCPConfig; net_UDP : UDPConfig; net_Limits : ConnectionLimits; net_Timeouts : TimeoutConfig;
}.

Record ActorTimeoutConfig := mkActorTimeoutConfig {
  ato_Creation : duration; ato_Shutdown : duration; ato_MessageSend : duration; ato_Call : duration;
}.
Record RoutingConfig := mkRoutingConfig { rt_Strategy : string; rt_Persistence : bool; rt_MessageTTL : duration }.
Record ActorConfig := mkActorConfig {
  act_MaxActors : Z; act_DefaultMailboxSize : Z; act_Timeouts : ActorTimeoutConfig; act_Routing : RoutingConfig;
}.

Record ServiceRegistrationConfig := mkServiceRegistrationConfig {
  reg_Name : string; reg_Version : string; reg_Tags : list string; reg_Metadata : option (gmap string string); reg_TTL : duration;
}.
Record HealthCheckConfig := mkHealthCheckConfig {
  hc_Enabled : bool; hc_Interval : duration; hc_Timeout : duration; hc_Endpoint : string;
}.
Record CircuitBreakerConfig := mkCircuitBreakerConfig {
  cb_Enabled : bool; cb_FailureThreshold : Z; cb_SuccessThreshold : Z; cb_Timeout : duration;
}.
Record LoadBalancingConfig := mkLoadBalancingConfig {
  lbc_Strategy : string; lbc_HealthCheck : bool; lbc_CircuitBreaker : CircuitBreakerConfig;
}.
Record DiscoveryConfig := mkDiscoveryConfig {
  dc_Enabled : bool; dc_Type : string; dc_Registration : ServiceRegistrationConfig; dc_HealthCheck : HealthCheckConfig;
  dc_LoadBalancing : LoadBalancingConfig;
}.

Record HTTPMonitorConfig := mkHTTPMonitorConfig {
  http_Enabled : bool; http_Address : string; http_Port : Z; http_MetricsPath : string; http_HealthPath : string;
}.
Record ProfilingConfig := mkProfilingConfig {
  prof_Enabled : bool; prof_CPU : bool; prof_Memory : bool; prof_Block : bool; prof_Mutex : bool;
}.
Record MonitorConfig := mkMonitorConfig {
  mon_Enabled : bool; mon_MetricsInterval : duration; mon_HTTP : HTTPMonitorConfig; mon_Profiling : ProfilingConfig;
}.

Record Config (V M : Type) := mkConfig {
  App : AppConfig;
  Log : LogConfig V;
  Network : NetworkConfig;
  ActorC : ActorConfig;
  Discovery : DiscoveryConfig;
  Monitor : MonitorConfig;
  Custom : option M;
}.
Arguments mkConfig {V M}. Arguments App {V M}. Arguments Log {V M}. Arguments Network {V M}. Arguments ActorC {V M}.
Arguments Discovery {V M}. Arguments Monitor {V M}. Arguments Custom {V M}.

(** ** Defaults *)

Definition Minute : duration := 60 * Second.

(** [DefaultConfig], with the map it makes for the custom fields. *)
Definition DefaultConfig {V M} (custom : M) : Config V M :=
  mkConfig
    (mkAppConfig "sngo-app" "1.0.0" EnvDevelopment true "SNGO application" None)
    (mkLogConfig LogLevelInfo "text" "stdout" true (mkLogRotationConfig false 100 3 7 true) None)
    (mkNetworkConfig (mkTCPConfig "0.0.0.0" 8080 true (60 * Second) 4096) (mkUDPConfig "0.0.0.0" 8081 4096)
       (mkConnectionLimits 1000 100 100) (mkTimeoutConfig (30 * Second) (30 * Second) (5 * Minute) (10 * Second)))
    (mkActorConfig 10000 1000 (mkActorTimeoutConfig (5 * Second) (10 * Second) (1 * Second) (30 * Second))
       (mkRoutingConfig "direct" false (5 * Minute)))
    (mkDiscoveryConfig true "local" (mkServiceRegistrationConfig "sngo-service" "1.0.0" [] None (30 * Second))
       (mkHealthCheckConfig true (10 * Second) (5 * Second) "")
       (mkLoadBalancingConfig "round_robin" true (mkCircuitBreakerConfig false 5 3 (60 * Second))))
    (mkMonitorConfig true (10 * Second) (mkHTTPMonitorConfig true "0.0.0.0" 9090 "/metrics" "/health")
       (mkProfilingConfig false false false false false))
    (Some custom).

(** ** Validation *)

Section Validate.
Context {V M : Type}.
Implicit Types c : Config V M.

Definition Validate c : option error :=
  if eqs (app_Name (App c)) "" then Some ErrInvalidAppName
  else if negb (Environment_IsValid (app_Environment (App c))) then Some ErrInvalidEnvironment
  else if negb (LogLevel_IsValid (log_Level (Log c))) then Some ErrInvalidLogLevel
  else if (tcp_Port (net_TCP (Network c)) <=? 0) || (65535 <? tcp_Port (net_TCP (Network c))) then Some ErrInvalidPort
  else if lim_MaxConnections (net_Limits (Network c)) <=? 0 then Some ErrInvalidMaxConnections
  else if act_MaxActors (ActorC c) <=? 0 then Some ErrInvalidMaxActors
  else if act_DefaultMailboxSize (ActorC c) <=? 0 then Some ErrInvalidMailboxSize
  else None.

Definition IsDevelopment c : bool := eqs (app_Environment (App c)) EnvDevelopment.
Definition IsProduction c : bool := eqs (app_Environment (App c)) EnvProduction.
Definition GetServiceName c : string :=
  if nonempty (reg_Name (dc_Registration (Discovery c))) then reg_Name (dc_Registration (Discovery c)) else app_Name (App c).
Definition GetLogLevel c : LogLevel := log_Level (Log c).
Definition IsDebugEnabled c : bool := app_Debug (App c) || eqs (app_Environment (App c)) EnvDevelopment.

(** What a valid configuration promises the parts that use it. *)
Record valid c : Prop := {
  va_name : app_Name (App c) <> "";
  va_env : app_Environment (App c) ∈ [EnvDevelopment; EnvTesting; EnvStaging; EnvProduction];
  va_level : log_Level (Log c) ∈ [LogLevelTrace; LogLevelDebug; LogLevelInfo; LogLevelWarn; LogLevelError; LogLevelFatal];
  va_port : 0 < tcp_Port (net_TCP (Network c)) <= 65535;
  va_conns : 0 < lim_MaxConnections (net_Limits (Network c));
  va_actors : 0 < act_MaxActors (ActorC c);
  va_mailbox : 0 < act_DefaultMailboxSize (ActorC c);
}.

Lemma Environment_IsValid_spec e : Environment_IsValid e = true <-> e ∈ [EnvDevelopment; EnvTesting; EnvStaging; EnvProduction].
Proof. unfold Environment_IsValid. rewrite !orb_true_iff !eqs_true. set_solver. Qed.

Lemma LogLevel_IsValid_spec l :
  LogLevel_IsValid l = true <->
  l ∈ [LogLevelTrace; LogLevelDebug; LogLevelInfo; LogLevelWarn; LogLevelError; LogLevelFatal].
Proof. unfold LogLevel_IsValid. rewrite !orb_true_iff !eqs_true. set_solver. Qed.

Lemma Validate_valid c : Validate c = None <-> valid c.
Proof.
  unfold Validate. split.
  - destruct (eqs (app_Name (App c)) "") eqn:E1; [done|]. destruct (Environment_IsValid _) eqn:E2; [cbn|done].
    destruct (LogLevel_IsValid _) eqn:E3; [cbn|done]. destruct (_ || _) eqn:E4; [done|].
    destruct (lim_MaxConnections _ <=? 0) eqn:E5; [done|]. destruct (act_MaxActors _ <=? 0) eqn:E6; [done|].
    destruct (act_DefaultMailboxSize _ <=? 0) eqn:E7; [done|]. intros _. apply orb_false_iff in E4 as [E4 E4'].
    split; try (apply Environment_IsValid_spec, E2); try (apply LogLevel_IsValid_spec, E3); try lia.
    by apply (nonempty_true (app_Name (App c))); rewrite /nonempty E1.
  - intros [H1 H2 H3 H4 H5 H6 H7]. apply nonempty_true in H1. apply Environment_IsValid_spec in H2.
    apply LogLevel_IsValid_spec in H3. rewrite /nonempty in H1. apply negb_true_iff in H1. rewrite H1 H2 H3. cbn.
    destruct (_ || _) eqn:E4; [apply orb_true_iff in E4 as [?%Z.leb_le | ?%Z.ltb_lt]; lia|].
    rewrite (proj2 (Z.leb_gt _ _) H5) (proj2 (Z.leb_gt _ _) H6) (proj2 (Z.leb_gt _ _) H7). done.
Qed.

End Validate.

Lemma DefaultConfig_valid {V M} (custom : M) : Validate (@DefaultConfig V M custom) = None.
Proof. done. Qed.
