(* ===== verification/ConfigLoader.v ===== *)
(** src/config/loader.go: loading a configuration from files and the environment.

    Configurations are passed around by pointer and the loader writes into the one
    it holds as default, so they live on a heap; so do the custom maps, which a
    copied configuration shares with its original. Files, environment variables
    and the two decoders are parameters. *)

From S2P Require Import Prelude CoreTypes NetMessage GoText GoPath Config.

Inductive ConfigFormat := FormatYAML | FormatJSON.
#[export] Instance ConfigFormat_eq_dec : EqDecision ConfigFormat.
Proof. solve_decision. Defined.

(** The formats the sources know; any other text is [None]. *)
Definition format_name (f : ConfigFormat) : string := match f with FormatYAML => "yaml" | FormatJSON => "json" end.
Definition format_of_ext (ext : string) : option ConfigFormat :=
  if eqs ext ".yaml" || eqs ext ".yml" then Some FormatYAML
  else if eqs ext ".json" then Some FormatJSON
  else None.

Record Loader := mkLoader {
  ld_searchPaths : list string;
  ld_envPrefix : string;
  ld_defaultConfig : option nat;        (** its place on the heap, if not nil *)
}.

Definition SetSearchPaths (paths : list string) (l : Loader) : Loader := mkLoader paths (ld_envPrefix l) (ld_defaultConfig l).
Definition SetEnvPrefix (prefix : string) (l : Loader) : Loader := mkLoader (ld_searchPaths l) prefix (ld_defaultConfig l).
Definition SetDefaultConfig (config : option nat) (l : Loader) : Loader := mkLoader (ld_searchPaths l) (ld_envPrefix l) config.

(** [parsePort]; its error is only tested for nil. *)
Definition parsePort (val : string) : option Z :=
  match Sscanf_d val with
  | None => None
  | Some port => if (port <=? 0) || (65535 <? port) then None else Some port
  end.

Section Loader.
Context {V : Type}.

Notation custom_map := (gmap string V).
Notation user_config := (Config V custom_map).   (** just decoded *)
Notation config := (Config V nat).               (** on the heap *)

Record store := mkStore { st_configs : list config; st_maps : list custom_map }.
Definition empty_store : store := mkStore [] [].

(** The parts of the system the loader asks. *)
Context (Getenv : string -> string).
Context (ReadFile : string -> res bytes).
Context (Stat : string -> bool).                 (** no error *)
Context (yaml_Unmarshal json_Unmarshal : bytes -> res user_config).

(** ** Pointers *)

Definition with_custom {M N} (m : option N) (c : Config V M) : Config V N :=
  mkConfig (App c) (Log c) (Network c) (ActorC c) (Discovery c) (Monitor c) m.

Definition new_map (m : custom_map) (st : store) : store * nat :=
  (mkStore (st_configs st) (st_maps st ++ [m]), length (st_maps st)).
Definition new_config (c : config) (st : store) : store * nat :=
  (mkStore (st_configs st ++ [c]) (st_maps st), length (st_configs st)).
Definition set_config (i : nat) (c : config) (st : store) : store := mkStore (<[i := c]> (st_configs st)) (st_maps st).
Definition set_map (i : nat) (m : custom_map) (st : store) : store := mkStore (st_configs st) (<[i := m]> (st_maps st)).

(** A decoded configuration on the heap, and [DefaultConfig()]. *)
Definition alloc (c : user_config) (st : store) : store * nat :=
  match Custom c with
  | None => new_config (with_custom None c) st
  | Some m => let '(st1, mp) := new_map m st in new_config (with_custom (Some mp) c) st1
  end.
Definition alloc_default (st : store) : store * nat := alloc (DefaultConfig ∅) st.

(** The default of the loader, or a new one. *)
Definition default_of (l : Loader) (st : store) : store * nat :=
  match ld_defaultConfig l with Some i => (st, i) | None => alloc_default st end.

Definition NewLoader (home : string) (st : store) : store * Loader :=
  let '(st1, i) := alloc_default st in
  (st1, mkLoader ["."; "./config"; "./configs"; "/etc/sngo"; home +:+ "/.sngo"] "SNGO" (Some i)).

(** ** The environment *)

Definition env_string (l : Loader) (name : string) (old : string) : string :=
  let val := Getenv (ld_envPrefix l +:+ name) in if nonempty val then val else old.
Definition env_bool (l : Loader) (name : string) (old : bool) : bool :=
  let val := Getenv (ld_envPrefix l +:+ name) in if nonempty val then eqs (ToLower val) "true" else old.
Definition env_port (l : Loader) (name : string) (old : Z) : Z :=
  let val := Getenv (ld_envPrefix l +:+ name) in
  if nonempty val then match parsePort val with Some port => port | None => old end else old.

(** [loadFromEnv] on the configuration itself: each variable has a field of its own. *)
Definition env_override {M} (l : Loader) (c : Config V M) : Config V M :=
  let a := App c in let g := Log c in let n := Network c in let t := net_TCP n in
  let d := Discovery c in let r := dc_Registration d in let m := Monitor c in let h := mon_HTTP m in
  mkConfig
    (mkAppConfig (env_string l "_APP_NAME" (app_Name a)) (env_string l "_APP_VERSION" (app_Version a))
       (env_string l "_APP_ENVIRONMENT" (app_Environment a)) (env_bool l "_APP_DEBUG" (app_Debug a))
       (app_Description a) (app_Metadata a))
    (mkLogConfig (env_string l "_LOG_LEVEL" (log_Level g)) (env_string l "_LOG_FORMAT" (log_Format g))
       (env_string l "_LOG_OUTPUT" (log_Output g)) (log_Color g) (log_Rotation g) (log_Fields g))
    (mkNetworkConfig
       (mkTCPConfig (env_string l "_NETWORK_TCP_ADDRESS" (tcp_Address t)) (env_port l "_NETWORK_TCP_PORT" (tcp_Port t))
          (tcp_KeepAlive t) (tcp_KeepAliveInterval t) (tcp_BufferSize t))
       (net_UDP n) (net_Limits n) (net_Timeouts n))
    (ActorC c)
    (mkDiscoveryConfig (env_bool l "_DISCOVERY_ENABLED" (dc_Enabled d)) (env_string l "_DISCOVERY_TYPE" (dc_Type d))
       (mkServiceRegistrationConfig (env_string l "_SERVICE_NAME" (reg_Name r)) (reg_Version r) (reg_Tags r) (reg_Metadata r) (reg_TTL r))
       (dc_HealthCheck d) (dc_LoadBalancing d))
    (mkMonitorConfig (env_bool l "_MONITOR_ENABLED" (mon_Enabled m)) (mon_MetricsInterval m)
       (mkHTTPMonitorConfig (http_Enabled h) (http_Address h) (env_port l "_MONITOR_PORT" (http_Port h)) (http_MetricsPath h)
          (http_HealthPath h))
       (mon_Profiling m))
    (Custom c).

(** It never fails. *)
Definition loadFromEnv (l : Loader) (i : nat) (st : store) : go store :=
  match st_configs st !! i with
  | Some c => Ret (set_config i (env_override l c) st)
  | None => Panic "nil pointer"
  end.

Definition validate_at (i : nat) (st : store) : option error :=
  match st_configs st !! i with Some c => Validate c | None => None end.

(** ** Merging *)

Definition pick_string (user dflt : string) : string := if nonempty user then user else dflt.
Definition pick_int (user dflt : Z) : Z := if user =? 0 then dflt else user.
Definition pick_map {A} (user dflt : option A) : option A := match user with Some m => Some m | None => dflt end.

(** All fields but the custom ones; a field that is not named here is the default's. *)
Definition merge_fields {M N} (d : Config V M) (u : Config V N) : Config V M :=
  mkConfig
    (mkAppConfig (pick_string (app_Name (App u)) (app_Name (App d))) (pick_string (app_Version (App u)) (app_Version (App d)))
       (pick_string (app_Environment (App u)) (app_Environment (App d))) (app_Debug (App u))
       (pick_string (app_Description (App u)) (app_Description (App d))) (pick_map (app_Metadata (App u)) (app_Metadata (App d))))
    (mkLogConfig (pick_string (log_Level (Log u)) (log_Level (Log d))) (pick_string (log_Format (Log u)) (log_Format (Log d)))
       (pick_string (log_Output (Log u)) (log_Output (Log d))) (log_Color (Log u)) (log_Rotation (Log d))
       (pick_map (log_Fields (Log u)) (log_Fields (Log d))))
    (mkNetworkConfig
       (mkTCPConfig (pick_string (tcp_Address (net_TCP (Network u))) (tcp_Address (net_TCP (Network d))))
          (pick_int (tcp_Port (net_TCP (Network u))) (tcp_Port (net_TCP (Network d))))
          (tcp_KeepAlive (net_TCP (Network d))) (tcp_KeepAliveInterval (net_TCP (Network d))) (tcp_BufferSize (net_TCP (Network d))))
       (net_UDP (Network d))
       (mkConnectionLimits
          (pick_int (lim_MaxConnections (net_Limits (Network u))) (lim_MaxConnections (net_Limits (Network d))))
          (lim_MaxConnectionsPerIP (net_Limits (Network d))) (lim_RateLimit (net_Limits (Network d))))
       (net_Timeouts (Network d)))
    (mkActorConfig (pick_int (act_MaxActors (ActorC u)) (act_MaxActors (ActorC d)))
       (pick_int (act_DefaultMailboxSize (ActorC u)) (act_DefaultMailboxSize (ActorC d)))
       (act_Timeouts (ActorC d)) (act_Routing (ActorC d)))
    (mkDiscoveryConfig (dc_Enabled (Discovery d)) (dc_Type (Discovery d))
       (mkServiceRegistrationConfig (pick_string (reg_Name (dc_Registration (Discovery u))) (reg_Name (dc_Registration (Discovery d))))
          (reg_Version (dc_Registration (Discovery d))) (reg_Tags (dc_Registration (Discovery d)))
          (reg_Metadata (dc_Registration (Discovery d))) (reg_TTL (dc_Registration (Discovery d))))
       (dc_HealthCheck (Discovery d)) (dc_LoadBalancing (Discovery d)))
    (Monitor d)
    (Custom d).

(** [mergeConfig]: the copy shares the custom map of the default, and the custom
    fields of the user are written into it. *)
Definition mergeConfig (dflt : nat) (u : user_config) (st : store) : go (store * nat) :=
  match st_configs st !! dflt with
  | None => Panic "nil pointer"
  | Some d =>
      let merged := merge_fields d u in
      match Custom u with
      | None => Ret (new_config merged st)
      | Some um =>
          match Custom merged with
          | None => let '(st1, mp) := new_map um st in Ret (new_config (with_custom (Some mp) merged) st1)
          | Some mp =>
              match st_maps st !! mp with
              | Some m => Ret (new_config merged (set_map mp (um ∪ m) st))
              | None => Panic "nil pointer"
              end
          end
      end
  end.

(** ** Loading *)

Definition parseConfig (data : bytes) (format : ConfigFormat) : res user_config :=
  match format with
  | FormatYAML => wrap_err "failed to parse YAML config: " (yaml_Unmarshal data)
  | FormatJSON => wrap_err "failed to parse JSON config: " (json_Unmarshal data)
  end.

(** The end all loads share: the environment, then validation. *)
Definition finish (l : Loader) (i : nat) (st : store) : go (store * res nat) :=
  st1 ← loadFromEnv l i st;
  Ret (st1, match validate_at i st1 with
            | Some e => Err ("configuration validation failed: " +:+ e)
            | None => Ok i
            end).

Definition load_parsed (l : Loader) (u : user_config) (st : store) : go (store * res nat) :=
  let '(st1, dflt) := default_of l st in
  '(st2, i) ← mergeConfig dflt u st1;
  finish l i st2.

Definition loadFromFile (l : Loader) (filename : string) (st : store) : go (store * res nat) :=
  let ext := ToLower (Ext filename) in
  match format_of_ext ext with
  | None => Ret (st, Err ("unsupported config file format: " +:+ ext))
  | Some format =>
      match ReadFile filename with
      | Err e => Ret (st, Err ("failed to read config file: " +:+ e))
      | Ok data =>
          match parseConfig data format with
          | Err e => Ret (st, Err e)
          | Ok u => load_parsed l u st
          end
      end
  end.
Definition LoadFromFile := loadFromFile.

Definition Load (l : Loader) (filename : string) (st : store) : go (store * res nat) :=
  let '(st1, dflt) := default_of l st in
  if nonempty filename then
    '(st2, r) ← loadFromFile l filename st1;
    match r with
    | Err e => Ret (st2, Err ("failed to load config from file " +:+ filename +:+ ": " +:+ e))
    | Ok i => finish l i st2
    end
  else finish l dflt st1.

Definition LoadFromReader (data : res bytes) (format : ConfigFormat) (st : store) : store * res nat :=
  match data with
  | Err e => (st, Err ("failed to read configuration data: " +:+ e))
  | Ok b => match parseConfig b format with
            | Err e => (st, Err e)
            | Ok u => let '(st1, i) := alloc u st in (st1, Ok i)
            end
  end.

Definition config_names : list string := ["sngo.yaml"; "sngo.yml"; "config.yaml"; "config.yml"; "sngo.json"; "config.json"].

(** The inner loop of [findConfigFile]. *)
Fixpoint find_name (searchPath : string) (names : list string) : option (string * ConfigFormat) :=
  match names with
  | [] => None
  | filename :: names' =>
      let fullPath := Join searchPath filename in
      if Stat fullPath then
        match format_of_ext (ToLower (Ext filename)) with
        | Some format => Some (fullPath, format)
        | None => find_name searchPath names'
        end
      else find_name searchPath names'
  end.
Fixpoint find_path (paths : list string) : res (string * ConfigFormat) :=
  match paths with
  | [] => Err ErrConfigFileNotFound
  | p :: paths' => match find_name p config_names with Some r => Ok r | None => find_path paths' end
  end.
Definition findConfigFile (l : Loader) : res (string * ConfigFormat) := find_path (ld_searchPaths l).

Definition AutoLoad (l : Loader) (st : store) : go (store * res nat) :=
  match findConfigFile l with
  | Err _ => let '(st1, dflt) := default_of l st in finish l dflt st1
  | Ok (configFile, format) =>
      match ReadFile configFile with
      | Err e => Ret (st, Err ("failed to read config file " +:+ configFile +:+ ": " +:+ e))
      | Ok data =>
          match parseConfig data format with
          | Err e => Ret (st, Err ("failed to parse config file " +:+ configFile +:+ ": " +:+ e))
          | Ok u => load_parsed l u st
          end
      end
  end.

(** ** The environment is in force, once or twice *)

Lemma env_string_idem l n x : env_string l n (env_string l n x) = env_string l n x.
Proof. unfold env_string. by destruct (nonempty _). Qed.
Lemma env_bool_idem l n x : env_bool l n (env_bool l n x) = env_bool l n x.
Proof. unfold env_bool. by destruct (nonempty _). Qed.
Lemma env_port_idem l n x : env_port l n (env_port l n x) = env_port l n x.
Proof. unfold env_port. by destruct (nonempty _); [destruct (parsePort _)|]. Qed.

Lemma env_override_idem {M} l (c : Config V M) : env_override l (env_override l c) = env_override l c.
Proof. unfold env_override; cbn. by rewrite !env_string_idem !env_bool_idem !env_port_idem. Qed.

(** ** Pointers stay valid *)

Record st_wf (st : store) : Prop := {
  sw_maps : forall i c m, st_configs st !! i = Some c -> Custom c = Some m -> is_Some (st_maps st !! m);
}.
Record ld_wf (l : Loader) (st : store) : Prop := {
  lw_store : st_wf st;
  lw_default : forall i, ld_defaultConfig l = Some i -> is_Some (st_configs st !! i);
}.

(** The store grows: places stay, with the same custom map. *)
Record grows (st st' : store) : Prop := {
  gr_configs : forall i c, st_configs st !! i = Some c -> exists c', st_configs st' !! i = Some c' /\ Custom c' = Custom c;
  gr_maps : forall m, is_Some (st_maps st !! m) -> is_Some (st_maps st' !! m);
}.

Lemma grows_refl st : grows st st.
Proof. split; [by eauto|done]. Qed.
Lemma grows_trans a b c : grows a b -> grows b c -> grows a c.
Proof.
  intros [H1 H2] [H3 H4]. split; [|by eauto]. intros i x Hi. destruct (H1 _ _ Hi) as (y & Hy & E).
  destruct (H3 _ _ Hy) as (z & Hz & E'). exists z. split; [done|congruence].
Qed.

Lemma ld_wf_grows l st st' : ld_wf l st -> grows st st' -> st_wf st' -> ld_wf l st'.
Proof.
  intros [_ Hd] [Hg _] Hw. split; [done|]. intros i Hi. destruct (Hd _ Hi) as [c Hc]. destruct (Hg _ _ Hc) as (c' & Hc' & _). by exists c'.
Qed.

Lemma new_config_ok c st : st_wf st -> (forall m, Custom c = Some m -> is_Some (st_maps st !! m)) ->
  st_wf (new_config c st).1 /\ grows st (new_config c st).1 /\ st_configs (new_config c st).1 !! (new_config c st).2 = Some c.
Proof.
  intros [Hw] Hc. split_and!; cbn.
  - split; cbn. intros i d m [Hi | [-> ->]]%lookup_snoc_inv Hm; [exact (Hw _ _ _ Hi Hm)|exact (Hc _ Hm)].
  - split; cbn; [|done]. intros i d Hi. exists d. split; [|done]. by apply lookup_app_l_Some.
  - by rewrite list_lookup_middle.
Qed.

Lemma new_map_ok m st : st_wf st ->
  st_wf (new_map m st).1 /\ grows st (new_map m st).1 /\ st_maps (new_map m st).1 !! (new_map m st).2 = Some m.
Proof.
  intros [Hw]. assert (Hk : forall k, is_Some (st_maps st !! k) -> is_Some ((st_maps st ++ [m]) !! k)).
  { intros k [x Hx]. exists x. by apply lookup_app_l_Some. }
  split_and!; cbn.
  - split; cbn. intros i d k Hi Hm. apply Hk. exact (Hw _ _ _ Hi Hm).
  - split; cbn; [|done]. intros i d Hi. by exists d.
  - by rewrite list_lookup_middle.
Qed.

Lemma set_map_ok mp m st : st_wf st -> st_wf (set_map mp m st) /\ grows st (set_map mp m st).
Proof.
  intros [Hw]. assert (Hk : forall k, is_Some (st_maps st !! k) -> is_Some (<[mp := m]> (st_maps st) !! k)).
  { intros k H%lookup_lt_is_Some. apply lookup_lt_is_Some. by rewrite length_insert. }
  split; split; cbn; [|by eauto|done]. intros i d k Hi Hm. apply Hk. exact (Hw _ _ _ Hi Hm).
Qed.

Lemma set_config_ok i c c' st : st_wf st -> st_configs st !! i = Some c -> Custom c' = Custom c ->
  st_wf (set_config i c' st) /\ grows st (set_config i c' st).
Proof.
  intros [Hw] Hi Hc. split; split; cbn; [| |done].
  - intros j d m [(-> & <- & _) | (_ & Hj)]%list_lookup_insert_Some Hm; [rewrite Hc in Hm|]; eapply Hw; eassumption.
  - intros j d Hj. destruct (decide (j = i)) as [-> | ].
    + exists c'. rewrite list_lookup_insert_eq; [exact (lookup_lt_Some _ _ _ Hi)|]. split; [done|congruence].
    + exists d. by rewrite list_lookup_insert_ne; [congruence|].
Qed.

Lemma alloc_ok u st : st_wf st -> st_wf (alloc u st).1 /\ grows st (alloc u st).1 /\
  exists c, st_configs (alloc u st).1 !! (alloc u st).2 = Some c.
Proof.
  intros Hw. unfold alloc. destruct (Custom u) as [m|].
  - destruct (new_map_ok m st Hw) as (Hw1 & Hg1 & Hm). destruct (new_map m st) as [st1 mp]. cbn in *.
    destruct (new_config_ok (with_custom (Some mp) u) st1 Hw1) as (Hw2 & Hg2 & Hc); [by intros ? [= <-]|].
    split_and!; [done|exact (grows_trans _ _ _ Hg1 Hg2)|eexists; exact Hc].
  - destruct (new_config_ok (with_custom None u) st Hw) as (Hw2 & Hg2 & Hc); [done|]. split_and!; [done|done|eexists; exact Hc].
Qed.

Lemma default_of_ok l st : ld_wf l st -> st_wf (default_of l st).1 /\ grows st (default_of l st).1 /\
  exists c, st_configs (default_of l st).1 !! (default_of l st).2 = Some c.
Proof.
  intros [Hw Hd]. unfold default_of. destruct (ld_defaultConfig l) as [i|]; [|by apply alloc_ok].
  split_and!; [done|apply grows_refl|]. exact (Hd i eq_refl).
Qed.

Lemma mergeConfig_ok dflt d u st : st_wf st -> st_configs st !! dflt = Some d ->
  exists st' i c, mergeConfig dflt u st = Ret (st', i) /\ st_wf st' /\ grows st st' /\ st_configs st' !! i = Some c /\
    with_custom (Custom d) c = merge_fields d u.
Proof.
  intros Hw Hd. unfold mergeConfig. rewrite Hd. destruct (Custom u) as [um|].
  - cbn [Custom merge_fields]. destruct (Custom d) as [mp|] eqn:Hcd.
    + destruct (sw_maps _ Hw _ _ _ Hd Hcd) as [m Hm]. rewrite Hm. destruct (set_map_ok mp (um ∪ m) st Hw) as [Hw1 Hg1].
      destruct (new_config_ok (merge_fields d u) (set_map mp (um ∪ m) st) Hw1) as (Hw2 & Hg2 & Hc).
      { cbn. intros k Hk. exact (gr_maps _ _ Hg1 _ (sw_maps _ Hw _ _ _ Hd Hk)). }
      do 3 eexists. split; [done|]. split_and!; [done|exact (grows_trans _ _ _ Hg1 Hg2)|exact Hc|]. cbn. by rewrite -Hcd.
    + destruct (new_map_ok um st Hw) as (Hw1 & Hg1 & Hm). destruct (new_map um st) as [st1 mp]. cbn in Hw1, Hg1, Hm.
      destruct (new_config_ok (with_custom (Some mp) (merge_fields d u)) st1 Hw1) as (Hw2 & Hg2 & Hc); [by intros ? [= <-]|].
      do 3 eexists. split; [done|]. split_and!; [done|exact (grows_trans _ _ _ Hg1 Hg2)|exact Hc|]. cbn. by rewrite -Hcd.
  - destruct (new_config_ok (merge_fields d u) st Hw) as (Hw2 & Hg2 & Hc).
    { cbn. intros k Hk. exact (sw_maps _ Hw _ _ _ Hd Hk). }
    do 3 eexists. split; [done|]. split_and!; [exact Hw2|exact Hg2|exact Hc|done].
Qed.

Lemma finish_ok l i c st : st_wf st -> st_configs st !! i = Some c ->
  exists st', finish l i st = Ret (st', match Validate (env_override l c) with
                                        | Some e => Err ("configuration validation failed: " +:+ e)
                                        | None => Ok i
                                        end) /\
    st_wf st' /\ grows st st' /\ st_configs st' !! i = Some (env_override l c) /\ st_maps st' = st_maps st.
Proof.
  intros Hw Hi. unfold finish, loadFromEnv. rewrite Hi. cbn [mbind go_bind].
  destruct (set_config_ok i c (env_override l c) st Hw Hi) as [Hw1 Hg1]; [done|].
  assert (Hc : st_configs (set_config i (env_override l c) st) !! i = Some (env_override l c)).
  { cbn. rewrite list_lookup_insert_eq; [exact (lookup_lt_Some _ _ _ Hi)|done]. }
  eexists. split; [rewrite /= /validate_at Hc; by destruct (Validate _)|]. done.
Qed.

(** What a load leaves behind, and what it returned. *)
Definition load_ok (l : Loader) (st : store) (r : go (store * res nat)) : Prop :=
  exists st' a, r = Ret (st', a) /\ ld_wf l st' /\ grows st st' /\
    match a with
    | Ok i => exists c, st_configs st' !! i = Some c /\ valid c /\ env_override l c = c
    | Err _ => True
    end.

Lemma finish_load_ok l st0 i st : ld_wf l st0 -> grows st0 st -> st_wf st -> is_Some (st_configs st !! i) -> load_ok l st0 (finish l i st).
Proof.
  intros Hl Hg Hw [c Hi]. destruct (finish_ok l i c st Hw Hi) as (st' & -> & Hw' & Hg' & Hc & _).
  assert (grows st0 st') by exact (grows_trans _ _ _ Hg Hg'). do 2 eexists. split; [done|].
  split_and!; [by apply (ld_wf_grows _ st0)|done|]. destruct (Validate (env_override l c)) eqn:Hv; [done|].
  exists (env_override l c). split_and!; [done|by apply Validate_valid|apply env_override_idem].
Qed.

Lemma load_parsed_ok l u st : ld_wf l st -> load_ok l st (load_parsed l u st).
Proof.
  intros Hl. unfold load_parsed. destruct (default_of_ok l st Hl) as (Hw & Hg & d & Hd). destruct (default_of l st) as [st1 dflt].
  cbn [fst snd] in *. destruct (mergeConfig_ok dflt d u st1 Hw Hd) as (st2 & i & c & -> & Hw2 & Hg2 & Hc & _).
  cbn [mbind go_bind]. apply finish_load_ok; [done|exact (grows_trans _ _ _ Hg Hg2)|done|by exists c].
Qed.

Lemma load_err_ok l st e : ld_wf l st -> load_ok l st (Ret (st, Err e)).
Proof. intros Hl. do 2 eexists. split; [done|]. split_and!; [done|apply grows_refl|done]. Qed.

Lemma loadFromFile_ok l f st : ld_wf l st -> load_ok l st (loadFromFile l f st).
Proof.
  intros Hl. unfold loadFromFile. destruct (format_of_ext _); [|by apply load_err_ok].
  destruct (ReadFile f); [|by apply load_err_ok]. destruct (parseConfig _ _); [by apply load_parsed_ok|by apply load_err_ok].
Qed.

(** ** A load from a file writes only into what it made *)

Lemma alloc_prefix u st : st_configs st `prefix_of` st_configs (alloc u st).1.
Proof. unfold alloc. destruct (Custom u); by eexists. Qed.

Lemma default_of_prefix l st : st_configs st `prefix_of` st_configs (default_of l st).1.
Proof. unfold default_of. destruct (ld_defaultConfig l); [done|apply alloc_prefix]. Qed.

Lemma mergeConfig_fresh dflt u st st' i : mergeConfig dflt u st = Ret (st', i) ->
  i = length (st_configs st) /\ exists c, st_configs st' = st_configs st ++ [c].
Proof.
  unfold mergeConfig, new_map, new_config. destruct (st_configs st !! dflt) as [d|]; [|done]. cbn [Custom merge_fields].
  destruct (Custom u); [destruct (Custom d) as [mp|]; [destruct (st_maps st !! mp); [|done]|]|];
    intros [= <- <-]; (split; [done|]; eexists; reflexivity).
Qed.

Lemma finish_last l cs c ms :
  exists c' a, finish l (length cs) (mkStore (cs ++ [c]) ms) = Ret (mkStore (cs ++ [c']) ms, a).
Proof.
  unfold finish, loadFromEnv. cbn [st_configs]. rewrite list_lookup_middle //. cbn [mbind go_bind].
  exists (env_override l c). eexists. unfold set_config. cbn [st_configs st_maps].
  by rewrite (insert_app_r_alt cs [c] (length cs)) // Nat.sub_diag.
Qed.

Lemma load_parsed_prefix l u st st' a : load_parsed l u st = Ret (st', a) -> st_configs st `prefix_of` st_configs st'.
Proof.
  unfold load_parsed. pose proof (default_of_prefix l st) as Hd. destruct (default_of l st) as [st1 dflt]. cbn in Hd.
  destruct (mergeConfig dflt u st1) as [[[cs2 ms2] i]| |] eqn:Hm; cbn [mbind go_bind]; [|done|done].
  apply mergeConfig_fresh in Hm as [-> (c & Hc)]. cbn in Hc. subst cs2.
  destruct (finish_last l (st_configs st1) c ms2) as (c' & a' & ->). intros [= <- <-]. cbn. by apply prefix_app_r.
Qed.

Lemma loadFromFile_prefix l f st st' a : loadFromFile l f st = Ret (st', a) -> st_configs st `prefix_of` st_configs st'.
Proof.
  unfold loadFromFile. destruct (format_of_ext _); [|by intros [= <- _]]. destruct (ReadFile f); [|by intros [= <- _]].
  destruct (parseConfig _ _); [apply load_parsed_prefix|by intros [= <- _]].
Qed.

Lemma AutoLoad_ok l st : ld_wf l st -> load_ok l st (AutoLoad l st).
Proof.
  intros Hl. unfold AutoLoad. destruct (findConfigFile l) as [[file fmt]|e].
  - destruct (ReadFile file); [|by apply load_err_ok]. destruct (parseConfig _ _); [by apply load_parsed_ok|by apply load_err_ok].
  - destruct (default_of_ok l st Hl) as (Hw & Hg & d & Hd). destruct (default_of l st) as [st1 dflt]. apply finish_load_ok; by eauto.
Qed.


(** Loading again what a load returned changes nothing. *)
Lemma finish_again l i c st : st_configs st !! i = Some c -> valid c -> env_override l c = c -> finish l i st = Ret (st, Ok i).
Proof.
  intros Hi Hv He. unfold finish, loadFromEnv. rewrite Hi He. cbn [mbind go_bind].
  assert (Hs : set_config i c st = st) by (unfold set_config; rewrite (list_insert_id _ _ _ Hi); by destruct st).
  rewrite Hs /validate_at Hi. by rewrite (proj2 (Validate_valid c) Hv).
Qed.

(** [Load] of a file is [LoadFromFile]: the second pass over the environment
    and the second validation change nothing, and only the error text differs. *)
Theorem load_is_load_from_file l f st d :
  ld_wf l st -> ld_defaultConfig l = Some d -> f <> "" ->
  exists st' a, LoadFromFile l f st = Ret (st', a) /\
    Load l f st = Ret (st', match a with
                            | Ok i => Ok i
                            | Err e => Err ("failed to load config from file " +:+ f +:+ ": " +:+ e)
                            end).
Proof.
  intros Hl Hd Hf. destruct (loadFromFile_ok l f st Hl) as (st' & a & Heq & Hl' & _ & Ha). exists st', a. split; [exact Heq|].
  unfold Load, default_of. rewrite Hd Heq. apply nonempty_true in Hf. rewrite Hf. cbn [mbind go_bind].
  destruct a as [i|e]; [|done]. destruct Ha as (c & Hc & Hv & He). by rewrite (finish_again _ _ c).
Qed.

(** ** Precedence *)

Inductive sfield := SName | SVersion | SEnvironment | SDescription | SLevel | SFormat | SOutput | SAddress | SType | SService.
Inductive ifield := IPort | IMaxConnections | IMaxActors | IMailbox | IMonitorPort.
Inductive bfield := BDebug | BColor | BDiscovery | BMonitor.

Definition sget {M} (x : sfield) (c : Config V M) : string :=
  match x with
  | SName => app_Name (App c) | SVersion => app_Version (App c) | SEnvironment => app_Environment (App c)
  | SDescription => app_Description (App c) | SLevel => log_Level (Log c) | SFormat => log_Format (Log c)
  | SOutput => log_Output (Log c) | SAddress => tcp_Address (net_TCP (Network c)) | SType => dc_Type (Discovery c)
  | SService => reg_Name (dc_Registration (Discovery c))
  end.
Definition iget {M} (x : ifield) (c : Config V M) : Z :=
  match x with
  | IPort => tcp_Port (net_TCP (Network c)) | IMaxConnections => lim_MaxConnections (net_Limits (Network c))
  | IMaxActors => act_MaxActors (ActorC c) | IMailbox => act_DefaultMailboxSize (ActorC c)
  | IMonitorPort => http_Port (mon_HTTP (Monitor c))
  end.
Definition bget {M} (x : bfield) (c : Config V M) : bool :=
  match x with
  | BDebug => app_Debug (App c) | BColor => log_Color (Log c) | BDiscovery => dc_Enabled (Discovery c)
  | BMonitor => mon_Enabled (Monitor c)
  end.

(** The variable of a field, if it has one, and whether a file can set it. *)
Definition svar (x : sfield) : option string :=
  match x with
  | SName => Some "_APP_NAME" | SVersion => Some "_APP_VERSION" | SEnvironment => Some "_APP_ENVIRONMENT"
  | SDescription => None | SLevel => Some "_LOG_LEVEL" | SFormat => Some "_LOG_FORMAT" | SOutput => Some "_LOG_OUTPUT"
  | SAddress => Some "_NETWORK_TCP_ADDRESS" | SType => Some "_DISCOVERY_TYPE" | SService => Some "_SERVICE_NAME"
  end.
Definition sfile (x : sfield) : bool := match x with SType => false | _ => true end.
Definition ivar (x : ifield) : option string :=
  match x with IPort => Some "_NETWORK_TCP_PORT" | IMonitorPort => Some "_MONITOR_PORT" | _ => None end.
Definition ifile (x : ifield) : bool := match x with IMonitorPort => false | _ => true end.
Definition bvar (x : bfield) : option string :=
  match x with
  | BDebug => Some "_APP_DEBUG" | BColor => None | BDiscovery => Some "_DISCOVERY_ENABLED" | BMonitor => Some "_MONITOR_ENABLED"
  end.
Definition bfile (x : bfield) : bool := match x with BDebug | BColor => true | _ => false end.

(** The layers of a field: its variable, what the file says, the default. *)
Definition layered {A} (env : option A) (file : option A) (dflt : A) : A :=
  match env, file with Some a, _ => a | None, Some a => a | None, None => dflt end.

Definition getvar (l : Loader) (name : option string) : option string :=
  name ← name; let val := Getenv (ld_envPrefix l +:+ name) in if nonempty val then Some val else None.
Definition said_s (may : bool) (s : string) : option string := if may && nonempty s then Some s else None.
Definition said_i (may : bool) (z : Z) : option Z := if may && negb (z =? 0) then Some z else None.

(** What no file and no variable can set. *)
Definition fixed {M} (c : Config V M) :=
  (log_Rotation (Log c), tcp_KeepAlive (net_TCP (Network c)), tcp_KeepAliveInterval (net_TCP (Network c)),
   tcp_BufferSize (net_TCP (Network c)), net_UDP (Network c), lim_MaxConnectionsPerIP (net_Limits (Network c)),
   lim_RateLimit (net_Limits (Network c)), net_Timeouts (Network c), act_Timeouts (ActorC c), act_Routing (ActorC c),
   (reg_Version (dc_Registration (Discovery c)), reg_Tags (dc_Registration (Discovery c)),
    reg_Metadata (dc_Registration (Discovery c)), reg_TTL (dc_Registration (Discovery c))),
   dc_HealthCheck (Discovery c), dc_LoadBalancing (Discovery c), mon_MetricsInterval (Monitor c),
   (http_Enabled (mon_HTTP (Monitor c)), http_Address (mon_HTTP (Monitor c)), http_MetricsPath (mon_HTTP (Monitor c)),
    http_HealthPath (mon_HTTP (Monitor c))), mon_Profiling (Monitor c)).

Lemma with_custom_fields {M N} (m : option N) (c : Config V M) :
  (forall x, sget x (with_custom m c) = sget x c) /\ (forall x, iget x (with_custom m c) = iget x c) /\
  (forall x, bget x (with_custom m c) = bget x c) /\ fixed (with_custom m c) = fixed c.
Proof. split_and!; try intros []; done. Qed.

Lemma env_merge_layers {M N} l (d : Config V M) (u : Config V N) :
  let c := env_override l (merge_fields d u) in
  (forall x, sget x c = layered (getvar l (svar x)) (said_s (sfile x) (sget x u)) (sget x d)) /\
  (forall x, iget x c = layered (getvar l (ivar x) ≫= parsePort) (said_i (ifile x) (iget x u)) (iget x d)) /\
  (forall x, bget x c = layered ((fun v => eqs (ToLower v) "true") <$> getvar l (bvar x))
                          (if bfile x then Some (bget x u) else None) (bget x d)) /\
  fixed c = fixed d.
Proof.
  cbn zeta. split_and!; [| | |done].
  - intros []; cbn; rewrite /env_string /pick_string /said_s /=; repeat (destruct (nonempty _); cbn); done.
  - intros []; cbn; rewrite /env_port /pick_int /said_i /=;
      repeat (destruct (nonempty _); cbn); repeat (destruct (parsePort _); cbn); repeat (destruct (_ =? 0); cbn); done.
  - intros []; cbn; rewrite /env_bool /=; repeat (destruct (nonempty _); cbn); done.
Qed.


(** ** The shared custom map *)

(** One load after another through the same loader. *)
Fixpoint load_all (l : Loader) (us : list user_config) (st : store) : go (store * list (res nat)) :=
  match us with
  | [] => Ret (st, [])
  | u :: us' => '(st1, a) ← load_parsed l u st; '(st2, r) ← load_all l us' st1; Ret (st2, a :: r)
  end.

(** What the files loaded so far have put into the map [m]; later files win. *)
Definition piled_up (m : custom_map) (us : list user_config) : custom_map :=
  fold_left (fun m u => default ∅ (Custom u) ∪ m) us m.

Definition shares (mp : nat) (st : store) (a : res nat) : Prop :=
  match a with Ok i => exists c, st_configs st !! i = Some c /\ Custom c = Some mp | Err _ => True end.

Lemma shares_grows mp st st' a : grows st st' -> shares mp st a -> shares mp st' a.
Proof.
  intros Hg. destruct a as [i|]; [|done]. intros (c & Hc & Hm). destruct (gr_configs _ _ Hg _ _ Hc) as (c' & Hc' & E).
  exists c'. split; [done|congruence].
Qed.

Lemma mergeConfig_custom di d u mp m st :
  st_configs st !! di = Some d -> Custom d = Some mp -> st_maps st !! mp = Some m ->
  exists st' i, mergeConfig di u st = Ret (st', i) /\ st_maps st' !! mp = Some (default ∅ (Custom u) ∪ m) /\
    st_configs st' !! i = Some (merge_fields d u).
Proof.
  intros Hd Hcd Hm. unfold mergeConfig. rewrite Hd. cbn [Custom merge_fields]. rewrite Hcd.
  destruct (Custom u) as [um|]; [rewrite Hm|]; do 2 eexists; (split; [done|]); cbn; rewrite list_lookup_middle //.
  - rewrite list_lookup_insert_eq; [exact (lookup_lt_Some _ _ _ Hm)|done].
  - by rewrite map_empty_union.
Qed.

Lemma load_parsed_custom l u di mp m st :
  ld_wf l st -> ld_defaultConfig l = Some di -> shares mp st (Ok di) -> st_maps st !! mp = Some m ->
  exists st' a, load_parsed l u st = Ret (st', a) /\ ld_wf l st' /\ grows st st' /\
    st_maps st' !! mp = Some (default ∅ (Custom u) ∪ m) /\ shares mp st' a.
Proof.
  intros Hl Hdi (d & Hd & Hcd) Hm. destruct (load_parsed_ok l u st Hl) as (st' & a & Heq & Hl' & Hg & Ha).
  exists st', a. split_and!; [done|done|done| |]; revert Heq; unfold load_parsed, default_of; rewrite Hdi;
    destruct (mergeConfig_ok di d u st (lw_store _ _ Hl) Hd) as (st2' & i' & c & Hmerge' & Hw2 & _);
    destruct (mergeConfig_custom di d u mp m st Hd Hcd Hm) as (st2 & i & Hmerge & Hm2 & Hi); rewrite Hmerge in Hmerge' |- *;
    injection Hmerge' as <- <-; cbn [mbind go_bind];
    destruct (finish_ok l i _ st2 Hw2 Hi) as (st3 & -> & _ & _ & Hi3 & Hm3); intros [= <- <-].
  - by rewrite Hm3.
  - destruct (Validate _); [done|]. eexists. split; [exact Hi3|exact Hcd].
Qed.

Lemma load_all_grows l us : forall st st' r, ld_wf l st -> load_all l us st = Ret (st', r) -> grows st st'.
Proof.
  induction us as [|v us IH]; intros st st' r Hl; cbn.
  - intros [= <- _]. apply grows_refl.
  - destruct (load_parsed_ok l v st Hl) as (st1 & b & -> & Hl' & Hg & _). cbn [mbind go_bind].
    destruct (load_all l us st1) as [[st2 r']| |] eqn:E; cbn; [|done|done]. intros [= <- _].
    exact (grows_trans _ _ _ Hg (IH _ _ _ Hl' E)).
Qed.

(** All configurations a loader has returned share one custom map with its
    default: it holds the custom fields of every file loaded so far, the refused
    ones included. A field that the next version of a file no longer has stays, and
    a configuration handed out before changes with the next load. *)
Theorem custom_fields_pile_up l us di mp m st :
  ld_wf l st -> ld_defaultConfig l = Some di -> shares mp st (Ok di) -> st_maps st !! mp = Some m ->
  exists st' r, load_all l us st = Ret (st', r) /\ length r = length us /\
    st_maps st' !! mp = Some (piled_up m us) /\ Forall (shares mp st') r.
Proof.
  intros Hl Hdi. revert m st Hl. induction us as [|u us IH]; intros m st Hl Hsh Hm.
  { exists st, []. split_and!; try done; constructor. }
  destruct (load_parsed_custom l u di mp m st Hl Hdi Hsh Hm) as (st1 & a & Heq & Hl1 & Hg1 & Hm1 & Ha).
  destruct (IH _ st1 Hl1 (shares_grows _ _ _ _ Hg1 Hsh) Hm1) as (st2 & r & Heq2 & Hlen & Hm2 & Hr).
  pose proof (load_all_grows l us st1 st2 r Hl1 Heq2) as Hg2.
  exists st2, (a :: r). cbn. rewrite Heq. cbn. rewrite Heq2. cbn. split_and!; [done|by rewrite Hlen|done|].
  constructor; [exact (shares_grows _ _ _ _ Hg2 Ha)|done].
Qed.

(** ** Ports *)

Lemma parsePort_range val p : parsePort val = Some p -> 0 < p <= 65535.
Proof. unfold parsePort. destruct (Sscanf_d val); [|done]. destruct (_ || _) eqn:E; [done|]. intros [= <-]. apply orb_false_iff in E. lia. Qed.

(** A printed port is read back, and so is one with anything but a digit after it. *)
Lemma parsePort_pretty p t :
  0 < p <= 65535 -> (forall c t', t = String c t' -> digit_value c = None) -> parsePort (pretty p +:+ t) = Some p.
Proof.
  intros Hp Ht. unfold parsePort. rewrite Sscanf_d_pretty; [lia|done|]. destruct (_ || _) eqn:E; [|done].
  apply orb_true_iff in E as [?%Z.leb_le | ?%Z.ltb_lt]; lia.
Qed.

(** ** Finding the file *)

(** All names in all paths, in the order in which they are tried. *)
Definition candidates (paths : list string) : list (string * ConfigFormat) :=
  p ← paths; (fun n => (Join p n.1, n.2)) <$>
    [("sngo.yaml", FormatYAML); ("sngo.yml", FormatYAML); ("config.yaml", FormatYAML); ("config.yml", FormatYAML);
     ("sngo.json", FormatJSON); ("config.json", FormatJSON)].

(** [findConfigFile] returns the first candidate that exists. *)
Lemma findConfigFile_first l :
  findConfigFile l = match List.find (fun c => Stat c.1) (candidates (ld_searchPaths l)) with
                     | Some c => Ok c
                     | None => Err ErrConfigFileNotFound
                     end.
Proof.
  unfold findConfigFile. induction (ld_searchPaths l) as [|p ps IH]; [done|].
  cbn [find_path candidates mbind list_bind]. unfold config_names. cbn [find_name fmap list_fmap app List.find fst snd].
  repeat match goal with |- context [Stat ?x] => destruct (Stat x); [done|] end. exact IH.
Qed.

End Loader.

(** A variable that is not set changes nothing. *)
Lemma env_override_unset {V M} (env : string -> string) l (c : Config V M) : (forall n, env n = "") -> env_override env l c = c.
Proof.
  intros He. destruct c as [[] [] [[] [] [] []] [] [? ? [] [] []] [? ? [] []] ?].
  unfold env_override, env_string, env_bool, env_port. cbn. by rewrite !He.
Qed.

(** [Load] without a file name returns the default configuration of the loader
    itself, with the environment written into it: a later load in an environment
    with no variable set returns the same object, with the old values. *)
Theorem default_keeps_environment {V} (env1 env2 : string -> string) read yaml json l st d c st1 i :
  @ld_wf V l st -> ld_defaultConfig l = Some d -> st_configs st !! d = Some c -> (forall n, env2 n = "") ->
  Load env1 read yaml json l "" st = Ret (st1, Ok i) ->
  i = d /\ st_configs st1 !! d = Some (env_override env1 l c) /\
  Load env2 read yaml json l "" st1 = Ret (st1, Ok d).
Proof.
  intros [Hw _] Hd Hc He. unfold Load, default_of. rewrite Hd. change (nonempty "") with false. cbn iota.
  destruct (finish_ok env1 l d c st Hw Hc) as (st' & -> & _ & _ & Hc' & _).
  destruct (Validate (env_override env1 l c)) eqn:Hv; [done|]. intros [= <- <-]. split_and!; [done|done|].
  apply (finish_again _ _ _ _ _ Hc'); [by apply Validate_valid|by apply env_override_unset].
Qed.

(** ** Witnesses

    Files whose text is the name of the application and the one custom field. *)

Definition zero_config (name : string) (custom : option (gmap string string)) : Config string (gmap string string) :=
  mkConfig (mkAppConfig name "" "" false "" None) (mkLogConfig "" "" "" false (mkLogRotationConfig false 0 0 0 false) None)
    (mkNetworkConfig (mkTCPConfig "" 0 false 0 0) (mkUDPConfig "" 0 0) (mkConnectionLimits 0 0 0) (mkTimeoutConfig 0 0 0 0))
    (mkActorConfig 0 0 (mkActorTimeoutConfig 0 0 0 0) (mkRoutingConfig "" false 0))
    (mkDiscoveryConfig false "" (mkServiceRegistrationConfig "" "" [] None 0) (mkHealthCheckConfig false 0 0 "")
       (mkLoadBalancingConfig "" false (mkCircuitBreakerConfig false 0 0 0)))
    (mkMonitorConfig false 0 (mkHTTPMonitorConfig false "" 0 "" "") (mkProfilingConfig false false false false false))
    custom.
Definition demo_decode (b : bytes) : res (Config string (gmap string string)) :=
  Ok (zero_config (string_of_bytes b) (Some {[ string_of_bytes b := "on" ]})).
Definition demo_read (f : string) : res bytes := if eqs f "a.yaml" then Ok (bytes_of_string "game") else Err "no such file".
Definition demo_env (n : string) : string := if eqs n "SNGO_NETWORK_TCP_PORT" then "7000x" else "".
Definition no_env (n : string) : string := "".
Definition demo_store : @store string := (NewLoader "/root" empty_store).1.
Definition demo_loader : Loader := (@NewLoader string "/root" empty_store).2.

Lemma demo_wf : ld_wf demo_loader demo_store.
Proof.
  split; [split|].
  - intros i c m Hi. destruct i; [|done]. vm_compute in Hi. injection Hi as <-. intros [= <-]. by eexists.
  - intros i [= <-]. by eexists.
Qed.


Lemma load_is_load_from_file_witness :
  exists st' a, LoadFromFile demo_env demo_read demo_decode demo_decode demo_loader "a.yaml" demo_store = Ret (st', a) /\
    Load demo_env demo_read demo_decode demo_decode demo_loader "a.yaml" demo_store =
      Ret (st', match a with Ok i => Ok i | Err e => Err ("failed to load config from file " +:+ "a.yaml" +:+ ": " +:+ e) end).
Proof.
  apply (load_is_load_from_file demo_env demo_read demo_decode demo_decode demo_loader "a.yaml" demo_store 0 demo_wf);
    [reflexivity|discriminate].
Defined.


(** A key of the first file is still there after the second file was loaded. *)
Lemma custom_fields_pile_up_witness :
  exists st' r m, load_all no_env demo_loader [zero_config "a" (Some {[ "k" := "1" ]}); zero_config "b" None] demo_store = Ret (st', r) /\
    st_maps st' !! 0%nat = Some m /\ m !! "k" = Some "1" /\ Forall (shares 0 st') r.
Proof.
  destruct (custom_fields_pile_up no_env demo_loader [zero_config "a" (Some {[ "k" := "1" ]}); zero_config "b" None] 0 0 ∅ demo_store
    demo_wf eq_refl) as (st' & r & H & _ & Hm & Hr); [by eexists|reflexivity|].
  exists st', r, (piled_up ∅ [zero_config "a" (Some {[ "k" := "1" ]}); zero_config "b" None]). split_and!; [exact H|exact Hm|reflexivity|exact Hr].
Defined.

Lemma default_keeps_environment_witness :
  exists st1, Load demo_env demo_read demo_decode demo_decode demo_loader "" demo_store = Ret (st1, Ok 0%nat) /\
    Load no_env demo_read demo_decode demo_decode demo_loader "" st1 = Ret (st1, Ok 0%nat).
Proof.
  eexists. split; [vm_compute; reflexivity|].
  eapply (default_keeps_environment demo_env no_env demo_read demo_decode demo_decode demo_loader demo_store 0 (DefaultConfig 0%nat) _ 0);
    [exact demo_wf|reflexivity|reflexivity|reflexivity|vm_compute; reflexivity].
Defined.
