(* ===== verification/ConfigWatcher.v ===== *)
(** src/config/watcher.go: hot reload of a configuration file, and the provider on
    top of it.

    The watch loop, the debounce timers and the reloads they start are separate
    goroutines, and a reload reads and writes the current configuration in two
    critical sections; so the operations are the steps between them. What the file
    system says at each moment (the file, the environment, what adding a watch
    answers) is an argument of the step. *)

From S2P Require Import Prelude CoreTypes NetMessage GoText GoPath Config ConfigLoader.

(** What an event of the file system says happened. *)
Record fsop := mkFsop { op_Create : bool; op_Write : bool; op_Remove : bool; op_Rename : bool }.
Record fsevent := mkFsevent { ev_Name : string; ev_Op : fsop }.

(** A timer of [time.AfterFunc]: what it does when it is due. *)
Inductive action := AReload | AAdd.
Inductive tstate := TPending | TStopped | TFired.
#[export] Instance tstate_eq_dec : EqDecision tstate.
Proof. solve_decision. Defined.
Record timer := mkTimer { tm_due : time; tm_action : action; tm_state : tstate }.

(** A run of [watchLoop] with its debounce timer. *)
Record wloop := mkWloop { lp_running : bool; lp_timer : option nat }.

(** A run of [reloadConfig]: the new configuration is loaded; the old one is read
    too; the new one is in place and the callbacks were started; or the load failed. *)
Inductive reload := RLoaded (new : nat) | RRead (old new : nat) | RDone (old new : nat) | RFailed (e : error).

Definition debounceDuration : duration := 500 * Millisecond.

Section Watcher.
Context {V : Type}.

Notation store := (@store V).

(** The outside at one moment. *)
Record outside := mkOutside {
  o_Getenv : string -> string;
  o_ReadFile : string -> res bytes;
  o_yaml : bytes -> res (Config V (gmap string V));
  o_json : bytes -> res (Config V (gmap string V));
}.
Definition load_now (o : outside) : Loader -> string -> store -> go (store * res nat) :=
  LoadFromFile (o_Getenv o) (o_ReadFile o) (o_yaml o) (o_json o).

Record Watcher := mkWatcher {
  wt_configFile : string;
  wt_format : ConfigFormat;
  wt_loader : Loader;
  wt_config : nat;
  wt_callbacks : nat;                   (** how many *)
  wt_ctx : bool;                        (** not cancelled *)
  wt_fs : bool;                         (** the file system watcher is open *)
  wt_store : store;
  wt_loops : list wloop;
  wt_timers : list timer;
  wt_reloads : list reload;
  wt_calls : list (nat * nat);          (** the old and the new configuration the callbacks were given *)
}.

Definition wt_set_config (i : nat) (w : Watcher) : Watcher :=
  mkWatcher (wt_configFile w) (wt_format w) (wt_loader w) i (wt_callbacks w) (wt_ctx w) (wt_fs w) (wt_store w) (wt_loops w)
    (wt_timers w) (wt_reloads w) (wt_calls w).
Definition wt_set_store (st : store) (w : Watcher) : Watcher :=
  mkWatcher (wt_configFile w) (wt_format w) (wt_loader w) (wt_config w) (wt_callbacks w) (wt_ctx w) (wt_fs w) st (wt_loops w)
    (wt_timers w) (wt_reloads w) (wt_calls w).
Definition wt_set_flags (ctx fs : bool) (w : Watcher) : Watcher :=
  mkWatcher (wt_configFile w) (wt_format w) (wt_loader w) (wt_config w) (wt_callbacks w) ctx fs (wt_store w) (wt_loops w)
    (wt_timers w) (wt_reloads w) (wt_calls w).
Definition wt_set_loops (ls : list wloop) (ts : list timer) (w : Watcher) : Watcher :=
  mkWatcher (wt_configFile w) (wt_format w) (wt_loader w) (wt_config w) (wt_callbacks w) (wt_ctx w) (wt_fs w) (wt_store w) ls ts
    (wt_reloads w) (wt_calls w).
Definition wt_set_reloads (rs : list reload) (calls : list (nat * nat)) (w : Watcher) : Watcher :=
  mkWatcher (wt_configFile w) (wt_format w) (wt_loader w) (wt_config w) (wt_callbacks w) (wt_ctx w) (wt_fs w) (wt_store w)
    (wt_loops w) (wt_timers w) rs calls.

(** [created]: what making the file system watcher answers. The extension is
    taken as it is written. *)
Definition NewWatcher (configFile : string) (loader : Loader) (created : option error) (o : outside) (st : store)
    : go (store * res Watcher) :=
  match format_of_ext (Ext configFile) with
  | None => Ret (st, Err ("unsupported config file format: " +:+ Ext configFile))
  | Some format =>
      match created with
      | Some e => Ret (st, Err ("failed to create file system watcher: " +:+ e))
      | None =>
          '(st1, r) ← load_now o loader configFile st;
          Ret (st1, match r with
                    | Err e => Err ("failed to load initial config: " +:+ e)
                    | Ok i => Ok (mkWatcher configFile format loader i 0 true true st1 [] [] [] [])
                    end)
      end
  end.

(** [added]: what adding the file to the watcher answers. *)
Definition wt_Start (added : option error) (w : Watcher) : Watcher * option error :=
  match added with
  | Some e => (w, Some ("failed to watch config file: " +:+ e))
  | None => (wt_set_loops (wt_loops w ++ [mkWloop true None]) (wt_timers w) w, None)
  end.

(** [Stop] up to its wait for the loops, and when it can return. *)
Definition wt_Stop (w : Watcher) : Watcher := wt_set_flags false false w.
Definition wt_stopped (w : Watcher) : bool := forallb (fun lp => negb (lp_running lp)) (wt_loops w).

Definition wt_GetConfig (w : Watcher) : nat := wt_config w.
Definition OnConfigChange (w : Watcher) : Watcher :=
  mkWatcher (wt_configFile w) (wt_format w) (wt_loader w) (wt_config w) (S (wt_callbacks w)) (wt_ctx w) (wt_fs w) (wt_store w)
    (wt_loops w) (wt_timers w) (wt_reloads w) (wt_calls w).

(** ** The watch loop *)

Definition stop_timer (t : option nat) (ts : list timer) : list timer :=
  match t with
  | None => ts
  | Some i => match ts !! i with
              | Some tm => if decide (tm_state tm = TPending) then <[i := mkTimer (tm_due tm) (tm_action tm) TStopped]> ts else ts
              | None => ts
              end
  end.

(** Loop [k] receives an event. *)
Definition loop_event (k : nat) (e : fsevent) (now : time) (w : Watcher) : Watcher :=
  match wt_loops w !! k with
  | None => w
  | Some lp =>
      if negb (lp_running lp) then w
      else if negb (eqs (ev_Name e) (wt_configFile w)) then w
      else if op_Write (ev_Op e) || op_Create (ev_Op e) then
        let ts := stop_timer (lp_timer lp) (wt_timers w) in
        wt_set_loops (<[k := mkWloop true (Some (length ts))]> (wt_loops w))
          (ts ++ [mkTimer (now + debounceDuration) AReload TPending]) w
      else if op_Remove (ev_Op e) || op_Rename (ev_Op e) then
        wt_set_loops (wt_loops w) (wt_timers w ++ [mkTimer (now + 1 * Second) AAdd TPending]) w
      else w
  end.

(** Loop [k] sees that its context ended, or that a channel of the file system
    watcher was closed; both may be ready after [Stop]. *)
Definition loop_ctx_done (k : nat) (w : Watcher) : Watcher :=
  match wt_loops w !! k with
  | Some lp =>
      if lp_running lp && negb (wt_ctx w)
      then wt_set_loops (<[k := mkWloop false (lp_timer lp)]> (wt_loops w)) (stop_timer (lp_timer lp) (wt_timers w)) w
      else w
  | None => w
  end.
Definition loop_fs_closed (k : nat) (w : Watcher) : Watcher :=
  match wt_loops w !! k with
  | Some lp =>
      if lp_running lp && negb (wt_fs w)
      then wt_set_loops (<[k := mkWloop false (lp_timer lp)]> (wt_loops w)) (wt_timers w) w
      else w
  | None => w
  end.

(** ** Reloading *)

(** [reloadConfig], [r]th: the load, reading the old configuration, writing the new
    one and starting the callbacks. *)
Definition reload_begin (o : outside) (w : Watcher) : go Watcher :=
  '(st, r) ← load_now o (wt_loader w) (wt_configFile w) (wt_store w);
  let rl := match r with Ok new => RLoaded new | Err e => RFailed ("failed to reload config: " +:+ e) end in
  Ret (wt_set_reloads (wt_reloads w ++ [rl]) (wt_calls w) (wt_set_store st w)).
Definition reload_read (r : nat) (w : Watcher) : Watcher :=
  match wt_reloads w !! r with
  | Some (RLoaded new) => wt_set_reloads (<[r := RRead (wt_config w) new]> (wt_reloads w)) (wt_calls w) w
  | _ => w
  end.
Definition reload_write (r : nat) (w : Watcher) : Watcher :=
  match wt_reloads w !! r with
  | Some (RRead old new) =>
      wt_set_config new (wt_set_reloads (<[r := RDone old new]> (wt_reloads w))
        (wt_calls w ++ replicate (wt_callbacks w) (old, new)) w)
  | _ => w
  end.

(** A reload with nothing in between. *)
Definition reloadConfig (o : outside) (w : Watcher) : go (Watcher * option error) :=
  w1 ← reload_begin o w;
  let r := length (wt_reloads w) in
  Ret (reload_write r (reload_read r w1),
       match wt_reloads w1 !! r with Some (RFailed e) => Some e | _ => None end).

(** A timer fires: it starts its function. *)
Definition timer_fire (t : nat) (o : outside) (now : time) (w : Watcher) : go Watcher :=
  match wt_timers w !! t with
  | Some tm =>
      if decide (tm_state tm = TPending) then
        if tm_due tm <=? now then
          let w1 := wt_set_loops (wt_loops w) (<[t := mkTimer (tm_due tm) (tm_action tm) TFired]> (wt_timers w)) w in
          match tm_action tm with
          | AReload => reload_begin o w1
          | AAdd => Ret w1
          end
        else Ret w
      else Ret w
  | None => Ret w
  end.

(** ** The provider *)

Record FileProvider := mkFileProvider { fp_loader : Loader; fp_watcher : option Watcher }.

Definition NewFileProvider (configFile home : string) (created : option error) (o : outside) (st : store)
    : go (store * res FileProvider) :=
  let '(st1, loader) := NewLoader home st in
  if nonempty configFile then
    '(st2, r) ← NewWatcher configFile loader created o st1;
    Ret (st2, match r with
              | Err e => Err ("failed to create config watcher: " +:+ e)
              | Ok w => Ok (mkFileProvider loader (Some w))
              end)
  else Ret (st1, Ok (mkFileProvider loader None)).

Definition fp_Load (o : outside) (stat : string -> bool) (fp : FileProvider) (st : store) : go (store * res nat) :=
  match fp_watcher fp with
  | Some w => Ret (st, Ok (wt_GetConfig w))
  | None => AutoLoad (o_Getenv o) (o_ReadFile o) stat (o_yaml o) (o_json o) (fp_loader fp) st
  end.

(** [Watch] registers the callback even when the watch cannot start. *)
Definition fp_Watch (added : option error) (fp : FileProvider) : FileProvider * option error :=
  match fp_watcher fp with
  | None => (fp, Some "watcher not available")
  | Some w =>
      let '(w', e) := wt_Start added (OnConfigChange w) in
      (mkFileProvider (fp_loader fp) (Some w'),
       match e with Some e => Some ("failed to start config watcher: " +:+ e) | None => None end)
  end.

Definition fp_Close (fp : FileProvider) : FileProvider :=
  mkFileProvider (fp_loader fp) (wt_Stop <$> fp_watcher fp).

(** ** Interleavings *)

Inductive wop :=
| WStart (added : option error)
| WStop
| WCallback
| WEvent (k : nat) (e : fsevent) (now : time)
| WCtxDone (k : nat)
| WFsClosed (k : nat)
| WFire (t : nat) (o : outside) (now : time)
| WReload (o : outside)
| WRead (r : nat)
| WWrite (r : nat).

Definition w_step (w : Watcher) (op : wop) : go Watcher :=
  match op with
  | WStart a => Ret (wt_Start a w).1
  | WStop => Ret (wt_Stop w)
  | WCallback => Ret (OnConfigChange w)
  | WEvent k e now => Ret (loop_event k e now w)
  | WCtxDone k => Ret (loop_ctx_done k w)
  | WFsClosed k => Ret (loop_fs_closed k w)
  | WFire t o now => timer_fire t o now w
  | WReload o => reload_begin o w
  | WRead r => Ret (reload_read r w)
  | WWrite r => Ret (reload_write r w)
  end.

Fixpoint w_run (w : Watcher) (ops : list wop) : go Watcher :=
  match ops with [] => Ret w | op :: ops' => w1 ← w_step w op; w_run w1 ops' end.

(** ** What is handed out is valid *)

Definition valid_at (st : store) (i : nat) : Prop := exists c, st_configs st !! i = Some c /\ valid c.

Lemma valid_at_prefix st st' i : st_configs st `prefix_of` st_configs st' -> valid_at st i -> valid_at st' i.
Proof. intros Hp (c & Hc & Hv). exists c. split; [exact (prefix_lookup_Some _ _ _ _ Hc Hp)|done]. Qed.

(** The configurations of a reload. *)
Definition reload_pointers (r : reload) : list nat :=
  match r with RLoaded n => [n] | RRead o n | RDone o n => [o; n] | RFailed _ => [] end.

Record w_inv (w : Watcher) : Prop := {
  wi_wf : ld_wf (wt_loader w) (wt_store w);
  wi_config : valid_at (wt_store w) (wt_config w);
  wi_reloads : Forall (fun r => Forall (valid_at (wt_store w)) (reload_pointers r)) (wt_reloads w);
  wi_calls : Forall (fun p => valid_at (wt_store w) p.1 /\ valid_at (wt_store w) p.2) (wt_calls w);
}.

Lemma load_now_ok o l f st : ld_wf l st ->
  exists st' a, load_now o l f st = Ret (st', a) /\ ld_wf l st' /\ st_configs st `prefix_of` st_configs st' /\
    match a with Ok i => valid_at st' i | Err _ => True end.
Proof.
  intros Hl. destruct (loadFromFile_ok (o_Getenv o) (o_ReadFile o) (o_yaml o) (o_json o) l f st Hl)
    as (st' & a & Heq & Hl' & _ & Ha). exists st', a.
  split_and!; [done|done|exact (loadFromFile_prefix _ _ _ _ _ _ _ _ _ Heq)|].
  destruct a; [|done]. destruct Ha as (c & Hc & Hv & _). by exists c.
Qed.

Lemma w_inv_store st w : w_inv w -> ld_wf (wt_loader w) st -> st_configs (wt_store w) `prefix_of` st_configs st ->
  w_inv (wt_set_store st w).
Proof.
  intros [Hwf Hc Hr Hk] Hl Hp. split; cbn; [done|exact (valid_at_prefix _ _ _ Hp Hc)| |].
  - eapply Forall_impl; [exact Hr|]. intros r H. eapply Forall_impl; [exact H|]. intros i. by apply valid_at_prefix.
  - eapply Forall_impl; [exact Hk|]. intros [a b] [H1 H2]. split; eapply valid_at_prefix; eassumption.
Qed.

Lemma w_inv_loops ls ts w : w_inv w -> w_inv (wt_set_loops ls ts w).
Proof. by intros []. Qed.

Lemma reload_begin_ok o w : w_inv w ->
  exists w', reload_begin o w = Ret w' /\ w_inv w' /\ st_configs (wt_store w) `prefix_of` st_configs (wt_store w') /\
    exists r, wt_reloads w' = wt_reloads w ++ [r].
Proof.
  intros Hi. destruct (load_now_ok o (wt_loader w) (wt_configFile w) (wt_store w) (wi_wf _ Hi)) as (st & a & Heq & Hl & Hp & Ha).
  unfold reload_begin. rewrite Heq. cbn [mbind go_bind]. eexists. split; [done|]. split_and!; [|done|eexists; reflexivity].
  destruct (w_inv_store st w Hi Hl Hp) as [H1 H2 H3 H4]. split; cbn; [done|done| |done].
  apply Forall_app. split; [done|]. constructor; [|constructor]. destruct a; cbn; by repeat constructor.
Qed.

Lemma timer_fire_ok t o now w : w_inv w ->
  exists w', timer_fire t o now w = Ret w' /\ w_inv w' /\ st_configs (wt_store w) `prefix_of` st_configs (wt_store w').
Proof.
  intros Hi. unfold timer_fire. destruct (wt_timers w !! t) as [tm|]; [|by exists w]. case_decide; [|by exists w].
  destruct (tm_due tm <=? now); [|by exists w]. destruct (tm_action tm).
  - destruct (reload_begin_ok o (wt_set_loops (wt_loops w) (<[t := mkTimer (tm_due tm) AReload TFired]> (wt_timers w)) w)
      (w_inv_loops _ _ _ Hi)) as (w' & ? & ? & ? & _). by exists w'.
  - eexists. split; [done|]. split; [by apply w_inv_loops|done].
Qed.

Lemma w_step_ok op w : w_inv w ->
  exists w', w_step w op = Ret w' /\ w_inv w' /\ st_configs (wt_store w) `prefix_of` st_configs (wt_store w').
Proof.
  intros Hi. destruct op as [a| | |k e t|k|k|t o now|o|r|r]; cbn.
  - eexists. split; [done|]. unfold wt_Start. destruct a; cbn; [done|]. split; [by apply w_inv_loops|done].
  - eexists. split; [done|]. split; [by destruct Hi|done].
  - eexists. split; [done|]. split; [by destruct Hi|done].
  - eexists. split; [done|]. unfold loop_event. repeat case_match; try (split; [by try apply w_inv_loops|done]).
  - eexists. split; [done|]. unfold loop_ctx_done. repeat case_match; try (split; [by try apply w_inv_loops|done]).
  - eexists. split; [done|]. unfold loop_fs_closed. repeat case_match; try (split; [by try apply w_inv_loops|done]).
  - by apply timer_fire_ok.
  - destruct (reload_begin_ok o w Hi) as (w' & ? & ? & ? & _). by exists w'.
  - eexists. split; [done|]. unfold reload_read. destruct (wt_reloads w !! r) as [[n| | |]|] eqn:Hr; try done. split; [|done].
    destruct Hi as [H1 H2 H3 H4]. split; cbn; [done|done| |done]. apply Forall_insert; [done|].
    pose proof (Forall_lookup_1 _ _ _ _ H3 Hr) as Hn. cbn in Hn |- *. by constructor.
  - eexists. split; [done|]. unfold reload_write. destruct (wt_reloads w !! r) as [[|old new| |]|] eqn:Hr; try done. split; [|done].
    destruct Hi as [H1 H2 H3 H4]. pose proof (Forall_lookup_1 _ _ _ _ H3 Hr) as Hn. cbn in Hn.
    apply Forall_cons in Hn as [Hold Hn]. apply Forall_cons in Hn as [Hnew _]. split; cbn; [done|done| |].
    + apply Forall_insert; [done|]. by repeat constructor.
    + apply Forall_app. split; [done|]. by apply Forall_replicate.
Qed.

Lemma NewWatcher_inv f l created o st st' w :
  ld_wf l st -> NewWatcher f l created o st = Ret (st', Ok w) -> w_inv w.
Proof.
  intros Hl. unfold NewWatcher. destruct (format_of_ext _); [|done]. destruct created; [done|].
  destruct (load_now_ok o l f st Hl) as (st1 & a & -> & Hl1 & _ & Ha). cbn [mbind go_bind].
  destruct a as [i|]; [|done]. intros [= <- <-]. split; cbn; [done|done|constructor|constructor].
Qed.

Lemma w_run_ok ops w : w_inv w ->
  exists w', w_run w ops = Ret w' /\ w_inv w' /\ st_configs (wt_store w) `prefix_of` st_configs (wt_store w').
Proof.
  revert w. induction ops as [|op ops IH]; intros w Hi; cbn; [by exists w|].
  destruct (w_step_ok op w Hi) as (w1 & -> & Hi1 & Hp1). cbn [mbind go_bind].
  destruct (IH w1 Hi1) as (w' & ? & ? & Hp2). exists w'. split_and!; try done. by transitivity (st_configs (wt_store w1)).
Qed.


(** ** Reloads *)

Lemma wt_eta w : wt_set_reloads (wt_reloads w) (wt_calls w) w = w.
Proof. by destruct w. Qed.

(** A reload that nothing interrupts: a file that does not load changes nothing but
    the heap; one that does is put in place and the callbacks are told. *)
Lemma reloadConfig_exact o w st a :
  load_now o (wt_loader w) (wt_configFile w) (wt_store w) = Ret (st, a) ->
  exists w', reloadConfig o w = Ret (w', match a with Ok _ => None | Err e => Some ("failed to reload config: " +:+ e) end) /\
    wt_store w' = st /\
    wt_config w' = match a with Ok new => new | Err _ => wt_config w end /\
    wt_calls w' = wt_calls w ++ match a with Ok new => replicate (wt_callbacks w) (wt_config w, new) | Err _ => [] end.
Proof.
  intros Hl. unfold reloadConfig, reload_begin. rewrite Hl. cbn [mbind go_bind].
  destruct a as [new|e]; eexists; cbn; rewrite list_lookup_middle //; (split; [done|]).
  - unfold reload_read; cbn. rewrite list_lookup_middle //. unfold reload_write; cbn.
    rewrite list_lookup_insert_eq; [rewrite length_app /=; lia|]. by cbn.
  - unfold reload_read; cbn. rewrite list_lookup_middle //. unfold reload_write; cbn. rewrite list_lookup_middle //.
    by rewrite app_nil_r.
Qed.

(** ** Debouncing

    A run of one watch loop whose timers fire on time: before an event at [t] is
    handled the timers due by then have fired. *)

Fixpoint fire_list (ts : list nat) (o : outside) (now : time) (w : Watcher) : go Watcher :=
  match ts with [] => Ret w | t :: ts' => w1 ← timer_fire t o now w; fire_list ts' o now w1 end.
Definition fire_due (o : outside) (now : time) (w : Watcher) : go Watcher := fire_list (seq 0 (length (wt_timers w))) o now w.

Definition write_event (w : Watcher) : fsevent := mkFsevent (wt_configFile w) (mkFsop false true false false).

Fixpoint edits (outs : time -> outside) (times : list time) (w : Watcher) : go Watcher :=
  match times with
  | [] => Ret w
  | t :: ts => w1 ← fire_due (outs t) t w; edits outs ts (loop_event 0 (write_event w1) t w1)
  end.

(** How often the file was left alone for half a second before the next write. *)
Fixpoint pauses (t : time) (ts : list time) : nat :=
  match ts with
  | [] => O
  | t' :: ts' => if t + debounceDuration <=? t' then S (pauses t' ts') else pauses t' ts'
  end.

Definition not_pending (w : Watcher) (t : nat) : Prop := forall tm, wt_timers w !! t = Some tm -> tm_state tm <> TPending.

Definition quiet (w : Watcher) : Prop :=
  w_inv w /\ (exists lp, wt_loops w = [mkWloop true lp]) /\ forall j, not_pending w j.
Definition armed (t : time) (i : nat) (w : Watcher) : Prop :=
  w_inv w /\ wt_loops w = [mkWloop true (Some i)] /\ wt_timers w !! i = Some (mkTimer (t + debounceDuration) AReload TPending) /\
  forall j, j <> i -> not_pending w j.

Lemma fire_skip t o now w : not_pending w t -> timer_fire t o now w = Ret w.
Proof. intros H. unfold timer_fire. destruct (wt_timers w !! t) eqn:E; [|done]. case_decide; [|done]. by destruct (H _ E). Qed.

Lemma fire_list_skip ts o now w : Forall (not_pending w) ts -> fire_list ts o now w = Ret w.
Proof. induction 1 as [|t ts Ht _ IH]; [done|]. cbn. by rewrite fire_skip. Qed.

Lemma fire_list_app ts ts' o now w : fire_list (ts ++ ts') o now w = (w1 ← fire_list ts o now w; fire_list ts' o now w1).
Proof. revert w. induction ts as [|t ts IH]; intros w; [done|]. cbn. destruct (timer_fire t o now w); cbn; [apply IH|done|done]. Qed.

Lemma fire_quiet o now w : quiet w -> fire_due o now w = Ret w.
Proof. intros (_ & _ & H). apply fire_list_skip, Forall_true. exact H. Qed.

(** Firing when one timer is pending. *)
Lemma fire_armed o now t i w : armed t i w ->
  exists w', fire_due o now w = Ret w' /\
    if t + debounceDuration <=? now then quiet w' /\ length (wt_reloads w') = S (length (wt_reloads w)) else w' = w.
Proof.
  intros (Hi & Hl & Ht & Ho). unfold fire_due. pose proof (lookup_lt_Some _ _ _ Ht) as Hlt.
  replace (length (wt_timers w)) with (i + S (length (wt_timers w) - S i))%nat by lia. rewrite seq_app fire_list_app.
  rewrite fire_list_skip; [apply list.Forall_forall; intros j Hj%elem_of_seq; apply Ho; lia|]. cbn [mbind go_bind seq fire_list Nat.add].
  assert (Hafter : forall w', (forall j, j <> i -> not_pending w' j) -> Forall (not_pending w') (seq (S i) (length (wt_timers w) - S i))).
  { intros w' Hw'. apply list.Forall_forall. intros j Hj%elem_of_seq. apply Hw'. lia. }
  unfold timer_fire. rewrite Ht. cbn [tm_state tm_due tm_action]. destruct (decide (TPending = TPending)) as [_ | Hbad]; [|by destruct Hbad].
  destruct (t + debounceDuration <=? now).
  - destruct (reload_begin_ok o (wt_set_loops (wt_loops w) (<[i := mkTimer (t + debounceDuration) AReload TFired]> (wt_timers w)) w)
      (w_inv_loops _ _ _ Hi)) as (w1 & Hw1 & Hi1 & _ & r & Hr). rewrite Hw1. cbn [mbind go_bind].
    assert (Hsame : wt_loops w1 = wt_loops w /\ wt_timers w1 = <[i := mkTimer (t + debounceDuration) AReload TFired]> (wt_timers w)).
    { revert Hw1. unfold reload_begin. destruct (load_now _ _ _ _) as [[]| |]; cbn; [|done|done]. by intros [= <-]. }
    destruct Hsame as [Hl1 Ht1]. assert (Hq : forall j, not_pending w1 j).
    { intros j tm. rewrite Ht1. intros [(-> & <- & _) | (Hne & Hj)]%list_lookup_insert_Some; [done|]. apply (Ho j); [congruence|done]. }
    exists w1. rewrite fire_list_skip; [by apply Hafter|]. split; [done|]. split; [|by rewrite Hr length_app Nat.add_comm].
    split; [done|]. split; [exists (Some i); congruence|done].
  - cbn [mbind go_bind]. exists w. rewrite fire_list_skip; [by apply Hafter|done].
Qed.

(** A write arms the timer, whatever it was before. *)
Lemma event_arms t w lp :
  w_inv w -> wt_loops w = [mkWloop true lp] -> (forall j, Some j <> lp -> not_pending w j) ->
  armed t (length (wt_timers w)) (loop_event 0 (write_event w) t w) /\
  wt_reloads (loop_event 0 (write_event w) t w) = wt_reloads w.
Proof.
  intros Hi Hl Hq. unfold loop_event. rewrite Hl. cbn. rewrite (proj2 (eqs_true _ _) eq_refl). cbn.
  assert (Hst : length (stop_timer lp (wt_timers w)) = length (wt_timers w) /\
                forall j tm, stop_timer lp (wt_timers w) !! j = Some tm -> tm_state tm <> TPending).
  { unfold stop_timer. destruct lp as [k|]; [|split; [done|intros j tm; by apply Hq]].
    destruct (wt_timers w !! k) as [tk|] eqn:Hk.
    - case_decide as Hs.
      + split; [apply length_insert|]. intros j tm [(-> & <- & _) | (Hne & Hj)]%list_lookup_insert_Some; [done|].
        apply (Hq j); [congruence|done].
      + split; [done|]. intros j tm Hj. destruct (decide (j = k)) as [-> | ]; [congruence|]. apply (Hq j); [congruence|done].
    - split; [done|]. intros j tm Hj. destruct (decide (j = k)) as [-> | ]; [congruence|]. apply (Hq j); [congruence|done]. }
  destruct Hst as [Hlen Hst]. split; [|done]. split; [by apply w_inv_loops|]. cbn. rewrite Hlen. split_and!; [done| |].
  - by rewrite -Hlen list_lookup_middle.
  - intros j Hj tm. cbn. intros [Hin | [-> ->]]%lookup_snoc_inv; [exact (Hst _ _ Hin)|congruence].
Qed.

Lemma last_of_cons {A} (x d : A) l : List.last (x :: l) d = List.last l x.
Proof. revert x d. induction l as [|y l IH]; intros x d; [done|]. by rewrite (IH y x) -(IH y d). Qed.

Lemma edits_armed outs ts : forall t i w, armed t i w ->
  exists w' t' i', edits outs ts w = Ret w' /\ t' = List.last ts t /\ armed t' i' w' /\
    length (wt_reloads w') = (length (wt_reloads w) + pauses t ts)%nat.
Proof.
  induction ts as [|u ts IH]; intros t i w Ha.
  { exists w, t, i. split_and!; try done. }
  destruct (fire_armed (outs u) u t i w Ha) as (w1 & Hf & Hw1). cbn [edits]. rewrite Hf. cbn [mbind go_bind].
  assert (exists lp, w_inv w1 /\ wt_loops w1 = [mkWloop true lp] /\ forall j, Some j <> lp -> not_pending w1 j) as (lp & Hi1 & Hl1 & Hq1).
  { destruct (t + debounceDuration <=? u); [destruct Hw1 as [(? & (lp & ?) & ?) _]; by exists lp|subst w1].
    destruct Ha as (? & ? & _ & Ho). exists (Some i). split_and!; try done. intros j Hj. apply Ho. congruence. }
  destruct (event_arms u w1 lp Hi1 Hl1 Hq1) as [Ha2 Hr2]. destruct (IH _ _ _ Ha2) as (w' & t' & i' & He & Ht' & Ha' & Hr').
  exists w', t', i'. rewrite He. split_and!; [done| |done|].
  - by rewrite Ht' last_of_cons.
  - rewrite Hr' Hr2. cbn [pauses]. destruct (t + debounceDuration <=? u); [destruct Hw1 as [_ ->]|subst w1]; lia.
Qed.

(** Debouncing: the file is reloaded once for a burst of writes, half a second
    after the last of them: of the writes at [t], [ts] there are as many reloads as
    there were pauses of half a second, and one for the end. *)
Theorem debounce_reloads_per_pause f l created o st st' w0 outs t ts stop oend :
  ld_wf l st -> NewWatcher f l created o st = Ret (st', Ok w0) -> List.last ts t + debounceDuration <= stop ->
  exists w1 w2, edits outs (t :: ts) (wt_Start None w0).1 = Ret w1 /\ fire_due oend stop w1 = Ret w2 /\
    length (wt_reloads w2) = S (pauses t ts) /\ (forall j, not_pending w2 j).
Proof.
  intros Hl Hn Hstop. pose proof (NewWatcher_inv _ _ _ _ _ _ _ Hl Hn) as Hi.
  assert (Hnew : wt_loops w0 = [] /\ wt_timers w0 = [] /\ wt_reloads w0 = []).
  { revert Hn. unfold NewWatcher. repeat case_match; try done. destruct (load_now _ _ _ _) as [[? []]| |]; cbn; try done.
    by intros [= _ <-]. }
  destruct Hnew as (Hl0 & Ht0 & Hr0). set (w := (wt_Start None w0).1).
  assert (Hq : forall j, not_pending w j) by (intros j tm; cbn; by rewrite Ht0).
  assert (Hlw : wt_loops w = [mkWloop true None]) by (cbn; by rewrite Hl0).
  assert (Hiw : w_inv w) by by apply w_inv_loops.
  cbn [edits]. rewrite fire_quiet; [split_and!; [done|by exists None|done]|]. cbn [mbind go_bind].
  destruct (event_arms t w None Hiw Hlw (fun j _ => Hq j)) as [Ha Hr].
  destruct (edits_armed outs ts _ _ _ Ha) as (w1 & t' & i' & He & -> & Ha' & Hr').
  destruct (fire_armed oend stop _ _ _ Ha') as (w2 & Hf & Hw2). rewrite (proj2 (Z.leb_le _ _) Hstop) in Hw2.
  destruct Hw2 as [(_ & _ & Hq2) Hr2]. exists w1, w2. split_and!; [done|done| |done].
  rewrite Hr2 Hr' Hr. cbn. by rewrite Hr0.
Qed.

(** ** After [Stop] *)

(** Every loop can end once [Stop] was called, so that [Stop] returns. *)
Lemma stop_can_return w : exists ops w', w_run (wt_Stop w) ops = Ret w' /\ wt_stopped w' = true.
Proof.
  assert (H : forall n, (n <= length (wt_loops w))%nat -> exists w', w_run (wt_Stop w) (WCtxDone <$> seq 0 n) = Ret w' /\
    wt_ctx w' = false /\ length (wt_loops w') = length (wt_loops w) /\
    forall j lp, (j < n)%nat -> wt_loops w' !! j = Some lp -> lp_running lp = false).
  { induction n as [|n IH]; intros Hn.
    - exists (wt_Stop w). split_and!; try done. lia.
    - destruct IH as (w1 & Hr & Hctx & Hlen & Hj); [lia|]. exists (loop_ctx_done n w1). split.
      + assert (Happ : forall ops ops' x y, w_run x ops = Ret y -> w_run x (ops ++ ops') = w_run y ops').
        { intros ops. induction ops as [|op ops IHo]; intros ops' x y; cbn; [by intros [= ->]|].
          destruct (w_step x op); cbn; [apply IHo|done|done]. }
        rewrite seq_S fmap_app (Happ _ _ _ _ Hr). done.
      + unfold loop_ctx_done. rewrite Hctx. destruct (wt_loops w1 !! n) as [lp|] eqn:Hl; [|apply lookup_ge_None in Hl; lia].
        destruct (lp_running lp) eqn:Hrun; cbn; rewrite ?length_insert; split_and!; try done.
        * intros j lp' Hlt [(-> & <- & _) | (Hne & Hin)]%list_lookup_insert_Some; [done|]. apply (Hj j); [lia|done].
        * intros j lp' Hlt Hin. destruct (decide (j = n)) as [-> | ]; [congruence|]. apply (Hj j); [lia|done]. }
  destruct (H (length (wt_loops w))) as (w' & Hr & _ & Hlen & Hj); [done|]. eexists _, w'. split; [exact Hr|].
  apply forallb_forall. intros lp Hin. apply list_elem_of_In, list_elem_of_lookup in Hin as [j Hin].
  rewrite (Hj j lp); [|done|done]. rewrite -Hlen. exact (lookup_lt_Some _ _ _ Hin).
Qed.

(** [Stop] can return with a reload still to come: when the loop sees the closed
    event channel before the ended context it leaves its timer running, and the
    timer then replaces the configuration of the stopped watcher and calls the
    callbacks. *)
Theorem reload_after_stop w now o st new :
  wt_loops w = [mkWloop true None] ->
  load_now o (wt_loader w) (wt_configFile w) (wt_store w) = Ret (st, Ok new) ->
  exists w1 w2,
    w_run w [WEvent 0 (write_event w) now; WStop; WFsClosed 0] = Ret w1 /\
    wt_stopped w1 = true /\ wt_ctx w1 = false /\ wt_config w1 = wt_config w /\
    w_run w1 [WFire (length (wt_timers w)) o (now + debounceDuration); WRead (length (wt_reloads w)); WWrite (length (wt_reloads w))] = Ret w2 /\
    wt_config w2 = new /\ wt_calls w2 = wt_calls w ++ replicate (wt_callbacks w) (wt_config w, new).
Proof.
  intros Hl Hload. destruct w as [f fmt l c cb ctx fs sto loops ts rs calls]. cbn in Hl, Hload |- *. subst loops.
  unfold loop_event. cbn. rewrite (proj2 (eqs_true f f) eq_refl). cbn. eexists _, _. split; [reflexivity|].
  split_and!; try done.
  - unfold timer_fire. cbn. rewrite list_lookup_middle //. cbn. rewrite Z.leb_refl. unfold reload_begin. cbn. rewrite Hload. cbn.
    destruct (decide (TPending = TPending)) as [_ | Hbad]; [cbn|by destruct Hbad].
    unfold reload_read. cbn. rewrite list_lookup_middle; [done|]. unfold reload_write. cbn.
    rewrite list_lookup_insert_eq; [rewrite length_app /=; lia|]. reflexivity.
  - done.
  - done.
Qed.

(** Two reloads at once: the one that loaded first can be the one that is put in
    place last, so that the older contents of the file stay. *)
Lemma older_reload_can_win w o1 o2 st1 st2 old new :
  load_now o1 (wt_loader w) (wt_configFile w) (wt_store w) = Ret (st1, Ok old) ->
  load_now o2 (wt_loader w) (wt_configFile w) st1 = Ret (st2, Ok new) ->
  let r := length (wt_reloads w) in
  exists w', w_run w [WReload o1; WReload o2; WRead (S r); WWrite (S r); WRead r; WWrite r] = Ret w' /\ wt_config w' = old.
Proof.
  intros H1 H2. destruct w as [f fmt l c cb ctx fs sto loops ts rs calls]. cbn in *.
  unfold reload_begin. cbn. rewrite H1. cbn. rewrite H2. cbn. unfold reload_read, reload_write. cbn.
  assert (Hr1 : ((rs ++ [RLoaded old]) ++ [RLoaded new]) !! S (length rs) = Some (RLoaded new)).
  { rewrite lookup_app_r; rewrite length_app /=; [lia|]. by replace (S (length rs) - (length rs + 1))%nat with 0%nat by lia. }
  assert (Hr0 : ((rs ++ [RLoaded old]) ++ [RLoaded new]) !! length rs = Some (RLoaded old)).
  { rewrite -app_assoc. by rewrite list_lookup_middle. }
  assert (Hlen : (S (length rs) < length ((rs ++ [RLoaded old]) ++ [RLoaded new]))%nat) by (rewrite !length_app /=; lia).
  rewrite Hr1. cbn. rewrite list_lookup_insert_eq; [done|]. cbn. rewrite list_lookup_insert_ne; [lia|].
  rewrite list_lookup_insert_ne; [lia|]. rewrite Hr0. cbn. rewrite list_lookup_insert_eq; [rewrite !length_insert; lia|].
  by eexists.
Qed.

End Watcher.

(** ** Witnesses *)

Definition demo_outside (env : string -> string) : outside := mkOutside env demo_read demo_decode demo_decode.
Definition demo_watcher : @Watcher string :=
  match NewWatcher "a.yaml" demo_loader None (demo_outside no_env) demo_store with
  | Ret (_, Ok w) => w
  | _ => mkWatcher "" FormatYAML demo_loader 0 0 false false demo_store [] [] [] []
  end.

Lemma demo_watcher_new :
  NewWatcher "a.yaml" demo_loader None (demo_outside no_env) demo_store = Ret (wt_store demo_watcher, Ok demo_watcher).
Proof. vm_compute. reflexivity. Qed.


(** Three quick writes, a pause, and one more: two reloads. *)
Lemma debounce_reloads_per_pause_witness :
  exists w1 w2, edits (fun _ => demo_outside no_env) [0; 100 * Millisecond; 300 * Millisecond; 2 * Second] (wt_Start None demo_watcher).1 = Ret w1 /\
    fire_due (demo_outside no_env) (3 * Second) w1 = Ret w2 /\ length (wt_reloads w2) = 2%nat.
Proof.
  destruct (debounce_reloads_per_pause "a.yaml" demo_loader None (demo_outside no_env) demo_store _ demo_watcher (fun _ => demo_outside no_env)
    0 [100 * Millisecond; 300 * Millisecond; 2 * Second] (3 * Second) (demo_outside no_env) demo_wf demo_watcher_new)
    as (w1 & w2 & H1 & H2 & H3 & _); [vm_compute; discriminate|].
  exists w1, w2. split_and!; [exact H1|exact H2|]. rewrite H3. vm_compute. reflexivity.
Defined.

Lemma reload_after_stop_witness :
  exists w1 w2 st,
    w_run (OnConfigChange (wt_Start None demo_watcher).1) [WEvent 0 (write_event demo_watcher) 0; WStop; WFsClosed 0] = Ret w1 /\
    wt_stopped w1 = true /\ wt_ctx w1 = false /\ wt_config w1 = 1%nat /\
    w_run w1 [WFire 0 (demo_outside demo_env) (0 + debounceDuration); WRead 0; WWrite 0] = Ret w2 /\
    wt_config w2 = 2%nat /\ wt_calls w2 = [(1, 2)]%nat /\
    load_now (demo_outside demo_env) demo_loader "a.yaml" (wt_store demo_watcher) = Ret (st, Ok 2%nat).
Proof.
  assert (H : load_now (demo_outside demo_env) demo_loader "a.yaml" (wt_store demo_watcher) =
    Ret (match load_now (demo_outside demo_env) demo_loader "a.yaml" (wt_store demo_watcher) with Ret (st', _) => st' | _ => demo_store end, Ok 2%nat))
    by (vm_compute; reflexivity).
  destruct (reload_after_stop (OnConfigChange (wt_Start None demo_watcher).1) 0 (demo_outside demo_env) _ 2 eq_refl H)
    as (w1 & w2 & H1 & H2 & H3 & H4 & H5 & H6 & H7).
  exists w1, w2. eexists. split_and!; [exact H1|exact H2|exact H3|exact H4|exact H5|exact H6|exact H7|exact H].
Defined.

(** A file the loader takes and the watcher does not. *)
Example watcher_wants_lower_case :
  format_of_ext (ToLower (Ext "A.YAML")) = Some FormatYAML /\
  NewWatcher "A.YAML" demo_loader None (demo_outside no_env) demo_store = Ret (demo_store, Err "unsupported config file format: .YAML").
Proof. vm_compute. done. Qed.
