(* ===== verification/TcpServer.v ===== *)
(** src/network/tcp_server.go and the configuration of src/network/interfaces.go:
    the TCP server with its accept loop, the loops that hand out connections and
    one reader per connection.

    The connections are those of TcpConn.v, on a heap: the table, the channel and
    the handlers hold the same ones. The operations are the steps of the goroutines
    between two calls that block; what listening, accepting and the sockets answer
    are arguments. [late] in a step means that the goroutine had looked at the
    context before it ended. What the handlers are told is recorded in [sv_told]. *)

From S2P Require Import Prelude CoreTypes NetMessage TcpConn.

Definition Protocol := string.
Definition ProtocolTCP : Protocol := "tcp".
Definition ProtocolUDP : Protocol := "udp".

Record NetworkConfig := mkNetworkConfig {
  nc_Protocol : Protocol;
  nc_Address : string;
  nc_Port : Z;
  nc_ReadTimeout : duration;
  nc_WriteTimeout : duration;
  nc_KeepAlive : bool;
  nc_KeepAliveInterval : duration;
  nc_MaxConnections : Z;
  nc_BufferSize : Z;
  nc_HeartbeatInterval : duration;
  nc_ReconnectInterval : duration;
  nc_MaxReconnectAttempts : Z;
}.

Definition DefaultNetworkConfig : NetworkConfig :=
  mkNetworkConfig ProtocolTCP "0.0.0.0" 8080 (30 * Second) (30 * Second) true (60 * Second) 1000 4096 (30 * Second)
    (5 * Second) 3.

Section server.
Context {U : Type}.
Notation Message := (Net.Message U).
Notation tcpConnection := (@tcpConnection U).

(** What the handlers of the server were told; [Handed]: what [AcceptConnection]
    returned. *)
Inductive told :=
| OnConnect (i : nat)
| OnDisconnect (i : nat)
| OnError (i : nat) (e : error)
| OnMessage (i : nat) (m : Message)
| Handed (i : nat).

(** Where an accept loop is: at the top, with a connection it has added to the
    table, or at its end. [al_early]: it was started before the context ended. *)
Inductive accept_pc := AtTop | Added (i : nat) | Ended.
Record accept_loop := mkAcceptLoop { al_early : bool; al_pc : accept_pc }.

(** A run of [handleConnection]; [rd_notify]: whether it will call [OnDisconnect],
    which is settled when the goroutine starts to run. *)
Record reader := mkReader { rd_conn : nat; rd_notify : option bool; rd_running : bool }.

Record tcpServer := mkTcpServer {
  sv_config : NetworkConfig;
  sv_listener : option bool;            (** nil, or whether it is open *)
  sv_running : bool;
  sv_connHandler : bool;                (** not nil *)
  sv_msgHandler : bool;
  sv_connections : gmap string nat;
  sv_connectionChan : chan nat;
  sv_ctx : bool;                        (** not cancelled *)
  sv_totalConnections : Z;
  sv_currentConnections : Z;
  sv_totalMessages : Z;
  sv_startTime : time;
  sv_conns : list tcpConnection;        (** the heap *)
  sv_counter : Z;                       (** [connectionIDCounter] *)
  sv_accepts : list accept_loop;
  sv_loops : list bool;                 (** [connectionHandlerLoop]s: running *)
  sv_readers : list reader;
  sv_stopping : nat;                    (** calls of [Stop] that wait *)
  sv_told : list told;
}.

(** The server is made before any other connection of the process. *)
Definition NewTCPServer (config : option NetworkConfig) (now : time) : res tcpServer :=
  let config := match config with Some c => c | None => DefaultNetworkConfig end in
  if negb (eqs (nc_Protocol config) ProtocolTCP) then Err ("invalid protocol for TCP server: " +:+ nc_Protocol config)
  else Ok (mkTcpServer config None false false false ∅ (make_chan 100) true 0 0 0 now [] 0 [] [] [] 0 []).

(** Setters *)
Definition sv_set_flags (listener : option bool) (running ctx : bool) (stopping : nat) (s : tcpServer) : tcpServer :=
  mkTcpServer (sv_config s) listener running (sv_connHandler s) (sv_msgHandler s) (sv_connections s) (sv_connectionChan s) ctx
    (sv_totalConnections s) (sv_currentConnections s) (sv_totalMessages s) (sv_startTime s) (sv_conns s) (sv_counter s)
    (sv_accepts s) (sv_loops s) (sv_readers s) stopping (sv_told s).
Definition sv_set_handlers (conn msg : bool) (s : tcpServer) : tcpServer :=
  mkTcpServer (sv_config s) (sv_listener s) (sv_running s) conn msg (sv_connections s) (sv_connectionChan s) (sv_ctx s)
    (sv_totalConnections s) (sv_currentConnections s) (sv_totalMessages s) (sv_startTime s) (sv_conns s) (sv_counter s)
    (sv_accepts s) (sv_loops s) (sv_readers s) (sv_stopping s) (sv_told s).
Definition sv_set_table (m : gmap string nat) (current : Z) (s : tcpServer) : tcpServer :=
  mkTcpServer (sv_config s) (sv_listener s) (sv_running s) (sv_connHandler s) (sv_msgHandler s) m (sv_connectionChan s) (sv_ctx s)
    (sv_totalConnections s) current (sv_totalMessages s) (sv_startTime s) (sv_conns s) (sv_counter s)
    (sv_accepts s) (sv_loops s) (sv_readers s) (sv_stopping s) (sv_told s).
Definition sv_set_chan (ch : chan nat) (s : tcpServer) : tcpServer :=
  mkTcpServer (sv_config s) (sv_listener s) (sv_running s) (sv_connHandler s) (sv_msgHandler s) (sv_connections s) ch (sv_ctx s)
    (sv_totalConnections s) (sv_currentConnections s) (sv_totalMessages s) (sv_startTime s) (sv_conns s) (sv_counter s)
    (sv_accepts s) (sv_loops s) (sv_readers s) (sv_stopping s) (sv_told s).
Definition sv_set_totals (conns msgs : Z) (s : tcpServer) : tcpServer :=
  mkTcpServer (sv_config s) (sv_listener s) (sv_running s) (sv_connHandler s) (sv_msgHandler s) (sv_connections s)
    (sv_connectionChan s) (sv_ctx s) conns (sv_currentConnections s) msgs (sv_startTime s) (sv_conns s) (sv_counter s)
    (sv_accepts s) (sv_loops s) (sv_readers s) (sv_stopping s) (sv_told s).
Definition sv_set_conns (l : list tcpConnection) (counter : Z) (s : tcpServer) : tcpServer :=
  mkTcpServer (sv_config s) (sv_listener s) (sv_running s) (sv_connHandler s) (sv_msgHandler s) (sv_connections s)
    (sv_connectionChan s) (sv_ctx s) (sv_totalConnections s) (sv_currentConnections s) (sv_totalMessages s) (sv_startTime s) l counter
    (sv_accepts s) (sv_loops s) (sv_readers s) (sv_stopping s) (sv_told s).
Definition sv_set_goroutines (acc : list accept_loop) (loops : list bool) (rds : list reader) (s : tcpServer) : tcpServer :=
  mkTcpServer (sv_config s) (sv_listener s) (sv_running s) (sv_connHandler s) (sv_msgHandler s) (sv_connections s)
    (sv_connectionChan s) (sv_ctx s) (sv_totalConnections s) (sv_currentConnections s) (sv_totalMessages s) (sv_startTime s)
    (sv_conns s) (sv_counter s) acc loops rds (sv_stopping s) (sv_told s).
Definition sv_tell (t : list told) (s : tcpServer) : tcpServer :=
  mkTcpServer (sv_config s) (sv_listener s) (sv_running s) (sv_connHandler s) (sv_msgHandler s) (sv_connections s)
    (sv_connectionChan s) (sv_ctx s) (sv_totalConnections s) (sv_currentConnections s) (sv_totalMessages s) (sv_startTime s)
    (sv_conns s) (sv_counter s) (sv_accepts s) (sv_loops s) (sv_readers s) (sv_stopping s) (sv_told s ++ t).

(** ** Starting and stopping *)

Definition sv_Start (listen : option error) (s : tcpServer) : tcpServer * option error :=
  if sv_running s then (s, Some "server is already running")
  else
    let address := nc_Address (sv_config s) +:+ ":" +:+ pretty (nc_Port (sv_config s)) in
    match listen with
    | Some e => (s, Some ("failed to listen on " +:+ address +:+ ": " +:+ e))
    | None =>
        let s1 := sv_set_flags (Some true) true (sv_ctx s) (sv_stopping s) s in
        (sv_set_goroutines (sv_accepts s ++ [mkAcceptLoop (sv_ctx s) AtTop])
           (if sv_connHandler s then sv_loops s ++ [true] else sv_loops s) (sv_readers s) s1, None)
    end.

(** [Stop] up to its wait. *)
Definition Stop_begin (s : tcpServer) : tcpServer :=
  if sv_running s
  then sv_set_flags (match sv_listener s with Some _ => Some false | None => None end) false false (S (sv_stopping s)) s
  else s.

Fixpoint close_all (ids : list nat) (l : list tcpConnection) : go (list tcpConnection) :=
  match ids with
  | [] => Ret l
  | i :: ids' =>
      match l !! i with
      | None => nil_conn
      | Some c => '(c', _) ← Close None c; close_all ids' (<[i := c']> l)
      end
  end.

(** Its goroutines have ended. *)
Definition wg_done (s : tcpServer) : bool :=
  forallb (fun a => match al_pc a with Ended => true | _ => false end) (sv_accepts s) &&
  forallb negb (sv_loops s) && forallb (fun r => negb (rd_running r)) (sv_readers s).

(** The rest of [Stop]; [None] when it still waits. [ks]: the order in which the
    table is closed. *)
Definition Stop_finish (ks : list string) (s : tcpServer) : go (option tcpServer) :=
  if negb (wg_done s) then Ret None
  else match sv_stopping s with
       | O => Ret None
       | S n =>
           ch ← close_chan (sv_connectionChan s);
           l ← close_all (range_vals (sv_connections s) ks) (sv_conns s);
           Ret (Some (sv_set_flags (sv_listener s) (sv_running s) (sv_ctx s) n
                        (sv_set_conns l (sv_counter s) (sv_set_chan ch s))))
       end.

Definition SetConnectionHandler (handler : bool) (s : tcpServer) : tcpServer :=
  let s1 := sv_set_handlers handler (sv_msgHandler s) s in
  if sv_running s && handler then sv_set_goroutines (sv_accepts s) (sv_loops s ++ [true]) (sv_readers s) s1 else s1.
Definition sv_SetMessageHandler (handler : bool) (s : tcpServer) : tcpServer := sv_set_handlers (sv_connHandler s) handler s.

(** ** The table *)

Definition addConnection (i : nat) (c : tcpConnection) (s : tcpServer) : tcpServer :=
  sv_set_table (<[tc_id c := i]> (sv_connections s)) (i64 (sv_currentConnections s + 1)) s.
Definition sv_removeConnection (connID : string) (s : tcpServer) : tcpServer :=
  match sv_connections s !! connID with
  | Some _ => sv_set_table (delete connID (sv_connections s)) (i64 (sv_currentConnections s - 1)) s
  | None => s
  end.
Definition GetActiveConnections (ks : list string) (s : tcpServer) : list nat := range_vals (sv_connections s) ks.
Definition sv_GetConnectionCount (s : tcpServer) : Z := sv_currentConnections s.

Record ServerStatistics := mkServerStatistics {
  ss_Address : string;
  ss_Protocol : string;
  ss_Running : bool;
  ss_StartTime : time;
  ss_Uptime : duration;
  ss_TotalConnections : Z;
  ss_CurrentConnections : Z;
  ss_TotalMessages : Z;
}.

(** [addr]: the address of the listener, when there is one. *)
Definition sv_GetStatistics (addr : string) (now : time) (s : tcpServer) : go ServerStatistics :=
  match sv_listener s with
  | None => nil_conn
  | Some _ => Ret (mkServerStatistics addr (nc_Protocol (sv_config s)) (sv_running s) (sv_startTime s)
                     (time_sub now (sv_startTime s)) (sv_totalConnections s) (sv_currentConnections s) (sv_totalMessages s))
  end.

(** ** The accept loop *)

Definition set_accept (k : nat) (pc : accept_pc) (s : tcpServer) : tcpServer :=
  match sv_accepts s !! k with
  | Some a => sv_set_goroutines (<[k := mkAcceptLoop (al_early a) pc]> (sv_accepts s)) (sv_loops s) (sv_readers s) s
  | None => s
  end.

Definition over_limit (s : tcpServer) : bool :=
  (0 <? nc_MaxConnections (sv_config s)) && (nc_MaxConnections (sv_config s) <=? sv_currentConnections s).

(** One turn of [acceptLoop] up to the connection channel; the socket is what will
    arrive on it. *)
Definition accept1 (k : nat) (late : bool) (incoming : res (list (res bytes))) (now : time) (s : tcpServer) : tcpServer :=
  match sv_accepts s !! k with
  | Some (mkAcceptLoop early AtTop) =>
      if negb (sv_ctx s) && negb (late && early) then set_accept k Ended s
      else match incoming with
           | Err _ => if sv_ctx s then s else set_accept k Ended s
           | Ok sock =>
               if over_limit s then s
               else
                 let '(n, c0) := NewTCPConnection (sv_counter s) (Some sock) now in
                 let c := SetWriteTimeout (nc_WriteTimeout (sv_config s)) (SetReadTimeout (nc_ReadTimeout (sv_config s)) c0) in
                 let i := length (sv_conns s) in
                 let s1 := addConnection i c (sv_set_conns (sv_conns s ++ [c]) n s) in
                 let s2 := if sv_msgHandler s
                           then sv_set_goroutines (sv_accepts s1) (sv_loops s1) (sv_readers s1 ++ [mkReader i None true]) s1
                           else s1 in
                 set_accept k (Added i) s2
           end
  | _ => s
  end.

(** The rest of the turn: [seen] when one of the two selects takes the ended
    context. A connection that finds the channel full is handled directly, or by
    nobody. *)
Definition accept2 (k : nat) (seen : bool) (s : tcpServer) : go tcpServer :=
  match sv_accepts s !! k with
  | Some (mkAcceptLoop _ (Added i)) =>
      if negb (sv_ctx s) && seen then
        match sv_conns s !! i with
        | None => nil_conn
        | Some c => '(c', _) ← Close None c; Ret (set_accept k Ended (sv_set_conns (<[i := c']> (sv_conns s)) (sv_counter s) s))
        end
      else
        '(ok, ch) ← try_send (sv_connectionChan s) i;
        let s1 := if ok : bool then sv_set_chan ch s
                  else if sv_connHandler s then sv_tell [OnConnect i] s else s in
        Ret (set_accept k AtTop (sv_set_totals (i64 (sv_totalConnections s1 + 1)) (sv_totalMessages s1) s1))
  | _ => Ret s
  end.

(** ** Handing out connections *)

(** One turn of [connectionHandlerLoop] [k]: [ended] when it takes the ended context. *)
Definition connectionHandlerLoop1 (k : nat) (ended : bool) (s : tcpServer) : tcpServer :=
  let stop := sv_set_goroutines (sv_accepts s) (<[k := false]> (sv_loops s)) (sv_readers s) s in
  match sv_loops s !! k with
  | Some true =>
      if ended then (if sv_ctx s then s else stop)
      else match try_recv (sv_connectionChan s) with
           | Got i ch => let s1 := sv_set_chan ch s in if sv_connHandler s then sv_tell [OnConnect i] s1 else s1
           | GotClosed => stop
           | NotReady => s
           end
  | _ => s
  end.

(** [AcceptConnection] takes a connection; [None] when the channel is not ready. Its
    other cases return errors and change nothing. *)
Definition AcceptConnection (s : tcpServer) : tcpServer * option (res nat) :=
  match try_recv (sv_connectionChan s) with
  | Got i ch => (sv_tell [Handed i] (sv_set_chan ch s), Some (Ok i))
  | GotClosed => (s, Some (Err "server is shutting down"))
  | NotReady => (s, None)
  end.

(** ** Readers *)

(** The deferred calls of [handleConnection]: [OnDisconnect] if a handler was set
    when the goroutine started, then the removal from the table. The connection is
    not closed. *)
Definition reader_end (r : nat) (rd : reader) (c : tcpConnection) (s : tcpServer) : go tcpServer :=
  let s1 := sv_set_goroutines (sv_accepts s) (sv_loops s)
              (<[r := mkReader (rd_conn rd) (rd_notify rd) false]> (sv_readers s)) s in
  match rd_notify rd with
  | Some true => if sv_connHandler s1
                 then Ret (sv_removeConnection (tc_id c) (sv_tell [OnDisconnect (rd_conn rd)] s1))
                 else nil_conn
  | _ => Ret (sv_removeConnection (tc_id c) s1)
  end.

(** One turn of [handleConnection]. *)
Definition handleConnection1 (r : nat) (late : bool) (setErr : option error) (now : time) (s : tcpServer) : go tcpServer :=
  match sv_readers s !! r with
  | Some (mkReader i notify true) =>
      match sv_conns s !! i with
      | None => nil_conn
      | Some c =>
          let rd := mkReader i (Some (default (sv_connHandler s) notify)) true in
          let s0 := sv_set_goroutines (sv_accepts s) (sv_loops s) (<[r := rd]> (sv_readers s)) s in
          if negb (sv_ctx s) && negb late then reader_end r rd c s0
          else
            '(c', m) ← ReadMessage setErr now c;
            let s1 := sv_set_conns (<[i := c']> (sv_conns s0)) (sv_counter s0) s0 in
            match m with
            | Err e => reader_end r rd c (if sv_connHandler s then sv_tell [OnError i e] s1 else s1)
            | Ok m =>
                let s2 := if sv_msgHandler s then sv_tell [OnMessage i m] s1 else s1 in
                Ret (sv_set_totals (sv_totalConnections s2) (i64 (sv_totalMessages s2 + 1)) s2)
            end
      end
  | _ => Ret s
  end.

(** ** Broadcast *)

(** One [SendMessage] per active connection, in the order in which the goroutines
    run; the message is shared, so each sets its connection id. *)
Fixpoint broadcast_sends (ids : list nat) (msg : option Message) (now : time) (l : list tcpConnection) (errs : list error)
    : go (list tcpConnection * list error) :=
  match ids with
  | [] => Ret (l, errs)
  | i :: ids' =>
      match l !! i with
      | None => nil_conn
      | Some c =>
          '(c', msg', e) ← SendMessage None None now msg c;
          broadcast_sends ids' msg' now (<[i := c']> l)
            (match e with Ok _ => errs | Err e => errs ++ ["failed to send to " +:+ tc_id c +:+ ": " +:+ e] end)
      end
  end.

Definition sv_BroadcastMessage (ks : list string) (msg : option Message) (now : time) (s : tcpServer)
    : go (tcpServer * option error) :=
  match msg with
  | None => Ret (s, Some "message is nil")
  | Some m =>
      '(l, errs) ← broadcast_sends (GetActiveConnections ks s) (Some m) now (sv_conns s) [];
      Ret (sv_set_conns l (sv_counter s) s,
           match errs with
           | [] => None
           | _ => Some ("broadcast failed for " +:+ pretty (Z.of_nat (length errs)) +:+ " connections: [" +:+
                        String.concat " " errs +:+ "]")
           end)
  end.

(** ** Interleavings

    [SConnClose], [SConnSend]: what the program does with a connection it was given. *)
Inductive svop :=
| SStart (listen : option error)
| SStopBegin
| SStopFinish
| SConnHandler (b : bool)
| SMsgHandler (b : bool)
| SAccept1 (k : nat) (late : bool) (incoming : res (list (res bytes))) (now : time)
| SAccept2 (k : nat) (seen : bool)
| SLoop (k : nat) (ended : bool)
| STake
| SRead (r : nat) (late : bool) (setErr : option error) (now : time)
| SConnClose (i : nat) (e : option error)
| SConnSend (i : nat) (msg : option Message) (now : time)
| SOther.                               (** another connection of the process is made *)

Definition on_conn (i : nat) (f : tcpConnection -> go tcpConnection) (s : tcpServer) : go tcpServer :=
  match sv_conns s !! i with
  | None => Ret s
  | Some c => c' ← f c; Ret (sv_set_conns (<[i := c']> (sv_conns s)) (sv_counter s) s)
  end.

Definition sv_step (s : tcpServer) (op : svop) : go tcpServer :=
  match op with
  | SStart l => Ret (sv_Start l s).1
  | SStopBegin => Ret (Stop_begin s)
  | SStopFinish => r ← Stop_finish (keys (sv_connections s)) s; Ret (default s r)
  | SConnHandler b => Ret (SetConnectionHandler b s)
  | SMsgHandler b => Ret (sv_SetMessageHandler b s)
  | SAccept1 k late inc now => Ret (accept1 k late inc now s)
  | SAccept2 k seen => accept2 k seen s
  | SLoop k e => Ret (connectionHandlerLoop1 k e s)
  | STake => Ret (AcceptConnection s).1
  | SRead r late e now => handleConnection1 r late e now s
  | SConnClose i e => on_conn i (fun c => '(c', _) ← Close e c; Ret c') s
  | SConnSend i m now => on_conn i (fun c => '(c', _, _) ← SendMessage None None now m c; Ret c') s
  | SOther => Ret (sv_set_conns (sv_conns s) (i64 (sv_counter s + 1)) s)
  end.

(** The process has made fewer than 2^63 connections, so that their numbers do not
    wrap around. *)
Inductive sv_reach (config : option NetworkConfig) (now : time) : tcpServer -> Prop :=
| sv_reach_new s : NewTCPServer config now = Ok s -> sv_reach config now s
| sv_reach_step s op s' : sv_reach config now s -> sv_counter s < max_int64 -> sv_step s op = Ret s' -> sv_reach config now s'.

(** ** Connections keep their id *)

Lemma Close_id e (c c' : tcpConnection) r : Close e c = Ret (c', r) -> tc_id c' = tc_id c.
Proof.
  unfold Close. destruct (tc_closed c); [by intros [= <- _]|]. destruct (close_chan _); cbn; [|done|done]. by intros [= <- _].
Qed.

Lemma Send_id e1 e2 now d (c c' : tcpConnection) r : Send e1 e2 now d c = Ret (c', r) -> tc_id c' = tc_id c.
Proof.
  unfold Send, Send_queue, sendDirect. destruct (tc_closed c); [by intros [= <- _]|]. destruct (length d =? 0)%nat; [by intros [= <- _]|].
  destruct (try_send _ _) as [[[] ch]| |]; cbn; [by intros [= <- _]| |done|done].
  repeat case_match; intros; simplify_eq; done.
Qed.

Lemma SendMessage_id e1 e2 now m (c c' : tcpConnection) m' r : SendMessage e1 e2 now m c = Ret (c', m', r) -> tc_id c' = tc_id c.
Proof.
  unfold SendMessage. destruct (tc_closed c); [by intros [= <- _]|]. destruct m as [m|]; [|by intros [= <- _]].
  destruct (Net.Encode _) as [d|]; [|by intros [= <- _]].
  destruct (Send e1 e2 now d c) as [[c1 r1]| |] eqn:Hs; cbn; [|done|done]. apply Send_id in Hs.
  destruct (is_ok r1); by intros [= <- _].
Qed.

Lemma read_loop_id fuel : forall need (c c' : tcpConnection) r, read_loop fuel need c = Ret (c', r) -> tc_id c' = tc_id c.
Proof.
  induction fuel as [|fuel IH]; intros [|need] c c' r; cbn [read_loop]; [by intros [= <- _]|done|by intros [= <- _]|].
  destruct (conn_Read (S need) (tc_in c)) as [[got|e] inp]; [|by intros [= <- _]].
  destruct (read_loop fuel _ _) as [[c1 r1]| |] eqn:Hr; cbn [mbind go_bind]; [|done|done]. intros [= <- _].
  by rewrite (IH _ _ _ _ Hr).
Qed.

Lemma ReadMessage_id e now (c c' : tcpConnection) r : ReadMessage e now c = Ret (c', r) -> tc_id c' = tc_id c.
Proof.
  unfold ReadMessage, readFull. destruct (tc_closed c); [by intros [= <- _]|]. destruct (negb (tc_conn c)); [done|].
  destruct (if 0 <? tc_readTimeout c then e else None); [by intros [= <- _]|].
  destruct (read_loop _ 32 c) as [[c1 h]| |] eqn:H1; cbn [mbind go_bind]; [|done|done]. apply read_loop_id in H1.
  destruct h as [b|]; [|by intros [= <- _]]. destruct (Net.DecodeHeader b) as [[m n]|]; [|by intros [= <- _]].
  destruct (if (0 <? n)%nat then read_loop _ n c1 else Ret (c1, Ok [])) as [[c2 d]| |] eqn:H2; cbn [mbind go_bind]; [|done|done].
  assert (tc_id c2 = tc_id c1).
  { destruct (0 <? n)%nat; [exact (read_loop_id _ _ _ _ _ H2)|]. by injection H2 as <- _. }
  destruct d; intros [= <- _]; cbn; congruence.
Qed.

(** ** The table and its count *)

Definition same_ids (l l' : list tcpConnection) : Prop := tc_id <$> l' = tc_id <$> l.

Lemma same_ids_insert l i c c' : l !! i = Some c -> tc_id c' = tc_id c -> same_ids l (<[i := c']> l).
Proof.
  intros Hi Hid. unfold same_ids. rewrite list_fmap_insert Hid. apply list_insert_id. by rewrite list_lookup_fmap Hi.
Qed.

Lemma close_all_ids ids : forall l l', close_all ids l = Ret l' -> same_ids l l'.
Proof.
  induction ids as [|i ids IH]; intros l l'; cbn; [by intros [= <-]|]. destruct (l !! i) as [c|] eqn:Hi; [|done].
  destruct (Close None c) as [[c' e]| |] eqn:Hc; cbn [mbind go_bind]; [|done|done]. intros H. apply IH in H. unfold same_ids in *.
  rewrite H. exact (same_ids_insert _ _ _ _ Hi (Close_id _ _ _ _ Hc)).
Qed.

Record table_inv (s : tcpServer) : Prop := {
  ti_entry : forall id i, sv_connections s !! id = Some i ->
    exists k, (tc_id <$> sv_conns s) !! i = Some id /\ id = "tcp-" +:+ pretty k /\ 1 <= k <= sv_counter s;
  ti_size : (size (sv_connections s) <= length (sv_conns s))%nat;
  ti_counter : Z.of_nat (length (sv_conns s)) <= sv_counter s <= max_int64;
  ti_current : sv_currentConnections s = Z.of_nat (size (sv_connections s));
  ti_limit : 0 < nc_MaxConnections (sv_config s) -> sv_currentConnections s <= nc_MaxConnections (sv_config s);
}.

(** The steps that leave the table alone. *)
Lemma table_inv_same s s' :
  sv_connections s' = sv_connections s -> sv_currentConnections s' = sv_currentConnections s -> sv_config s' = sv_config s ->
  sv_counter s' = sv_counter s -> same_ids (sv_conns s) (sv_conns s') -> table_inv s -> table_inv s'.
Proof.
  intros H1 H2 H3 H4 H5 [T1 T2 T3 T4 T5]. assert (Hlen : length (sv_conns s') = length (sv_conns s)).
  { by rewrite -(length_fmap tc_id (sv_conns s')) H5 length_fmap. }
  split; rewrite ?H1 ?H2 ?H3 ?H4 ?Hlen; try done. intros id i Hi. rewrite H5. by apply T1.
Qed.

Lemma size_counter_bound s : table_inv s -> Z.of_nat (size (sv_connections s)) <= max_int64.
Proof. intros []. lia. Qed.

Lemma i64_small z : - 2 ^ 63 <= z <= max_int64 -> i64 z = z.
Proof. intros H. apply i64_id. unfold is_i64, max_int64 in *. lia. Qed.

Lemma table_inv_remove id s : table_inv s -> table_inv (sv_removeConnection id s).
Proof.
  intros H. unfold sv_removeConnection. destruct (sv_connections s !! id) as [i|] eqn:Hi; [|done].
  pose proof (size_counter_bound s H) as Hb. destruct H as [T1 T2 T3 T4 T5].
  assert (Hsz : size (delete id (sv_connections s)) = pred (size (sv_connections s))) by (apply map_size_delete_Some; by exists i).
  assert (Hpos : size (sv_connections s) <> 0%nat) by (apply map_size_non_empty_iff; intros E; by rewrite E lookup_empty in Hi).
  assert (Hcur : i64 (sv_currentConnections s - 1) = sv_currentConnections s - 1) by (apply i64_small; unfold max_int64 in *; lia).
  split; cbn [sv_set_table sv_connections sv_currentConnections sv_counter sv_conns sv_config]; rewrite ?Hsz ?Hcur; [|lia|done|lia|].
  - intros id' j [_ Hj]%lookup_delete_Some. by apply T1.
  - intros Hm. specialize (T5 Hm). lia.
Qed.

(** A new connection has a number no other in the table has. *)
Lemma table_inv_add c n s :
  table_inv s -> sv_counter s < max_int64 -> over_limit s = false -> n = i64 (sv_counter s + 1) -> tc_id c = "tcp-" +:+ pretty n ->
  table_inv (addConnection (length (sv_conns s)) c (sv_set_conns (sv_conns s ++ [c]) n s)).
Proof.
  intros [T1 T2 T3 T4 T5] Hmax Hlim Hn Hid. rewrite i64_small in Hn; [unfold max_int64 in *; lia|].
  assert (Hfresh : sv_connections s !! tc_id c = None).
  { destruct (sv_connections s !! tc_id c) as [j|] eqn:Hj; [|done]. destruct (T1 _ _ Hj) as (k & _ & Hk & Hkn).
    rewrite Hid in Hk. apply (inj (String.append "tcp-")) in Hk. apply (inj pretty) in Hk. lia. }
  assert (Hsz : size (<[tc_id c := length (sv_conns s)]> (sv_connections s)) = S (size (sv_connections s))) by by apply map_size_insert_None.
  assert (Hcur : i64 (sv_currentConnections s + 1) = sv_currentConnections s + 1) by (apply i64_small; unfold max_int64 in *; lia).
  split; cbn [addConnection sv_set_table sv_set_conns sv_connections sv_currentConnections sv_counter sv_conns sv_config];
    rewrite ?Hsz ?length_app ?Hcur; cbn [length]; [|lia|lia|lia|].
  - intros id j Hj. rewrite fmap_app. destruct (decide (id = tc_id c)) as [-> | Hne].
    + rewrite lookup_insert_eq in Hj. injection Hj as <-. exists n. split_and!; [|done|lia|lia].
      by rewrite -(length_fmap tc_id) list_lookup_middle.
    + rewrite lookup_insert_ne in Hj; [congruence|]. destruct (T1 _ _ Hj) as (k & Hk & ? & ?). exists k.
      split_and!; [by apply lookup_app_l_Some|done|lia|lia].
  - intros Hm. unfold over_limit in Hlim. rewrite (proj2 (Z.ltb_lt _ _) Hm) in Hlim. cbn in Hlim.
    apply Z.leb_gt in Hlim. lia.
Qed.

Lemma set_accept_fields k pc s :
  let s' := set_accept k pc s in
  sv_connections s' = sv_connections s /\ sv_currentConnections s' = sv_currentConnections s /\ sv_config s' = sv_config s /\
  sv_counter s' = sv_counter s /\ sv_conns s' = sv_conns s /\ sv_connectionChan s' = sv_connectionChan s /\ sv_told s' = sv_told s /\
  sv_ctx s' = sv_ctx s /\ sv_running s' = sv_running s.
Proof. unfold set_accept. by destruct (sv_accepts s !! k). Qed.

Lemma table_inv_set_accept k pc s : table_inv s -> table_inv (set_accept k pc s).
Proof.
  destruct (set_accept_fields k pc s) as (H1 & H2 & H3 & H4 & H5 & _). apply table_inv_same; try done. by unfold same_ids; rewrite H5.
Qed.

Lemma table_inv_accept1 k late inc now s : table_inv s -> sv_counter s < max_int64 -> table_inv (accept1 k late inc now s).
Proof.
  intros H Hmax. unfold accept1. destruct (sv_accepts s !! k) as [[early []]|]; try done.
  destruct (negb (sv_ctx s) && negb (late && early)); [by apply table_inv_set_accept|].
  destruct inc as [sock|e]; [|destruct (sv_ctx s); [done|by apply table_inv_set_accept]].
  destruct (over_limit s) eqn:Hlim; [done|]. cbn zeta.
  destruct (NewTCPConnection (sv_counter s) (Some sock) now) as [n c0] eqn:Hnew. unfold NewTCPConnection in Hnew. injection Hnew as Hn Hc0.
  apply table_inv_set_accept.
  pose proof (table_inv_add (SetWriteTimeout (nc_WriteTimeout (sv_config s)) (SetReadTimeout (nc_ReadTimeout (sv_config s)) c0)) n s H Hmax Hlim
    (eq_sym Hn)) as Hadd.
  destruct (sv_msgHandler s); [apply (table_inv_same (addConnection (length (sv_conns s))
    (SetWriteTimeout (nc_WriteTimeout (sv_config s)) (SetReadTimeout (nc_ReadTimeout (sv_config s)) c0))
    (sv_set_conns (sv_conns s ++ [SetWriteTimeout (nc_WriteTimeout (sv_config s)) (SetReadTimeout (nc_ReadTimeout (sv_config s)) c0)]) n s))); try done|];
    apply Hadd; by rewrite -Hc0 -Hn.
Qed.

Lemma table_inv_conns l s : table_inv s -> same_ids (sv_conns s) l -> table_inv (sv_set_conns l (sv_counter s) s).
Proof. intros H Hl. by apply (table_inv_same s). Qed.

Lemma table_inv_reader_end r rd c s s' : table_inv s -> reader_end r rd c s = Ret s' -> table_inv s'.
Proof.
  intros H. unfold reader_end.
  destruct (rd_notify rd) as [[]|]; [destruct (sv_connHandler _); [|done]| |]; intros [= <-]; apply table_inv_remove; by apply (table_inv_same s).
Qed.

Lemma table_inv_step s op s' : table_inv s -> sv_counter s < max_int64 -> sv_step s op = Ret s' -> table_inv s'.
Proof.
  intros H Hmax. destruct op as [l| | |b|b|k late inc now|k seen|k e| |r late e now|i e|i m now|]; cbn [sv_step].
  - intros [= <-]. unfold sv_Start. destruct (sv_running s); [done|]. destruct l; [done|]. by apply (table_inv_same s).
  - intros [= <-]. unfold Stop_begin. destruct (sv_running s); [|done]. by apply (table_inv_same s).
  - unfold Stop_finish. destruct (negb (wg_done s)); [by intros [= <-]|]. destruct (sv_stopping s) as [|n]; [by intros [= <-]|].
    destruct (close_chan _) as [ch| |]; cbn [mbind go_bind]; [|done|done].
    destruct (close_all _ _) as [l| |] eqn:Hc; cbn [mbind go_bind]; [|done|done]. intros [= <-].
    apply (table_inv_same s); try done. exact (close_all_ids _ _ _ Hc).
  - intros [= <-]. unfold SetConnectionHandler. destruct (sv_running s && b); by apply (table_inv_same s).
  - intros [= <-]. by apply (table_inv_same s).
  - intros [= <-]. by apply table_inv_accept1.
  - unfold accept2. destruct (sv_accepts s !! k) as [[early [|i|]]|]; try by intros [= <-].
    destruct (negb (sv_ctx s) && seen).
    + destruct (sv_conns s !! i) as [c|] eqn:Hi; [|done]. destruct (Close None c) as [[c' e]| |] eqn:Hc; cbn [mbind go_bind]; [|done|done].
      intros [= <-]. apply table_inv_set_accept, table_inv_conns; [done|]. exact (same_ids_insert _ _ _ _ Hi (Close_id _ _ _ _ Hc)).
    + destruct (try_send _ _) as [[ok ch]| |]; cbn [mbind go_bind]; [|done|done]. intros [= <-]. apply table_inv_set_accept.
      destruct ok; [by apply (table_inv_same s)|]. destruct (sv_connHandler s); by apply (table_inv_same s).
  - intros [= <-]. unfold connectionHandlerLoop1. destruct (sv_loops s !! k) as [[]|]; try done.
    destruct e; [destruct (sv_ctx s); [done|by apply (table_inv_same s)]|].
    destruct (try_recv _); [destruct (sv_connHandler s); by apply (table_inv_same s)|by apply (table_inv_same s)|done].
  - intros [= <-]. unfold AcceptConnection. destruct (try_recv _); [by apply (table_inv_same s)|done|done].
  - unfold handleConnection1. destruct (sv_readers s !! r) as [[i notify []]|]; try by intros [= <-].
    destruct (sv_conns s !! i) as [c|] eqn:Hi; [|done]. cbn zeta.
    set (s0 := sv_set_goroutines _ _ _ s). assert (H0 : table_inv s0) by by apply (table_inv_same s).
    destruct (negb (sv_ctx s) && negb late); [by apply table_inv_reader_end|].
    destruct (ReadMessage e now c) as [[c' m]| |] eqn:Hr; cbn [mbind go_bind]; [|done|done].
    assert (H1 : table_inv (sv_set_conns (<[i:=c']> (sv_conns s0)) (sv_counter s0) s0)).
    { apply table_inv_conns; [done|]. exact (same_ids_insert _ _ _ _ Hi (ReadMessage_id _ _ _ _ _ Hr)). }
    destruct m as [m|e'].
    + intros [= <-]. destruct (sv_msgHandler s); by apply (table_inv_same (sv_set_conns (<[i:=c']> (sv_conns s0)) (sv_counter s0) s0)).
    + apply table_inv_reader_end. destruct (sv_connHandler s); [|done].
      by apply (table_inv_same (sv_set_conns (<[i:=c']> (sv_conns s0)) (sv_counter s0) s0)).
  - unfold on_conn. destruct (sv_conns s !! i) as [c|] eqn:Hi; [|by intros [= <-]].
    destruct (Close e c) as [[c' e']| |] eqn:Hc; cbn [mbind go_bind]; [|done|done]. intros [= <-]. apply table_inv_conns; [done|].
    exact (same_ids_insert _ _ _ _ Hi (Close_id _ _ _ _ Hc)).
  - unfold on_conn. destruct (sv_conns s !! i) as [c|] eqn:Hi; [|by intros [= <-]].
    destruct (SendMessage None None now m c) as [[[c' m'] e']| |] eqn:Hc; cbn [mbind go_bind]; [|done|done]. intros [= <-].
    apply table_inv_conns; [done|]. exact (same_ids_insert _ _ _ _ Hi (SendMessage_id _ _ _ _ _ _ _ _ Hc)).
  - intros [= <-]. destruct H as [T1 T2 T3 T4 T5]. rewrite i64_small; [unfold max_int64 in *; lia|].
    split; cbn [sv_set_conns sv_connections sv_currentConnections sv_counter sv_conns sv_config]; try done; [|lia].
    intros id i Hi. destruct (T1 _ _ Hi) as (k & ? & ? & ?). exists k. split_and!; try done; lia.
Qed.

(** ** Every connection is handed out at most once *)

Definition added_of (a : accept_loop) : option nat := match al_pc a with Added i => Some i | _ => None end.
Definition handed_of (t : told) : option nat := match t with OnConnect i | Handed i => Some i | _ => None end.

(** A connection on its way: with its accept loop, in the channel, or handed out. *)
Definition placed (s : tcpServer) : list nat :=
  omap added_of (sv_accepts s) ++ ch_buf (sv_connectionChan s) ++ omap handed_of (sv_told s).

Record deliver_inv (s : tcpServer) : Prop := {
  di_once : NoDup (placed s);
  di_range : forall i, i ∈ placed s -> (i < length (sv_conns s))%nat;
}.

Lemma deliver_sub s s' : deliver_inv s -> placed s' ⊆+ placed s -> (length (sv_conns s) <= length (sv_conns s'))%nat -> deliver_inv s'.
Proof.
  intros [Hn Hr] Hsub Hlen. split.
  - apply submseteq_Permutation in Hsub as [k Hk]. rewrite Hk in Hn. by apply NoDup_app in Hn as [Hn _].
  - intros i Hi. specialize (Hr i (elem_of_submseteq _ _ _ Hi Hsub)). lia.
Qed.

Lemma deliver_same s s' : placed s' = placed s -> length (sv_conns s') = length (sv_conns s) -> deliver_inv s -> deliver_inv s'.
Proof. intros Hp Hl H. apply (deliver_sub s); [done|by rewrite Hp|lia]. Qed.

Lemma omap_insert_parts {A B} (f : A -> option B) l k x y : l !! k = Some x ->
  exists a b, omap f l = a ++ option_list (f x) ++ b /\ omap f (<[k := y]> l) = a ++ option_list (f y) ++ b.
Proof.
  intros Hk. exists (omap f (take k l)), (omap f (drop (S k) l)). split.
  - rewrite -{1}(take_drop_middle l k x Hk) omap_app. cbn. by destruct (f x).
  - rewrite insert_take_drop; [exact (lookup_lt_Some _ _ _ Hk)|]. rewrite omap_app. cbn. by destruct (f y).
Qed.

(** An accept loop lets go of its connection, which goes to [rest], or nowhere. *)
Lemma deliver_let_go k early i pc s s' rest :
  deliver_inv s -> sv_accepts s !! k = Some (mkAcceptLoop early (Added i)) ->
  sv_accepts s' = <[k := mkAcceptLoop early pc]> (sv_accepts s) -> added_of (mkAcceptLoop early pc) = None ->
  ch_buf (sv_connectionChan s') ++ omap handed_of (sv_told s') ≡ₚ rest ++ ch_buf (sv_connectionChan s) ++ omap handed_of (sv_told s) ->
  rest ⊆+ [i] -> length (sv_conns s') = length (sv_conns s) -> deliver_inv s'.
Proof.
  intros H Hk Ha Hpc Hrest Hsub Hlen. apply (deliver_sub s); [done| |lia]. unfold placed. rewrite Ha.
  destruct (omap_insert_parts added_of (sv_accepts s) k _ (mkAcceptLoop early pc) Hk) as (a & b & -> & ->). rewrite Hpc. cbn.
  rewrite Hrest -!app_assoc. apply submseteq_app; [done|]. cbn. rewrite (Permutation_middle b).
  apply submseteq_app; [done|]. by apply (submseteq_app rest [i]).
Qed.

Lemma omap_told_app ts s : omap handed_of (sv_told s ++ ts) = omap handed_of (sv_told s) ++ omap handed_of ts.
Proof. apply omap_app. Qed.

Lemma set_accept_at k early pc0 pc s : sv_accepts s !! k = Some (mkAcceptLoop early pc0) ->
  sv_accepts (set_accept k pc s) = <[k := mkAcceptLoop early pc]> (sv_accepts s).
Proof. unfold set_accept. by intros ->. Qed.

(** An accept loop that holds nothing before and after. *)
Lemma deliver_set_accept k early pc0 pc s :
  deliver_inv s -> sv_accepts s !! k = Some (mkAcceptLoop early pc0) -> added_of (mkAcceptLoop early pc0) = None ->
  added_of (mkAcceptLoop early pc) = None -> deliver_inv (set_accept k pc s).
Proof.
  intros H Hk H0 H1. destruct (set_accept_fields k pc s) as (_ & _ & _ & _ & Hc & Hch & Ht & _).
  apply (deliver_same s); [|by rewrite Hc|done]. unfold placed. rewrite (set_accept_at _ _ _ _ _ Hk) Hch Ht.
  destruct (omap_insert_parts added_of (sv_accepts s) k _ (mkAcceptLoop early pc) Hk) as (a & b & -> & ->). by rewrite H0 H1.
Qed.

Lemma deliver_accept1 k late inc now s : deliver_inv s -> deliver_inv (accept1 k late inc now s).
Proof.
  intros H. unfold accept1. destruct (sv_accepts s !! k) as [[early []]|] eqn:Hk; try done.
  destruct (negb (sv_ctx s) && negb (late && early)); [by apply (deliver_set_accept k early AtTop)|].
  destruct inc as [sock|e]; [|destruct (sv_ctx s); [done|by apply (deliver_set_accept k early AtTop)]].
  destruct (over_limit s); [done|]. cbn zeta. destruct (NewTCPConnection _ _ _) as [n c0].
  set (c := SetWriteTimeout _ _). set (s2 := if sv_msgHandler s then _ else _).
  assert (Hs2 : sv_accepts s2 = sv_accepts s /\ sv_connectionChan s2 = sv_connectionChan s /\ sv_told s2 = sv_told s /\
                sv_conns s2 = sv_conns s ++ [c]) by (unfold s2; by destruct (sv_msgHandler s)).
  clearbody s2. destruct Hs2 as (Ha & Hch & Ht & Hc).
  destruct (set_accept_fields k (Added (length (sv_conns s))) s2) as (_ & _ & _ & _ & Hc' & Hch' & Ht' & _).
  destruct (omap_insert_parts added_of (sv_accepts s) k _ (mkAcceptLoop early (Added (length (sv_conns s)))) Hk) as (a & b & E1 & E2).
  assert (Hpl : placed (set_accept k (Added (length (sv_conns s))) s2) ≡ₚ length (sv_conns s) :: placed s).
  { unfold placed. rewrite (set_accept_at _ early AtTop); [by rewrite Ha|]. rewrite Hch' Ht' Hch Ht Ha E1 E2. cbn.
    rewrite -!app_assoc. cbn. by rewrite -Permutation_middle. }
  destruct H as [Hn Hr]. split.
  - rewrite Hpl. constructor; [|done]. intros Hin. specialize (Hr _ Hin). lia.
  - intros i. rewrite Hpl Hc' Hc length_app /=. intros [-> | Hin]%elem_of_cons; [lia|]. specialize (Hr _ Hin). lia.
Qed.

Lemma deliver_told ts l s s' : omap handed_of ts = [] -> sv_accepts s' = sv_accepts s -> sv_connectionChan s' = sv_connectionChan s ->
  sv_told s' = sv_told s ++ ts -> sv_conns s' = l -> length l = length (sv_conns s) -> deliver_inv s -> deliver_inv s'.
Proof.
  intros Hts Ha Hch Ht Hc Hl. apply deliver_same; [|by rewrite Hc]. unfold placed. by rewrite Ha Hch Ht omap_app Hts app_nil_r.
Qed.

Lemma removeConnection_fields id s :
  let s' := sv_removeConnection id s in
  sv_accepts s' = sv_accepts s /\ sv_connectionChan s' = sv_connectionChan s /\ sv_told s' = sv_told s /\ sv_conns s' = sv_conns s /\
  sv_ctx s' = sv_ctx s /\ sv_running s' = sv_running s.
Proof. unfold sv_removeConnection. by destruct (sv_connections s !! id). Qed.

Lemma reader_end_fields r rd c s s' : reader_end r rd c s = Ret s' ->
  sv_accepts s' = sv_accepts s /\ sv_connectionChan s' = sv_connectionChan s /\ sv_conns s' = sv_conns s /\
  sv_ctx s' = sv_ctx s /\ sv_running s' = sv_running s /\ exists ts, sv_told s' = sv_told s ++ ts /\ omap handed_of ts = [].
Proof.
  unfold reader_end. destruct (rd_notify rd) as [[]|]; [destruct (sv_connHandler _); [|done]| |]; intros [= <-];
    match goal with |- context [sv_removeConnection ?id ?x] => destruct (removeConnection_fields id x) as (-> & -> & -> & -> & -> & ->) end;
    cbn; split_and!; try done; eexists; (split; [first [reflexivity | symmetry; apply app_nil_r]|done]).
Qed.

Lemma same_ids_length l l' : same_ids l l' -> length l' = length l.
Proof. intros H. by rewrite -(length_fmap tc_id l') H length_fmap. Qed.

Lemma try_send_buf {A} (ch ch' : chan A) x ok : try_send ch x = Ret (ok, ch') -> ch_buf ch' = ch_buf ch ++ (if ok then [x] else []).
Proof.
  unfold try_send. destruct (ch_closed ch); [done|]. case_decide; intros [= <- <-]; [done|by rewrite app_nil_r].
Qed.

Lemma deliver_accept2 k seen s s' : deliver_inv s -> accept2 k seen s = Ret s' -> deliver_inv s'.
Proof.
  intros H. unfold accept2. destruct (sv_accepts s !! k) as [[early [|i|]]|] eqn:Hk; try by intros [= <-].
  destruct (negb (sv_ctx s) && seen).
  - destruct (sv_conns s !! i) as [c|] eqn:Hi; [|done]. destruct (Close None c) as [[c' e]| |]; cbn [mbind go_bind]; [|done|done].
    intros [= <-]. set (s1 := sv_set_conns _ _ s). destruct (set_accept_fields k Ended s1) as (_ & _ & _ & _ & Hc & Hch & Ht & _).
    apply (deliver_let_go k early i Ended s _ []); [done|done|by rewrite (set_accept_at _ early (Added i))|done| |apply submseteq_nil_l|].
    + by rewrite Hch Ht.
    + rewrite Hc. cbn. apply length_insert.
  - destruct (try_send _ _) as [[ok ch]| |] eqn:Hs; cbn [mbind go_bind]; [|done|done]. apply try_send_buf in Hs. intros [= <-].
    set (s1 := if ok then _ else _).
    assert (H1 : sv_accepts s1 = sv_accepts s /\ length (sv_conns s1) = length (sv_conns s) /\ exists rest, rest ⊆+ [i] /\
      ch_buf (sv_connectionChan s1) ++ omap handed_of (sv_told s1) ≡ₚ rest ++ ch_buf (sv_connectionChan s) ++ omap handed_of (sv_told s)).
    { unfold s1. destruct ok; [|destruct (sv_connHandler s)].
      - split_and!; try done. exists [i]. split; [done|]. cbn. rewrite Hs -app_assoc. cbn. by rewrite -Permutation_middle.
      - split_and!; try done. exists [i]. split; [done|]. cbn. rewrite omap_app app_assoc. cbn. by rewrite -Permutation_cons_append.
      - split_and!; try done. exists []. split; [apply submseteq_nil_l|done]. }
    clearbody s1. destruct H1 as (Ha & Hl & rest & Hsub & Hp). set (s2 := sv_set_totals _ _ s1).
    destruct (set_accept_fields k AtTop s2) as (_ & _ & _ & _ & Hc & Hch & Ht & _).
    apply (deliver_let_go k early i AtTop s _ rest); [done|done| |done| |done|].
    + rewrite (set_accept_at _ early (Added i)); [|by rewrite -Ha]. cbn. by rewrite Ha.
    + by rewrite Hch Ht.
    + by rewrite Hc.
Qed.

(** The head of the channel goes to a handler, or nowhere. *)
Lemma deliver_take i ch ts s s' :
  deliver_inv s -> try_recv (sv_connectionChan s) = Got i ch -> sv_accepts s' = sv_accepts s -> sv_connectionChan s' = ch ->
  sv_told s' = sv_told s ++ ts -> omap handed_of ts ⊆+ [i] -> sv_conns s' = sv_conns s -> deliver_inv s'.
Proof.
  intros H Hr Ha Hch Ht Hts Hc. apply (deliver_sub s); [done| |by rewrite Hc]. unfold placed. rewrite Ha Hch Ht omap_app.
  unfold try_recv in Hr. destruct (ch_buf (sv_connectionChan s)) as [|j rest]; [by destruct (ch_closed _)|].
  injection Hr as -> <-. cbn. apply submseteq_app; [done|]. rewrite app_assoc (Permutation_app_comm _ (omap handed_of ts)).
  by apply (submseteq_app _ [i]).
Qed.

Lemma deliver_step s op s' : deliver_inv s -> sv_step s op = Ret s' -> deliver_inv s'.
Proof.
  intros H. destruct op as [l| | |b|b|k late inc now|k seen|k e| |r late e now|i e|i m now|]; cbn [sv_step].
  - intros [= <-]. unfold sv_Start. destruct (sv_running s); [done|]. destruct l; [done|]. apply (deliver_same s); [|done|done].
    unfold placed. cbn. by rewrite omap_app app_nil_r.
  - intros [= <-]. unfold Stop_begin. destruct (sv_running s); [|done]. by apply (deliver_same s).
  - unfold Stop_finish. destruct (negb (wg_done s)); [by intros [= <-]|]. destruct (sv_stopping s) as [|n]; [by intros [= <-]|].
    destruct (close_chan _) as [ch| |] eqn:Hch; cbn [mbind go_bind]; [|done|done].
    destruct (close_all _ _) as [l| |] eqn:Hc; cbn [mbind go_bind]; [|done|done]. intros [= <-].
    apply (deliver_same s); [|exact (same_ids_length _ _ (close_all_ids _ _ _ Hc))|done]. unfold placed. cbn.
    unfold close_chan in Hch. destruct (ch_closed _); [done|]. by injection Hch as <-.
  - intros [= <-]. unfold SetConnectionHandler. destruct (sv_running s && b); by apply (deliver_same s).
  - intros [= <-]. by apply (deliver_same s).
  - intros [= <-]. by apply deliver_accept1.
  - by apply deliver_accept2.
  - intros [= <-]. unfold connectionHandlerLoop1. destruct (sv_loops s !! k) as [[]|]; try done.
    destruct e; [destruct (sv_ctx s); [done|by apply (deliver_same s)]|].
    destruct (try_recv _) as [i ch| |] eqn:Hr; [|by apply (deliver_same s)|done].
    destruct (sv_connHandler s); [by apply (deliver_take i ch [OnConnect i] s)|]. apply (deliver_take i ch [] s); try done; cbn.
    + by rewrite app_nil_r.
    + apply submseteq_nil_l.
  - intros [= <-]. unfold AcceptConnection. destruct (try_recv _) as [i ch| |] eqn:Hr; [|done|done].
    by apply (deliver_take i ch [Handed i] s).
  - unfold handleConnection1. destruct (sv_readers s !! r) as [[i notify []]|]; try by intros [= <-].
    destruct (sv_conns s !! i) as [c|] eqn:Hi; [|done]. cbn zeta. set (s0 := sv_set_goroutines _ _ _ s).
    assert (Hend : forall rd c x s1, reader_end r rd c x = Ret s1 -> deliver_inv x -> deliver_inv s1).
    { intros rd' c1 x s1 (E1 & E2 & E3 & _ & _ & ts & E4 & E5)%reader_end_fields Hx.
      by apply (deliver_told ts (sv_conns x) x). }
    assert (H0 : deliver_inv s0) by by apply (deliver_same s).
    destruct (negb (sv_ctx s) && negb late); [intros He; exact (Hend _ _ _ _ He H0)|].
    destruct (ReadMessage e now c) as [[c' m]| |]; cbn [mbind go_bind]; [|done|done].
    set (s1 := sv_set_conns _ _ s0). assert (H1 : deliver_inv s1) by (apply (deliver_same s0); [done|apply length_insert|done]).
    destruct m as [m|e'].
    + intros [= <-]. destruct (sv_msgHandler s); [|by apply (deliver_same s1)]. by apply (deliver_told [OnMessage i m] (sv_conns s1) s1).
    + intros He. apply (Hend _ _ _ _ He). destruct (sv_connHandler s); [|done]. by apply (deliver_told [OnError i e'] (sv_conns s1) s1).
  - unfold on_conn. destruct (sv_conns s !! i); [|by intros [= <-]]. destruct (Close _ _) as [[c' e']| |]; cbn [mbind go_bind]; [|done|done].
    intros [= <-]. apply (deliver_same s); [done|apply length_insert|done].
  - unfold on_conn. destruct (sv_conns s !! i); [|by intros [= <-]].
    destruct (SendMessage _ _ _ _ _) as [[[c' m'] e']| |]; cbn [mbind go_bind]; [|done|done].
    intros [= <-]. apply (deliver_same s); [done|apply length_insert|done].
  - intros [= <-]. by apply (deliver_same s).
Qed.

(** ** One accept loop

    A loop that was started after the context had ended accepts nothing; of the
    others there is at most one, so that the check of the limit and the new entry
    are not interleaved with another accept. *)

Definition early_loops (s : tcpServer) : nat := length (List.filter al_early (sv_accepts s)).
Record loops_inv (s : tcpServer) : Prop := {
  li_one : (early_loops s + (if sv_ctx s && negb (sv_running s) then 1 else 0) <= 1)%nat;
  li_late : forall k a, sv_accepts s !! k = Some a -> al_early a = false -> sv_ctx s = false;
}.

Lemma filter_early l l' : al_early <$> l' = al_early <$> l -> length (List.filter al_early l') = length (List.filter al_early l).
Proof.
  revert l'. induction l as [|a l IH]; intros [|a' l']; cbn; intros H; try done. injection H as Ha Hl. rewrite Ha.
  destruct (al_early a); cbn; by rewrite (IH l' Hl).
Qed.

Lemma loops_same s s' : al_early <$> sv_accepts s' = al_early <$> sv_accepts s -> sv_ctx s' = sv_ctx s -> sv_running s' = sv_running s ->
  loops_inv s -> loops_inv s'.
Proof.
  intros Ha Hc Hr [H1 H2]. split; rewrite /early_loops ?Hc ?Hr; [by rewrite (filter_early _ _ Ha)|].
  intros k a Hk He. assert (Hl : (al_early <$> sv_accepts s) !! k = Some false) by (rewrite -Ha list_lookup_fmap Hk; cbn; by rewrite He).
  rewrite list_lookup_fmap in Hl. destruct (sv_accepts s !! k) as [a0|] eqn:Hk0; [|done]. injection Hl as Hl. exact (H2 _ _ Hk0 Hl).
Qed.

Lemma set_accept_early k pc s : al_early <$> sv_accepts (set_accept k pc s) = al_early <$> sv_accepts s.
Proof.
  unfold set_accept. destruct (sv_accepts s !! k) as [a|] eqn:Hk; [|done]. cbn. rewrite list_fmap_insert. cbn.
  apply list_insert_id. by rewrite list_lookup_fmap Hk.
Qed.

Lemma loops_set_accept k pc s : loops_inv s -> loops_inv (set_accept k pc s).
Proof.
  destruct (set_accept_fields k pc s) as (_ & _ & _ & _ & _ & _ & _ & Hc & Hr). apply loops_same; [apply set_accept_early|done|done].
Qed.

Lemma loops_step s op s' : loops_inv s -> sv_step s op = Ret s' -> loops_inv s'.
Proof.
  intros H. destruct op as [l| | |b|b|k late inc now|k seen|k e| |r late e now|i e|i m now|]; cbn [sv_step].
  - intros [= <-]. unfold sv_Start. destruct (sv_running s) eqn:Hr; [done|]. destruct l; [done|]. destruct H as [H1 H2].
    rewrite Hr in H1. split; rewrite /early_loops; cbn.
    + rewrite List.filter_app length_app andb_false_r. cbn. unfold early_loops in H1.
      destruct (sv_ctx s); cbn in H1 |- *; lia.
    + intros k a [Hk | [_ ->]]%lookup_snoc_inv; [exact (H2 _ _ Hk)|done].
  - intros [= <-]. unfold Stop_begin. destruct (sv_running s) eqn:Hr; [|done]. destruct H as [H1 H2].
    rewrite Hr andb_false_r in H1. split; [|done]. cbn. unfold early_loops in *. cbn. lia.
  - unfold Stop_finish. destruct (negb (wg_done s)); [by intros [= <-]|]. destruct (sv_stopping s) as [|n]; [by intros [= <-]|].
    destruct (close_chan _) as [ch| |]; cbn [mbind go_bind]; [|done|done].
    destruct (close_all _ _) as [l| |]; cbn [mbind go_bind]; [|done|done]. intros [= <-]. by apply (loops_same s).
  - intros [= <-]. unfold SetConnectionHandler. destruct (sv_running s && b); by apply (loops_same s).
  - intros [= <-]. by apply (loops_same s).
  - intros [= <-]. unfold accept1. destruct (sv_accepts s !! k) as [[early []]|]; try done.
    destruct (negb (sv_ctx s) && negb (late && early)); [by apply loops_set_accept|].
    destruct inc as [sock|e]; [|destruct (sv_ctx s); [done|by apply loops_set_accept]].
    destruct (over_limit s); [done|]. cbn zeta. destruct (NewTCPConnection _ _ _) as [n c0].
    apply loops_set_accept. destruct (sv_msgHandler s); by apply (loops_same s).
  - unfold accept2. destruct (sv_accepts s !! k) as [[early [|i|]]|]; try by intros [= <-].
    destruct (negb (sv_ctx s) && seen).
    + destruct (sv_conns s !! i) as [c|]; [|done]. destruct (Close None c) as [[c' e]| |]; cbn [mbind go_bind]; [|done|done].
      intros [= <-]. apply loops_set_accept. by apply (loops_same s).
    + destruct (try_send _ _) as [[ok ch]| |]; cbn [mbind go_bind]; [|done|done]. intros [= <-]. apply loops_set_accept.
      destruct ok; [by apply (loops_same s)|]. destruct (sv_connHandler s); by apply (loops_same s).
  - intros [= <-]. unfold connectionHandlerLoop1. destruct (sv_loops s !! k) as [[]|]; try done.
    destruct e; [destruct (sv_ctx s); [done|by apply (loops_same s)]|].
    destruct (try_recv _); [destruct (sv_connHandler s); by apply (loops_same s)|by apply (loops_same s)|done].
  - intros [= <-]. unfold AcceptConnection. destruct (try_recv _); [by apply (loops_same s)|done|done].
  - unfold handleConnection1. destruct (sv_readers s !! r) as [[i notify []]|]; try by intros [= <-].
    destruct (sv_conns s !! i) as [c|]; [|done]. cbn zeta. set (s0 := sv_set_goroutines _ _ _ s).
    assert (Hend : forall rd c x s1, reader_end r rd c x = Ret s1 -> loops_inv x -> loops_inv s1).
    { intros rd' c1 x s1 (E1 & _ & _ & E2 & E3 & _)%reader_end_fields Hx. apply (loops_same x); [by rewrite E1|done|done|done]. }
    assert (H0 : loops_inv s0) by by apply (loops_same s).
    destruct (negb (sv_ctx s) && negb late); [intros He; exact (Hend _ _ _ _ He H0)|].
    destruct (ReadMessage e now c) as [[c' m]| |]; cbn [mbind go_bind]; [|done|done]. destruct m as [m|e'].
    + intros [= <-]. destruct (sv_msgHandler s); by apply (loops_same s0).
    + intros He. apply (Hend _ _ _ _ He). destruct (sv_connHandler s); by apply (loops_same s0).
  - unfold on_conn. destruct (sv_conns s !! i); [|by intros [= <-]]. destruct (Close _ _) as [[c' e']| |]; cbn [mbind go_bind]; [|done|done].
    intros [= <-]. by apply (loops_same s).
  - unfold on_conn. destruct (sv_conns s !! i); [|by intros [= <-]].
    destruct (SendMessage _ _ _ _ _) as [[[c' m'] e']| |]; cbn [mbind go_bind]; [|done|done]. intros [= <-]. by apply (loops_same s).
  - intros [= <-]. by apply (loops_same s).
Qed.

Lemma reach_inv config now s : sv_reach config now s -> table_inv s /\ deliver_inv s /\ loops_inv s.
Proof.
  induction 1 as [s Hn|s op s' _ (H1 & H2 & H3) Hmax Hs].
  - unfold NewTCPServer in Hn. destruct (negb _); [done|]. injection Hn as <-. split_and!.
    + split; cbn; [by intros ???%lookup_empty_Some|by rewrite map_size_empty|done|by rewrite map_size_empty|lia].
    + split; cbn; [constructor|]. by intros i ?%not_elem_of_nil.
    + split; cbn; [done|]. by intros [].
  - split_and!; [exact (table_inv_step _ _ _ H1 Hmax Hs)|exact (deliver_step _ _ _ H2 Hs)|exact (loops_step _ _ _ H3 Hs)].
Qed.

(** C11. Under every interleaving of the accept loop, the readers, the handlers and
    the program's own calls: the counter of active connections is the size of the
    table; it never exceeds MaxConnections when that is set; an entry of the table
    is the connection of that id; and no connection is handed out twice, to
    [OnConnect] or by [AcceptConnection]. *)
Theorem server_accounting config now s :
  sv_reach config now s ->
  sv_GetConnectionCount s = Z.of_nat (size (sv_connections s)) /\
  (0 < nc_MaxConnections (sv_config s) -> sv_GetConnectionCount s <= nc_MaxConnections (sv_config s)) /\
  (forall id i, sv_connections s !! id = Some i -> exists c, sv_conns s !! i = Some c /\ tc_id c = id) /\
  NoDup (omap handed_of (sv_told s)) /\
  (forall j k a b, sv_accepts s !! j = Some a -> sv_accepts s !! k = Some b -> al_early a = true -> al_early b = true -> j = k).
Proof.
  intros ([T1 T2 T3 T4 T5] & [D1 _] & [L1 _])%reach_inv. split_and!; [done|done| | |].
  - intros id i Hi. destruct (T1 _ _ Hi) as (k & Hk & _). rewrite list_lookup_fmap in Hk.
    destruct (sv_conns s !! i) as [c|]; [|done]. injection Hk as Hk. by exists c.
  - unfold placed in D1. apply NoDup_app in D1 as (_ & _ & D1). by apply NoDup_app in D1 as (_ & _ & D1).
  - intros j k a b Hj Hk Ha Hb. destruct (decide (j = k)) as [|Hne]; [done|exfalso].
    assert (Hone : (early_loops s <= 1)%nat) by lia. clear -Hj Hk Ha Hb Hne Hone. unfold early_loops in Hone.
    revert j k Hj Hk Hne Hone. induction (sv_accepts s) as [|x l IH]; intros j k Hj Hk Hne Hone; [done|]. cbn in Hone.
    assert (Hin : forall n y, l !! n = Some y -> al_early y = true -> (1 <= length (List.filter al_early l))%nat).
    { intros n y Hy Hey. assert (In y (List.filter al_early l)) as Hf.
      { apply filter_In. split; [|done]. apply list_elem_of_In. eapply list_elem_of_lookup_2; exact Hy. }
      destruct (List.filter al_early l); [done|cbn; lia]. }
    destruct j as [|j], k as [|k]; cbn in Hj, Hk; [done| | |].
    + injection Hj as ->. rewrite Ha in Hone. cbn in Hone. specialize (Hin _ _ Hk Hb). lia.
    + injection Hk as ->. rewrite Hb in Hone. cbn in Hone. specialize (Hin _ _ Hj Ha). lia.
    + apply (IH j k); [done|done|congruence|]. destruct (al_early x); cbn in Hone; lia.
Qed.

(** ** Restarting *)

Fixpoint sv_run (s : tcpServer) (ops : list svop) : go tcpServer :=
  match ops with [] => Ret s | op :: ops' => s1 ← sv_step s op; sv_run s1 ops' end.

(** A server after [Stop], and one that was started and stopped again up to the
    wait of the second [Stop]. *)
Definition stopped_server (c : NetworkConfig) (now : time) : tcpServer :=
  mkTcpServer c (Some false) false false false ∅ (mkChan [] 100 true) false 0 0 0 now [] 0 [mkAcceptLoop true Ended] [] [] 0 [].
Definition restopped_server (c : NetworkConfig) (now : time) : tcpServer :=
  mkTcpServer c (Some false) false false false ∅ (mkChan [] 100 true) false 0 0 0 now [] 0
    [mkAcceptLoop true Ended; mkAcceptLoop false Ended] [] [] 1 [].

Lemma run_stopped c now late t :
  sv_run (mkTcpServer c None false false false ∅ (make_chan 100) true 0 0 0 now [] 0 [] [] [] 0 [])
    [SStart None; SStopBegin; SAccept1 0 late (Err "closed") t; SStopFinish] = Ret (stopped_server c now).
Proof. destruct late; vm_compute; reflexivity. Qed.

Lemma run_restopped c now late inc t :
  sv_run (stopped_server c now) [SStart None; SAccept1 1 late inc t; SStopBegin] = Ret (restopped_server c now).
Proof. destruct late; vm_compute; reflexivity. Qed.

(** A server that was stopped can be started again and says so, but its context
    stays cancelled: the new accept loop ends at its first turn whatever connection
    comes in, and the next [Stop] closes the connection channel a second time and
    panics. *)
Theorem restarted_server_is_dead config now s0 late inc t :
  NewTCPServer config now = Ok s0 ->
  exists s1 s2, sv_run s0 [SStart None; SStopBegin; SAccept1 0 late (Err "closed") t; SStopFinish] = Ret s1 /\
    (sv_Start None s1).2 = None /\ sv_running (sv_Start None s1).1 = true /\
    sv_run s1 [SStart None; SAccept1 1 late inc t; SStopBegin] = Ret s2 /\
    sv_connections s2 = ∅ /\ wg_done s2 = true /\
    sv_step s2 SStopFinish = Panic "close of closed channel".
Proof.
  unfold NewTCPServer. destruct (negb _); [done|]. intros [= <-]. set (c := match config with Some c => c | None => _ end). clearbody c.
  exists (stopped_server c now), (restopped_server c now). rewrite run_stopped run_restopped.
  split_and!; first [reflexivity | vm_compute; reflexivity].
Qed.

(** ** Connections that stay in the table *)

(** Without a message handler nothing removes a connection: closed ones still
    count, so that a server that has reached its limit stays there. *)
Lemma closed_connections_still_count s op s' :
  sv_readers s = [] -> sv_msgHandler s = false -> (forall b, op <> SMsgHandler b) -> table_inv s -> sv_counter s < max_int64 ->
  sv_step s op = Ret s' ->
  sv_connections s ⊆ sv_connections s' /\ sv_readers s' = [] /\ sv_msgHandler s' = false.
Proof.
  intros Hrd Hmsg Hop Ht Hmax. assert (Hsa : forall k pc x, sv_readers (set_accept k pc x) = sv_readers x /\ sv_msgHandler (set_accept k pc x) = sv_msgHandler x).
  { intros k pc x. unfold set_accept. by destruct (sv_accepts x !! k). }
  destruct op as [l| | |b|b|k late inc now|k seen|k e| |r late e now|i e|i m now|]; cbn [sv_step].
  - intros [= <-]. unfold sv_Start. by destruct (sv_running s), l.
  - intros [= <-]. unfold Stop_begin. by destruct (sv_running s).
  - unfold Stop_finish. destruct (negb (wg_done s)); [by intros [= <-]|]. destruct (sv_stopping s); [by intros [= <-]|].
    destruct (close_chan _); cbn [mbind go_bind]; [|done|done]. destruct (close_all _ _); cbn [mbind go_bind]; [|done|done]. by intros [= <-].
  - intros [= <-]. unfold SetConnectionHandler. by destruct (sv_running s && b).
  - by destruct (Hop b).
  - intros [= <-]. unfold accept1. destruct (sv_accepts s !! k) as [[early []]|]; try done.
    destruct (negb (sv_ctx s) && negb (late && early)).
    { destruct (set_accept_fields k Ended s) as (-> & _). by destruct (Hsa k Ended s) as [-> ->]. }
    destruct inc as [sock|e].
    2: { destruct (sv_ctx s); [done|]. destruct (set_accept_fields k Ended s) as (-> & _). by destruct (Hsa k Ended s) as [-> ->]. }
    destruct (over_limit s) eqn:Hlim; [done|]. cbn zeta. rewrite Hmsg.
    destruct (NewTCPConnection (sv_counter s) (Some sock) now) as [n c0] eqn:Hnew. unfold NewTCPConnection in Hnew. injection Hnew as Hn Hc0.
    match goal with |- context [set_accept k ?pc ?x] =>
      destruct (set_accept_fields k pc x) as (-> & _); destruct (Hsa k pc x) as [-> ->] end.
    cbn. split_and!; [|done|done]. apply insert_subseteq. rewrite -Hc0. cbn.
    rewrite i64_small; [destruct Ht; unfold max_int64 in *; lia|].
    destruct (sv_connections s !! _) as [j|] eqn:Hj; [|done]. destruct (ti_entry _ Ht _ _ Hj) as (q & _ & Hq & Hqn).
    apply (inj (String.append "tcp-")) in Hq. apply (inj pretty) in Hq. lia.
  - unfold accept2. destruct (sv_accepts s !! k) as [[early [|i|]]|]; try by intros [= <-].
    destruct (negb (sv_ctx s) && seen).
    + destruct (sv_conns s !! i); [|done]. destruct (Close None _) as [[c' e]| |]; cbn [mbind go_bind]; [|done|done]. intros [= <-].
      match goal with |- context [set_accept k ?pc ?x] =>
        destruct (set_accept_fields k pc x) as (-> & _); by destruct (Hsa k pc x) as [-> ->] end.
    + destruct (try_send _ _) as [[ok ch]| |]; cbn [mbind go_bind]; [|done|done]. intros [= <-].
      match goal with |- context [set_accept k ?pc ?x] =>
        destruct (set_accept_fields k pc x) as (-> & _); destruct (Hsa k pc x) as [-> ->] end.
      destruct ok; [done|]. by destruct (sv_connHandler s).
  - intros [= <-]. unfold connectionHandlerLoop1. destruct (sv_loops s !! k) as [[]|]; try done.
    destruct e; [by destruct (sv_ctx s)|]. destruct (try_recv _); [by destruct (sv_connHandler s)|done|done].
  - intros [= <-]. unfold AcceptConnection. by destruct (try_recv _).
  - unfold handleConnection1. rewrite Hrd. by intros [= <-].
  - unfold on_conn. destruct (sv_conns s !! i); [|by intros [= <-]]. destruct (Close _ _) as [[c' e']| |]; cbn [mbind go_bind]; [|done|done].
    by intros [= <-].
  - unfold on_conn. destruct (sv_conns s !! i); [|by intros [= <-]].
    destruct (SendMessage _ _ _ _ _) as [[[c' m'] e']| |]; cbn [mbind go_bind]; [|done|done]. by intros [= <-].
  - by intros [= <-].
Qed.

End server.

(** ** Witnesses *)

Definition one_conn_config : NetworkConfig :=
  mkNetworkConfig ProtocolTCP "127.0.0.1" 0 (30 * Second) (30 * Second) true (60 * Second) 1 4096 (30 * Second) (5 * Second) 3.
Definition demo_server : @tcpServer unit :=
  match NewTCPServer (Some one_conn_config) 0 with Ok s => s | Err _ => mkTcpServer one_conn_config None false false false ∅ (make_chan 100) true 0 0 0 0 [] 0 [] [] [] 0 [] end.
Definition demo_server_ops : list (@svop unit) :=
  [SConnHandler true; SMsgHandler true; SStart None; SAccept1 0 false (Ok []) 0; SAccept2 0 false; SAccept1 0 false (Ok []) 0;
   SLoop 0 false].
Definition demo_served : @tcpServer unit :=
  match sv_run demo_server demo_server_ops with Ret s => s | _ => demo_server end.

(** With a limit of one the second connection is refused, and the first is handed
    to the handler once. *)
Lemma demo_served_reach : sv_reach (Some one_conn_config) 0 demo_served.
Proof.
  assert (H0 : sv_reach (Some one_conn_config) 0 demo_server) by (apply sv_reach_new; reflexivity).
  assert (Hrun : forall (ops : list (@svop unit)) s s', sv_reach (Some one_conn_config) 0 s -> sv_run s ops = Ret s' ->
    (forall k, (k < length ops)%nat -> match sv_run s (take k ops) with Ret x => sv_counter x < max_int64 | _ => True end) ->
    sv_reach (Some one_conn_config) 0 s').
  { induction ops as [|op ops IH]; intros s s' Hr; cbn; [by intros [= <-]|].
    destruct (sv_step s op) as [s1| |] eqn:Hs; cbn; [|done|done]. intros Hrun Hk. apply (IH s1 s'); [|done|].
    - apply (sv_reach_step _ _ s op); [done| |done]. apply (Hk 0%nat). lia.
    - intros k Hlt. specialize (Hk (S k)). cbn in Hk. rewrite Hs in Hk. cbn in Hk. apply Hk. lia. }
  apply (Hrun demo_server_ops demo_server); [done|vm_compute; reflexivity|].
  intros k Hk. do 7 (destruct k as [|k]; [vm_compute; reflexivity|]). cbn in Hk. lia.
Qed.

Lemma server_accounting_witness :
  sv_GetConnectionCount demo_served = 1 /\ size (sv_connections demo_served) = 1%nat /\
  omap handed_of (sv_told demo_served) = [0%nat] /\ NoDup (omap handed_of (sv_told demo_served)).
Proof.
  destruct (server_accounting (Some one_conn_config) 0 demo_served demo_served_reach) as (_ & _ & _ & H & _).
  split_and!; [vm_compute; reflexivity|vm_compute; reflexivity|vm_compute; reflexivity|exact H].
Defined.

Lemma restarted_server_is_dead_witness :
  exists s1 s2 : @tcpServer unit, sv_run demo_server [SStart None; SStopBegin; SAccept1 0 false (Err "closed") 0; SStopFinish] = Ret s1 /\
    (sv_Start None s1).2 = None /\ sv_running (sv_Start None s1).1 = true /\
    sv_run s1 [SStart None; SAccept1 1 false (Ok []) 0; SStopBegin] = Ret s2 /\
    sv_connections s2 = ∅ /\ wg_done s2 = true /\ sv_step s2 SStopFinish = Panic "close of closed channel".
Proof. apply (restarted_server_is_dead (Some one_conn_config) 0 demo_server false (Ok []) 0). reflexivity. Defined.
