(* ===== verification/TcpClient.v ===== *)
(** src/network/tcp_client.go and factory.go: the TCP client with its message loop
    and its reconnection, and the factory and builders of servers and clients.

    As for the server the connections live on a heap and the operations are the
    steps of the goroutines between two calls that block. A call of
    [ConnectWithTimeout] is two steps, before and after dialling; its caller is the
    program or a reconnection loop. *)

From S2P Require Import Prelude CoreTypes NetMessage TcpConn TcpServer.

Section client.
Context {U : Type}.
Notation Message := (Net.Message U).
Notation tcpConnection := (@tcpConnection U).

(** What the message handler was told. *)
Inductive heard := HMessage (i : nat) (m : Message) | HError (i : nat) (e : error).

(** A run of [messageLoop]: the connection it read when it started to run.
    [ml_early]: it was started before the context ended. *)
Record msg_loop := mkMsgLoop { ml_early : bool; ml_conn : option nat; ml_running : bool }.

(** A run of [reconnectLoop]: waiting for its ticker, dialling, or ended. *)
Inductive re_pc := RWaiting | RDialling | REnded.

Record tcpClient := mkTcpClient {
  cl_config : NetworkConfig;
  cl_conn : option nat;
  cl_msgHandler : bool;                 (** not nil *)
  cl_autoReconnect : bool;
  cl_reconnectInterval : duration;
  cl_maxReconnectAttempts : Z;
  cl_currentAttempt : Z;
  cl_connecting : bool;
  cl_connected : bool;
  cl_reconnecting : bool;
  cl_ctx : bool;                        (** not cancelled *)
  cl_targetAddress : string;
  cl_connectAttempts : Z;
  cl_successfulConnects : Z;
  cl_totalMessages : Z;
  cl_startTime : time;
  cl_conns : list tcpConnection;        (** the heap *)
  cl_counter : Z;                       (** [connectionIDCounter] *)
  cl_dials : list (option nat);         (** calls that dial: for the program, or for a loop *)
  cl_msgLoops : list msg_loop;
  cl_reLoops : list re_pc;
  cl_heard : list heard;
}.

Definition NewTCPClient (config : option NetworkConfig) (now : time) : res tcpClient :=
  let config := match config with Some c => c | None => DefaultNetworkConfig end in
  if negb (eqs (nc_Protocol config) ProtocolTCP) then Err ("invalid protocol for TCP client: " +:+ nc_Protocol config)
  else Ok (mkTcpClient config None false false (nc_ReconnectInterval config) (nc_MaxReconnectAttempts config) 0 false false false
             true "" 0 0 0 now [] 0 [] [] [] []).

(** Setters *)
Definition cl_set_state (conn : option nat) (connecting connected reconnecting ctx : bool) (c : tcpClient) : tcpClient :=
  mkTcpClient (cl_config c) conn (cl_msgHandler c) (cl_autoReconnect c) (cl_reconnectInterval c) (cl_maxReconnectAttempts c)
    (cl_currentAttempt c) connecting connected reconnecting ctx (cl_targetAddress c) (cl_connectAttempts c)
    (cl_successfulConnects c) (cl_totalMessages c) (cl_startTime c) (cl_conns c) (cl_counter c) (cl_dials c) (cl_msgLoops c)
    (cl_reLoops c) (cl_heard c).
Definition cl_set_counts (attempt : Z) (target : string) (attempts successes messages : Z) (c : tcpClient) : tcpClient :=
  mkTcpClient (cl_config c) (cl_conn c) (cl_msgHandler c) (cl_autoReconnect c) (cl_reconnectInterval c) (cl_maxReconnectAttempts c)
    attempt (cl_connecting c) (cl_connected c) (cl_reconnecting c) (cl_ctx c) target attempts successes messages
    (cl_startTime c) (cl_conns c) (cl_counter c) (cl_dials c) (cl_msgLoops c) (cl_reLoops c) (cl_heard c).
Definition cl_set_conns (l : list tcpConnection) (n : Z) (c : tcpClient) : tcpClient :=
  mkTcpClient (cl_config c) (cl_conn c) (cl_msgHandler c) (cl_autoReconnect c) (cl_reconnectInterval c) (cl_maxReconnectAttempts c)
    (cl_currentAttempt c) (cl_connecting c) (cl_connected c) (cl_reconnecting c) (cl_ctx c) (cl_targetAddress c)
    (cl_connectAttempts c) (cl_successfulConnects c) (cl_totalMessages c) (cl_startTime c) l n (cl_dials c) (cl_msgLoops c)
    (cl_reLoops c) (cl_heard c).
Definition cl_set_goroutines (dials : list (option nat)) (ms : list msg_loop) (rs : list re_pc) (c : tcpClient) : tcpClient :=
  mkTcpClient (cl_config c) (cl_conn c) (cl_msgHandler c) (cl_autoReconnect c) (cl_reconnectInterval c) (cl_maxReconnectAttempts c)
    (cl_currentAttempt c) (cl_connecting c) (cl_connected c) (cl_reconnecting c) (cl_ctx c) (cl_targetAddress c)
    (cl_connectAttempts c) (cl_successfulConnects c) (cl_totalMessages c) (cl_startTime c) (cl_conns c) (cl_counter c) dials ms rs
    (cl_heard c).
Definition cl_set_options (handler auto : bool) (interval : duration) (c : tcpClient) : tcpClient :=
  mkTcpClient (cl_config c) (cl_conn c) handler auto interval (cl_maxReconnectAttempts c)
    (cl_currentAttempt c) (cl_connecting c) (cl_connected c) (cl_reconnecting c) (cl_ctx c) (cl_targetAddress c)
    (cl_connectAttempts c) (cl_successfulConnects c) (cl_totalMessages c) (cl_startTime c) (cl_conns c) (cl_counter c)
    (cl_dials c) (cl_msgLoops c) (cl_reLoops c) (cl_heard c).
Definition cl_hear (h : list heard) (c : tcpClient) : tcpClient :=
  mkTcpClient (cl_config c) (cl_conn c) (cl_msgHandler c) (cl_autoReconnect c) (cl_reconnectInterval c) (cl_maxReconnectAttempts c)
    (cl_currentAttempt c) (cl_connecting c) (cl_connected c) (cl_reconnecting c) (cl_ctx c) (cl_targetAddress c)
    (cl_connectAttempts c) (cl_successfulConnects c) (cl_totalMessages c) (cl_startTime c) (cl_conns c) (cl_counter c)
    (cl_dials c) (cl_msgLoops c) (cl_reLoops c) (cl_heard c ++ h).

(** ** Connecting *)

(** [ConnectWithTimeout] up to the dial, for the program or a loop. *)
Definition connect_begin (who : option nat) (address : string) (c : tcpClient) : tcpClient * option error :=
  if cl_connecting c then (c, Some "connection already in progress")
  else
    let c1 := cl_set_state (cl_conn c) true (cl_connected c) (cl_reconnecting c) (cl_ctx c) c in
    let c2 := cl_set_counts (cl_currentAttempt c1) address (i64 (cl_connectAttempts c1 + 1)) (cl_successfulConnects c1)
                (cl_totalMessages c1) c1 in
    (cl_set_goroutines (cl_dials c2 ++ [who]) (cl_msgLoops c2) (cl_reLoops c2) c2, None).

(** What follows a dial that succeeds. A reconnection loop makes a ticker, which
    panics unless its interval is positive. *)
Definition connected_on (sock : list (res bytes)) (now : time) (c : tcpClient) : go tcpClient :=
  let '(n, t0) := NewTCPConnection (cl_counter c) (Some sock) now in
  let t := SetWriteTimeout (nc_WriteTimeout (cl_config c)) (SetReadTimeout (nc_ReadTimeout (cl_config c)) t0) in
  let i := length (cl_conns c) in
  let c1 := cl_set_state (Some i) (cl_connecting c) true (cl_reconnecting c) (cl_ctx c) (cl_set_conns (cl_conns c ++ [t]) n c) in
  let c2 := cl_set_counts (cl_currentAttempt c1) (cl_targetAddress c1) (cl_connectAttempts c1)
              (i64 (cl_successfulConnects c1 + 1)) (cl_totalMessages c1) c1 in
  let ms := if cl_msgHandler c2 then cl_msgLoops c2 ++ [mkMsgLoop (cl_ctx c2) None true] else cl_msgLoops c2 in
  if cl_autoReconnect c2 then
    if cl_reconnectInterval c2 <=? 0 then Panic "non-positive interval for NewTicker"
    else Ret (cl_set_goroutines (cl_dials c2) ms (cl_reLoops c2 ++ [RWaiting]) c2)
  else Ret (cl_set_goroutines (cl_dials c2) ms (cl_reLoops c2) c2).

(** The end of a call: the flag, and what [attemptReconnect] does after it. *)
Definition call_done (d : nat) (who : option nat) (ok : bool) (c : tcpClient) : tcpClient :=
  let c1 := cl_set_state (cl_conn c) false (cl_connected c) (match who with Some _ => false | None => cl_reconnecting c end)
              (cl_ctx c) c in
  let c2 := match who with
            | Some _ => cl_set_counts (if ok then 0 else cl_currentAttempt c1) (cl_targetAddress c1) (cl_connectAttempts c1)
                          (cl_successfulConnects c1) (cl_totalMessages c1) c1
            | None => c1
            end in
  cl_set_goroutines (delete d (cl_dials c2)) (cl_msgLoops c2)
    (match who with Some k => <[k := RWaiting]> (cl_reLoops c2) | None => cl_reLoops c2 end) c2.

(** [ConnectWithTimeout] after the dial [d]. *)
Definition connect_end (d : nat) (dialled : res (list (res bytes))) (now : time) (c : tcpClient) : go (tcpClient * res nat) :=
  match cl_dials c !! d with
  | None => Ret (c, Err "")
  | Some who =>
      match dialled with
      | Err e => Ret (call_done d who false c, Err ("failed to connect to " +:+ cl_targetAddress c +:+ ": " +:+ e))
      | Ok sock => c1 ← connected_on sock now c; Ret (call_done d who true c1, Ok (length (cl_conns c)))
      end
  end.

(** ** Disconnecting *)

(** [Disconnect] up to where it forgets the connection, from there to its wait, and
    when it can return. *)
Definition Disconnect_close (closeErr : option error) (c : tcpClient) : go tcpClient :=
  let c1 := cl_set_state (cl_conn c) (cl_connecting c) (cl_connected c) (cl_reconnecting c) false c in
  match cl_conn c1 with
  | None => Ret c1
  | Some i =>
      match cl_conns c1 !! i with
      | None => nil_conn
      | Some t =>
          '(t', _) ← Close closeErr t;
          Ret (cl_set_state (cl_conn c1) (cl_connecting c1) false (cl_reconnecting c1) (cl_ctx c1)
                 (cl_set_conns (<[i := t']> (cl_conns c1)) (cl_counter c1) c1))
      end
  end.
Definition Disconnect_forget (c : tcpClient) : tcpClient :=
  cl_set_state None (cl_connecting c) (cl_connected c) (cl_reconnecting c) (cl_ctx c) c.
Definition cl_wg_done (c : tcpClient) : bool :=
  forallb (fun m => negb (ml_running m)) (cl_msgLoops c) && forallb (fun r => match r with REnded => true | _ => false end) (cl_reLoops c).

Definition cl_GetConnection (c : tcpClient) : option nat := cl_conn c.
Definition SetAutoReconnect (enabled : bool) (interval : duration) (c : tcpClient) : tcpClient :=
  cl_set_options (cl_msgHandler c) enabled (if 0 <? interval then interval else cl_reconnectInterval c) c.
Definition cl_SetMessageHandler (handler : bool) (c : tcpClient) : tcpClient :=
  let c1 := cl_set_options handler (cl_autoReconnect c) (cl_reconnectInterval c) c in
  if cl_connected c && handler
  then cl_set_goroutines (cl_dials c1) (cl_msgLoops c1 ++ [mkMsgLoop (cl_ctx c1) None true]) (cl_reLoops c1) c1 else c1.
Definition IsConnected (c : tcpClient) : bool := cl_connected c.

Definition cl_SendMessage (setErr writeErr : option error) (msg : option Message) (now : time) (c : tcpClient)
    : go (tcpClient * res unit) :=
  match cl_GetConnection c with
  | None => Ret (c, Err "client is not connected")
  | Some i =>
      match cl_conns c !! i with
      | None => nil_conn
      | Some t =>
          '(t', _, e) ← SendMessage setErr writeErr now msg t;
          let c1 := cl_set_conns (<[i := t']> (cl_conns c)) (cl_counter c) c in
          Ret (if is_ok e
               then cl_set_counts (cl_currentAttempt c1) (cl_targetAddress c1) (cl_connectAttempts c1) (cl_successfulConnects c1)
                      (i64 (cl_totalMessages c1 + 1)) c1
               else c1, e)
      end
  end.

Record ClientStatistics := mkClientStatistics {
  ks_TargetAddress : string;
  ks_Protocol : string;
  ks_Connected : bool;
  ks_StartTime : time;
  ks_Uptime : duration;
  ks_ConnectAttempts : Z;
  ks_SuccessfulConnects : Z;
  ks_TotalMessages : Z;
  ks_AutoReconnect : bool;
  ks_ReconnectInterval : duration;
  ks_ConnectionStats : option ConnectionStatistics;   (** [None]: the zero value *)
}.

Definition cl_GetStatistics (remote local : string) (now : time) (c : tcpClient) : go ClientStatistics :=
  st ← (match cl_conn c ≫= (fun i => cl_conns c !! i) with
        | Some t => s ← GetStatistics remote local t; Ret (Some s)
        | None => Ret None
        end);
  Ret (mkClientStatistics (cl_targetAddress c) (nc_Protocol (cl_config c)) (IsConnected c) (cl_startTime c)
         (time_sub now (cl_startTime c)) (cl_connectAttempts c) (cl_successfulConnects c) (cl_totalMessages c) (cl_autoReconnect c)
         (cl_reconnectInterval c) st).

(** ** The message loop *)

Definition set_msg_loop (k : nat) (m : msg_loop) (c : tcpClient) : tcpClient :=
  cl_set_goroutines (cl_dials c) (<[k := m]> (cl_msgLoops c)) (cl_reLoops c) c.

(** One turn of [messageLoop] [k]; [late]: it looked at the context, and at the flag,
    before they changed. *)
Definition messageLoop1 (k : nat) (late : bool) (setErr : option error) (now : time) (c : tcpClient) : go tcpClient :=
  match cl_msgLoops c !! k with
  | Some (mkMsgLoop early conn true) =>
      match (match conn with Some i => Some i | None => cl_conn c end) with
      | None => Ret (set_msg_loop k (mkMsgLoop early None false) c)
      | Some i =>
          let c0 := set_msg_loop k (mkMsgLoop early (Some i) true) c in
          let ended := set_msg_loop k (mkMsgLoop early (Some i) false) in
          if negb (cl_ctx c) && negb (late && early) then Ret (ended c0)
          else if negb (cl_connected c) && negb late then Ret (ended c0)
          else match cl_conns c !! i with
               | None => nil_conn
               | Some t =>
                   '(t', m) ← ReadMessage setErr now t;
                   let c1 := cl_set_conns (<[i := t']> (cl_conns c0)) (cl_counter c0) c0 in
                   match m with
                   | Err e =>
                       let c2 := if cl_msgHandler c then cl_hear [HError i e] c1 else c1 in
                       Ret (ended (cl_set_state (cl_conn c2) (cl_connecting c2) false (cl_reconnecting c2) (cl_ctx c2) c2))
                   | Ok m =>
                       let c2 := if cl_msgHandler c then cl_hear [HMessage i m] c1 else c1 in
                       Ret (cl_set_counts (cl_currentAttempt c2) (cl_targetAddress c2) (cl_connectAttempts c2)
                              (cl_successfulConnects c2) (i64 (cl_totalMessages c2 + 1)) c2)
                   end
               end
      end
  | _ => Ret c
  end.

(** ** Reconnection *)

(** [attemptReconnect] of loop [k] up to the dial. *)
Definition attempt_begin (k : nat) (c : tcpClient) : tcpClient :=
  if cl_reconnecting c then c
  else if eqs (cl_targetAddress c) "" then c
  else if (0 <? cl_maxReconnectAttempts c) && (cl_maxReconnectAttempts c <=? cl_currentAttempt c) then c
  else
    let c1 := cl_set_counts (i64 (cl_currentAttempt c + 1)) (cl_targetAddress c) (cl_connectAttempts c) (cl_successfulConnects c)
                (cl_totalMessages c) c in
    match connect_begin (Some k) (cl_targetAddress c1) c1 with
    | (c2, Some _) => c2
    | (c2, None) =>
        let c3 := cl_set_state (cl_conn c2) (cl_connecting c2) (cl_connected c2) true (cl_ctx c2) c2 in
        cl_set_goroutines (cl_dials c3) (cl_msgLoops c3) (<[k := RDialling]> (cl_reLoops c3)) c3
    end.

(** One turn of [reconnectLoop] [k]: [ended] when the select takes the ended context. *)
Definition reconnectLoop1 (k : nat) (ended : bool) (c : tcpClient) : tcpClient :=
  match cl_reLoops c !! k with
  | Some RWaiting =>
      if ended then
        if cl_ctx c then c else cl_set_goroutines (cl_dials c) (cl_msgLoops c) (<[k := REnded]> (cl_reLoops c)) c
      else if negb (IsConnected c) && negb (cl_reconnecting c) then attempt_begin k c
      else c
  | _ => c
  end.

(** ** Interleavings *)

Inductive clop :=
| KConnect (address : string)
| KDialled (d : nat) (dialled : res (list (res bytes))) (now : time)
| KClose (e : option error)
| KForget
| KAuto (enabled : bool) (interval : duration)
| KHandler (b : bool)
| KSend (msg : option Message) (now : time)
| KMessage (k : nat) (late : bool) (setErr : option error) (now : time)
| KTick (k : nat) (ended : bool).

Definition cl_step (c : tcpClient) (op : clop) : go tcpClient :=
  match op with
  | KConnect a => Ret (connect_begin None a c).1
  | KDialled d r now => '(c', _) ← connect_end d r now c; Ret c'
  | KClose e => Disconnect_close e c
  | KForget => Ret (Disconnect_forget c)
  | KAuto b i => Ret (SetAutoReconnect b i c)
  | KHandler b => Ret (cl_SetMessageHandler b c)
  | KSend m now => '(c', _) ← cl_SendMessage None None m now c; Ret c'
  | KMessage k late e now => messageLoop1 k late e now c
  | KTick k e => Ret (reconnectLoop1 k e c)
  end.

Fixpoint cl_run (c : tcpClient) (ops : list clop) : go tcpClient :=
  match ops with [] => Ret c | op :: ops' => c1 ← cl_step c op; cl_run c1 ops' end.

Inductive cl_reach (config : option NetworkConfig) (now : time) : tcpClient -> Prop :=
| cl_reach_new c : NewTCPClient config now = Ok c -> cl_reach config now c
| cl_reach_step c op c' : cl_reach config now c -> cl_step c op = Ret c' -> cl_reach config now c'.

(** ** One dial at a time, and not too many in a row *)

Record dial_inv (c : tcpClient) : Prop := {
  dl_one : cl_dials c = [] \/ exists who, cl_dials c = [who];
  dl_flag : cl_connecting c = bool_decide (cl_dials c <> []);
  dl_max : cl_maxReconnectAttempts c = nc_MaxReconnectAttempts (cl_config c);
  dl_bound : 0 < cl_maxReconnectAttempts c <= max_int64 -> 0 <= cl_currentAttempt c <= cl_maxReconnectAttempts c;
}.

Lemma dial_same c c' : cl_dials c' = cl_dials c -> cl_connecting c' = cl_connecting c -> cl_config c' = cl_config c ->
  cl_maxReconnectAttempts c' = cl_maxReconnectAttempts c -> cl_currentAttempt c' = cl_currentAttempt c -> dial_inv c -> dial_inv c'.
Proof. intros H1 H2 H3 H4 H5 [A B C D]. split; rewrite ?H1 ?H2 ?H3 ?H4 ?H5; done. Qed.

Lemma dial_begin who a c : dial_inv c -> dial_inv (connect_begin who a c).1.
Proof.
  intros H. unfold connect_begin. destruct (cl_connecting c) eqn:Hc; [done|]. destruct H as [A B C D]. rewrite Hc in B.
  assert (Hd : cl_dials c = []) by (destruct A as [|[w Hw]]; [done|rewrite Hw in B; by rewrite bool_decide_true in B]).
  split; cbn; rewrite ?Hd; cbn; [right; by exists who|by rewrite ?bool_decide_true|done|done].
Qed.

Lemma dial_done d who ok c : dial_inv c -> cl_dials c !! d = Some who -> dial_inv (call_done d who ok c).
Proof.
  intros [A B C D] Hd. assert (Hdel : delete d (cl_dials c) = []).
  { destruct A as [E | [w E]]; rewrite E in Hd |- *; [done|]. by destruct d. }
  unfold call_done. destruct who; cbn; (split; cbn; rewrite ?Hdel; [by left|by rewrite ?bool_decide_false|done|]); [|done].
  intros Hm. specialize (D Hm). destruct ok; lia.
Qed.

Lemma dial_connected sock now c c' : dial_inv c -> connected_on sock now c = Ret c' -> dial_inv c' /\ cl_dials c' = cl_dials c.
Proof.
  intros H. unfold connected_on. destruct (NewTCPConnection _ _ _) as [n t]. cbn.
  destruct (cl_autoReconnect c); [destruct (cl_reconnectInterval c <=? 0); [done|]|]; intros [= <-]; (split; [by apply (dial_same c)|done]).
Qed.

Lemma dial_attempt k c : dial_inv c -> dial_inv (attempt_begin k c).
Proof.
  intros H. unfold attempt_begin. destruct (cl_reconnecting c); [done|]. destruct (eqs _ ""); [done|].
  destruct (_ && _) eqn:Hlim; [done|]. cbn zeta. set (c1 := cl_set_counts _ _ _ _ _ c).
  assert (H1 : dial_inv c1).
  { destruct H as [A B C D]. split; cbn; [done|done|done|]. intros Hm. specialize (D Hm).
    rewrite (proj2 (Z.ltb_lt _ _)) in Hlim; [lia|]. cbn in Hlim. apply Z.leb_gt in Hlim. rewrite i64_small; unfold max_int64 in *; lia. }
  pose proof (dial_begin (Some k) (cl_targetAddress c1) c1 H1) as Hb.
  destruct (connect_begin (Some k) (cl_targetAddress c1) c1) as [c2 [e|]]; [done|]. by apply (dial_same c2).
Qed.

Lemma dial_step c op c' : dial_inv c -> cl_step c op = Ret c' -> dial_inv c'.
Proof.
  intros H. destruct op as [a|d r now|e| |b i|b|m now|k late e now|k e]; cbn [cl_step].
  - intros [= <-]. by apply dial_begin.
  - unfold connect_end. destruct (cl_dials c !! d) as [who|] eqn:Hd; [|by intros [= <-]].
    destruct r as [sock|e]; [|intros [= <-]; by apply dial_done].
    destruct (connected_on sock now c) as [c1| |] eqn:Hc; cbn [mbind go_bind]; [|done|done]. intros [= <-].
    destruct (dial_connected _ _ _ _ H Hc) as [H1 Hd1]. apply dial_done; [done|by rewrite Hd1].
  - unfold Disconnect_close. cbn. destruct (cl_conn c) as [i|]; [|intros [= <-]; by apply (dial_same c)].
    destruct (cl_conns c !! i); [|done]. destruct (Close e _) as [[t' e']| |]; cbn [mbind go_bind]; [|done|done].
    intros [= <-]. by apply (dial_same c).
  - intros [= <-]. by apply (dial_same c).
  - intros [= <-]. by apply (dial_same c).
  - intros [= <-]. unfold cl_SetMessageHandler. destruct (cl_connected c && b); by apply (dial_same c).
  - unfold cl_SendMessage, cl_GetConnection. destruct (cl_conn c) as [i|]; [|by intros [= <-]]. destruct (cl_conns c !! i); [|done].
    destruct (SendMessage _ _ _ _ _) as [[[t' m'] e]| |]; cbn [mbind go_bind]; [|done|done]. intros [= <-].
    destruct (is_ok e); by apply (dial_same c).
  - unfold messageLoop1. destruct (cl_msgLoops c !! k) as [[early conn []]|]; try by intros [= <-].
    destruct (match conn with Some i => Some i | None => cl_conn c end) as [i|]; [|intros [= <-]; by apply (dial_same c)].
    cbn zeta. destruct (negb (cl_ctx c) && _); [intros [= <-]; by apply (dial_same c)|].
    destruct (negb (cl_connected c) && _); [intros [= <-]; by apply (dial_same c)|].
    destruct (cl_conns c !! i) as [t|]; [|done]. destruct (ReadMessage e now t) as [[t' m]| |]; cbn [mbind go_bind]; [|done|done].
    destruct m; intros [= <-]; destruct (cl_msgHandler c); by apply (dial_same c).
  - intros [= <-]. unfold reconnectLoop1. destruct (cl_reLoops c !! k) as [[]|]; try done.
    destruct e; [destruct (cl_ctx c); [done|by apply (dial_same c)]|].
    destruct (negb (IsConnected c) && _); [by apply dial_attempt|done].
Qed.

Lemma dial_reach config now c : cl_reach config now c -> dial_inv c.
Proof.
  induction 1 as [c Hn|c op c' _ IH Hs]; [|exact (dial_step _ _ _ IH Hs)].
  unfold NewTCPClient in Hn. destruct (negb _); [done|]. injection Hn as <-. split; cbn; [by left|by rewrite ?bool_decide_false|done|lia].
Qed.


(** ** After [Disconnect] *)

(** What a connect of the program that succeeds leaves behind. *)
Lemma connect_ok c a sock t :
  cl_connecting c = false -> cl_dials c = [] -> cl_autoReconnect c = false ->
  exists c1 t0, cl_run c [KConnect a; KDialled 0 (Ok sock) t] = Ret c1 /\
    cl_connected c1 = true /\ cl_conn c1 = Some (length (cl_conns c)) /\ cl_conns c1 = cl_conns c ++ [t0] /\
    cl_msgLoops c1 = (if cl_msgHandler c then cl_msgLoops c ++ [mkMsgLoop (cl_ctx c) None true] else cl_msgLoops c) /\
    cl_ctx c1 = cl_ctx c /\ cl_heard c1 = cl_heard c /\ cl_msgHandler c1 = cl_msgHandler c.
Proof.
  destruct c as [cfg conn h au iv mx at_ cg cd rc ctx ta ca sc tm st cs cn ds ml rl he]. cbn. intros -> -> ->.
  cbn -[NewTCPConnection i64]. unfold connect_end, connected_on. cbn -[NewTCPConnection i64].
  destruct (NewTCPConnection cn (Some sock) t) as [n t0]. cbn -[i64]. do 2 eexists. split; [reflexivity|]. done.
Qed.

(** [Disconnect] cancels the context of the client for good: a later connect
    succeeds, but the message loop it starts ends at its first turn, so that no
    message of the new connection reaches the handler. *)
Theorem deaf_after_disconnect c a sock t e late t' :
  cl_ctx c = false -> cl_connecting c = false -> cl_dials c = [] -> cl_msgHandler c = true -> cl_autoReconnect c = false ->
  exists c1 c2, cl_run c [KConnect a; KDialled 0 (Ok sock) t] = Ret c1 /\
    IsConnected c1 = true /\ cl_GetConnection c1 = Some (length (cl_conns c)) /\
    cl_step c1 (KMessage (length (cl_msgLoops c)) late e t') = Ret c2 /\
    cl_heard c2 = cl_heard c /\ cl_msgLoops c2 !! length (cl_msgLoops c) = Some (mkMsgLoop false (Some (length (cl_conns c))) false).
Proof.
  intros Hctx Hcg Hds Hh Hau. destruct (connect_ok c a sock t Hcg Hds Hau) as (c1 & t0 & Hrun & H1 & H2 & H3 & H4 & H5 & H6 & H7).
  rewrite Hh Hctx in H4. exists c1. eexists. split; [done|]. split; [done|]. split; [done|]. split.
  { cbn [cl_step]. unfold messageLoop1. rewrite H4 list_lookup_middle //. rewrite H2 H5 Hctx andb_false_r. reflexivity. }
  split; [exact H6|]. cbn. rewrite list_lookup_insert_eq; [|done]. rewrite length_insert H4 length_app /=. lia.
Qed.

(** ** Reconnection loops pile up *)

(** A client that is connected for the [n]th time and keeps reconnecting. *)
Record reconnected (n : nat) (c : tcpClient) : Prop := {
  rn_handler : cl_msgHandler c = true;
  rn_auto : cl_autoReconnect c = true;
  rn_interval : 0 < cl_reconnectInterval c;
  rn_ctx : cl_ctx c = true;
  rn_flags : cl_connecting c = false /\ cl_connected c = true /\ cl_reconnecting c = false /\ cl_dials c = [];
  rn_target : cl_targetAddress c <> "";
  rn_attempt : cl_currentAttempt c = 0;
  rn_conns : length (cl_conns c) = S n /\ Forall (fun t => tc_closed t = false) (cl_conns c);
  rn_conn : cl_conn c = Some n /\ exists t, cl_conns c !! n = Some t /\ tc_conn t = true /\ tc_in t = [];
  rn_msgs : length (cl_msgLoops c) = S n /\ cl_msgLoops c !! n = Some (mkMsgLoop true None true);
  rn_loops : cl_reLoops c = replicate (S n) RWaiting;
}.

(** The server closes the connection, a loop ticks, and the dial succeeds. *)
Definition lost_and_found (n : nat) (t : time) : list clop := [KMessage n false None t; KTick 0 false; KDialled 0 (Ok []) t].
Fixpoint rounds (n : nat) (t : time) : list clop :=
  match n with O => [] | S n' => rounds n' t ++ lost_and_found n' t end.

Lemma ReadMessage_eof now (t : tcpConnection) : tc_closed t = false -> tc_conn t = true -> tc_in t = [] ->
  ReadMessage None now t = Ret (with_reads [] 0 t, Err "failed to read message header: EOF").
Proof.
  intros Hc Hn Hi. unfold ReadMessage, readFull. rewrite Hc Hn Hi. cbn [negb]. destruct (0 <? tc_readTimeout t); cbn [length Nat.add];
    cbn [read_loop]; rewrite Hi; reflexivity.
Qed.

Record lost_conn (n : nat) (c : tcpClient) : Prop := {
  ln_handler : cl_msgHandler c = true;
  ln_auto : cl_autoReconnect c = true;
  ln_interval : 0 < cl_reconnectInterval c;
  ln_ctx : cl_ctx c = true;
  ln_flags : cl_connecting c = false /\ cl_connected c = false /\ cl_reconnecting c = false /\ cl_dials c = [];
  ln_target : cl_targetAddress c <> "";
  ln_attempt : cl_currentAttempt c = 0;
  ln_conns : length (cl_conns c) = S n /\ Forall (fun t => tc_closed t = false) (cl_conns c);
  ln_msgs : length (cl_msgLoops c) = S n;
  ln_loops : cl_reLoops c = replicate (S n) RWaiting;
}.

(** The message loop of the lost connection marks the client as disconnected. *)
Lemma lose n t c : reconnected n c -> exists c1, cl_step c (KMessage n false None t) = Ret c1 /\ lost_conn n c1.
Proof.
  intros [Hh Hau Hiv Hctx (Hcg & Hcd & Hrc & Hds) Hta Hat (Hlen & Hop) (Hcn & u & Hu & Huc & Hui) (Hml & Hmn) Hrl].
  assert (Huo : tc_closed u = false) by exact (Forall_lookup_1 _ _ _ _ Hop Hu).
  cbn [cl_step]. unfold messageLoop1. rewrite Hmn Hcn Hctx Hcd Hu (ReadMessage_eof t u Huo Huc Hui) Hh. cbn.
  eexists. split; [reflexivity|]. split; cbn; rewrite ?length_insert; try done. split; [done|by apply Forall_insert].
Qed.

(** The first loop dials, the dial succeeds, and one more loop runs. *)
Lemma find_again n t c : lost_conn n c -> exists c2, cl_run c [KTick 0 false; KDialled 0 (Ok []) t] = Ret c2 /\ reconnected (S n) c2.
Proof.
  destruct c as [cfg conn h au iv mx at_ cg cd rc ctx ta ca sc tm st cs cn ds ml rl he].
  intros [Hh Hau Hiv Hctx (Hcg & Hcd & Hrc & Hds) Hta Hat (Hlen & Hop) Hml Hrl]. cbn in *. subst.
  unfold reconnectLoop1. cbn -[i64 NewTCPConnection]. unfold attempt_begin. cbn -[i64 NewTCPConnection].
  assert (Hne : eqs ta "" = false) by (apply not_true_iff_false; by rewrite eqs_true). rewrite Hne.
  assert (Hlim : (0 <? mx) && (mx <=? 0) = false) by (destruct (0 <? mx) eqn:E; [|done]; cbn; apply Z.leb_gt; lia). rewrite Hlim.
  cbn -[i64 NewTCPConnection]. unfold connect_end, connected_on. cbn -[i64 NewTCPConnection].
  destruct (NewTCPConnection cn (Some []) t) as [m u] eqn:Hnew.
  assert (Hu : tc_closed u = false /\ tc_conn u = true /\ tc_in u = []) by (unfold NewTCPConnection in Hnew; by injection Hnew as _ <-).
  destruct Hu as (Hu1 & Hu2 & Hu3). cbn -[i64]. rewrite (proj2 (Z.leb_gt _ _) Hiv). cbn -[i64]. eexists. split; [reflexivity|].
  split; cbn -[i64]; try done; rewrite ?length_app ?Hlen ?Hml; cbn [length].
  - split; [lia|]. apply Forall_app. split; [done|]. by repeat constructor.
  - split; [done|]. eexists. split; [by rewrite -Hlen list_lookup_middle|]. by cbn.
  - split; [lia|]. by rewrite -Hml list_lookup_middle.
  - f_equal. change (RWaiting :: replicate n RWaiting) with (replicate (S n) RWaiting). rewrite -[RWaiting :: []]/(replicate 1 RWaiting) -replicate_add.
    by rewrite Nat.add_comm.
Qed.

Lemma cl_run_app ops ops' c c1 : cl_run c ops = Ret c1 -> cl_run c (ops ++ ops') = cl_run c1 ops'.
Proof.
  revert c. induction ops as [|op ops IH]; intros c; cbn; [by intros [= ->]|]. destruct (cl_step c op); cbn; [apply IH|done|done].
Qed.

(** Every successful reconnection starts one more reconnection loop and leaves
    the lost connection unclosed: after [n] of them [n+1] loops are ticking and
    [n+1] connections are open. *)
Theorem reconnect_loops_pile_up n c t :
  reconnected 0 c ->
  exists c', cl_run c (rounds n t) = Ret c' /\ cl_reLoops c' = replicate (S n) RWaiting /\
    length (cl_conns c') = S n /\ Forall (fun t => tc_closed t = false) (cl_conns c') /\ cl_connected c' = true.
Proof.
  intros H. assert (Hn : exists c', cl_run c (rounds n t) = Ret c' /\ reconnected n c').
  { induction n as [|n (c1 & Hr & H1)]; [by exists c|]. cbn [rounds]. rewrite (cl_run_app _ _ _ _ Hr).
    destruct (lose n t c1 H1) as (c2 & Hs & H2). destruct (find_again n t c2 H2) as (c3 & Hs3 & H3).
    exists c3. split; [|done]. unfold lost_and_found. cbn [cl_run]. rewrite Hs. exact Hs3. }
  destruct Hn as (c' & Hr & [_ _ _ _ (_ & Hcd & _) _ _ (Hlen & Hop) _ _ Hrl]). by exists c'.
Qed.

End client.

(** ** The factory and the builders (factory.go)

    A configuration is passed by pointer: the helpers that set its protocol write
    into the caller's, which is returned here too. *)

Section factory.
Context {U : Type}.

Definition CreateServer (config : option NetworkConfig) (now : time) : res (@tcpServer U) :=
  match config with
  | None => Err "config is nil"
  | Some c =>
      if eqs (nc_Protocol c) ProtocolTCP then NewTCPServer (Some c) now
      else if eqs (nc_Protocol c) ProtocolUDP then Err "UDP server not implemented yet"
      else Err ("unsupported protocol: " +:+ nc_Protocol c)
  end.
Definition CreateClient (config : option NetworkConfig) (now : time) : res (@tcpClient U) :=
  match config with
  | None => Err "config is nil"
  | Some c =>
      if eqs (nc_Protocol c) ProtocolTCP then NewTCPClient (Some c) now
      else if eqs (nc_Protocol c) ProtocolUDP then Err "UDP client not implemented yet"
      else Err ("unsupported protocol: " +:+ nc_Protocol c)
  end.

Definition nc_set_Protocol (p : Protocol) (c : NetworkConfig) : NetworkConfig :=
  mkNetworkConfig p (nc_Address c) (nc_Port c) (nc_ReadTimeout c) (nc_WriteTimeout c) (nc_KeepAlive c) (nc_KeepAliveInterval c)
    (nc_MaxConnections c) (nc_BufferSize c) (nc_HeartbeatInterval c) (nc_ReconnectInterval c) (nc_MaxReconnectAttempts c).
Definition nc_set_listen (addr : string) (port : Z) (c : NetworkConfig) : NetworkConfig :=
  mkNetworkConfig (nc_Protocol c) addr port (nc_ReadTimeout c) (nc_WriteTimeout c) (nc_KeepAlive c) (nc_KeepAliveInterval c)
    (nc_MaxConnections c) (nc_BufferSize c) (nc_HeartbeatInterval c) (nc_ReconnectInterval c) (nc_MaxReconnectAttempts c).
Definition nc_set_limits (maxconns buffer : Z) (keep : bool) (attempts : Z) (c : NetworkConfig) : NetworkConfig :=
  mkNetworkConfig (nc_Protocol c) (nc_Address c) (nc_Port c) (nc_ReadTimeout c) (nc_WriteTimeout c) keep (nc_KeepAliveInterval c)
    maxconns buffer (nc_HeartbeatInterval c) (nc_ReconnectInterval c) attempts.

Definition CreateTCPServer (config : option NetworkConfig) (now : time) : NetworkConfig * res (@tcpServer U) :=
  let c := nc_set_Protocol ProtocolTCP (default DefaultNetworkConfig config) in (c, CreateServer (Some c) now).
Definition CreateTCPClient (config : option NetworkConfig) (now : time) : NetworkConfig * res (@tcpClient U) :=
  let c := nc_set_Protocol ProtocolTCP (default DefaultNetworkConfig config) in (c, CreateClient (Some c) now).
Definition CreateSimpleTCPServer (port : Z) (now : time) : res (@tcpServer U) :=
  (CreateTCPServer (Some (nc_set_listen (nc_Address DefaultNetworkConfig) port DefaultNetworkConfig)) now).2.
Definition CreateSimpleTCPClient (now : time) : res (@tcpClient U) := (CreateTCPClient None now).2.

(** The builders hold a configuration. *)
Record ServerBuilder := mkServerBuilder { sb_config : NetworkConfig }.
Definition NewServerBuilder : ServerBuilder := mkServerBuilder DefaultNetworkConfig.
Definition sb_Protocol (p : Protocol) (sb : ServerBuilder) : ServerBuilder := mkServerBuilder (nc_set_Protocol p (sb_config sb)).
Definition sb_Address (addr : string) (sb : ServerBuilder) : ServerBuilder :=
  mkServerBuilder (nc_set_listen addr (nc_Port (sb_config sb)) (sb_config sb)).
Definition sb_Port (port : Z) (sb : ServerBuilder) : ServerBuilder :=
  mkServerBuilder (nc_set_listen (nc_Address (sb_config sb)) port (sb_config sb)).
Definition sb_MaxConnections (max : Z) (sb : ServerBuilder) : ServerBuilder :=
  let c := sb_config sb in mkServerBuilder (nc_set_limits max (nc_BufferSize c) (nc_KeepAlive c) (nc_MaxReconnectAttempts c) c).
Definition sb_BufferSize (size : Z) (sb : ServerBuilder) : ServerBuilder :=
  let c := sb_config sb in mkServerBuilder (nc_set_limits (nc_MaxConnections c) size (nc_KeepAlive c) (nc_MaxReconnectAttempts c) c).
Definition sb_KeepAlive (enabled : bool) (sb : ServerBuilder) : ServerBuilder :=
  let c := sb_config sb in mkServerBuilder (nc_set_limits (nc_MaxConnections c) (nc_BufferSize c) enabled (nc_MaxReconnectAttempts c) c).
Definition sb_Build (now : time) (sb : ServerBuilder) : res (@tcpServer U) := CreateServer (Some (sb_config sb)) now.

Record ClientBuilder := mkClientBuilder { kb_config : NetworkConfig }.
Definition NewClientBuilder : ClientBuilder := mkClientBuilder DefaultNetworkConfig.
Definition kb_Protocol (p : Protocol) (cb : ClientBuilder) : ClientBuilder := mkClientBuilder (nc_set_Protocol p (kb_config cb)).
Definition kb_AutoReconnect (maxAttempts : Z) (cb : ClientBuilder) : ClientBuilder :=
  let c := kb_config cb in mkClientBuilder (nc_set_limits (nc_MaxConnections c) (nc_BufferSize c) (nc_KeepAlive c) maxAttempts c).
Definition kb_BufferSize (size : Z) (cb : ClientBuilder) : ClientBuilder :=
  let c := kb_config cb in mkClientBuilder (nc_set_limits (nc_MaxConnections c) size (nc_KeepAlive c) (nc_MaxReconnectAttempts c) c).
Definition kb_KeepAlive (enabled : bool) (cb : ClientBuilder) : ClientBuilder :=
  let c := kb_config cb in mkClientBuilder (nc_set_limits (nc_MaxConnections c) (nc_BufferSize c) enabled (nc_MaxReconnectAttempts c) c).
Definition kb_Build (now : time) (cb : ClientBuilder) : res (@tcpClient U) := CreateClient (Some (kb_config cb)) now.

(** The factory makes a server or a client exactly for the protocol tcp, and the
    convenience functions always do. *)
Lemma factory_makes_tcp c now :
  (is_ok (CreateServer (Some c) now) = eqs (nc_Protocol c) ProtocolTCP) /\
  (is_ok (CreateClient (Some c) now) = eqs (nc_Protocol c) ProtocolTCP) /\
  is_ok (CreateTCPServer (Some c) now).2 = true /\ is_ok (CreateTCPClient (Some c) now).2 = true.
Proof.
  unfold CreateServer, CreateClient, NewTCPServer, NewTCPClient. split_and!; [| |done|done];
    destruct (eqs (nc_Protocol c) ProtocolTCP) eqn:E; try done; by destruct (eqs (nc_Protocol c) ProtocolUDP).
Qed.

(** [AutoReconnect] of the builder sets the number of attempts and nothing else:
    the client that is built does not reconnect. *)
Lemma builder_does_not_reconnect n now c :
  kb_Build now (kb_AutoReconnect n NewClientBuilder) = Ok c -> cl_maxReconnectAttempts c = n /\ cl_autoReconnect c = false.
Proof. cbn. by intros [= <-]. Qed.

End factory.

(** ** Witnesses *)

Definition demo_client : @tcpClient unit :=
  match NewTCPClient None 0 with
  | Ok c => c
  | Err _ => mkTcpClient DefaultNetworkConfig None false false 0 0 0 false false false true "" 0 0 0 0 [] 0 [] [] [] []
  end.
Definition demo_client_run (ops : list clop) : @tcpClient unit := match cl_run demo_client ops with Ret c => c | _ => demo_client end.
Definition demo_connected : @tcpClient unit :=
  demo_client_run [KHandler true; KAuto true Second; KConnect "srv:1"; KDialled 0 (Ok []) 0].

Lemma cl_run_reach {U} config now ops : forall (c c' : @tcpClient U),
  cl_reach config now c -> cl_run c ops = Ret c' -> cl_reach config now c'.
Proof.
  induction ops as [|op ops IH]; intros c c' Hr; cbn; [by intros [= <-]|].
  destruct (cl_step c op) as [c1| |] eqn:Hs; cbn; [|done|done]. apply IH. exact (cl_reach_step _ _ _ _ _ Hr Hs).
Qed.

Definition failed_tick : list (@clop unit) := [KTick 0 false; KDialled 0 (Err "refused") 0].
Definition demo_given_up : @tcpClient unit :=
  match cl_run demo_connected ([KMessage 0 false None 0] ++ failed_tick ++ failed_tick ++ failed_tick) with Ret c => c | _ => demo_client end.

Lemma demo_given_up_reach : cl_reach None 0 demo_given_up.
Proof.
  apply (cl_run_reach None 0 ([KHandler true; KAuto true Second; KConnect "srv:1"; KDialled 0 (Ok []) 0; KMessage 0 false None 0] ++
    failed_tick ++ failed_tick ++ failed_tick) demo_client).
  - apply cl_reach_new. reflexivity.
  - vm_compute. reflexivity.
Qed.


Definition demo_disconnected : @tcpClient unit :=
  demo_client_run [KHandler true; KConnect "srv:1"; KDialled 0 (Ok []) 0; KClose None; KForget].

Lemma deaf_after_disconnect_witness :
  exists c1 c2, cl_run demo_disconnected [KConnect "srv:1"; KDialled 0 (Ok [Ok [1]]) 0] = Ret c1 /\
    IsConnected c1 = true /\ cl_GetConnection c1 = Some 1%nat /\ cl_step c1 (KMessage 1 true None 0) = Ret c2 /\
    cl_heard c2 = [] /\ cl_msgLoops c2 !! 1%nat = Some (mkMsgLoop false (Some 1%nat) false).
Proof.
  apply (deaf_after_disconnect demo_disconnected "srv:1" [Ok [1]] 0 None true 0); vm_compute; reflexivity.
Defined.

Lemma demo_connected_ok : reconnected 0 demo_connected.
Proof.
  split; try (vm_compute; reflexivity); try (vm_compute; discriminate); try (vm_compute; split_and!; reflexivity).
  - split; [reflexivity|]. vm_compute. by repeat constructor.
  - split; [reflexivity|]. eexists. split; [vm_compute; reflexivity|]. done.
Qed.

Lemma reconnect_loops_pile_up_witness :
  exists c', cl_run demo_connected (rounds 2 0) = Ret c' /\ cl_reLoops c' = [RWaiting; RWaiting; RWaiting] /\ length (cl_conns c') = 3%nat.
Proof.
  destruct (reconnect_loops_pile_up 2 demo_connected 0 demo_connected_ok) as (c' & H1 & H2 & H3 & _).
  exists c'. split_and!; [exact H1|exact H2|exact H3].
Defined.

(** Two connects in a row: the loop of the first connection, when that one ends,
    marks the client as disconnected, although the second is up. *)
Definition demo_packet : bytes := match Net.Encode (Some Net.demo_net) with Ok b => b | Err _ => [] end.
Example old_loop_disconnects_new :
  match cl_run demo_client [KHandler true; KConnect "a"; KDialled 0 (Ok [Ok demo_packet]) 0; KMessage 0 false None 0;
                            KConnect "b"; KDialled 0 (Ok []) 0; KMessage 0 false None 0] with
  | Ret c => cl_connected c = false /\ cl_conn c = Some 1%nat /\ (tc_closed <$> cl_conns c) = [false; false]
  | _ => False
  end.
Proof. vm_compute. done. Qed.
