(* ===== verification/Application.v ===== *)
(** src/bootstrap/application.go: the application, which puts the container, the
    lifecycle manager, the actor system and the TCP server together, and its
    builder.

    The two core services are the instances [ActorSystemService] and
    [NetworkServerService] of the interface of managed services ([Lifecycle]);
    they act on the fields of the application, the [world]. Configuring makes new
    actor systems and servers while the container may still hold the old ones, so
    both live on heaps. A service that panics or never returns ends the call of
    the lifecycle manager: the services act on a [go world], which stays as it is
    once it is no [Ret]. The configuration loader is stored and never used. *)

From S2P Require Import Prelude CoreTypes Handle Actor Router Session Registry LoadBalancer Discovery System.
From S2P Require Import NetMessage TcpConn GoText TcpServer Lifecycle Container.
From Stdlib Require Import Ascii.

(** ** Data *)

(** A configuration as an [interface{}]: the code looks for maps and strings. *)
Inductive value :=
| VString (s : string)
| VMap (m : gmap string value)
| VBool (b : bool)
| VOther (n : Z).

Section application.
Context {H X U L T P : Type}.
Context (HandleMessage : H -> Message -> H * Message * option error).
Notation tcpServer := (@tcpServer P).

(** What the container holds: pointers to the two core objects, or the user's: objects
    and services. *)
Inductive instance := ISystem (i : nat) | IServer (i : nat) | IUser (x : X) | IService (u : U).

Record world := mkWorld {
  aw_config : option value;
  aw_container : @DefaultContainer X instance T;
  aw_actorSystem : option nat;          (** nil, or a place on the heap *)
  aw_networkServer : option nat;
  aw_systems : list (system H);
  aw_servers : list tcpServer;
  aw_user : X;
}.

Inductive service := ActorSystemService | NetworkServerService | UserService (u : U).

(** The user's services. *)
Context (user_Start user_Stop : U -> world -> go (world * option error)).
Context (user_Health : U -> world -> HealthStatus * option error).

Record DefaultApplication := mkApplication {
  app_world : world;
  app_lifecycleManager : @DefaultLifecycleManager service L;
  app_running : bool;
  app_shutdownChan : chan unit;
}.

Definition set_world (w : world) (app : DefaultApplication) : DefaultApplication :=
  mkApplication w (app_lifecycleManager app) (app_running app) (app_shutdownChan app).
Definition set_running (b : bool) (app : DefaultApplication) : DefaultApplication :=
  mkApplication (app_world app) (app_lifecycleManager app) b (app_shutdownChan app).

Definition put_system (i : nat) (s : system H) (w : world) : world :=
  mkWorld (aw_config w) (aw_container w) (aw_actorSystem w) (aw_networkServer w) (<[i := s]> (aw_systems w)) (aw_servers w) (aw_user w).
Definition put_server (i : nat) (s : tcpServer) (w : world) : world :=
  mkWorld (aw_config w) (aw_container w) (aw_actorSystem w) (aw_networkServer w) (aw_systems w) (<[i := s]> (aw_servers w)) (aw_user w).

(** [RegisterInstance]; the code drops its error. *)
Definition provide (name : string) (v : instance) (w : world) : go world :=
  '(c, _) ← Container.RegisterInstance name (Some v) (aw_container w);
  Ret (mkWorld (aw_config w) c (aw_actorSystem w) (aw_networkServer w) (aw_systems w) (aw_servers w) (aw_user w)).

(** [app.actorSystem = core.NewActorSystem()], registered in the container. *)
Definition new_system (w : world) : go world :=
  let i := length (aw_systems w) in
  provide "actor-system" (ISystem i)
    (mkWorld (aw_config w) (aw_container w) (Some i) (aw_networkServer w) (aw_systems w ++ [NewActorSystem]) (aw_servers w) (aw_user w)).

(** ** The core services *)

(** What the surroundings decide in a start or a stop: whether listening fails; the
    steps of the server's goroutines while its [Stop] waits for them, and the order
    in which it closes the connections; what [Shutdown] of the actor system leaves
    open. *)
Record surroundings := mkSurroundings {
  su_listen : option error;
  su_steps : list (@svop P);
  su_closing : list string;
  su_takes : nat -> nat;
  su_clock : clock;
  su_actors : list ActorID;
  su_ctxErr : option error;
  su_doneFirst : bool;
}.

Definition ass_Start (w : world) : go (world * option error) :=
  match aw_actorSystem w with
  | None => w' ← new_system w; Ret (w', None)
  | Some _ => Ret (w, None)
  end.

Definition as_error {A} (r : res A) : option error := match r with Ok _ => None | Err e => Some e end.

Definition ass_Stop (su : surroundings) (w : world) : go (world * option error) :=
  match aw_actorSystem w with
  | None => Ret (w, None)
  | Some i =>
      match aw_systems w !! i with
      | None => nil_conn
      | Some s =>
          '(s', r) ← System.Shutdown HandleMessage (su_takes su) (su_clock su) (su_actors su) (su_ctxErr su) (su_doneFirst su) s;
          Ret (put_system i s' w, as_error r)
      end
  end.

Definition ass_Health (w : world) : HealthStatus * option error :=
  (match aw_actorSystem w with
   | None => mkHealthStatus "unhealthy" "Actor system not initialized" zero_time
   | Some _ => mkHealthStatus "healthy" "Actor system running" zero_time
   end, None).

(** [Stop] of the server, with the steps of its goroutines while it waits; it goes
    on waiting when they have not ended. *)
Definition server_Stop (su : surroundings) (s : tcpServer) : go (tcpServer * option error) :=
  if negb (sv_running s) then Ret (s, None)
  else
    s1 ← sv_run (Stop_begin s) (su_steps su);
    r ← TcpServer.Stop_finish (su_closing su) s1;
    match r with Some s2 => Ret (s2, None) | None => Hang end.

Definition nss_Start (su : surroundings) (w : world) : go (world * option error) :=
  match aw_networkServer w with
  | None => Ret (w, None)
  | Some i =>
      match aw_servers w !! i with
      | None => nil_conn
      | Some s => let '(s', e) := sv_Start (su_listen su) s in Ret (put_server i s' w, e)
      end
  end.

Definition nss_Stop (su : surroundings) (w : world) : go (world * option error) :=
  match aw_networkServer w with
  | None => Ret (w, None)
  | Some i =>
      match aw_servers w !! i with
      | None => nil_conn
      | Some s => '(s', e) ← server_Stop su s; Ret (put_server i s' w, e)
      end
  end.

Definition nss_Health (w : world) : HealthStatus * option error :=
  (match aw_networkServer w with
   | None => mkHealthStatus "unknown" "Network server not configured" zero_time
   | Some _ => mkHealthStatus "healthy" "Network server running" zero_time
   end, None).

Definition service_Name (s : service) : option string :=
  match s with
  | ActorSystemService => Some "actor-system"
  | NetworkServerService => Some "network-server"
  | UserService _ => None
  end.

(** A call of a service by the lifecycle manager. *)
Definition lift (f : world -> go (world * option error)) (w : go world) : go world * option error :=
  match w with
  | Ret w0 => match f w0 with
              | Ret (w1, e) => (Ret w1, e)
              | Panic why => (Panic why, None)
              | Hang => (Hang, None)
              end
  | _ => (w, None)
  end.

Definition service_Health (s : service) (w : world) : HealthStatus * option error :=
  match s with
  | ActorSystemService => ass_Health w
  | NetworkServerService => nss_Health w
  | UserService u => user_Health u w
  end.

#[local] Instance app_services (su : surroundings) : ServiceIface (go world) service := {|
  svc_Start s := lift (match s with
                       | ActorSystemService => ass_Start
                       | NetworkServerService => nss_Start su
                       | UserService u => user_Start u
                       end);
  svc_Stop s := lift (match s with
                      | ActorSystemService => ass_Stop su
                      | NetworkServerService => nss_Stop su
                      | UserService u => user_Stop u
                      end);
  svc_Health s w := match w with Ret w0 => service_Health s w0 | _ => (mkHealthStatus "" "" zero_time, None) end;
|}.

(** ** The application *)

Definition registerCoreServices (clk : clock) (lm : DefaultLifecycleManager (Svc := service) (L := L))
    : DefaultLifecycleManager :=
  (Lifecycle.Register "network-server" (Some NetworkServerService) ["actor-system"] (clk 1%nat)
     (Lifecycle.Register "actor-system" (Some ActorSystemService) [] (clk 0%nat) lm).1).1.

Definition NewApplication (x : X) (clk : clock) : DefaultApplication :=
  mkApplication (mkWorld None NewContainer None None [] [] x) (registerCoreServices clk NewLifecycleManager) false (make_chan 1).

(** The network configuration in a map: [host:port] is split at its colon, a port
    that is no number leaves the default, any other text is the host. *)
Definition network_config (addr : string) (port : Z) : NetworkConfig :=
  mkNetworkConfig ProtocolTCP addr port 0 0 false 0 0 0 0 0 0.
Definition parse_address (addrStr : string) : NetworkConfig :=
  match Split ":" addrStr with
  | [host; port] => network_config host (default 8080 (Atoi port))
  | _ => network_config addrStr 8080
  end.
Definition read_network (netCfg : gmap string value) : NetworkConfig :=
  match netCfg !! "address" with
  | Some (VString addrStr) => parse_address addrStr
  | _ => network_config "localhost" 8080
  end.

Definition configureCoreServices (cfg : option value) (now : time) (w : world) : go (world * option error) :=
  w1 ← new_system w;
  match cfg with
  | Some (VMap m) =>
      match m !! "network" with
      | Some (VMap netCfg) =>
          match NewTCPServer (Some (read_network netCfg)) now with
          | Err e => Ret (w1, Some ("failed to create network server: " +:+ e))
          | Ok server =>
              let i := length (aw_servers w1) in
              w2 ← provide "network-server" (IServer i)
                     (mkWorld (aw_config w1) (aw_container w1) (aw_actorSystem w1) (Some i) (aw_systems w1)
                        (aw_servers w1 ++ [server]) (aw_user w1));
              Ret (w2, None)
          end
      | _ => Ret (w1, None)
      end
  | _ => Ret (w1, None)
  end.

Definition Configure (cfg : option value) (now : time) (app : DefaultApplication) : go (DefaultApplication * option error) :=
  if app_running app then Ret (app, Some "cannot configure application while running")
  else
    let w := app_world app in
    '(w', e) ← configureCoreServices cfg now
                 (mkWorld cfg (aw_container w) (aw_actorSystem w) (aw_networkServer w) (aw_systems w) (aw_servers w) (aw_user w));
    Ret (set_world w' app, e).

(** [Run] up to its wait for a signal or the end of its context: [None] when it
    waits. [orders]: in which the maps of the manager are visited. *)
Definition Run_start (su : surroundings) (orders : list string * list string * list string) (clk : clock)
    (app : DefaultApplication) : go (DefaultApplication * option error) :=
  if app_running app then Ret (app, Some "application is already running")
  else
    let '(o1, o2, o3) := orders in
    '(lm, w, r) ← Lifecycle.Start (ServiceIface0 := app_services su) o1 o2 o3 clk (app_lifecycleManager app) (Ret (app_world app));
    w' ← w;
    let app' := mkApplication w' lm true (app_shutdownChan app) in
    Ret (match r with
         | Err e => (set_running false app', Some ("failed to start services: " +:+ e))
         | Ok _ => (app', None)
         end).

Definition app_Shutdown (su : surroundings) (clk : clock) (app : DefaultApplication) : go (DefaultApplication * option error) :=
  if negb (app_running app) then Ret (app, None)
  else
    '(lm, w, r) ← Lifecycle.Stop (ServiceIface0 := app_services su) clk (app_lifecycleManager app) (Ret (app_world app));
    w' ← w;
    Ret (mkApplication w' lm false (app_shutdownChan app),
         match r with Err e => Some ("failed to stop services: " +:+ e) | Ok _ => None end).

(** The runtime delivers a signal without blocking. *)
Definition signal (app : DefaultApplication) : go DefaultApplication :=
  '(_, ch) ← try_send (app_shutdownChan app) tt;
  Ret (mkApplication (app_world app) (app_lifecycleManager app) (app_running app) ch).

(** The rest of [Run]: [None] while neither a signal is there nor the context done;
    when both are, [sig] says which case is taken. *)
Definition Run_finish (su : surroundings) (ctx_done sig : bool) (clk : clock) (app : DefaultApplication)
    : go (option (DefaultApplication * option error)) :=
  match try_recv (app_shutdownChan app) with
  | Got _ ch =>
      r ← app_Shutdown su clk
            (if ctx_done && negb sig then app
             else mkApplication (app_world app) (app_lifecycleManager app) (app_running app) ch);
      Ret (Some r)
  | _ => if ctx_done then r ← app_Shutdown su clk app; Ret (Some r) else Ret None
  end.

Definition app_Container (app : DefaultApplication) : DefaultContainer := aw_container (app_world app).

(** ** The builder *)

Record ApplicationBuilder := mkBuilder { ab_app : DefaultApplication; ab_config : gmap string value }.

Definition NewApplicationBuilder (x : X) (clk : clock) : ApplicationBuilder := mkBuilder (NewApplication x clk) ∅.
Definition WithConfig (cfg : option value) (b : ApplicationBuilder) : ApplicationBuilder :=
  match cfg with Some (VMap m) => mkBuilder (ab_app b) (m ∪ ab_config b) | _ => b end.
Definition WithConfigFile (filename : string) (b : ApplicationBuilder) : ApplicationBuilder := b.
Definition ab_WithService (name : string) (svc : option U) (deps : list string) (now : time) (b : ApplicationBuilder)
    : ApplicationBuilder :=
  let app := ab_app b in
  mkBuilder (mkApplication (app_world app)
               (Lifecycle.Register name (UserService <$> svc) deps now (app_lifecycleManager app)).1
               (app_running app) (app_shutdownChan app)) (ab_config b).
Definition WithServiceFactory (name : string) (factory : option ServiceFactory) (b : ApplicationBuilder) : go ApplicationBuilder :=
  let w := app_world (ab_app b) in
  '(c, _) ← Container.Register name factory (aw_container w);
  Ret (mkBuilder (set_world (mkWorld (aw_config w) c (aw_actorSystem w) (aw_networkServer w) (aw_systems w) (aw_servers w)
                               (aw_user w)) (ab_app b)) (ab_config b)).
Definition WithActorSystemConfig (b : ApplicationBuilder) : ApplicationBuilder :=
  mkBuilder (ab_app b) (<["actor_system" := VMap {["enabled" := VBool true]}]> (ab_config b)).
Definition WithNetworkConfig (address : string) (b : ApplicationBuilder) : ApplicationBuilder :=
  mkBuilder (ab_app b) (<["network" := VMap {["address" := VString address]}]> (ab_config b)).
Definition ab_Build (now : time) (b : ApplicationBuilder) : go (res DefaultApplication) :=
  if (size (ab_config b) =? 0)%nat then Ret (Ok (ab_app b))
  else
    '(app, e) ← Configure (Some (VMap (ab_config b))) now (ab_app b);
    Ret (match e with Some e => Err ("failed to configure application: " +:+ e) | None => Ok app end).

(** ** The core application *)

(** An application with the two core services only, as [Run] finds it. *)
Definition core_manager (lm : DefaultLifecycleManager (Svc := service) (L := L)) : Prop :=
  lm_services lm = <["network-server" := NetworkServerService]> (<["actor-system" := ActorSystemService]> ∅) /\
  lm_dependencies lm = <["network-server" := ["actor-system"]]> (<["actor-system" := []]> ∅).
Record idle_core (app : DefaultApplication) : Prop := {
  ic_core : core_manager (app_lifecycleManager app);
  ic_started : lm_started (app_lifecycleManager app) = false;
  ic_stopping : lm_stopping (app_lifecycleManager app) = false;
  ic_order : lm_startOrder (app_lifecycleManager app) = [];
  ic_running : app_running app = false;
}.

Lemma NewApplication_idle x clk : idle_core (NewApplication x clk).
Proof. by split. Qed.
Lemma set_world_idle w app : idle_core app -> idle_core (set_world w app).
Proof. by intros []. Qed.

Definition orders_ok (orders : list string * list string * list string) (app : DefaultApplication) : Prop :=
  range_order (lm_dependencies (app_lifecycleManager app)) orders.1.2 /\
  range_order (lm_services (app_lifecycleManager app)) orders.2.

(** What the services do in the order in which they are started, and stopped. *)
Definition start_core (su : surroundings) (w : world) : go (world * option error) :=
  '(w1, _) ← ass_Start w; nss_Start su w1.
Definition stop_core (su : surroundings) (w : world) : go (world * option error) :=
  '(w1, e1) ← nss_Stop su w;
  '(w2, e2) ← ass_Stop su w1;
  Ret (w2, match e2 with Some _ => e2 | None => e1 end).

Lemma two_names {A} (a b : A) :
  keys (<["network-server" := b]> (<["actor-system" := a]> (∅ : gmap string A))) ≡ₚ ["actor-system"; "network-server"].
Proof. reflexivity. Qed.

(** There is one order, whatever the order of the visits. *)
Lemma core_order o1 o2 o3 (lm : DefaultLifecycleManager (Svc := service) (L := L)) :
  core_manager lm -> lm_startOrder lm = [] -> range_order (lm_dependencies lm) o2 -> range_order (lm_services lm) o3 ->
  calculateStartOrder o1 o2 o3 lm = Ret (Ok ["actor-system"; "network-server"]).
Proof.
  intros [Hs Hd] Ho H2 H3. assert (Hwf : lm_wf lm).
  { split; [|rewrite Ho; by intros n ?%not_elem_of_nil]. intros n. rewrite Hs Hd !lookup_insert_is_Some' !lookup_empty.
    split; (intros [?|[?|[? [=]]]]; auto). }
  destruct (calculateStartOrder_spec o1 o2 o3 lm Hwf H2 H3) as (r & -> & Hr).
  assert (Hds : forall s x, x ∈ deps_of lm s -> s = "network-server" /\ x = "actor-system").
  { intros s x. unfold deps_of. rewrite Hd. destruct (decide (s = "network-server")) as [->|Hne].
    - rewrite lookup_insert_eq. cbn. by intros ->%list_elem_of_singleton.
    - rewrite lookup_insert_ne; [congruence|]. destruct (decide (s = "actor-system")) as [->|].
      + rewrite lookup_insert_eq. by intros ?%not_elem_of_nil.
      + rewrite lookup_insert_ne; [congruence|]. rewrite lookup_empty. by intros ?%not_elem_of_nil. }
  destruct r as [l|e].
  - destruct Hr as [Hp Ht]. rewrite Hs two_names in Hp. do 2 f_equal. apply Permutation_sym, Permutation_length_2_inv in Hp as [E|E]; subst l; [done|exfalso].
    destruct (Ht 0%nat "network-server" "actor-system") as (j & Hj & _); [done| |lia]. unfold deps_of. rewrite Hd. set_solver.
  - exfalso. destruct Hr as [(s & x & _ & [_ ->]%Hds & Hx)|Hr].
    + by rewrite Hs in Hx.
    + apply (Hr ["actor-system"; "network-server"]); [by rewrite Hs two_names|]. intros i s x Hi [-> ->]%Hds. exists 0%nat.
      split; [|done]. by destruct i; [|lia].
Qed.

Lemma ass_Start_ok w w' e : ass_Start w = Ret (w', e) -> e = None.
Proof. unfold ass_Start. destruct (aw_actorSystem w); [by intros [= _ <-]|]. destruct (new_system w); by intros [= _ <-]. Qed.

Ltac finish_core :=
  eexists _, _, _; split; [reflexivity|]; cbn; split_and!; try done; congruence.

Lemma core_Start su o1 o2 o3 clk (lm : DefaultLifecycleManager (Svc := service) (L := L)) w :
  core_manager lm -> lm_startOrder lm = [] -> lm_started lm = false -> lm_stopping lm = false ->
  range_order (lm_dependencies lm) o2 -> range_order (lm_services lm) o3 ->
  exists lm' w' r, Lifecycle.Start (ServiceIface0 := app_services su) o1 o2 o3 clk lm (Ret w) = Ret (lm', w', r) /\
    core_manager lm' /\ lm_stopping lm' = false /\
    match start_core su w with
    | Ret (w1, None) => w' = Ret w1 /\ r = Ok tt /\ lm_started lm' = true /\ lm_startOrder lm' = ["actor-system"; "network-server"]
    | Ret (w1, Some e) => w' = Ret w1 /\ r = Err ("failed to start service " +:+ "network-server" +:+ ": " +:+ e) /\ lm_started lm' = false
    | Panic why => w' = Panic why
    | Hang => w' = Hang
    end.
Proof.
  intros Hc Ho Hst Hsp H2 H3. unfold Lifecycle.Start. rewrite Hst (core_order _ _ _ _ Hc Ho H2 H3). cbn [mbind go_bind].
  destruct Hc as [Hs Hd]. cbn [start_loop lm_services broadcastEvent with_order lm_startOrder]. rewrite Hs.
  rewrite lookup_insert_ne // !lookup_insert_eq. cbn [svc_Start app_services lift]. unfold start_core.
  destruct (ass_Start w) as [[w1 e1]| |] eqn:Ha; cbn [mbind go_bind lift]; [|finish_core..].
  rewrite (ass_Start_ok _ _ _ Ha). destruct (nss_Start su w1) as [[w2 [e2|]]| |]; cbn [mbind go_bind]; [finish_core|..].
  - eexists _, _, _. split; [reflexivity|]. cbn. by rewrite Ho.
  - finish_core.
  - finish_core.
Qed.

Lemma core_Stop su clk (lm : DefaultLifecycleManager (Svc := service) (L := L)) w :
  core_manager lm -> lm_startOrder lm = ["actor-system"; "network-server"] -> lm_started lm = true -> lm_stopping lm = false ->
  exists lm' w' r, Lifecycle.Stop (ServiceIface0 := app_services su) clk lm (Ret w) = Ret (lm', w', r) /\
    core_manager lm' /\ lm_stopping lm' = false /\ lm_started lm' = false /\ lm_startOrder lm' = [] /\
    match stop_core su w with
    | Ret (w1, e) => w' = Ret w1 /\ r = match e with Some e => Err e | None => Ok tt end
    | Panic why => w' = Panic why
    | Hang => w' = Hang
    end.
Proof.
  intros [Hs Hd] Ho Hst Hsp. unfold Lifecycle.Stop. rewrite Hst Hsp. cbn [negb lm_startOrder broadcastEvent with_flags].
  rewrite Ho reverse_in_place_rev. change (reverse ["actor-system"; "network-server"]) with ["network-server"; "actor-system"].
  cbn [stop_loop lm_services broadcastEvent with_flags]. rewrite Hs.
  rewrite !lookup_insert_eq lookup_insert_ne // !lookup_insert_eq. cbn [svc_Stop app_services lift]. unfold stop_core.
  destruct (nss_Stop su w) as [[w1 [e1|]]| |]; cbn [mbind go_bind lift]; [| |finish_core..];
    (destruct (ass_Stop su w1) as [[w2 [e2|]]| |]; cbn [mbind go_bind lift]; finish_core).
Qed.

(** The application is its two core services in order: [Run] starts the actor
    system and then the server, [Shutdown] stops them in reverse and leaves the
    application as it was before; an error of a service, a panic or an endless
    wait is what the call gives, and an application that failed to start is not
    running. Meanwhile the program may have changed the world in any way. *)
Theorem application_runs_core su orders clk app :
  idle_core app -> orders_ok orders app ->
  match start_core su (app_world app) with
  | Ret (w, None) =>
      exists app', Run_start su orders clk app = Ret (app', None) /\ app_world app' = w /\ app_running app' = true /\
      forall w' su' clk',
        match stop_core su' w' with
        | Ret (w'', e) =>
            exists app'', app_Shutdown su' clk' (set_world w' app') = Ret (app'', String.append "failed to stop services: " <$> e) /\
              app_world app'' = w'' /\ idle_core app''
        | Panic why => app_Shutdown su' clk' (set_world w' app') = Panic why
        | Hang => app_Shutdown su' clk' (set_world w' app') = Hang
        end
  | Ret (w, Some e) =>
      exists app', Run_start su orders clk app
          = Ret (app', Some ("failed to start services: " +:+ "failed to start service " +:+ "network-server" +:+ ": " +:+ e)) /\
        app_world app' = w /\ app_running app' = false /\ forall su' clk', app_Shutdown su' clk' app' = Ret (app', None)
  | Panic why => Run_start su orders clk app = Panic why
  | Hang => Run_start su orders clk app = Hang
  end.
Proof.
  intros [Hc Hst Hsp Ho Hr] [H2 H3]. destruct orders as [[o1 o2] o3]. unfold Run_start. rewrite Hr.
  destruct (core_Start su o1 o2 o3 clk (app_lifecycleManager app) (app_world app) Hc Ho Hst Hsp H2 H3)
    as (lm' & w' & r & -> & Hc' & Hsp' & Hm). cbn [mbind go_bind].
  destruct (start_core su (app_world app)) as [[w [e|]]| |].
  - destruct Hm as (-> & -> & Hst'). eexists. split; [reflexivity|]. done.
  - destruct Hm as (-> & -> & Hst' & Ho'). eexists. split; [reflexivity|]. split; [done|]. split; [done|].
    intros w'' su' clk'. unfold app_Shutdown. cbn [app_running set_world negb app_lifecycleManager app_world].
    destruct (core_Stop su' clk' lm' w'' Hc' Ho' Hst' Hsp') as (lm2 & w2 & r2 & -> & Hc2 & Hsp2 & Hst2 & Ho2 & Hm2).
    cbn [mbind go_bind]. destruct (stop_core su' w'') as [[w3 e3]| |]; [|by rewrite Hm2..].
    destruct Hm2 as [-> ->]. eexists. split; [by destruct e3|]. done.
  - by rewrite Hm.
  - by rewrite Hm.
Qed.

(** ** Built with a network configuration *)

(** Providing under a free name, and under a taken one. *)
Lemma provide_exact name v w :
  nonempty name = true -> dc_locked (aw_container w) = false ->
  provide name v w =
    Ret (mkWorld (aw_config w)
           (match dc_instances (aw_container w) !! name with
            | Some _ => aw_container w
            | None => mkDefaultContainer (dc_services (aw_container w)) (<[name := Some v]> (dc_instances (aw_container w))) false
            end) (aw_actorSystem w) (aw_networkServer w) (aw_systems w) (aw_servers w) (aw_user w)).
Proof.
  intros Hn Hl. unfold provide, RegisterInstance, Lock, Unlock, put_instance. rewrite Hn Hl. cbn.
  destruct (aw_container w) as [ss insts lk] eqn:E. cbn in *. subst lk. by destruct (insts !! name).
Qed.

Definition new_server (c : NetworkConfig) (now : time) : tcpServer :=
  mkTcpServer c None false false false ∅ (make_chan 100) true 0 0 0 now [] 0 [] [] [] 0 [].

Lemma parse_address_tcp addr : nc_Protocol (parse_address addr) = ProtocolTCP.
Proof. unfold parse_address. by destruct (Split ":" addr) as [|? [|? [|]]]. Qed.

Lemma NewTCPServer_parsed addr now : NewTCPServer (Some (parse_address addr)) now = Ok (new_server (parse_address addr) now).
Proof. unfold NewTCPServer. by rewrite parse_address_tcp. Qed.

(** The instances the container of a built application holds. *)
Definition built_container : @DefaultContainer X instance T :=
  mkDefaultContainer ∅ (<["network-server" := Some (IServer 0)]> (<["actor-system" := Some (ISystem 0)]> ∅)) false.
Definition built_config (addr : string) : option value :=
  Some (VMap (<["network" := VMap {["address" := VString addr]}]> ∅)).
Definition built_world (addr : string) (s : system H) (sv : tcpServer) (x : X) : world :=
  mkWorld (built_config addr) built_container (Some 0%nat) (Some 0%nat) [s] [sv] x.

(** Building an application that has no core objects yet, from a configuration with an
    address. *)
Definition with_core (c : @DefaultContainer X instance T) : @DefaultContainer X instance T :=
  mkDefaultContainer (dc_services c) (<["network-server" := Some (IServer 0)]> (<["actor-system" := Some (ISystem 0)]> (dc_instances c))) false.

Lemma build_configured cfg addr now lm ch old (c : @DefaultContainer X instance T) x :
  cfg !! "network" = Some (VMap {["address" := VString addr]}) ->
  dc_locked c = false -> dc_instances c !! "actor-system" = None -> dc_instances c !! "network-server" = None ->
  ab_Build now (mkBuilder (mkApplication (mkWorld old c None None [] [] x) lm false ch) cfg)
  = Ret (Ok (mkApplication (mkWorld (Some (VMap cfg)) (with_core c) (Some 0%nat) (Some 0%nat) [NewActorSystem]
               [new_server (parse_address addr) now] x) lm false ch)).
Proof.
  intros Hn Hl Ha Hs. unfold ab_Build. cbn [ab_config ab_app]. destruct (Nat.eqb_spec (size cfg) 0) as [E|_].
  { apply map_size_empty_inv in E. by subst cfg. }
  unfold Configure, configureCoreServices, new_system. cbn [app_running app_world aw_container aw_actorSystem aw_networkServer aw_systems aw_servers aw_user].
  rewrite provide_exact; [done|exact Hl|]. cbn [mbind go_bind aw_container]. rewrite Ha Hn. unfold read_network. rewrite lookup_singleton_eq NewTCPServer_parsed.
  rewrite provide_exact; [done|done|]. cbn [mbind go_bind aw_container dc_instances dc_services]. by rewrite lookup_insert_ne // Hs.
Qed.

Lemma build_network x clk addr now :
  exists app, ab_Build now (WithNetworkConfig addr (NewApplicationBuilder x clk)) = Ret (Ok app) /\
    idle_core app /\ app_world app = built_world addr NewActorSystem (new_server (parse_address addr) now) x.
Proof.
  eexists. split; [apply (build_configured _ addr); [apply lookup_insert_eq|done..]|]. by split.
Qed.

(** The server of a started application, and of one that was stopped and started again. *)
Definition started_server (c : NetworkConfig) (now : time) : tcpServer :=
  mkTcpServer c (Some true) true false false ∅ (make_chan 100) true 0 0 0 now [] 0 [mkAcceptLoop true AtTop] [] [] 0 [].

Definition restarted_server (c : NetworkConfig) (now : time) : tcpServer :=
  mkTcpServer c (Some true) true false false ∅ (mkChan [] 100 true) false 0 0 0 now [] 0
    [mkAcceptLoop true TcpServer.Ended; mkAcceptLoop false AtTop] [] [] 0 [].

(** The steps of the accept loop of a server that is being stopped: one turn, in
    which it finds the context done or its listener closed. *)
Definition accept_leaves (k : nat) (late : bool) (t : time) : list (@svop P) :=
  [TcpServer.SAccept1 k late (Err "use of closed network connection") t].

Lemma range_vals_none ks : range_vals (∅ : gmap string nat) ks = [].
Proof. induction ks as [|k ks IH]; [done|]. unfold range_vals in *. cbn. by rewrite lookup_empty. Qed.

Lemma server_Stop_started su c now late t :
  su_steps su = accept_leaves 0 late t -> server_Stop su (started_server c now) = Ret (stopped_server c now, None).
Proof.
  intros Hs. unfold server_Stop. cbn [sv_running started_server negb]. rewrite Hs.
  assert (sv_run (Stop_begin (started_server c now)) (accept_leaves 0 late t)
    = Ret (mkTcpServer c (Some false) false false false ∅ (make_chan 100) false 0 0 0 now [] 0 [mkAcceptLoop true TcpServer.Ended] [] [] 1 [])) as ->
    by by destruct late.
  cbn [mbind go_bind]. unfold TcpServer.Stop_finish. cbn. by rewrite range_vals_none.
Qed.

Lemma server_Stop_restarted su c now late inc t :
  su_steps su = [TcpServer.SAccept1 1 late inc t] -> server_Stop su (restarted_server c now) = Panic "close of closed channel".
Proof.
  intros Hs. unfold server_Stop. cbn [sv_running restarted_server negb]. rewrite Hs.
  assert (sv_run (Stop_begin (restarted_server c now)) [TcpServer.SAccept1 1 late inc t]
    = Ret (mkTcpServer c (Some false) false false false ∅ (mkChan [] 100 true) false 0 0 0 now [] 0
             [mkAcceptLoop true TcpServer.Ended; mkAcceptLoop false TcpServer.Ended] [] [] 1 [])) as -> by by destruct late.
  reflexivity.
Qed.

Lemma start_core_built su addr s sv sv' x :
  sv_Start (su_listen su) sv = (sv', None) ->
  start_core su (built_world addr s sv x) = Ret (built_world addr s sv' x, None).
Proof.
  intros Hs. unfold start_core, ass_Start, nss_Start. cbn [aw_actorSystem aw_networkServer built_world mbind go_bind].
  change (aw_servers _ !! 0%nat) with (Some sv). cbv beta iota. by rewrite Hs.
Qed.

Lemma stop_core_built su addr s c now late t x s' r :
  su_steps su = accept_leaves 0 late t ->
  System.Shutdown HandleMessage (su_takes su) (su_clock su) (su_actors su) (su_ctxErr su) (su_doneFirst su) s = Ret (s', r) ->
  stop_core su (built_world addr s (started_server c now) x) = Ret (built_world addr s' (stopped_server c now) x, as_error r).
Proof.
  intros Hs Hd. unfold stop_core, nss_Stop. cbn [aw_networkServer built_world].
  change (aw_servers _ !! 0%nat) with (Some (started_server c now)). cbv beta iota. rewrite (server_Stop_started su c now late t Hs). cbn.
  unfold ass_Stop. cbn. rewrite Hd. cbn. by destruct r.
Qed.

(** What has to hold of an actor system for its shutdown to return. *)
Definition can_stop (pick : bool) (su : surroundings) (s : system H) : Prop :=
  (exists n, sys_reach HandleMessage pick 1 n s /\ enough 1 (S n)) /\
  range_order (r_actors (ar_router (sy_router s))) (su_actors su) /\
  (sy_wg s = 0%nat \/ is_Some (su_ctxErr su)) /\
  (forall id ref a, GetActor id s = Some ref -> sy_actors s !! ref = Some a -> stoppable a).


(** Running it a second time: [Run] succeeds and the server says that it runs, but
    the actor system is still the one that was shut down, the accept loop ends at
    its first turn whatever connection comes in, and the next shutdown panics. *)
Theorem rerun_application_is_dead su orders clk addr c now app s x late inc t su' clk' :
  idle_core app -> app_world app = built_world addr s (stopped_server c now) x -> sy_ctxDone s = true ->
  su_listen su = None -> orders_ok orders app ->
  su_steps su' = [TcpServer.SAccept1 1 late inc t] ->
  exists app1 sv, Run_start su orders clk app = Ret (app1, None) /\ app_running app1 = true /\
    app_world app1 = built_world addr s sv x /\ sv_running sv = true /\ sv_ctx sv = false /\
    (forall pick name handler opts clk'' o, NewService pick name handler opts clk'' o s = Ret (s, Err shutting_down)) /\
    app_Shutdown su' clk' app1 = Panic "close of closed channel".
Proof.
  intros Hidle Hw Hdone Hl Ho Hs. pose proof (application_runs_core su orders clk app Hidle Ho) as Hrun.
  rewrite Hw (start_core_built _ _ _ _ (restarted_server c now)) in Hrun; [by rewrite Hl|].
  destruct Hrun as (app1 & Hr & Hw1 & Hr1 & Hstop). eexists app1, _. split; [exact Hr|]. split; [done|]. split; [exact Hw1|].
  split; [done|]. split; [done|]. split; [intros; unfold NewService; by rewrite Hdone|].
  specialize (Hstop (app_world app1) su' clk'). replace (set_world (app_world app1) app1) with app1 in Hstop by by destruct app1.
  rewrite Hw1 in Hstop. unfold stop_core, nss_Stop in Hstop. cbn [aw_networkServer built_world] in Hstop.
  change (aw_servers _ !! 0%nat) with (Some (restarted_server c now)) in Hstop. cbv beta iota in Hstop.
  rewrite (server_Stop_restarted su' c now late inc t Hs) in Hstop. exact Hstop.
Qed.

(** Configuring twice makes a second actor system and a second server for the
    application, while the container keeps the first ones: what services resolve is
    not what the application runs and shuts down. *)
Theorem reconfigured_container_is_stale cfg now addr s sv x app :
  app_running app = false -> app_world app = built_world addr s sv x ->
  exists app', Configure cfg now app = Ret (app', None) /\ aw_actorSystem (app_world app') = Some 1%nat /\
    app_Container app' = built_container /\
    forall self u, Resolve self "actor-system" (app_Container app') u
      = Ret (app_Container app', u, (Some (ISystem 0), None)).
Proof.
  intros Hr Hw. unfold Configure. rewrite Hr Hw. unfold configureCoreServices, new_system. rewrite provide_exact //.
  cbn [mbind go_bind]. assert (Hfin : forall w, aw_container w = built_container -> aw_actorSystem w = Some 1%nat ->
    exists app', Ret (set_world w app, @None error) = Ret (app', None) /\ aw_actorSystem (app_world app') = Some 1%nat /\
      app_Container app' = built_container /\
      forall self u, Resolve self "actor-system" (app_Container app') u = Ret (app_Container app', u, (Some (ISystem 0), None))).
  { intros w Hc Ha. eexists. split; [reflexivity|]. split; [done|]. unfold app_Container. cbn. rewrite Hc. by split. }
  destruct cfg as [[v|m|b|v]|]; try by apply Hfin. destruct (m !! "network") as [[v|net|b|v]|]; try by apply Hfin.
  assert (nc_Protocol (read_network net) = ProtocolTCP) as Hp.
  { unfold read_network. destruct (net !! "address") as [[]|]; try done. apply parse_address_tcp. }
  unfold NewTCPServer. rewrite Hp. change (negb (eqs ProtocolTCP ProtocolTCP)) with false. cbv beta iota zeta.
  rewrite provide_exact; [done|done|]. cbn [mbind go_bind]. by apply Hfin.
Qed.

End application.
