(* ===== verification/GoJson.v ===== *)
(** What the services use of Go's package encoding/json (Go 1.21): the text
    [Marshal] writes and what [Unmarshal] reads back, byte by byte.

    A value is a [json] over a type of numbers: integers when it is written, the
    literals of the text when it is parsed, float64 when it is read into an
    [interface{}]. Objects keep their members in the order of
    the text; [Marshal] writes the members of a map in the order of their keys and
    those of a struct in the order of its fields, and the values below are given in
    that order. *)

From S2P Require Import Prelude CoreTypes NetMessage GoText LoadBalancer.
From Stdlib Require Import SpecFloat.

Inductive json (A : Type) :=
| JNull
| JBool (b : bool)
| JNum (n : A)
| JStr (s : string)
| JArr (l : list (json A))
| JObj (l : list (string * json A)).
Arguments JNull {A}.
Arguments JBool {A} b.
Arguments JNum {A} n.
Arguments JStr {A} s.
Arguments JArr {A} l.
Arguments JObj {A} l.

(** Induction through the nested lists. *)
Section json_induction.
Context {A : Type} (P : json A -> Prop).
Context (Hnull : P JNull) (Hbool : forall b, P (JBool b)) (Hnum : forall n, P (JNum n)) (Hstr : forall s, P (JStr s)).
Context (Harr : forall l, Forall P l -> P (JArr l)) (Hobj : forall l, Forall (fun kv => P kv.2) l -> P (JObj l)).

Fixpoint json_nested_ind (v : json A) : P v :=
  match v with
  | JNull => Hnull
  | JBool b => Hbool b
  | JNum n => Hnum n
  | JStr s => Hstr s
  | JArr l => Harr l ((fix go l : Forall P l :=
      match l with [] => Forall_nil_2 _ | v :: l' => Forall_cons_2 _ _ _ (json_nested_ind v) (go l') end) l)
  | JObj l => Hobj l ((fix go l : Forall (fun kv => P kv.2) l :=
      match l with [] => Forall_nil_2 _ | kv :: l' => Forall_cons_2 _ _ _ (json_nested_ind kv.2) (go l') end) l)
  end.
End json_induction.

(** ** UTF-8 *)

Definition cont (z : Z) : bool := (128 <=? z) && (z <=? 191).
Definition within (lo hi z : Z) : bool := (lo <=? z) && (z <=? hi).

(** How many bytes the encoding of a character at the head takes; [None] when there
    is none ([utf8.DecodeRune] gives RuneError of width 1). For heads of 128 on. *)
Definition rune_len (b : bytes) : option nat :=
  match b with
  | b0 :: b1 :: r =>
      if within 194 223 b0 then (if cont b1 then Some 2%nat else None)
      else if within 224 239 b0 then
        match r with
        | b2 :: _ =>
            if within (if b0 =? 224 then 160 else 128) (if b0 =? 237 then 159 else 191) b1 && cont b2
            then Some 3%nat else None
        | [] => None
        end
      else if within 240 244 b0 then
        match r with
        | b2 :: b3 :: _ =>
            if within (if b0 =? 240 then 144 else 128) (if b0 =? 244 then 143 else 191) b1 && cont b2 && cont b3
            then Some 4%nat else None
        | _ => None
        end
      else None
  | _ => None
  end.

(** [utf8.AppendRune]. *)
Definition encode_rune (r : Z) : bytes :=
  if r <? 128 then [r]
  else if r <? 2048 then [192 + r / 64; 128 + r mod 64]
  else if r <? 65536 then [224 + r / 4096; 128 + r / 64 mod 64; 128 + r mod 64]
  else [240 + r / 262144; 128 + r / 4096 mod 64; 128 + r / 64 mod 64; 128 + r mod 64].

Definition replacement : bytes := [239; 191; 189].

(** ** Marshal *)

Definition quote : Z := 34.
Definition backslash : Z := 92.

Definition hex_byte (d : Z) : Z := if d <? 10 then 48 + d else 87 + d.
Definition u_escape (r : Z) : bytes :=
  [backslash; 117; hex_byte (r / 4096 mod 16); hex_byte (r / 256 mod 16); hex_byte (r / 16 mod 16); hex_byte (r mod 16)].

(** Bytes below 128 that are written as they are: the set leaves out what HTML
    gives a meaning. *)
Definition html_safe (z : Z) : bool :=
  (32 <=? z) && negb (z =? quote) && negb (z =? backslash) && negb (z =? 60) && negb (z =? 62) && negb (z =? 38).

Definition escape_byte (z : Z) : bytes :=
  if html_safe z then [z]
  else if (z =? quote) || (z =? backslash) then [backslash; z]
  else if z =? 10 then [backslash; 110]
  else if z =? 13 then [backslash; 114]
  else if z =? 9 then [backslash; 116]
  else u_escape z.

(** The two line separators of Unicode are escaped. *)
Definition line_separator (b : bytes) : bool := bool_decide (b = [226; 128; 168] \/ b = [226; 128; 169]).

(** The contents of a string; [n] is its length. *)
Fixpoint escape (n : nat) (b : bytes) : bytes :=
  match n, b with
  | S n', z :: b' =>
      if z <? 128 then escape_byte z ++ escape n' b'
      else match rune_len b with
           | None => [backslash; 117; 102; 102; 102; 100] ++ escape n' b'
           | Some k =>
               (if line_separator (take k b) then u_escape (8232 + (if bool_decide (take k b = [226; 128; 169]) then 1 else 0))
                else take k b) ++ escape n' (drop k b)
           end
  | _, _ => []
  end.
Definition quoted (s : string) : bytes :=
  let b := bytes_of_string s in quote :: escape (length b) b ++ [quote].

Fixpoint separated (l : list bytes) : bytes :=
  match l with
  | [] => []
  | [b] => b
  | b :: l' => b ++ 44 :: separated l'
  end.

Fixpoint Marshal (v : json Z) : bytes :=
  match v with
  | JNull => bytes_of_string "null"
  | JBool true => bytes_of_string "true"
  | JBool false => bytes_of_string "false"
  | JNum z => bytes_of_string (pretty z)
  | JStr s => quoted s
  | JArr l => 91 :: separated (map Marshal l) ++ [93]
  | JObj l => 123 :: separated (map (fun kv => quoted kv.1 ++ 58 :: Marshal kv.2) l) ++ [125]
  end.

(** ** Unmarshal *)

Definition is_space (z : Z) : bool := (z =? 32) || (z =? 9) || (z =? 10) || (z =? 13).
Fixpoint skip_spaces (b : bytes) : bytes :=
  match b with z :: b' => if is_space z then skip_spaces b' else b | [] => [] end.

Definition hex_digit_value (z : Z) : option Z :=
  if within 48 57 z then Some (z - 48)
  else if within 97 102 z then Some (z - 87)
  else if within 65 70 z then Some (z - 55)
  else None.
Definition getu4 (b : bytes) : option (Z * bytes) :=
  match b with
  | h1 :: h2 :: h3 :: h4 :: b' =>
      match hex_digit_value h1, hex_digit_value h2, hex_digit_value h3, hex_digit_value h4 with
      | Some d1, Some d2, Some d3, Some d4 => Some (((d1 * 16 + d2) * 16 + d3) * 16 + d4, b')
      | _, _, _, _ => None
      end
  | _ => None
  end.

(** What a [\u] escape stands for: a surrogate is joined with the escape of its
    partner behind it, or replaced. *)
Definition decode_u (b : bytes) : option (bytes * bytes) :=
  match getu4 b with
  | None => None
  | Some (r, b') =>
      if within 55296 57343 r then
        match b' with
        | x :: y :: b'' =>
            if (x =? backslash) && (y =? 117) then
              match getu4 b'' with
              | Some (r2, b3) =>
                  if within 55296 56319 r && within 56320 57343 r2
                  then Some (encode_rune ((r - 55296) * 1024 + (r2 - 56320) + 65536), b3)
                  else Some (replacement, b')
              | None => Some (replacement, b')
              end
            else Some (replacement, b')
        | _ => Some (replacement, b')
        end
      else Some (encode_rune r, b')
  end.

Definition simple_escape (z : Z) : option Z :=
  if (z =? quote) || (z =? backslash) || (z =? 47) then Some z
  else if z =? 98 then Some 8
  else if z =? 102 then Some 12
  else if z =? 110 then Some 10
  else if z =? 114 then Some 13
  else if z =? 116 then Some 9
  else None.

(** A string behind its opening quote: its bytes and what follows it. *)
Fixpoint unquote (n : nat) (b : bytes) : option (bytes * bytes) :=
  match n, b with
  | S n', z :: b' =>
      if z =? quote then Some ([], b')
      else if z =? backslash then
        match b' with
        | e :: b'' =>
            if e =? 117 then
              match decode_u b'' with
              | Some (c, r) => match unquote n' r with Some (t, r') => Some (c ++ t, r') | None => None end
              | None => None
              end
            else
              match simple_escape e with
              | Some c => match unquote n' b'' with Some (t, r') => Some (c :: t, r') | None => None end
              | None => None
              end
        | [] => None
        end
      else if z <? 32 then None
      else if z <? 128 then match unquote n' b' with Some (t, r') => Some (z :: t, r') | None => None end
      else
        match rune_len b with
        | Some k => match unquote n' (drop k b) with Some (t, r') => Some (take k b ++ t, r') | None => None end
        | None => match unquote n' b' with Some (t, r') => Some (replacement ++ t, r') | None => None end
        end
  | _, _ => None
  end.

(** A run of digits: their value behind [acc], how many, and the rest. *)
Fixpoint digits (acc : Z) (count : nat) (b : bytes) : Z * nat * bytes :=
  match b with
  | z :: b' => if within 48 57 z then digits (acc * 10 + (z - 48)) (S count) b' else (acc, count, b)
  | [] => (acc, count, [])
  end.

(** The float64 nearest to [m * 10^e], [strconv.ParseFloat]. *)
Definition float_of_decimal (neg : bool) (m e : Z) : float64 :=
  if 0 <=? e then binary_normalize 53 1024 ((if neg then - m else m) * 10 ^ e) 0 neg
  else match m with
       | Zpos p =>
           let '(mz, ez, lz) := SFdiv_core_binary 53 1024 (Zpos p) 0 (10 ^ (- e)) 0 in
           binary_round_aux 53 1024 neg mz ez lz
       | _ => S754_zero neg
       end.

(** A number as it is written: sign, decimal value, and whether it has neither a
    fraction nor an exponent. *)
Record literal := mkLiteral { li_neg : bool; li_m : Z; li_e : Z; li_plain : bool }.

(** The exponent of a number, whether it has none, and the rest. *)
Definition exponent (b : bytes) : option (Z * bool * bytes) :=
  match b with
  | z :: b' =>
      if (z =? 101) || (z =? 69) then
        let '(neg, b2) := match b' with
                          | s :: b2 => if s =? 45 then (true, b2) else if s =? 43 then (false, b2) else (false, b')
                          | [] => (false, b')
                          end in
        let '(v, n, b3) := digits 0 0 b2 in
        if (n =? 0)%nat then None else Some (if neg : bool then - v else v, false, b3)
      else Some (0, true, b)
  | [] => Some (0, true, [])
  end.

(** A number behind its sign. *)
Definition unsigned (neg : bool) (b1 : bytes) : option (literal * bytes) :=
  let '(v, n, b2) := digits 0 0 b1 in
  if (n =? 0)%nat || (match b1 with z :: _ => (z =? 48) && (1 <? n)%nat | [] => false end) then None
  else
    match (match b2 with
           | z :: b3 => if z =? 46 then let '(v', n', b4) := digits v 0 b3 in
                                        if (n' =? 0)%nat then None else Some (v', Z.of_nat n', false, b4)
                        else Some (v, 0, true, b2)
           | [] => Some (v, 0, true, b2)
           end) with
    | None => None
    | Some (m, frac, plain, b5) =>
        match exponent b5 with
        | None => None
        | Some (e, none, b6) => Some (mkLiteral neg m (e - frac) (plain && none), b6)
        end
    end.
Definition number (b : bytes) : option (literal * bytes) :=
  match b with
  | z :: b' => if z =? 45 then unsigned true b' else unsigned false b
  | [] => None
  end.

(** As an [interface{}] a number is the nearest float64, an error beyond its range;
    an int field takes integers written plainly, in the range of int64. *)
Definition lit_float (l : literal) : option float64 :=
  match float_of_decimal (li_neg l) (li_m l) (li_e l) with
  | S754_infinity _ | S754_nan => None
  | f => Some f
  end.
Definition lit_int (l : literal) : option Z :=
  let z := if li_neg l then - li_m l else li_m l in
  if li_plain l && (min_int64 <=? z) && (z <=? max_int64) then Some z else None.

Definition word (text : string) (b : bytes) : option bytes := strip_prefix (bytes_of_string text) b.

(** [n] is more than the bytes left, [d] how deep arrays and objects may still be
    nested. *)
Fixpoint parse_value (n d : nat) (b : bytes) {struct n} : option (json literal * bytes) :=
  match n, skip_spaces b with
  | S n', z :: b' =>
      if z =? quote then
        match unquote n' b' with Some (t, r) => Some (JStr (string_of_bytes t), r) | None => None end
      else if z =? 91 then
        match d with
        | O => None
        | S d' =>
            match skip_spaces b' with
            | x :: r => if x =? 93 then Some (JArr [], r)
                        else match parse_elements n' d' b' with Some (l, r') => Some (JArr l, r') | None => None end
            | [] => None
            end
        end
      else if z =? 123 then
        match d with
        | O => None
        | S d' =>
            match skip_spaces b' with
            | x :: r => if x =? 125 then Some (JObj [], r)
                        else match parse_members n' d' b' with Some (l, r') => Some (JObj l, r') | None => None end
            | [] => None
            end
        end
      else if z =? 110 then match word "null" (z :: b') with Some r => Some (JNull, r) | None => None end
      else if z =? 116 then match word "true" (z :: b') with Some r => Some (JBool true, r) | None => None end
      else if z =? 102 then match word "false" (z :: b') with Some r => Some (JBool false, r) | None => None end
      else match number (z :: b') with Some (l, r) => Some (JNum l, r) | None => None end
  | _, _ => None
  end
with parse_elements (n d : nat) (b : bytes) {struct n} : option (list (json literal) * bytes) :=
  match n with
  | O => None
  | S n' =>
      match parse_value n' d b with
      | None => None
      | Some (v, r) =>
          match skip_spaces r with
          | x :: r' =>
              if x =? 93 then Some ([v], r')
              else if x =? 44 then
                match parse_elements n' d r' with Some (l, r2) => Some (v :: l, r2) | None => None end
              else None
          | [] => None
          end
      end
  end
with parse_members (n d : nat) (b : bytes) {struct n} : option (list (string * json literal) * bytes) :=
  match n with
  | O => None
  | S n' =>
      match skip_spaces b with
      | q :: b' =>
          if negb (q =? quote) then None
          else
            match unquote n' b' with
            | None => None
            | Some (k, r) =>
                match skip_spaces r with
                | c :: r' =>
                    if negb (c =? 58) then None
                    else
                      match parse_value n' d r' with
                      | None => None
                      | Some (v, r2) =>
                          match skip_spaces r2 with
                          | x :: r3 =>
                              if x =? 125 then Some ([(string_of_bytes k, v)], r3)
                              else if x =? 44 then
                                match parse_members n' d r3 with
                                | Some (l, r4) => Some ((string_of_bytes k, v) :: l, r4)
                                | None => None
                                end
                              else None
                          | [] => None
                          end
                      end
                | [] => None
                end
            end
      | [] => None
      end
  end.

Definition maxNestingDepth : nat := Z.to_nat 10000.

(** The whole text must be one value. *)
Definition parse (b : bytes) : option (json literal) :=
  match parse_value (4 + 2 * length b)%nat maxNestingDepth b with
  | Some (v, r) => match skip_spaces r with [] => Some v | _ => None end
  | None => None
  end.

(** A value as an [interface{}]. *)
Fixpoint as_interface (v : json literal) : option (json float64) :=
  match v with
  | JNull => Some JNull
  | JBool b => Some (JBool b)
  | JNum l => JNum <$> lit_float l
  | JStr s => Some (JStr s)
  | JArr l => JArr <$> mapM as_interface l
  | JObj l => JObj <$> mapM (fun kv => pair kv.1 <$> as_interface kv.2) l
  end.

(** [json.Unmarshal] into an [interface{}]. *)
Definition Unmarshal (b : bytes) : option (json float64) := v ← parse b; as_interface v.

(** ** Integers that a float64 holds exactly *)

Lemma digits2_pos_bound p k : (Z.pos p < 2 ^ k) -> 0 <= k -> Z.pos (digits2_pos p) <= k.
Proof.
  revert k. induction p as [p IH|p IH|]; intros k Hp Hk; cbn [digits2_pos]; rewrite ?Pos2Z.inj_succ.
  - destruct (Z.eq_dec k 0) as [->|]; [cbn in Hp; lia|]. specialize (IH (k - 1)).
    assert (2 ^ k = 2 * 2 ^ (k - 1)) by (rewrite -Z.pow_succ_r; [lia|f_equal; lia]). lia.
  - destruct (Z.eq_dec k 0) as [->|]; [cbn in Hp; lia|]. specialize (IH (k - 1)).
    assert (2 ^ k = 2 * 2 ^ (k - 1)) by (rewrite -Z.pow_succ_r; [lia|f_equal; lia]). lia.
  - destruct (Z.eq_dec k 0) as [->|]; [cbn in Hp; lia|]. lia.
Qed.

Lemma digits2_pos_iter p d : Z.pos (digits2_pos (Pos.iter xO p d)) = Z.pos (digits2_pos p) + Z.pos d.
Proof.
  revert d. apply Pos.peano_ind; [cbn; lia|]. intros d IH. rewrite Pos.iter_succ. cbn [digits2_pos]. lia.
Qed.

Lemma iter_xO p d : Z.pos (Pos.iter xO p d) = Z.pos p * 2 ^ Z.pos d.
Proof.
  revert d. apply Pos.peano_ind; [cbn; lia|]. intros d IH. rewrite Pos.iter_succ Pos2Z.inj_xO IH Pos2Z.inj_succ Z.pow_succ_r; lia.
Qed.

Lemma fexp_53 e : -1074 <= e -> fexp 53 1024 (53 + e) = e.
Proof. unfold fexp, emin. lia. Qed.

Lemma round_aux_exact s m e : Z.pos (digits2_pos m) = 53 -> -1074 <= e <= 971 ->
  binary_round_aux 53 1024 s (Z.pos m) e loc_Exact = S754_finite s m e.
Proof.
  intros Hm He. unfold binary_round_aux, shr_fexp. cbn [Zdigits2 shr_record_of_loc]. rewrite Hm fexp_53; [lia|].
  rewrite Z.sub_diag. cbn [shr loc_of_shr_record shr_m round_nearest_even Zdigits2 shr_record_of_loc].
  rewrite Hm fexp_53; [lia|]. rewrite Z.sub_diag. cbn [shr shr_m]. destruct (Z.leb_spec e (1024 - 53)); [done|lia].
Qed.

Lemma binary_round_exact s p :
  Z.pos p < 2 ^ 53 -> exists m e, binary_round 53 1024 s p 0 = S754_finite s m e /\ -53 <= e <= 0 /\ Z.pos m = Z.pos p * 2 ^ (- e).
Proof.
  intros Hp. pose proof (digits2_pos_bound p 53 Hp ltac:(lia)) as Hd. unfold binary_round, shl_align. rewrite Z.add_0_r.
  assert (fexp 53 1024 (Z.pos (digits2_pos p)) = Z.pos (digits2_pos p) - 53) as -> by (unfold fexp, emin; lia).
  rewrite Z.sub_0_r. destruct (Z.pos (digits2_pos p) - 53) as [|d|d] eqn:E; [|lia|].
  - exists p, 0. rewrite round_aux_exact; [lia|lia|]. split; [done|]. lia.
  - exists (Pos.iter xO p d), (Z.neg d). rewrite round_aux_exact; [rewrite digits2_pos_iter; lia|lia|].
    split; [done|]. split; [lia|]. rewrite iter_xO. f_equal.
Qed.

Lemma float64_of_int_finite z : - 2 ^ 53 < z < 2 ^ 53 ->
  match float64_of_int z with S754_infinity _ | S754_nan => False | _ => True end.
Proof.
  intros Hz. unfold float64_of_int, binary_normalize. destruct z as [|p|p]; [done| |].
  - destruct (binary_round_exact false p) as (m & e & -> & _); [lia|done].
  - destruct (binary_round_exact true p) as (m & e & -> & _); [lia|done].
Qed.

Lemma int_of_float64_of_int oob z : - 2 ^ 53 < z < 2 ^ 53 -> int_of_float64 oob (float64_of_int z) = z.
Proof.
  intros Hz. assert (forall s p, Z.pos p < 2 ^ 53 -> int_of_float64 oob (binary_round 53 1024 s p 0) = if s then - Z.pos p else Z.pos p) as H.
  { intros s p Hp. destruct (binary_round_exact s p Hp) as (m & e & -> & He & Hm). cbn [int_of_float64].
    assert ((if 0 <=? e then Z.pos m * 2 ^ e else Z.pos m / 2 ^ (- e)) = Z.pos p) as ->.
    { destruct (Z.leb_spec 0 e).
      - replace e with 0 in * by lia. rewrite Hm. cbn. lia.
      - rewrite Hm. apply Z.div_mul. apply Z.pow_nonzero; lia. }
    unfold min_int64, max_int64. destruct s, (Z.leb_spec (- 2 ^ 63) (- Z.pos p)), (Z.leb_spec (- Z.pos p) (2 ^ 63 - 1)),
      (Z.leb_spec (- 2 ^ 63) (Z.pos p)), (Z.leb_spec (Z.pos p) (2 ^ 63 - 1)); cbn [andb]; lia. }
  unfold float64_of_int, binary_normalize. destruct z as [|p|p]; [done| |]; rewrite H; lia.
Qed.

(** ** Strings come back *)

(** [utf8.Valid]; [n] is the length. *)
Fixpoint utf8_valid (n : nat) (b : bytes) : bool :=
  match n, b with
  | _, [] => true
  | S n', z :: b' =>
      if within 0 127 z then utf8_valid n' b'
      else match rune_len b with Some k => utf8_valid n' (drop k b) | None => false end
  | O, _ :: _ => false
  end.
Definition text (s : string) : Prop := utf8_valid (String.length s) (bytes_of_string s) = true.

(** Only the bytes of the character matter. *)
Lemma rune_len_spec b k rest :
  rune_len b = Some k -> (2 <= k <= length b)%nat /\ (exists z c, take k b = z :: c /\ 194 <= z) /\ rune_len (take k b ++ rest) = Some k.
Proof.
  destruct b as [|b0 [|b1 r]]; [done|done|]. cbn [rune_len].
  destruct (within 194 223 b0) eqn:E0.
  { destruct (cont b1) eqn:E1; [|done]. intros [= <-]. cbn. rewrite E0 E1. unfold within in E0. split; [lia|]. split; [|done].
    eexists _, _. split; [done|]. lia. }
  destruct (within 224 239 b0) eqn:E1.
  { destruct r as [|b2 r]; [done|]. destruct (_ && _) eqn:E2; [|done]. intros [= <-]. cbn. rewrite E0 E1 E2.
    unfold within in E1. split; [lia|]. split; [|done]. eexists _, _. split; [done|]. lia. }
  destruct (within 240 244 b0) eqn:E2; [|done]. destruct r as [|b2 [|b3 r]]; [done|done|].
  destruct (_ && _) eqn:E3; [|done]. intros [= <-]. cbn. rewrite E0 E1 E2 E3. unfold within in E2. split; [lia|]. split; [|done].
  eexists _, _. split; [done|]. lia.
Qed.

(** One step of [unquote] per character. *)
Definition and_then (c : bytes) (r : option (bytes * bytes)) : option (bytes * bytes) :=
  match r with Some (t, r') => Some (c ++ t, r') | None => None end.

Lemma unquote_byte n z rest : within 0 127 z = true -> unquote (S n) (escape_byte z ++ rest) = and_then [z] (unquote n rest).
Proof.
  intros Hz. unfold within in Hz. destruct z as [|p|p]; [reflexivity| |done].
  do 7 (destruct p as [p|p|]; [| |reflexivity]); by destruct p.
Qed.

Lemma unquote_rune n b k rest :
  rune_len b = Some k -> unquote (S n) (take k b ++ rest) = and_then (take k b) (unquote n rest).
Proof.
  intros Hk. destruct (rune_len_spec b k rest Hk) as (Hlen & (z & c & Ec & Hz) & Hr).
  assert (length (take k b) = k) as Hl by (rewrite length_take; lia).
  assert (exists w, take k b ++ rest = z :: w) as [w Ew] by (rewrite Ec; by eexists). rewrite Ew in Hr |- *.
  cbn [unquote]. unfold quote, backslash. destruct (Z.eqb_spec z 34); [lia|]. destruct (Z.eqb_spec z 92); [lia|].
  destruct (Z.ltb_spec z 32); [lia|]. destruct (Z.ltb_spec z 128); [lia|]. rewrite Hr -Ew.
  rewrite take_app_length' // drop_app_length' //.
Qed.

Lemma unquote_separator n b rest : line_separator b = true ->
  unquote (S n) (u_escape (8232 + (if bool_decide (b = [226; 128; 169]) then 1 else 0)) ++ rest) = and_then b (unquote n rest).
Proof. unfold line_separator. rewrite bool_decide_eq_true. by intros [-> | ->]. Qed.

Lemma escape_byte_nonempty z : escape_byte z <> [].
Proof. unfold escape_byte, u_escape. by repeat case_match. Qed.

Lemma unquote_escape m b n rest :
  utf8_valid m b = true -> (length (escape m b) < n)%nat ->
  unquote n (escape m b ++ quote :: rest) = Some (b, rest).
Proof.
  revert b n. induction m as [|m IH]; intros [|z b] n Hv Hn; try done; try (destruct n as [|n]; [cbn in Hn; lia|reflexivity]).
  cbn [utf8_valid] in Hv. cbn [escape] in Hn |- *. destruct n as [|n]; [lia|]. destruct (within 0 127 z) eqn:Ez.
  - assert (z <? 128 = true) as Hlt by (unfold within in Ez; lia). rewrite Hlt in Hn |- *. rewrite -assoc_L unquote_byte //.
    rewrite IH //. rewrite length_app in Hn. pose proof (escape_byte_nonempty z). destruct (escape_byte z); [done|cbn in Hn; lia].
  - destruct (rune_len (z :: b)) as [k|] eqn:Ek; [|done]. destruct (rune_len_spec _ k (quote :: rest) Ek) as (Hlen & (z' & c & Ec & Hz) & _).
    assert (z' = z) as -> by (destruct k; [lia|]; cbn in Ec; congruence).
    destruct (Z.ltb_spec z 128); [lia|]. destruct (line_separator (take k (z :: b))) eqn:Es.
    + rewrite -assoc_L unquote_separator // IH //; [rewrite length_app in Hn; cbn in Hn; lia|]. cbn [and_then]. by rewrite take_drop.
    + rewrite -assoc_L unquote_rune // IH //; [|cbn [and_then]; by rewrite take_drop].
      rewrite length_app length_take in Hn. lia.
Qed.

(** A string without its quotes takes at least its length. *)
Lemma unquote_quoted s n rest :
  text s -> (length (quoted s) <= n)%nat -> exists b, quoted s = quote :: b /\ unquote n (b ++ rest) = Some (bytes_of_string s, rest).
Proof.
  unfold text, quoted. rewrite -length_bytes_of_string. intros Ht Hn. eexists. split; [reflexivity|]. rewrite -assoc_L. cbn [app].
  apply unquote_escape; [done|]. cbn in Hn. rewrite length_app in Hn. cbn in Hn. lia.
Qed.

(** ** Numbers come back *)

Lemma pretty_go_head x s :
  (0 < x)%N -> exists c t d, pretty_N_go x s = String c t /\ digit_value c = Some d /\ d <> 0.
Proof.
  revert s. induction (N.lt_wf_0 x) as [x _ IH]. intros s Hx. rewrite pretty_N_go_step; [done|].
  destruct (decide (x / 10 = 0)%N) as [E|E].
  - rewrite E pretty_N_go_0. eexists _, _, _. split; [done|]. rewrite pretty_digit_value; [by apply N.mod_lt|]. split; [done|].
    pose proof (N.div_mod x 10 ltac:(done)). lia.
  - apply IH; [apply N.div_lt; lia|by apply N.neq_0_lt_0].
Qed.

(** What may follow a value inside an array or an object. *)
Definition ends (r : bytes) : Prop := match r with [] => True | z :: _ => z = 44 \/ z = 93 \/ z = 125 end.

Lemma digits_text s acc c v r :
  digits_value acc s = Some v -> ends r -> digits acc c (bytes_of_string s ++ r) = (v, (c + String.length s)%nat, r).
Proof.
  revert acc c. induction s as [|x s IH]; intros acc c; cbn [digits_value bytes_of_string app digits String.length].
  - intros [= <-] Hr. rewrite Nat.add_0_r. destruct r as [|z r]; [done|]. cbn [digits].
    assert (within 48 57 z = false) as ->; [|done]. destruct Hr as [->|[->| ->]]; done.
  - unfold digit_value. set (z := Z.of_N (Ascii.N_of_ascii x)). destruct (_ && _) eqn:Ed; [|done]. intros Hv Hr.
    assert (within 48 57 z = true) as -> by (unfold within; lia). rewrite (IH _ _ Hv Hr). do 2 f_equal. lia.
Qed.

(** A run of digits that ends as a value does. *)
Definition leads (s : string) : Prop := s = "0" \/ exists c t d, s = String c t /\ digit_value c = Some d /\ d <> 0.

Lemma leads_byte s r : leads s ->
  exists z b, bytes_of_string s ++ r = z :: b /\ z <> 45 /\ ((z =? 48) && (1 <? String.length s)%nat = false) /\ String.length s <> 0%nat.
Proof.
  intros [->|(c & t & d & -> & Hd & Hd0)]; [by eexists _, _|]. eexists _, _. split; [done|].
  unfold digit_value in Hd. destruct (_ && _) eqn:E; [|done]. injection Hd as Hd.
  split; [lia|]. split; [|done]. destruct (Z.eqb_spec (Z.of_N (Ascii.N_of_ascii c)) 48); [lia|done].
Qed.

Definition lit_of_int (z : Z) : literal := mkLiteral (z <? 0) (Z.abs z) 0 true.

Lemma exponent_ends r : ends r -> exponent r = Some (0, true, r).
Proof. destruct r as [|z r]; [done|]. by intros [->|[->| ->]]. Qed.

Lemma unsigned_digits neg s m r :
  digits_value 0 s = Some m -> ends r -> leads s -> unsigned neg (bytes_of_string s ++ r) = Some (mkLiteral neg m 0 true, r).
Proof.
  intros Hm Hr Hs. unfold unsigned. rewrite (digits_text s 0 0 m r Hm Hr).
  destruct (leads_byte s r Hs) as (z & b & -> & _ & Hz & Hl). cbn [Nat.add]. rewrite Hz.
  destruct (Nat.eqb_spec (String.length s) 0); [done|]. cbn [orb]. destruct r as [|w r]; [done|].
  assert (w =? 46 = false) as -> by (destruct Hr as [->|[->| ->]]; done). by rewrite (exponent_ends _ Hr).
Qed.

Lemma number_pretty (z : Z) r : ends r -> number (bytes_of_string (pretty z) ++ r) = Some (lit_of_int z, r).
Proof.
  intros Hr. assert (forall x : N, leads (pretty x)) as Hd.
  { intros x. unfold pretty, pretty_N. case_decide as E; [by left|right]. apply pretty_go_head. lia. }
  assert (forall neg (x : N), unsigned neg (bytes_of_string (pretty x) ++ r) = Some (mkLiteral neg (Z.of_N x) 0 true, r)) as Hu.
  { intros neg x. by apply unsigned_digits; [apply digits_value_pretty| |]. }
  assert (forall x : N, number (bytes_of_string (pretty x) ++ r) = unsigned false (bytes_of_string (pretty x) ++ r)) as Hn.
  { intros x. unfold number. destruct (leads_byte (pretty x) r (Hd x)) as (w & b & -> & Hw & _). by destruct (Z.eqb_spec w 45). }
  destruct z as [|p|p].
  - change (pretty 0) with (pretty 0%N). by rewrite Hn Hu.
  - change (pretty (Z.pos p)) with (pretty (N.pos p)). by rewrite Hn Hu.
  - change (pretty (Z.neg p)) with ("-" +:+ pretty (N.pos p)). rewrite bytes_of_string_app -assoc_L.
    change (number (bytes_of_string "-" ++ ?x)) with (unsigned true x). by rewrite Hu.
Qed.

Lemma lit_float_int z : - 2 ^ 53 < z < 2 ^ 53 -> lit_float (lit_of_int z) = Some (float64_of_int z).
Proof.
  intros Hz. pose proof (float64_of_int_finite z Hz) as Hf. unfold lit_float, float_of_decimal. cbn [lit_of_int li_neg li_m li_e Z.leb Z.compare].
  rewrite Z.mul_1_r. assert (binary_normalize 53 1024 (if z <? 0 then - Z.abs z else Z.abs z) 0 (z <? 0) = float64_of_int z) as ->.
  { by destruct z. }
  by destruct (float64_of_int z).
Qed.

Lemma lit_int_int z : is_i64 z -> lit_int (lit_of_int z) = Some z.
Proof.
  intros Hz. unfold lit_int, lit_of_int, min_int64, max_int64, is_i64 in *. cbn [li_neg li_m li_plain andb].
  destruct (Z.ltb_spec z 0).
  - replace (- Z.abs z) with z by lia. destruct (Z.leb_spec (- 2 ^ 63) z), (Z.leb_spec z (2 ^ 63 - 1)); done || lia.
  - replace (Z.abs z) with z by lia. destruct (Z.leb_spec (- 2 ^ 63) z), (Z.leb_spec z (2 ^ 63 - 1)); done || lia.
Qed.

(** ** Values come back *)

Fixpoint json_map {A B} (f : A -> B) (v : json A) : json B :=
  match v with
  | JNull => JNull
  | JBool b => JBool b
  | JNum n => JNum (f n)
  | JStr s => JStr s
  | JArr l => JArr (map (json_map f) l)
  | JObj l => JObj (map (fun kv => (kv.1, json_map f kv.2)) l)
  end.

Definition is_text (s : string) : bool := utf8_valid (String.length s) (bytes_of_string s).

(** Values that survive: strings in UTF-8, nested at most [d] deep. *)
Fixpoint fits (d : nat) (v : json Z) {struct v} : bool :=
  match v with
  | JNull | JBool _ | JNum _ => true
  | JStr s => is_text s
  | JArr l => match d with O => false | S d' => forallb (fits d') l end
  | JObj l => match d with O => false | S d' => forallb (fun kv => is_text kv.1 && fits d' kv.2) l end
  end.

Notation decoded := (json_map lit_of_int).

Lemma number_head (z : Z) : exists x b, bytes_of_string (pretty z) = x :: b /\ (x = 45 \/ 48 <= x <= 57).
Proof.
  assert (forall x : N, exists z b, bytes_of_string (pretty x) = z :: b /\ 48 <= z <= 57) as Hd.
  { intros x. pose proof (all_digits_pretty x) as Hx. destruct (pretty x) as [|c s] eqn:E; [by apply pretty_N_nonempty in E|].
    eexists _, _. split; [done|]. cbn in Hx. apply andb_prop in Hx as [Hx _].
    unfold digit_value in Hx. destruct (_ && _) eqn:Ed in Hx; [|done]. lia. }
  destruct z as [|p|p]; [by eexists _, _; split; [done|right]| |by eexists _, _; split; [done|left]].
  destruct (Hd (N.pos p)) as (x & b & Hx & Hr). exists x, b. by split; [|right].
Qed.

Lemma Marshal_head v : exists z b, Marshal v = z :: b /\ is_space z = false /\ z <> 93 /\ z <> 125.
Proof.
  destruct v as [|[]|z|s|l|l]; try by eexists _, _. destruct (number_head z) as (x & b & Hx & Hr). exists x, b. split; [done|].
  unfold is_space. lia.
Qed.

Lemma skip_head z b : is_space z = false -> skip_spaces (z :: b) = z :: b.
Proof. intros H. cbn. by rewrite H. Qed.

(** What the parser has to do for a value, the elements of an array and the members
    of an object. *)
Definition parses (v : json Z) : Prop := forall n d rest,
  fits d v = true -> ends rest -> (2 * length (Marshal v) < n)%nat -> parse_value n d (Marshal v ++ rest) = Some (decoded v, rest).

Lemma elements_parse l n d rest :
  Forall parses l -> l <> [] -> forallb (fits d) l = true -> (2 * length (separated (map Marshal l)) + 1 < n)%nat ->
  parse_elements n d (separated (map Marshal l) ++ 93 :: rest) = Some (map decoded l, rest).
Proof.
  intros Hl. revert n. induction Hl as [|v l Hv Hl IH]; intros n Hne Hf Hn; [done|]. cbn [forallb] in Hf. apply andb_prop in Hf as [Hfv Hfl].
  destruct n as [|n]; [lia|]. cbn [parse_elements]. destruct l as [|w l].
  - cbn [map separated] in Hn |- *. rewrite (Hv n d (93 :: rest) Hfv); [cbn; tauto|lia|]. done.
  - cbn [map separated] in Hn |- *. rewrite length_app in Hn. cbn [length] in Hn.
    rewrite -assoc_L. cbn [app]. rewrite (Hv n d _ Hfv); [cbn; tauto|lia|]. cbn [skip_spaces is_space Z.eqb Pos.eqb orb].
    rewrite IH; [done|done|cbn [map separated]; lia|]. done.
Qed.

Lemma string_parses n k rest : is_text k = true -> (length (quoted k) <= n)%nat ->
  exists b, quoted k = quote :: b /\ unquote n (b ++ rest) = Some (bytes_of_string k, rest).
Proof. intros. by apply unquote_quoted. Qed.

Definition member (kv : string * json Z) : bytes := quoted kv.1 ++ 58 :: Marshal kv.2.

Lemma members_parse l n d rest :
  Forall (fun kv => parses kv.2) l -> l <> [] -> forallb (fun kv => is_text kv.1 && fits d kv.2) l = true ->
  (2 * length (separated (map member l)) + 1 < n)%nat ->
  parse_members n d (separated (map member l) ++ 125 :: rest) = Some (map (fun kv => (kv.1, decoded kv.2)) l, rest).
Proof.
  intros Hl. revert n. induction Hl as [|[k v] l Hv Hl IH]; intros n Hne Hf Hn; [done|]. cbn [forallb fst snd] in Hf.
  apply andb_prop in Hf as [[Hk Hfv]%andb_prop Hfl]. destruct n as [|n]; [lia|]. cbn [snd] in Hv.
  assert (forall r, exists b, (length (member (k, v)) <= n)%nat -> member (k, v) ++ r = quote :: b /\
    unquote n b = Some (bytes_of_string k, 58 :: Marshal v ++ r)) as Hm.
  { intros r. destruct (decide (length (member (k, v)) <= n)%nat) as [Hle|]; [|by exists []]. unfold member in Hle |- *. cbn [fst snd] in *.
    rewrite length_app in Hle. destruct (string_parses n k (58 :: Marshal v ++ r) Hk ltac:(lia)) as (b & -> & Hb).
    eexists. intros _. split; [cbn; by rewrite -assoc_L|]. exact Hb. }
  cbn [parse_members]. destruct l as [|kw l].
  - cbn [map separated] in Hn |- *. destruct (Hm (125 :: rest)) as (b & Hb). destruct Hb as [-> Hu]; [lia|].
    cbn [skip_spaces is_space Z.eqb Pos.eqb orb quote negb]. rewrite Hu. cbn [skip_spaces is_space Z.eqb Pos.eqb orb negb].
    unfold member in Hn. cbn [fst snd] in Hn. rewrite length_app in Hn. cbn [length] in Hn.
    rewrite (Hv n d (125 :: rest) Hfv); [cbn; tauto|lia|]. cbn [skip_spaces is_space Z.eqb Pos.eqb orb]. by rewrite string_of_bytes_of_string.
  - cbn [map separated] in Hn |- *. rewrite length_app in Hn. cbn [length] in Hn. rewrite -assoc_L. cbn [app].
    match goal with |- context [member (k, v) ++ ?r] => destruct (Hm r) as (b & Hb) end. destruct Hb as [-> Hu]; [lia|].
    cbn [skip_spaces is_space Z.eqb Pos.eqb orb quote negb]. rewrite Hu. cbn [skip_spaces is_space Z.eqb Pos.eqb orb negb].
    unfold member in Hn at 1. cbn [fst snd] in Hn. rewrite length_app in Hn. cbn [length] in Hn.
    rewrite (Hv n d _ Hfv); [cbn; tauto|lia|]. cbn [skip_spaces is_space Z.eqb Pos.eqb orb].
    rewrite IH; [done|done|cbn [map separated]; lia|]. by rewrite string_of_bytes_of_string.
Qed.

Lemma separated_head (l : list bytes) r : Forall (fun b => exists z c, b = z :: c /\ is_space z = false /\ z <> 93 /\ z <> 125) l -> l <> [] ->
  exists z c, separated l ++ r = z :: c /\ is_space z = false /\ z <> 93 /\ z <> 125.
Proof.
  destruct 1 as [|b l (z & c & -> & H) _]; [done|]. intros _. destruct l; by eexists _, _.
Qed.

Lemma value_parses v : parses v.
Proof.
  induction v as [| [] |z|s|l Hl|l Hl] using json_nested_ind; intros n d rest Hf Hr Hn.
  1-3: destruct n as [|n]; [cbn in Hn; lia|reflexivity].
  - destruct n as [|n]; [lia|]. destruct (number_head z) as (x & b & Hx & Hd). cbn [Marshal] in *.
    assert (Hnum : number (bytes_of_string (pretty z) ++ rest) = Some (lit_of_int z, rest)) by by apply number_pretty.
    rewrite Hx in Hnum |- *. cbn [app] in Hnum |- *. cbn [parse_value]. rewrite skip_head; [unfold is_space; lia|].
    unfold quote. repeat match goal with |- context [x =? ?k] => destruct (Z.eqb_spec x k); [lia|] end. by rewrite Hnum.
  - destruct n as [|n]; [lia|]. cbn [fits Marshal] in *. destruct (string_parses n s rest Hf ltac:(lia)) as (b & -> & Hu).
    cbn [app parse_value]. rewrite skip_head //. cbn [Z.eqb Pos.eqb quote]. by rewrite Hu string_of_bytes_of_string.
  - destruct d as [|d]; [done|]. cbn [fits] in Hf. cbn [Marshal] in *. cbn [length] in Hn. rewrite length_app in Hn. cbn [length] in Hn.
    destruct n as [|n]; [lia|]. rewrite -app_comm_cons -assoc_L. cbn [app parse_value]. rewrite skip_head //.
    cbn [Z.eqb Pos.eqb quote]. destruct l as [|v l]; [done|].
    destruct (separated_head (map Marshal (v :: l)) (93 :: rest)) as (x & c & Hx & Hsp & Hne & _); [|done|].
    { apply Forall_map, Forall_true, Marshal_head. }
    rewrite Hx (skip_head _ _ Hsp). destruct (Z.eqb_spec x 93); [done|]. rewrite -Hx. by rewrite elements_parse; [|..|lia|].
  - destruct d as [|d]; [done|]. cbn [fits] in Hf. cbn [Marshal] in *. change (fun kv => quoted kv.1 ++ 58 :: Marshal kv.2) with member in Hn |- *. cbn [length] in Hn. rewrite length_app in Hn. cbn [length] in Hn.
    destruct n as [|n]; [lia|]. rewrite -app_comm_cons -assoc_L. cbn [app parse_value]. rewrite skip_head //.
    cbn [Z.eqb Pos.eqb quote]. destruct l as [|v l]; [done|].
    destruct (separated_head (map member (v :: l)) (125 :: rest)) as (x & c & Hx & Hsp & _ & Hne); [|done|].
    { apply Forall_map, Forall_true. intros kv. by eexists _, _. }
    rewrite Hx (skip_head _ _ Hsp). destruct (Z.eqb_spec x 125); [done|]. rewrite -Hx. by rewrite members_parse; [|..|unfold bytes; lia|].
Qed.

(** Marshalling and parsing are inverse: the text of a value is parsed as that value,
    whatever its strings contain as long as they are UTF-8. *)
Lemma parse_Marshal v : fits maxNestingDepth v = true -> parse (Marshal v) = Some (decoded v).
Proof.
  intros Hf. unfold parse. pose proof (value_parses v (4 + 2 * length (Marshal v))%nat maxNestingDepth [] Hf I ltac:(lia)) as Hp.
  rewrite app_nil_r in Hp. by rewrite Hp.
Qed.

(** Integers that a float64 holds. *)
Fixpoint small (v : json Z) : bool :=
  match v with
  | JNum z => (- 2 ^ 53 <? z) && (z <? 2 ^ 53)
  | JArr l => forallb small l
  | JObj l => forallb (fun kv => small kv.2) l
  | _ => true
  end.

Lemma as_interface_decoded v : small v = true -> as_interface (decoded v) = Some (json_map float64_of_int v).
Proof.
  induction v as [| [] |z|s|l Hl|l Hl] using json_nested_ind; intros Hs; try done; cbn [json_map as_interface small] in *.
  - apply andb_prop in Hs as [H1%Z.ltb_lt H2%Z.ltb_lt]. by rewrite lit_float_int.
  - assert (mapM as_interface (map decoded l) = Some (map (json_map float64_of_int) l)) as ->; [|done].
    induction Hl as [|v l Hv _ IH]; [done|]. cbn [forallb] in Hs. apply andb_prop in Hs as [H1 H2]. cbn [map mapM].
    by rewrite (Hv H1) /= (IH H2).
  - assert (mapM (fun kv => pair kv.1 <$> as_interface kv.2) (map (fun kv => (kv.1, decoded kv.2)) l)
      = Some (map (fun kv => (kv.1, json_map float64_of_int kv.2)) l)) as ->; [|done].
    induction Hl as [|[k v] l Hv _ IH]; [done|]. cbn [forallb] in Hs. apply andb_prop in Hs as [H1 H2]. cbn [map mapM fst snd].
    by rewrite (Hv H1) /= (IH H2).
Qed.

(** Marshal and Unmarshal are inverse: reading the text of a value into an
    [interface{}] gives the value back, its integers as the floats that hold them. *)
Theorem json_roundtrip v :
  fits maxNestingDepth v = true -> small v = true -> Unmarshal (Marshal v) = Some (json_map float64_of_int v).
Proof. intros Hf Hs. unfold Unmarshal. rewrite (parse_Marshal v Hf). by apply as_interface_decoded. Qed.

(** ** Reading into a struct *)

(** A member belongs to the field of the same name, or of the same name but for the
    case of its letters; U+017F and U+212A count as an s and a k. *)
Fixpoint fold_name (n : nat) (b : bytes) : bytes :=
  match n, b with
  | S n', z :: b' =>
      match strip_prefix [197; 191] b, strip_prefix [226; 132; 170] b with
      | Some r, _ => 83 :: fold_name n' r
      | None, Some r => 75 :: fold_name n' r
      | None, None => (if within 97 122 z then z - 32 else z) :: fold_name n' b'
      end
  | _, _ => []
  end.
Definition same_field (field name : string) : bool :=
  bool_decide (fold_name (String.length field) (bytes_of_string field) = fold_name (String.length name) (bytes_of_string name)).

(** Fields of a struct take the members in their order, so that the last one counts.
    A null leaves a string or a number as it is and makes a slice nil; a member of
    another type is an error, which [Unmarshal] returns when it is done. *)
Definition field_string (v : json literal) (old : string) : option string :=
  match v with JStr s => Some s | JNull => Some old | _ => None end.
Definition field_int (v : json literal) (old : Z) : option Z :=
  match v with JNum l => lit_int l | JNull => Some old | _ => None end.
(** A slice of [interface{}]. *)
Definition field_slice (v : json literal) : option (list (json float64)) :=
  match v with JArr l => mapM as_interface l | JNull => Some [] | _ => None end.

(** [json.Unmarshal] into a struct: [assign] gives what the member does to it, [None]
    when its type is wrong. A null leaves the struct as it is; any other value that is
    no object is an error. *)
Definition Unmarshal_struct {R} (assign : string -> json literal -> R -> option R) (init : R) (b : bytes) : option R :=
  match parse b with
  | Some (JObj l) => fold_left (fun r kv => r ≫= assign kv.1 kv.2) l (Some init)
  | Some JNull => Some init
  | _ => None
  end.

(** The commands of the services: [struct { Command string; Args []interface{} }]. *)
Record Command := mkCommand { cmd_Command : string; cmd_Args : list (json float64) }.
Definition assign_Command (k : string) (v : json literal) (c : Command) : option Command :=
  if same_field k "command" then (fun s => mkCommand s (cmd_Args c)) <$> field_string v (cmd_Command c)
  else if same_field k "args" then mkCommand (cmd_Command c) <$> field_slice v
  else Some c.
Definition Unmarshal_Command : bytes -> option Command := Unmarshal_struct assign_Command (mkCommand "" []).

(** The text of a command, with [args] null when the slice is nil. *)
Definition marshal_Command (name : string) (args : option (list (json Z))) : bytes :=
  Marshal (JObj [("command", JStr name); ("args", match args with Some l => JArr l | None => JNull end)]).

Lemma mapM_decoded l : forallb small l = true -> mapM as_interface (map decoded l) = Some (map (json_map float64_of_int) l).
Proof.
  induction l as [|v l IH]; [done|]. cbn [forallb]. intros [H1 H2]%andb_prop. cbn [map mapM]. by rewrite (as_interface_decoded v H1) /= (IH H2).
Qed.

Lemma fits_mono v d d' : (d <= d')%nat -> fits d v = true -> fits d' v = true.
Proof.
  revert d d'. induction v as [| [] |z|s|l Hl|l Hl] using json_nested_ind; intros d d' Hd; try done; destruct d as [|d]; try done;
    (destruct d' as [|d']; [lia|]); cbn [fits]; rewrite !forallb_forall; intros H x Hx; specialize (H x Hx);
    rewrite Forall_forall in Hl; apply list_elem_of_In in Hx.
  - apply (Hl x Hx d); [lia|done].
  - apply andb_prop in H as [H1 H2]. rewrite H1. apply (Hl x Hx d); [lia|done].
Qed.

(** Shallow values, nested at most a hundred deep. *)
Definition plain_value (v : json Z) : bool := fits 100 v && small v.

Lemma Command_roundtrip name args :
  is_text name = true -> forallb plain_value (default [] args) = true ->
  Unmarshal_Command (marshal_Command name args) = Some (mkCommand name (map (json_map float64_of_int) (default [] args))).
Proof.
  intros Hn Hp. assert (forallb (fits 100) (default [] args) = true /\ forallb small (default [] args) = true) as [Hf Hs].
  { rewrite !forallb_forall in Hp |- *. split; intros x Hx; by apply Hp, andb_prop in Hx as [? ?]. }
  unfold Unmarshal_Command, Unmarshal_struct, marshal_Command. rewrite parse_Marshal.
  - apply (fits_mono _ 102); [unfold maxNestingDepth; lia|]. cbn [fits forallb fst snd]. rewrite Hn.
    change (is_text "command") with true. change (is_text "args") with true. destruct args as [l|]; [|done]. cbn [fits]. cbn in Hf. by rewrite Hf.
  - cbn [json_map map fst snd fold_left mbind option_bind]. unfold assign_Command.
    change (same_field "command" "command") with true. change (same_field "args" "command") with false.
    change (same_field "args" "args") with true. cbn [field_string fmap option_fmap option_map mbind option_bind cmd_Args].
    destruct args as [l|]; cbn [json_map field_slice default from_option id cmd_Command] in *; [|done].
    by rewrite (mapM_decoded l Hs).
Qed.

(** Decides which fields the members of a literal object belong to. *)
Ltac match_fields :=
  repeat match goal with
  | |- context [same_field ?a ?b] => let r := eval vm_compute in (same_field a b) in change (same_field a b) with r
  end; cbv beta iota.
