(* ===== verification/GoTime.v ===== *)
(** What the messages use of Go's package time (Go 1.21): the calendar, and the text
    of an instant in the layout RFC3339Nano, written and read back. *)

From S2P Require Import Prelude CoreTypes NetMessage GoText GoJson.

(** ** The calendar *)

Definition isLeap (year : Z) : bool := (year mod 4 =? 0) && (negb (year mod 100 =? 0) || (year mod 400 =? 0)).

(** [daysBefore]: the days of a year before each month, and of all of it. *)
Definition daysBefore : list Z := [0; 31; 59; 90; 120; 151; 181; 212; 243; 273; 304; 334; 365].
Definition days_before (m : Z) : Z := nth (Z.to_nat m) daysBefore 0.

Definition daysIn (month year : Z) : Z :=
  if (month =? 2) && isLeap year then 29 else days_before month - days_before (month - 1).

(** The year and the day in it of a day counted from the first of January of the
    year 1. Go counts from a year that differs by a multiple of 400. *)
Definition year_yday (d : Z) : Z * Z :=
  let n400 := d / 146097 in
  let d1 := d - 146097 * n400 in
  let n100 := d1 / 36524 in
  let n100 := n100 - Z.shiftr n100 2 in
  let d2 := d1 - 36524 * n100 in
  let n4 := d2 / 1461 in
  let d3 := d2 - 1461 * n4 in
  let n1 := d3 / 365 in
  let n1 := n1 - Z.shiftr n1 2 in
  (400 * n400 + 100 * n100 + 4 * n4 + n1 + 1, d3 - 365 * n1).

(** Month and day of a day of a year. *)
Definition month_day (leap : bool) (yday : Z) : Z * Z :=
  if leap && (yday =? 59) then (2, 29)
  else
    let day := if leap && (59 <? yday) then yday - 1 else yday in
    let month := day / 31 in
    if days_before (month + 1) <=? day then (month + 2, day - days_before (month + 1) + 1)
    else (month + 1, day - days_before month + 1).

(** [daysSinceEpoch], and the day of a date. *)
Definition year_days (year : Z) : Z :=
  let y := year - 1 in
  let n400 := y / 400 in
  let y1 := y - 400 * n400 in
  let n100 := y1 / 100 in
  let y2 := y1 - 100 * n100 in
  let n4 := y2 / 4 in
  146097 * n400 + 36524 * n100 + 1461 * n4 + 365 * (y2 - 4 * n4).
Definition date_yday (leap : bool) (month day : Z) : Z :=
  days_before (month - 1) + (if leap && (3 <=? month) then 1 else 0) + (day - 1).
Definition date_days (year month day : Z) : Z := year_days year + date_yday (isLeap year) month day.

(** The first of January 1970. *)
Definition unixDays : Z := 719162.

#[local] Ltac Zify.zify_post_hook ::= Z.div_mod_to_equations.

Lemma shiftr2 z : Z.shiftr z 2 = z / 4.
Proof. apply Z.shiftr_div_pow2. lia. Qed.

(** The pieces [year_yday] cuts a day into. *)
Lemma year_yday_pieces d : exists n400 n100 n4 n1 r,
  year_yday d = (400 * n400 + 100 * n100 + 4 * n4 + n1 + 1, r) /\
  d = 146097 * n400 + 36524 * n100 + 1461 * n4 + 365 * n1 + r /\
  0 <= n100 <= 3 /\ 0 <= n4 <= 24 /\ 0 <= n1 <= 3 /\ 0 <= r <= 365 /\
  (r = 365 -> n1 = 3 /\ (n4 = 24 -> n100 = 3)).
Proof.
  unfold year_yday. rewrite !shiftr2. set (n400 := d / 146097). set (d1 := d - 146097 * n400).
  assert (0 <= d1 < 146097) as H1 by lia. set (q := d1 / 36524). set (n100 := q - q / 4).
  assert (0 <= n100 <= 3 /\ (0 <= d1 - 36524 * n100 < 36524 \/ (n100 = 3 /\ d1 - 36524 * n100 = 36524))) as H2 by lia.
  assert (d = 146097 * n400 + d1) as E0 by lia. clearbody n400 d1. clearbody n100. clear q. set (d2 := d1 - 36524 * n100) in *. assert (d1 = 36524 * n100 + d2) as E1 by lia. clearbody d2.
  set (n4 := d2 / 1461). assert (0 <= n4 <= 24 /\ 0 <= d2 - 1461 * n4 <= 1460 /\ (n4 = 24 -> d2 - 1461 * n4 = 1460 -> n100 = 3)) as H3 by lia.
  clearbody n4. set (d3 := d2 - 1461 * n4) in *. assert (d2 = 1461 * n4 + d3) as E2 by lia. clearbody d3.
  set (p := d3 / 365). set (n1 := p - p / 4). assert (0 <= n1 <= 3 /\ 0 <= d3 - 365 * n1 <= 365 /\ (d3 - 365 * n1 = 365 -> d3 = 1460 /\ n1 = 3)) as H4 by lia.
  clearbody n1. clear p. exists n400, n100, n4, n1, (d3 - 365 * n1). split; [done|]. lia.
Qed.

Lemma pieces_year n400 n100 n4 n1 :
  0 <= n100 <= 3 -> 0 <= n4 <= 24 -> 0 <= n1 <= 3 ->
  year_days (400 * n400 + 100 * n100 + 4 * n4 + n1 + 1) = 146097 * n400 + 36524 * n100 + 1461 * n4 + 365 * n1.
Proof.
  intros H1 H2 H3. unfold year_days. replace (400 * n400 + 100 * n100 + 4 * n4 + n1 + 1 - 1) with (400 * n400 + 100 * n100 + 4 * n4 + n1) by lia.
  assert ((400 * n400 + 100 * n100 + 4 * n4 + n1) / 400 = n400) as -> by lia.
  replace (400 * n400 + 100 * n100 + 4 * n4 + n1 - 400 * n400) with (100 * n100 + 4 * n4 + n1) by lia.
  assert ((100 * n100 + 4 * n4 + n1) / 100 = n100) as -> by lia.
  replace (100 * n100 + 4 * n4 + n1 - 100 * n100) with (4 * n4 + n1) by lia.
  assert ((4 * n4 + n1) / 4 = n4) as -> by lia. lia.
Qed.

Lemma pieces_leap n400 n100 n4 :
  0 <= n100 <= 3 -> 0 <= n4 <= 24 -> (n4 = 24 -> n100 = 3) -> isLeap (400 * n400 + 100 * n100 + 4 * n4 + 3 + 1) = true.
Proof.
  intros H1 H2 H3. unfold isLeap. apply andb_true_intro. split; [lia|].
  destruct (Z.eq_dec n4 24) as [->|Hn].
  - rewrite (H3 eq_refl). apply orb_true_intro. right. lia.
  - apply orb_true_intro. left. apply negb_true_iff, Z.eqb_neq.
    replace (400 * n400 + 100 * n100 + 4 * n4 + 3 + 1) with (4 * n4 + 4 + (4 * n400 + n100) * 100) by lia.
    rewrite Z.mod_add // Z.mod_small; lia.
Qed.

(** Every day of a year has its month and day, and comes back from them. *)
Definition yday_facts (leap : bool) (yday : Z) : bool :=
  let '(m, d) := month_day leap yday in
  (1 <=? m) && (m <=? 12) && (1 <=? d) &&
  (d <=? (if (m =? 2) && leap then 29 else days_before m - days_before (m - 1))) && (date_yday leap m d =? yday).

Lemma yday_ok (leap : bool) yday : 0 <= yday < (if leap then 366 else 365) -> yday_facts leap yday = true.
Proof. destruct leap; intros H; [apply (upto_check (yday_facts true) 366)|apply (upto_check (yday_facts false) 365)]; done || by vm_compute. Qed.

(** A date of the calendar, and the day it stands for. *)
Definition date_of (d : Z) : Z * Z * Z :=
  let '(year, yday) := year_yday d in
  let '(month, day) := month_day (isLeap year) yday in (year, month, day).

Lemma date_roundtrip d : let '(year, month, day) := date_of d in
  1 <= month <= 12 /\ 1 <= day <= daysIn month year /\ date_days year month day = d.
Proof.
  unfold date_of. destruct (year_yday_pieces d) as (n400 & n100 & n4 & n1 & r & -> & Hd & H1 & H2 & H3 & H4 & H5).
  set (year := 400 * n400 + 100 * n100 + 4 * n4 + n1 + 1).
  assert (year_days year = 146097 * n400 + 36524 * n100 + 1461 * n4 + 365 * n1) as Hy by by apply pieces_year.
  assert (0 <= r < if isLeap year then 366 else 365) as Hr.
  { destruct (Z.eq_dec r 365) as [E|]; [|destruct (isLeap year); lia]. destruct (H5 E) as [-> H6].
    unfold year. rewrite pieces_leap //. lia. }
  pose proof (yday_ok (isLeap year) r Hr) as Hf. unfold yday_facts in Hf. destruct (month_day (isLeap year) r) as [m day].
  rewrite !andb_true_iff !Z.leb_le Z.eqb_eq in Hf. destruct Hf as ((((Hm1 & Hm2) & Hd1) & Hd2) & Hdy).
  split; [done|]. split; [done|]. unfold date_days. rewrite Hdy Hy. lia.
Qed.

(** ** Text *)

(** [appendInt]: at least [width] digits. *)
Definition appendInt (width : nat) (x : Z) : bytes :=
  let u := bytes_of_string (pretty (Z.abs x)) in
  (if x <? 0 then [45] else []) ++ replicate (width - length u) 48 ++ u.

(** [appendNano] for the layout's nines: a fraction of a second without the zeros at
    its end, nothing when it is zero. *)
Fixpoint skip_zeros (b : bytes) : bytes :=
  match b with z :: b' => if z =? 48 then skip_zeros b' else b | [] => [] end.
Definition appendNano (nanosec : Z) : bytes :=
  if nanosec =? 0 then [] else 46 :: rev (skip_zeros (rev (appendInt 9 nanosec))).

Definition secondsPerDay : Z := 86400.
Definition wall_clock (offset : Z) (t : time) : Z := Unix t + offset.
Definition clock_of (secs : Z) : Z * Z * Z :=
  let s := secs mod secondsPerDay in (s / 3600, s mod 3600 / 60, s mod 60).

Definition zone_text (offset : Z) : bytes :=
  if offset =? 0 then [90]
  else let zone := Z.quot offset 60 in
       (if zone <? 0 then 45 else 43) :: appendInt 2 (Z.abs zone / 60) ++ 58 :: appendInt 2 (Z.abs zone mod 60).

(** [Format(time.RFC3339Nano)]; [offset] is that of the time's location, in seconds
    east of UTC. *)
Definition FormatRFC3339Nano (offset : Z) (t : time) : bytes :=
  let abs := wall_clock offset t in
  let '(year, month, day) := date_of (abs / secondsPerDay + unixDays) in
  let '(hour, min, sec) := clock_of abs in
  appendInt 4 year ++ 45 :: appendInt 2 month ++ 45 :: appendInt 2 day ++ 84 :: appendInt 2 hour ++ 58 :: appendInt 2 min
  ++ 58 :: appendInt 2 sec ++ appendNano (t mod Second) ++ zone_text offset.

Definition digit_byte (z : Z) : bool := within 48 57 z.

(** [Time.MarshalJSON] without its quotes: the year must have four digits and the
    zone an hour below 24. *)
Definition appendStrictRFC3339 (offset : Z) (t : time) : res bytes :=
  let b := FormatRFC3339Nano offset t in
  let n := length b in
  if negb (nth 4 b 0 =? 45) then Err "year outside of range [0,9999]"
  else if negb (nth (n - 1) b 0 =? 90)
          && (digit_byte (nth (n - 6) b 0) || (24 <=? 10 * (nth (n - 5) b 0 - 48) + (nth (n - 4) b 0 - 48)))
  then Err "timezone hour outside of range [0,23]"
  else Ok b.

(** [getnum]: two digits, or one when [fixed] is false. *)
Definition getnum (fixed : bool) (b : bytes) : option (Z * bytes) :=
  match b with
  | x :: b' =>
      if negb (digit_byte x) then None
      else match b' with
           | y :: b'' => if digit_byte y then Some ((x - 48) * 10 + (y - 48), b'') else if fixed then None else Some (x - 48, b')
           | [] => if fixed then None else Some (x - 48, b')
           end
  | [] => None
  end.
Definition skip (c : Z) (b : bytes) : option bytes :=
  match b with z :: b' => if z =? c then Some b' else None | [] => None end.

Definition get_year (b : bytes) : option (Z * bytes) :=
  match b with
  | y1 :: y2 :: y3 :: y4 :: b' =>
      if digit_byte y1 && digit_byte y2 && digit_byte y3 && digit_byte y4
      then Some ((((y1 - 48) * 10 + (y2 - 48)) * 10 + (y3 - 48)) * 10 + (y4 - 48), b') else None
  | _ => None
  end.

(** The fraction of a second, if there is one: any number of digits, of which nine
    count ([parseNanoseconds]). *)
Fixpoint span_digits (b : bytes) : bytes * bytes :=
  match b with
  | z :: b' => if digit_byte z then let '(ds, r) := span_digits b' in (z :: ds, r) else ([], b)
  | [] => ([], [])
  end.
Definition digits_number (ds : bytes) : Z := fold_left (fun acc z => acc * 10 + (z - 48)) ds 0.
Definition get_fraction (b : bytes) : Z * bytes :=
  match b with
  | c :: z :: b' =>
      if ((c =? 46) || (c =? 44)) && digit_byte z then
        let '(ds, r) := span_digits (z :: b') in
        let ds9 := take 9 ds in
        (digits_number ds9 * 10 ^ (9 - Z.of_nat (length ds9)), r)
      else (0, b)
  | _ => (0, b)
  end.

(** The zone, which ends the text; an offset of 24 hours or 60 minutes is let through. *)
Definition get_zone (b : bytes) : option Z :=
  match b with
  | [z] => if z =? 90 then Some 0 else None
  | [s; h1; h2; c; m1; m2] =>
      if negb (c =? 58) then None
      else match getnum true [h1; h2], getnum true [m1; m2] with
           | Some (hr, _), Some (mm, _) =>
               if (24 <? hr) || (60 <? mm) then None
               else if s =? 43 then Some ((hr * 60 + mm) * 60)
               else if s =? 45 then Some (- ((hr * 60 + mm) * 60))
               else None
           | _, _ => None
           end
  | _ => None
  end.

(** [time.Date] in UTC. *)
Definition Date (year month day hour min sec nsec : Z) : time :=
  ((date_days year month day - unixDays) * secondsPerDay + hour * 3600 + min * 60 + sec) * Second + nsec.

(** [time.Parse] with the layouts RFC3339Nano and RFC3339, which read the same texts:
    the general parser; the shortcut Go has for these layouts takes some of the texts
    and gives the same times. *)
Definition ParseRFC3339 (b : bytes) : option time :=
  '(year, b) ← get_year b; b ← skip 45 b;
  '(month, b) ← getnum true b; if (month <=? 0) || (12 <? month) then None else
  b ← skip 45 b; '(day, b) ← getnum true b; b ← skip 84 b;
  '(hour, b) ← getnum false b; if 24 <=? hour then None else
  b ← skip 58 b; '(min, b) ← getnum true b; if 60 <=? min then None else
  b ← skip 58 b; '(sec, b) ← getnum true b; if 60 <=? sec then None else
  let '(nsec, b) := get_fraction b in
  offset ← get_zone b;
  if (day <? 1) || (daysIn month year <? day) then None
  else Some (Date year month day hour min sec nsec - offset * Second).

(** ** Times come back *)

Definition two (n : Z) : bytes := [48 + n / 10; 48 + n mod 10].

Lemma appendInt_two n : 0 <= n < 100 -> appendInt 2 n = two n.
Proof.
  intros Hn. pose proof (upto_check (fun n => bool_decide (appendInt 2 n = two n)) 100 n) as H.
  apply bool_decide_eq_true in H; [done|by vm_compute|done].
Qed.

Lemma digit_byte_of d : 0 <= d < 10 -> digit_byte (48 + d) = true.
Proof. intros. unfold digit_byte, within. lia. Qed.

Lemma getnum_two fixed n rest : 0 <= n < 100 -> getnum fixed (two n ++ rest) = Some (n, rest).
Proof.
  intros Hn. unfold getnum, two. cbn [app]. rewrite !digit_byte_of; [lia|lia|]. cbn [negb]. do 2 f_equal. lia.
Qed.

(** The digits of a fraction. *)
Lemma digits_value_bytes s acc v : digits_value acc s = Some v ->
  fold_left (fun acc z => acc * 10 + (z - 48)) (bytes_of_string s) acc = v /\ Forall (fun z => digit_byte z = true) (bytes_of_string s).
Proof.
  revert acc. induction s as [|c s IH]; intros acc; cbn [digits_value bytes_of_string fold_left]; [by intros [= ->]|].
  unfold digit_value. destruct (_ && _) eqn:E; [|done]. intros Hv. destruct (IH _ Hv) as [-> Hs]. split; [done|]. constructor; [|done].
  unfold digit_byte, within. lia.
Qed.

Lemma digits_number_app a b : digits_number (a ++ b) = digits_number a * 10 ^ Z.of_nat (length b) + digits_number b.
Proof.
  unfold digits_number. rewrite fold_left_app. generalize (fold_left (fun acc z => acc * 10 + (z - 48)) a 0). intros x.
  assert (forall b x y, fold_left (fun acc z => acc * 10 + (z - 48)) b (x + y)
    = x * 10 ^ Z.of_nat (length b) + fold_left (fun acc z => acc * 10 + (z - 48)) b y) as H.
  { clear. induction b as [|z b IH]; intros x y; cbn [fold_left length]; [lia|].
    replace ((x + y) * 10 + (z - 48)) with (x * 10 + (y * 10 + (z - 48))) by lia. rewrite IH Nat2Z.inj_succ Z.pow_succ_r; lia. }
  rewrite -{1}(Z.add_0_r x). apply H.
Qed.

Lemma digits_number_zeros k : digits_number (replicate k 48) = 0.
Proof. unfold digits_number. induction k as [|k IH]; [done|exact IH]. Qed.

Lemma appendInt_digits k n : (0 < k)%nat -> 0 <= n < 10 ^ Z.of_nat k ->
  length (appendInt k n) = k /\ Forall (fun z => digit_byte z = true) (appendInt k n) /\ digits_number (appendInt k n) = n.
Proof.
  intros Hk [Hn Hlt]. unfold appendInt. destruct (Z.ltb_spec n 0); [lia|]. cbn [app]. rewrite (Z.abs_eq n Hn) (pretty_Z_nonneg n Hn).
  destruct (digits_value_bytes (pretty (Z.to_N n)) 0 n) as [Hv Hd]; [by rewrite digits_value_pretty Z2N.id|].
  assert (length (bytes_of_string (pretty (Z.to_N n))) <= k)%nat as Hl.
  { rewrite length_bytes_of_string. unfold pretty, pretty_N. case_decide as E; [simpl; lia|].
    pose proof (pretty_go_length k (Z.to_N n) "") as Hp. simpl in Hp. rewrite Nat.add_0_r in Hp. apply Hp.
    apply N2Z.inj_lt. rewrite Z2N.id // N2Z.inj_pow nat_N_Z. exact Hlt. }
  split; [rewrite length_app length_replicate; lia|]. split; [apply Forall_app; split; [by apply Forall_replicate|done]|].
  rewrite digits_number_app digits_number_zeros. exact Hv.
Qed.

Lemma appendInt_four n : 0 <= n < 10000 -> exists a b c d, appendInt 4 n = [a; b; c; d] /\
  forall rest, get_year ([a; b; c; d] ++ rest) = Some (n, rest).
Proof.
  intros Hn. destruct (appendInt_digits 4 n) as (Hl & Hd & Hv); [lia|lia|].
  destruct (appendInt 4 n) as [|a [|b [|c [|d [|]]]]]; try done. exists a, b, c, d. split; [done|]. intros rest.
  inversion Hd as [|? ? Ha Hd1]; subst. inversion Hd1 as [|? ? Hb Hd2]; subst. inversion Hd2 as [|? ? Hc Hd3]; subst. inversion Hd3 as [|? ? Hd' _]; subst.
  unfold get_year. cbn [app]. by rewrite Ha Hb Hc Hd'.
Qed.

Lemma skip_zeros_spec b : exists k, b = replicate k 48 ++ skip_zeros b.
Proof.
  induction b as [|z b [k IH]]; [by exists O|]. cbn [skip_zeros]. destruct (Z.eqb_spec z 48) as [->|]; [|by exists O].
  exists (S k). cbn [replicate app]. by rewrite -IH.
Qed.

Lemma span_digits_app ds rest : Forall (fun z => digit_byte z = true) ds -> (match rest with z :: _ => digit_byte z = false | [] => True end) ->
  span_digits (ds ++ rest) = (ds, rest).
Proof.
  intros Hd Hr. induction Hd as [|z ds Hz _ IH]; cbn [app span_digits].
  - destruct rest as [|z r]; [done|]. cbn [span_digits]. by rewrite Hr.
  - by rewrite Hz IH.
Qed.

(** What may follow the fraction: the zone. *)
Definition zone_head (b : bytes) : Prop := match b with z :: _ => z = 90 \/ z = 43 \/ z = 45 | [] => False end.

Lemma get_fraction_nano n rest : 0 <= n < Second -> zone_head rest -> get_fraction (appendNano n ++ rest) = (n, rest).
Proof.
  intros Hn Hr. unfold appendNano. destruct (Z.eqb_spec n 0) as [->|Hn0].
  { destruct rest as [|z [|y rest]]; [done|done|]. unfold get_fraction. cbn [app].
    by assert ((z =? 46) || (z =? 44) = false) as -> by (destruct Hr as [->|[->| ->]]; done). }
  destruct (appendInt_digits 9 n) as (Hl & Hd & Hv); [lia|unfold Second in Hn; lia|]. set (D := appendInt 9 n) in *. clearbody D.
  destruct (skip_zeros_spec (rev D)) as [k Hk].
  assert (exists ds, D = ds ++ replicate k 48 /\ rev (skip_zeros (rev D)) = ds) as (ds & E & ->).
  { eexists. split; [|reflexivity]. rewrite -{1}(rev_involutive D) {1}Hk rev_app_distr. f_equal. clear. induction k as [|k IH]; [done|].
    cbn [replicate rev]. rewrite IH. clear. induction k as [|k IH]; [done|]. cbn [replicate app]. by rewrite IH. }
  rewrite E in Hl Hd Hv. clear Hk E D. rewrite digits_number_app digits_number_zeros length_replicate Z.add_0_r in Hv. apply Forall_app in Hd as [Hd _].
  rewrite length_app length_replicate in Hl. destruct ds as [|z ds]; [unfold digits_number in Hv; cbn in Hv; lia|].
  unfold get_fraction. cbn [app Z.eqb Pos.eqb orb]. inversion Hd as [|? ? Hz _]; subst. rewrite Hz. cbn [andb].
  rewrite (span_digits_app (z :: ds) rest Hd); [destruct rest as [|x r]; [done|]; by destruct Hr as [->|[->| ->]]|].
  rewrite take_ge; [lia|]. do 2 f_equal. f_equal. lia.
Qed.

(** Offsets the layout can write: whole minutes, less than a day. *)
Definition zone_ok (offset : Z) : Prop := offset mod 60 = 0 /\ - secondsPerDay < offset < secondsPerDay.
(** The year of a time on the clock of its zone has four digits. *)
Definition year_ok (offset : Z) (t : time) : Prop :=
  let '(year, _, _) := date_of (wall_clock offset t / secondsPerDay + unixDays) in 0 <= year < 10000.

Lemma zone_roundtrip offset : zone_ok offset -> zone_head (zone_text offset) /\ get_zone (zone_text offset) = Some offset.
Proof.
  intros [Hm Hr]. unfold zone_text, secondsPerDay in *. destruct (Z.eqb_spec offset 0) as [->|H0]; [split; [by left|done]|].
  set (zone := Z.quot offset 60). assert (offset = 60 * zone) as E.
  { unfold zone. apply Z.mod_divide in Hm as [q ->]; [|lia]. rewrite Z.quot_mul; lia. }
  clearbody zone. subst offset. rewrite !appendInt_two; [lia|lia|]. split; [cbn; destruct (zone <? 0); tauto|].
  unfold two, get_zone. cbn [app Z.eqb Pos.eqb negb].
  pose proof (getnum_two true (Z.abs zone / 60) [] ltac:(lia)) as H1. pose proof (getnum_two true (Z.abs zone mod 60) [] ltac:(lia)) as H2.
  unfold two in H1, H2. cbn [app] in H1, H2. rewrite H1 H2.
  assert ((24 <? Z.abs zone / 60) || (60 <? Z.abs zone mod 60) = false) as -> by lia.
  destruct (Z.ltb_spec zone 0); cbn [Z.eqb Pos.eqb]; f_equal; lia.
Qed.

#[local] Opaque appendInt appendNano date_of.

Lemma ParseRFC3339_Format offset t : zone_ok offset -> year_ok offset t -> ParseRFC3339 (FormatRFC3339Nano offset t) = Some t.
Proof.
  intros Hz Hy. destruct (zone_roundtrip offset Hz) as [Hh Hzone]. unfold FormatRFC3339Nano, year_ok in *.
  pose proof (date_roundtrip (wall_clock offset t / secondsPerDay + unixDays)) as Hd.
  destruct (date_of (wall_clock offset t / secondsPerDay + unixDays)) as [[year month] day]. destruct Hd as (Hm & Hday & Hdays).
  assert (daysIn month year <= 31) as Hin.
  { unfold daysIn. destruct (_ && _); [lia|]. assert (forallb (fun m => days_before m - days_before (m - 1) <=? 31) (seqZ 0 13) = true) as Hall by by vm_compute.
    apply Z.leb_le, (upto_check _ 13 month Hall). lia. }
  set (abs := wall_clock offset t) in *. unfold clock_of. assert (0 <= abs mod secondsPerDay < secondsPerDay) as Ha by (unfold secondsPerDay; lia).
  remember (abs mod secondsPerDay) as sod eqn:Esod. unfold secondsPerDay in Ha.
  rewrite !appendInt_two; try lia. destruct (appendInt_four year Hy) as (y1 & y2 & y3 & y4 & -> & Hyear). unfold ParseRFC3339. rewrite Hyear. cbn [mbind option_bind skip Z.eqb Pos.eqb].
  rewrite getnum_two; [lia|]. cbn [mbind option_bind skip Z.eqb Pos.eqb]. assert ((month <=? 0) || (12 <? month) = false) as -> by lia.
  rewrite getnum_two; [lia|]. cbn [mbind option_bind skip Z.eqb Pos.eqb].
  rewrite getnum_two; [lia|]. cbn [mbind option_bind skip Z.eqb Pos.eqb]. assert (24 <=? sod / 3600 = false) as -> by lia.
  rewrite getnum_two; [lia|]. cbn [mbind option_bind skip Z.eqb Pos.eqb]. assert (60 <=? sod mod 3600 / 60 = false) as -> by lia.
  rewrite getnum_two; [lia|]. cbn [mbind option_bind skip Z.eqb Pos.eqb]. assert (60 <=? sod mod 60 = false) as -> by lia.
  rewrite get_fraction_nano; [unfold Second; lia|done|]. rewrite Hzone. cbn [mbind option_bind].
  assert ((day <? 1) || (daysIn month year <? day) = false) as -> by lia. f_equal. unfold Date. rewrite Hdays.
  assert (abs = abs / secondsPerDay * secondsPerDay + sod) as Eabs by (subst sod; unfold secondsPerDay; lia).
  assert (sod / 3600 * 3600 + sod mod 3600 / 60 * 60 + sod mod 60 = sod) as Esod' by lia.
  assert (abs = t / Second + offset) as Et by done. clearbody abs. set (D := abs / secondsPerDay) in *. clearbody D.
  clear -Eabs Esod' Et. unfold secondsPerDay, Second in *. lia.
Qed.

(** A time that can be written: the strict form is the same text. *)
Lemma appendStrict_ok offset t : zone_ok offset -> year_ok offset t ->
  appendStrictRFC3339 offset t = Ok (FormatRFC3339Nano offset t).
Proof.
  intros [Hm Hr] Hy. unfold appendStrictRFC3339. unfold year_ok in Hy.
  assert (nth 4 (FormatRFC3339Nano offset t) 0 = 45 /\ exists b, FormatRFC3339Nano offset t = b ++ zone_text offset) as [-> [b ->]].
  { unfold FormatRFC3339Nano. destruct (date_of _) as [[year month] day]. destruct (clock_of _) as [[hour min] sec].
    destruct (appendInt_four year Hy) as (y1 & y2 & y3 & y4 & -> & _). split; [done|]. eexists. rewrite !assoc_L. repeat (rewrite -> app_comm_cons || rewrite assoc_L). reflexivity. }
  cbn [Z.eqb Pos.eqb negb]. rewrite length_app. unfold zone_text. destruct (Z.eqb_spec offset 0) as [->|H0].
  { cbn [length]. rewrite app_nth2; [lia|]. by replace (length b + 1 - 1 - length b)%nat with O by lia. }
  set (zone := Z.quot offset 60). assert (-1440 < zone < 1440) as Hzone.
  { unfold zone, secondsPerDay in *. pose proof (Z.quot_rem' offset 60). pose proof (Z.rem_bound_abs offset 60). lia. }
  clearbody zone.
  rewrite !appendInt_two; [lia|lia|]. set (s := if zone <? 0 then 45 else 43).
  assert (digit_byte s = false) as Hs by (unfold s; by destruct (zone <? 0)). unfold two. cbn [app length].
  rewrite (app_nth2 _ _ 0 (n := (length b + 6 - 6)%nat)); [lia|].
  rewrite (app_nth2 _ _ 0 (n := (length b + 6 - 5)%nat)); [lia|]. rewrite (app_nth2 _ _ 0 (n := (length b + 6 - 4)%nat)); [lia|].
  replace (length b + 6 - 6 - length b)%nat with 0%nat by lia. replace (length b + 6 - 5 - length b)%nat with 1%nat by lia.
  replace (length b + 6 - 4 - length b)%nat with 2%nat by lia. cbn [nth]. rewrite Hs. cbn [orb].
  assert (24 <=? 10 * (48 + Z.abs zone / 60 / 10 - 48) + (48 + (Z.abs zone / 60) mod 10 - 48) = false) as -> by lia. by rewrite andb_false_r.
Qed.

#[local] Transparent appendInt appendNano date_of.

(** A year beyond four digits cannot be written. *)
Lemma appendStrict_year offset t :
  (let '(year, _, _) := date_of (wall_clock offset t / secondsPerDay + unixDays) in 10000 <= year < 100000) ->
  appendStrictRFC3339 offset t = Err "year outside of range [0,9999]".
Proof.
  intros Hy. unfold appendStrictRFC3339. assert (nth 4 (FormatRFC3339Nano offset t) 0 <> 45) as Hn.
  { unfold FormatRFC3339Nano. destruct (date_of _) as [[year month] day]. destruct (clock_of _) as [[hour min] sec].
    destruct (appendInt_digits 5 year) as (Hl & Hd & _); [lia|lia|]. assert (appendInt 4 year = appendInt 5 year) as ->.
    { unfold appendInt in *. destruct (Z.ltb_spec year 0); [lia|]. cbn [app] in *. set (u := bytes_of_string (pretty (Z.abs year))) in *.
      assert (5 <= length u)%nat as Hu; [|by replace (4 - length u)%nat with 0%nat by lia; replace (5 - length u)%nat with 0%nat by lia].
      destruct (decide (5 <= length u)%nat) as [|Hlt]; [done|]. exfalso.
      destruct (digits_value_bytes (pretty (Z.abs year)) 0 year) as [Hv Hdu].
      { rewrite Z.abs_eq; [lia|]. rewrite (pretty_Z_nonneg year); [lia|]. by rewrite digits_value_pretty Z2N.id; [lia|]. }
      fold u in Hv, Hdu. clearbody u. do 5 (destruct u as [|? u]; [cbn in Hv; repeat match goal with H : Forall _ (_ :: _) |- _ => inversion H; clear H; subst end; unfold digit_byte, within in *; lia|]). cbn in Hlt. lia. }
    destruct (appendInt 5 year) as [|d1 [|d2 [|d3 [|d4 [|d5 r]]]]]; try (cbn in Hl; lia). cbn [app nth].
    repeat match goal with H : Forall _ (_ :: _) |- _ => inversion H; clear H; subst end. unfold digit_byte, within in *. lia. }
  by destruct (Z.eqb_spec (nth 4 (FormatRFC3339Nano offset t) 0) 45).
Qed.
