(* ===== verification/Envelope.v ===== *)
(** The JSON of message envelopes: [MarshalJSON] and [UnmarshalJSON] of
    src/core/handle.go, on the encoder and decoder of [GoJson] and the times of
    [GoTime]. *)

From S2P Require Import Prelude CoreTypes NetMessage Handle GoText GoJson GoTime.

(** ** Writing *)

(** Structs without tags have the members of their fields, a nil pointer is null. *)
Definition handle_json (h : Handle) : json Z :=
  JObj [("ID", JNum (h_ID h)); ("ActorID", JNum (h_ActorID h)); ("Name", JStr (h_Name h)); ("Node", JNum (h_Node h));
        ("IsLocal", JBool (h_IsLocal h))].
Definition address_json (sa : ServiceAddress) : json Z :=
  JObj [("Handle", match sa_Handle sa with Some h => handle_json h | None => JNull end);
        ("Name", JStr (sa_Name sa)); ("Pattern", JStr (sa_Pattern sa))].

(** Bytes are written in base64. An empty slice of bytes is nil or not, which the
    model does not tell apart: [nil_data] says which one the data is. *)
Definition data_json (nil_data : bool) (data : bytes) : json Z :=
  match data with [] => if nil_data then JNull else JStr "" | _ => JStr (b64_EncodeToString data) end.
Definition message_json (nil_data : bool) (timestamp : bytes) (m : Message) : json Z :=
  JObj [("ID", JNum (m_ID m)); ("Type", JNum (m_Type m)); ("Source", JNum (m_Source m)); ("Target", JNum (m_Target m));
        ("Session", JNum (m_Session m)); ("Data", data_json nil_data (m_Data m)); ("Timestamp", JStr (string_of_bytes timestamp))].

(** [MarshalJSON]; [zone] gives the offset of the location of a time. The timestamp
    stands before the members of the envelope; flags of zero are left out. *)
Definition envelope_json (nil_data : bool) (timestamp strict : bytes) (me : MessageEnvelope) (m : Message) : json Z :=
  JObj ([("timestamp", JStr (string_of_bytes timestamp)); ("source", address_json (me_Source me)); ("target", address_json (me_Target me));
         ("message", message_json nil_data strict m)] ++ (if me_Flags me =? 0 then [] else [("flags", JNum (me_Flags me))])).
Definition MarshalJSON (zone : time -> Z) (nil_data : bool) (me : MessageEnvelope) : go (res bytes) :=
  match me_Message me with
  | None => Panic "nil pointer dereference"
  | Some m =>
      let t := m_Timestamp m in
      let timestamp := FormatRFC3339Nano (zone t) t in
      Ret (match appendStrictRFC3339 (zone t) t with
           | Err e => Err ("json: error calling MarshalJSON for type time.Time: Time.MarshalJSON: " +:+ e)
           | Ok strict => Ok (Marshal (envelope_json nil_data timestamp strict me m))
           end)
  end.

(** ** Reading *)

(** An unsigned field takes integers written plainly that fit its bits. *)
Definition lit_uint (bits : Z) (l : literal) : option Z :=
  if li_plain l && negb (li_neg l) && (li_m l <? 2 ^ bits) then Some (li_m l) else None.
Definition field_uint (bits : Z) (v : json literal) (old : Z) : option Z :=
  match v with JNum l => lit_uint bits l | JNull => Some old | _ => None end.
Definition field_bool (v : json literal) (old : bool) : option bool :=
  match v with JBool b => Some b | JNull => Some old | _ => None end.

(** Bytes are read from base64, and from an array of numbers, where a null leaves
    what is in the slice. *)
Fixpoint byte_elements (old : bytes) (l : list (json literal)) : option bytes :=
  match l with
  | [] => Some []
  | v :: l' => b ← field_uint 8 v (hd 0 old); r ← byte_elements (tl old) l'; Some (b :: r)
  end.
Definition field_bytes (v : json literal) (old : bytes) : option bytes :=
  match v with
  | JStr s => b64_DecodeString s
  | JNull => Some []
  | JArr l => byte_elements old l
  | _ => None
  end.
(** [Time.UnmarshalJSON]. It reads the text between the quotes as it is written; a
    timestamp written with escapes, which it refuses, is read here. *)
Definition field_time (v : json literal) (old : time) : option time :=
  match v with JStr s => ParseRFC3339 (bytes_of_string s) | JNull => Some old | _ => None end.

(** A struct takes the members of an object in their order; null leaves it as it is,
    and makes a pointer to it nil; an object is read into the struct a pointer has, or
    into a new one. *)
Definition field_struct {R} (assign : string -> json literal -> R -> option R) (v : json literal) (old : R) : option R :=
  match v with
  | JObj l => fold_left (fun r kv => r ≫= assign kv.1 kv.2) l (Some old)
  | JNull => Some old
  | _ => None
  end.
Definition field_pointer {R} (assign : string -> json literal -> R -> option R) (zero : R) (v : json literal) (old : option R)
    : option (option R) :=
  match v with
  | JNull => Some None
  | _ => Some <$> field_struct assign v (default zero old)
  end.

Definition zero_handle : Handle := mkHandle 0 0 "" 0 false.
Definition assign_Handle (k : string) (v : json literal) (h : Handle) : option Handle :=
  if same_field k "ID" then (fun x => mkHandle x (h_ActorID h) (h_Name h) (h_Node h) (h_IsLocal h)) <$> field_uint 32 v (h_ID h)
  else if same_field k "ActorID" then (fun x => mkHandle (h_ID h) x (h_Name h) (h_Node h) (h_IsLocal h)) <$> field_uint 32 v (h_ActorID h)
  else if same_field k "Name" then (fun x => mkHandle (h_ID h) (h_ActorID h) x (h_Node h) (h_IsLocal h)) <$> field_string v (h_Name h)
  else if same_field k "Node" then (fun x => mkHandle (h_ID h) (h_ActorID h) (h_Name h) x (h_IsLocal h)) <$> field_uint 32 v (h_Node h)
  else if same_field k "IsLocal" then mkHandle (h_ID h) (h_ActorID h) (h_Name h) (h_Node h) <$> field_bool v (h_IsLocal h)
  else Some h.

Definition assign_ServiceAddress (k : string) (v : json literal) (sa : ServiceAddress) : option ServiceAddress :=
  if same_field k "Handle" then
    (fun x => mkServiceAddress x (sa_Name sa) (sa_Pattern sa)) <$> field_pointer assign_Handle zero_handle v (sa_Handle sa)
  else if same_field k "Name" then (fun x => mkServiceAddress (sa_Handle sa) x (sa_Pattern sa)) <$> field_string v (sa_Name sa)
  else if same_field k "Pattern" then mkServiceAddress (sa_Handle sa) (sa_Name sa) <$> field_string v (sa_Pattern sa)
  else Some sa.

Definition zero_message : Message := mkMessage 0 0 0 0 0 [] zero_time.
Definition assign_Message (k : string) (v : json literal) (m : Message) : option Message :=
  let '(mkMessage i ty src tgt ses data ts) := m in
  if same_field k "ID" then (fun x => mkMessage x ty src tgt ses data ts) <$> field_uint 64 v i
  else if same_field k "Type" then (fun x => mkMessage i x src tgt ses data ts) <$> field_uint 8 v ty
  else if same_field k "Source" then (fun x => mkMessage i ty x tgt ses data ts) <$> field_uint 32 v src
  else if same_field k "Target" then (fun x => mkMessage i ty src x ses data ts) <$> field_uint 32 v tgt
  else if same_field k "Session" then (fun x => mkMessage i ty src tgt x data ts) <$> field_uint 32 v ses
  else if same_field k "Data" then (fun x => mkMessage i ty src tgt ses x ts) <$> field_bytes v data
  else if same_field k "Timestamp" then mkMessage i ty src tgt ses data <$> field_time v ts
  else Some m.

(** The auxiliary struct of [UnmarshalJSON]: the timestamp and the envelope. *)
Definition assign_Envelope (k : string) (v : json literal) (aux : string * MessageEnvelope) : option (string * MessageEnvelope) :=
  let '(timestamp, mkMessageEnvelope src tgt m fl) := aux in
  if same_field k "timestamp" then (fun x => (x, mkMessageEnvelope src tgt m fl)) <$> field_string v timestamp
  else if same_field k "source" then (fun x => (timestamp, mkMessageEnvelope x tgt m fl)) <$> field_struct assign_ServiceAddress v src
  else if same_field k "target" then (fun x => (timestamp, mkMessageEnvelope src x m fl)) <$> field_struct assign_ServiceAddress v tgt
  else if same_field k "message" then
    (fun x => (timestamp, mkMessageEnvelope src tgt x fl)) <$> field_pointer assign_Message zero_message v m
  else if same_field k "flags" then (fun x => (timestamp, mkMessageEnvelope src tgt m x)) <$> field_uint 32 v fl
  else Some aux.

(** [UnmarshalJSON] into [me]; [None] is an error, after which the envelope is not
    used. A null makes the pointer to the auxiliary struct nil, and a timestamp is
    stored into the message also when there is none. *)
Definition UnmarshalJSON (data : bytes) (me : MessageEnvelope) : go (option MessageEnvelope) :=
  match parse data with
  | Some JNull => Panic "nil pointer dereference"
  | Some (JObj l) =>
      match fold_left (fun r kv => r ≫= assign_Envelope kv.1 kv.2) l (Some ("", me)) with
      | None => Ret None
      | Some (timestamp, me') =>
          if nonempty timestamp then
            match ParseRFC3339 (bytes_of_string timestamp) with
            | None => Ret None
            | Some t =>
                match me_Message me' with
                | None => Panic "nil pointer dereference"
                | Some m =>
                    Ret (Some (mkMessageEnvelope (me_Source me') (me_Target me')
                      (Some (mkMessage (m_ID m) (m_Type m) (m_Source m) (m_Target m) (m_Session m) (m_Data m) t)) (me_Flags me')))
                end
            end
          else Ret (Some me')
      end
  | _ => Ret None
  end.

(** ** Envelopes come back *)

Lemma lit_uint_int bits z : 0 <= z < 2 ^ bits -> lit_uint bits (lit_of_int z) = Some z.
Proof.
  intros Hz. unfold lit_uint, lit_of_int. cbn [li_plain li_neg li_m]. rewrite Z.abs_eq; [lia|].
  destruct (Z.ltb_spec z 0); [lia|]. cbn [negb andb]. destruct (Z.ltb_spec z (2 ^ bits)); [done|lia].
Qed.

Record handle_ok (h : Handle) : Prop := {
  ho_ID : is_u32 (h_ID h);
  ho_ActorID : is_u32 (h_ActorID h);
  ho_Node : is_u32 (h_Node h);
  ho_Name : is_text (h_Name h) = true;
}.
Record address_ok (sa : ServiceAddress) : Prop := {
  ao_Handle : forall h, sa_Handle sa = Some h -> handle_ok h;
  ao_Name : is_text (sa_Name sa) = true;
  ao_Pattern : is_text (sa_Pattern sa) = true;
}.
Record message_ok (zone : time -> Z) (m : Message) : Prop := {
  mo_ID : is_u64 (m_ID m);
  mo_Type : 0 <= m_Type m < 256;
  mo_Source : is_u32 (m_Source m);
  mo_Target : is_u32 (m_Target m);
  mo_Session : is_u32 (m_Session m);
  mo_Data : Forall Net.is_byte (m_Data m);
  mo_zone : zone_ok (zone (m_Timestamp m));
  mo_year : year_ok (zone (m_Timestamp m)) (m_Timestamp m);
}.

(** Reads the members of a literal object one after the other. *)
Ltac read_member := cbn [field_uint field_string field_bool fmap option_fmap option_map mbind option_bind];
  rewrite ?lit_uint_int; [done..|]; cbn [fmap option_fmap option_map mbind option_bind].

Lemma handle_read h : handle_ok h -> field_struct assign_Handle (decoded (handle_json h)) zero_handle = Some h.
Proof.
  intros [H1 H2 H3 H4]. unfold handle_json. cbn [json_map map fst snd field_struct fold_left mbind option_bind].
  unfold assign_Handle. match_fields. repeat read_member. by destruct h.
Qed.

Lemma address_read sa : address_ok sa -> field_struct assign_ServiceAddress (decoded (address_json sa)) (mkServiceAddress None "" "") = Some sa.
Proof.
  intros [H1 H2 H3]. unfold address_json. cbn [json_map map fst snd field_struct fold_left mbind option_bind].
  unfold assign_ServiceAddress. match_fields. cbn [sa_Handle sa_Name sa_Pattern].
  assert (field_pointer assign_Handle zero_handle (decoded match sa_Handle sa with Some h => handle_json h | None => JNull end) None = Some (sa_Handle sa)) as ->.
  { destruct (sa_Handle sa) as [h|] eqn:E; [|done]. pose proof (handle_read h (H1 h eq_refl)) as Hh.
    unfold field_pointer. cbn [default from_option id]. rewrite Hh. done. }
  by destruct sa.
Qed.

Lemma data_read nil_data data : Forall Net.is_byte data -> field_bytes (decoded (data_json nil_data data)) [] = Some data.
Proof.
  intros Hd. unfold data_json. destruct data as [|z b]; [by destruct nil_data|]. cbn [json_map field_bytes]. by apply b64_roundtrip.
Qed.

(** The bytes of a time are ASCII. *)
Definition ascii_bytes (b : bytes) : Prop := Forall (fun z => within 0 127 z = true) b.

Lemma appendInt_ascii k n : ascii_bytes (appendInt k n).
Proof.
  unfold appendInt, ascii_bytes. apply Forall_app. split; [destruct (n <? 0); by repeat constructor|].
  apply Forall_app. split; [by apply Forall_replicate|]. rewrite (pretty_Z_nonneg (Z.abs n)); [lia|].
  destruct (digits_value_bytes (pretty (Z.to_N (Z.abs n))) 0 _ (digits_value_pretty _)) as [_ Hd].
  eapply Forall_impl; [exact Hd|]. intros z. unfold digit_byte, within. cbn beta. lia.
Qed.

Lemma appendNano_ascii n : ascii_bytes (appendNano n).
Proof.
  unfold appendNano. destruct (n =? 0); [constructor|]. constructor; [done|]. apply Forall_rev.
  assert (ascii_bytes (rev (appendInt 9 n))) as H by apply Forall_rev, appendInt_ascii. revert H. generalize (rev (appendInt 9 n)).
  induction l as [|z l IH]; [done|]. cbn [skip_zeros]. destruct (z =? 48); [|done]. intros H. inversion H; subst. by apply IH.
Qed.

Lemma format_ascii zone t : ascii_bytes (FormatRFC3339Nano zone t).
Proof.
  unfold FormatRFC3339Nano. destruct (date_of _) as [[year month] day]. destruct (clock_of _) as [[hour min] sec].
  assert (ascii_bytes (zone_text zone)) as Hz.
  { unfold zone_text. destruct (zone =? 0); [by repeat constructor|]. constructor; [by destruct (_ <? 0)|].
    apply Forall_app. split; [apply appendInt_ascii|]. constructor; [done|]. apply appendInt_ascii. }
  repeat first [exact Hz | apply appendInt_ascii | apply appendNano_ascii | apply Forall_app; split | constructor; [done|]].
Qed.

Lemma ascii_text b : ascii_bytes b -> bytes_of_string (string_of_bytes b) = b /\ is_text (string_of_bytes b) = true.
Proof.
  intros Hb. assert (bytes_of_string (string_of_bytes b) = b) as E.
  { apply bytes_of_string_of_bytes. eapply Forall_impl; [exact Hb|]. intros z. unfold within, Net.is_byte. cbn beta. lia. }
  split; [done|]. unfold is_text. rewrite -length_bytes_of_string E. clear E.
  induction Hb as [|z b Hz _ IH]; [done|]. cbn [length utf8_valid]. by rewrite Hz.
Qed.

Lemma message_read zone nil_data m : message_ok zone m ->
  let t := m_Timestamp m in
  field_struct assign_Message (decoded (message_json nil_data (FormatRFC3339Nano (zone t) t) m)) zero_message = Some m.
Proof.
  intros [H1 H2 H3 H4 H5 H6 H7 H8] t. unfold message_json. cbn [json_map map fst snd field_struct fold_left mbind option_bind].
  unfold assign_Message, zero_message. match_fields. cbn [fmap option_fmap option_map mbind option_bind]. repeat read_member.
  rewrite (data_read nil_data _ H6). cbn [fmap option_fmap option_map mbind option_bind field_time].
  destruct (ascii_text _ (format_ascii (zone t) t)) as [-> _]. rewrite ParseRFC3339_Format //. by destruct m.
Qed.

Record envelope_ok (zone : time -> Z) (me : MessageEnvelope) (m : Message) : Prop := {
  eo_Source : address_ok (me_Source me);
  eo_Target : address_ok (me_Target me);
  eo_Message : me_Message me = Some m;
  eo_message : message_ok zone m;
  eo_Flags : is_u32 (me_Flags me);
}.
Definition zero_envelope : MessageEnvelope := mkMessageEnvelope (mkServiceAddress None "" "") (mkServiceAddress None "" "") None 0.

Lemma address_fits sa d : address_ok sa -> fits (S (S d)) (address_json sa) = true.
Proof.
  intros [H1 H2 H3]. unfold address_json. cbn [fits forallb fst snd]. rewrite H2 H3.
  repeat match goal with |- context [is_text ?s] => is_ground s; let r := eval vm_compute in (is_text s) in change (is_text s) with r end.
  destruct (sa_Handle sa) as [h|]; [|done]. destruct (H1 h eq_refl) as [_ _ _ H4]. unfold handle_json. cbn [fits forallb fst snd]. by rewrite H4.
Qed.

Lemma message_fits nil_data b m d : ascii_bytes b -> Forall Net.is_byte (m_Data m) -> fits (S d) (message_json nil_data b m) = true.
Proof.
  intros Hb Hd. unfold message_json. cbn [fits forallb fst snd]. destruct (ascii_text b Hb) as [_ ->].
  assert (fits d (data_json nil_data (m_Data m)) = true) as ->; [|done]. unfold data_json.
  destruct (m_Data m) as [|z l] eqn:E; [by destruct nil_data|]. rewrite -E in Hd |- *. cbn [fits].
  rewrite -(string_of_bytes_of_string (b64_EncodeToString (m_Data m))). apply ascii_text.
  eapply Forall_impl; [by apply b64_visible|]. intros y. unfold plain, within. cbn beta. lia.
Qed.

(** C22. Envelopes survive JSON: an envelope with a message, its numbers in their ranges,
    its names in UTF-8 and its time in a zone of whole minutes and a year of four
    digits, is written without an error, and reading the text into a new envelope
    gives it back, its timestamp to the nanosecond. *)
Theorem envelope_roundtrip zone nil_data me m :
  envelope_ok zone me m ->
  exists b, MarshalJSON zone nil_data me = Ret (Ok b) /\ UnmarshalJSON b zero_envelope = Ret (Some me).
Proof.
  intros [Hs Ht Hm Hok Hf]. pose proof Hok as [_ _ _ _ _ Hd Hz Hy]. set (t := m_Timestamp m) in *.
  destruct (ascii_text _ (format_ascii (zone t) t)) as [Htext Hfit].
  eexists. unfold MarshalJSON. rewrite Hm (appendStrict_ok _ _ Hz Hy). split; [reflexivity|].
  unfold UnmarshalJSON. rewrite parse_Marshal.
  { apply (fits_mono _ 4); [unfold maxNestingDepth; lia|]. unfold envelope_json. cbn [fits]. rewrite forallb_app. cbn [forallb fst snd fits].
    rewrite Hfit !address_fits // message_fits //; [apply format_ascii|]. by destruct (me_Flags me =? 0). }
  unfold envelope_json. cbn [json_map]. rewrite map_app fold_left_app. cbn [map fst snd fold_left mbind option_bind].
  unfold assign_Envelope at 2 3 4 5, zero_envelope. match_fields. cbn [json_map field_string fmap option_fmap option_map mbind option_bind].
  rewrite (address_read _ Hs). cbn [fmap option_fmap option_map mbind option_bind]. rewrite (address_read _ Ht).
  cbn [fmap option_fmap option_map mbind option_bind]. fold t.
  assert (field_pointer assign_Message zero_message (decoded (message_json nil_data (FormatRFC3339Nano (zone t) t) m)) None = Some (Some m)) as ->.
  { pose proof (message_read zone nil_data m Hok) as Hread. cbv zeta in Hread. fold t in Hread.
    change (Some <$> field_struct assign_Message (decoded (message_json nil_data (FormatRFC3339Nano (zone t) t) m)) zero_message = Some (Some m)).
    by rewrite Hread. }
  cbn [fmap option_fmap option_map]. set (ts := string_of_bytes (FormatRFC3339Nano (zone t) t)) in *.
  assert (fold_left (fun r kv => r ≫= assign_Envelope kv.1 kv.2)
      (map (fun kv : string * json Z => (kv.1, decoded kv.2)) (if me_Flags me =? 0 then [] else [("flags", JNum (me_Flags me))]))
      (Some (ts, mkMessageEnvelope (me_Source me) (me_Target me) (Some m) 0)) = Some (ts, me)) as ->.
  { destruct (Z.eqb_spec (me_Flags me) 0) as [E|E]; cbn [map fst snd fold_left mbind option_bind json_map].
    - destruct me. cbn in *. by subst.
    - unfold assign_Envelope. match_fields. repeat read_member. destruct me. cbn in *. by subst. }
  assert (nonempty ts = true) as ->.
  { unfold ts, FormatRFC3339Nano. unfold year_ok in Hy. destruct (date_of _) as [[year month] day]. destruct (clock_of _) as [[hour min] sec].
    by destruct (appendInt_four year Hy) as (y1 & y2 & y3 & y4 & -> & _). }
  rewrite Htext (ParseRFC3339_Format _ _ Hz Hy) Hm. unfold t. destruct me, m. cbn in *. by subst.
Qed.

(** What is not covered: an envelope without a message cannot be written, one with a
    year beyond 9999 is an error; a null, and a timestamp without a message, cannot be
    read. *)
Theorem envelope_without_message zone nil_data me b :
  me_Message me = None ->
  MarshalJSON zone nil_data me = Panic "nil pointer dereference" /\
  UnmarshalJSON (bytes_of_string "null") me = Panic "nil pointer dereference" /\
  (ParseRFC3339 (bytes_of_string b) <> None -> nonempty b = true -> is_text b = true ->
   UnmarshalJSON (Marshal (JObj [("timestamp", JStr b)])) me = Panic "nil pointer dereference").
Proof.
  intros Hm. unfold MarshalJSON. rewrite Hm. split; [done|]. split; [done|]. intros Hp Hn Ht. unfold UnmarshalJSON.
  rewrite parse_Marshal; [apply (fits_mono _ 1); [unfold maxNestingDepth; lia|]; cbn [fits forallb fst snd]; by rewrite Ht|].
  cbn [json_map map fst snd fold_left mbind option_bind]. unfold assign_Envelope. destruct me as [src tgt m fl]. cbn in Hm. subst m.
  match_fields. cbn [field_string fmap option_fmap option_map]. rewrite Hn. by destruct (ParseRFC3339 (bytes_of_string b)).
Qed.

Theorem envelope_year_refused zone nil_data me m :
  me_Message me = Some m ->
  (let '(year, _, _) := date_of (wall_clock (zone (m_Timestamp m)) (m_Timestamp m) / secondsPerDay + unixDays) in 10000 <= year < 100000) ->
  MarshalJSON zone nil_data me
  = Ret (Err "json: error calling MarshalJSON for type time.Time: Time.MarshalJSON: year outside of range [0,9999]").
Proof. intros Hm Hy. unfold MarshalJSON. by rewrite Hm (appendStrict_year _ _ Hy). Qed.

(** ** A run the round trip applies to *)

Definition demo_envelope_message : Message := mkMessage 18446744073709551615 2 7 9 3 [0; 255; 10] 1700000000123456000.
Definition demo_envelope : MessageEnvelope :=
  mkMessageEnvelope (mkServiceAddress (Some (mkHandle 16777217 7 "gate" 1 true)) "" "") (mkServiceAddress None "db" "")
    (Some demo_envelope_message) FlagResponse.

Lemma envelope_roundtrip_witness :
  exists b, MarshalJSON (fun _ => -19800) true demo_envelope = Ret (Ok b) /\ UnmarshalJSON b zero_envelope = Ret (Some demo_envelope).
Proof.
  apply (envelope_roundtrip (fun _ => -19800) true demo_envelope demo_envelope_message). split.
  - split; [|reflexivity|reflexivity]. intros h E. injection E as <-. split; [unfold is_u32; cbn; lia..|reflexivity].
  - split; [discriminate|reflexivity|reflexivity].
  - reflexivity.
  - split; [unfold is_u64; cbn; lia|cbn; lia|unfold is_u32; cbn; lia|unfold is_u32; cbn; lia|unfold is_u32; cbn; lia| | |].
    + repeat (constructor; [unfold Net.is_byte; lia|]). constructor.
    + split; [reflexivity|unfold secondsPerDay; lia].
    + vm_compute. split; [discriminate|reflexivity].
  - vm_compute. split; [discriminate|reflexivity].
Defined.
