(* ===== verification/SimpleDB.v ===== *)
(** src/examples/simpledb/main.go: an in-memory key-value database behind an actor,
    and its bootstrap service.

    Requests come as JSON or as words of a text line. The response is only logged:
    [HandleMessage] gives the text it logs beside its error. *)

From S2P Require Import Prelude CoreTypes Handle Actor Router Session Registry LoadBalancer Discovery System.
From S2P Require Import NetMessage GoText GoJson Lifecycle.
From Stdlib Require Import Ascii.

(** ** Strings *)

(** strings.Fields: the words between white space. [w] is the word so far, backwards;
    [n] is the number of bytes left. *)
Fixpoint fields_loop (n : nat) (w b : bytes) : list bytes :=
  match n, b with
  | S n', z :: b' =>
      match strip_space spaces b with
      | Some r => match w with [] => fields_loop n' [] r | _ => rev w :: fields_loop n' [] r end
      | None => fields_loop n' (z :: w) b'
      end
  | _, _ => match w with [] => [] | _ => [rev w] end
  end.
Definition Fields (s : string) : list string :=
  let b := bytes_of_string s in map string_of_bytes (fields_loop (length b) [] b).

(** strings.ToUpper: besides the letters of ASCII, U+0131 and U+017F have one of them
    as their upper case; other letters stay, which only shows in the text of an error. *)
Fixpoint upper_bytes (n : nat) (b : bytes) : bytes :=
  match n, b with
  | S n', z :: b' =>
      match strip_prefix [196; 177] b, strip_prefix [197; 191] b with
      | Some r, _ => 73 :: upper_bytes n' r
      | None, Some r => 83 :: upper_bytes n' r
      | None, None => (if within 97 122 z then z - 32 else z) :: upper_bytes n' b'
      end
  | _, _ => []
  end.
Definition ToUpper (s : string) : string := string_of_bytes (upper_bytes (String.length s) (bytes_of_string s)).

Definition HasPrefix (s p : string) : bool := String.prefix p s.
Definition HasSuffix (s p : string) : bool := bool_decide (bytes_of_string p `suffix_of` bytes_of_string s).

(** ** The database *)

Record SimpleDB := mkSimpleDB { db_data : gmap string string }.
Definition NewSimpleDB : SimpleDB := mkSimpleDB ∅.

(** [DBRequest] is the [Command] of [GoJson]. *)
Record DBResponse := mkDBResponse { dr_Result : json Z; dr_Error : string }.
Definition db_ok (v : json Z) : DBResponse := mkDBResponse v "".
Definition db_err (e : string) : DBResponse := mkDBResponse JNull e.

(** The error is left out when it is empty. *)
Definition marshal_DBResponse (r : DBResponse) : bytes :=
  Marshal (JObj (("result", dr_Result r) :: if nonempty (dr_Error r) then [("error", JStr (dr_Error r))] else [])).

(** A missing key reads as the empty string. *)
Definition db_get (key : string) (db : SimpleDB) : string := default "" (db_data db !! key).
Definition db_set (key value : string) (db : SimpleDB) : SimpleDB * string :=
  (mkSimpleDB (<[key := value]> (db_data db)), db_get key db).
Definition db_delete (key : string) (db : SimpleDB) : SimpleDB * string :=
  (mkSimpleDB (delete key (db_data db)), db_get key db).
Definition db_exists (key : string) (db : SimpleDB) : bool := bool_decide (is_Some (db_data db !! key)).

Definition matchPattern (text pattern : string) : bool :=
  if eqs pattern "*" then true
  else match Split "*" pattern with
       | [prefix; suffix] => HasPrefix text prefix && HasSuffix text suffix
       | _ => eqs text pattern
       end.

(** [order]: in which the map is visited. *)
Definition db_keys (pattern : string) (order : list string) (db : SimpleDB) : list string :=
  List.filter (fun k => bool_decide (is_Some (db_data db !! k)) && (eqs pattern "*" || matchPattern k pattern)) order.
Definition db_clear (db : SimpleDB) : SimpleDB * Z := (mkSimpleDB ∅, Z.of_nat (size (db_data db))).
Definition db_size (db : SimpleDB) : Z := Z.of_nat (size (db_data db)).

Definition handleRequest (req : Command) (order : list string) (db : SimpleDB) : SimpleDB * DBResponse :=
  let cmd := ToUpper (cmd_Command req) in
  if eqs cmd "GET" then
    match cmd_Args req with
    | [JStr key] => (db, db_ok (JStr (db_get key db)))
    | [_] => (db, db_err "key must be string")
    | _ => (db, db_err "GET requires 1 argument")
    end
  else if eqs cmd "SET" then
    match cmd_Args req with
    | [JStr key; JStr value] => let '(db', old) := db_set key value db in (db', db_ok (JStr old))
    | [JStr _; _] => (db, db_err "value must be string")
    | [_; _] => (db, db_err "key must be string")
    | _ => (db, db_err "SET requires 2 arguments")
    end
  else if eqs cmd "DELETE" || eqs cmd "DEL" then
    match cmd_Args req with
    | [JStr key] => let '(db', old) := db_delete key db in (db', db_ok (JStr old))
    | [_] => (db, db_err "key must be string")
    | _ => (db, db_err "DELETE requires 1 argument")
    end
  else if eqs cmd "EXISTS" then
    match cmd_Args req with
    | [JStr key] => (db, db_ok (JBool (db_exists key db)))
    | [_] => (db, db_err "key must be string")
    | _ => (db, db_err "EXISTS requires 1 argument")
    end
  else if eqs cmd "KEYS" then
    let pattern := match cmd_Args req with JStr p :: _ => p | _ => "*" end in
    (db, db_ok (JArr (map JStr (db_keys pattern order db))))
  else if eqs cmd "CLEAR" then
    let '(db', count) := db_clear db in (db', db_ok (JNum count))
  else if eqs cmd "SIZE" || eqs cmd "COUNT" then (db, db_ok (JNum (db_size db)))
  else if eqs cmd "PING" then
    (db, db_ok (JStr (match cmd_Args req with JStr s :: _ => s | _ => "PONG" end)))
  else (db, db_err ("unknown command: " +:+ cmd)).

(** The request in the data of a message: JSON, or else the words of the text. *)
Definition parse_request (data : bytes) : option Command :=
  match Unmarshal_Command data with
  | Some req => Some req
  | None => match Fields (string_of_bytes data) with
            | [] => None
            | name :: args => Some (mkCommand name (map JStr args))
            end
  end.

(** [None] logged when there is an error. *)
Definition db_HandleMessage (order : list string) (msg : Message) (db : SimpleDB) : SimpleDB * option error * option bytes :=
  if m_Type msg =? MessageTypeRequest then
    match parse_request (m_Data msg) with
    | None => (db, Some "empty command", None)
    | Some req => let '(db', response) := handleRequest req order db in (db', None, Some (marshal_DBResponse response))
    end
  else (db, Some ("unsupported message type: " +:+ pretty (m_Type msg)), None).

(** As the handler of an actor; the order of the keys only shows in the log. *)
Definition db_handler (db : SimpleDB) (msg : Message) : SimpleDB * Message * option error :=
  let '(db', e, _) := db_HandleMessage (keys (db_data db)) msg db in (db', msg, e).

(** ** The service *)

Record SimpleDBService := mkSimpleDBService {
  sds_db : SimpleDB;
  sds_handle : option Handle;
  sds_system : option (system SimpleDB);
}.
Definition NewSimpleDBService : SimpleDBService := mkSimpleDBService NewSimpleDB None None.

(** The service makes an actor system of its own; the database is shared with the
    actor, whose copy counts from then on. *)
Definition sds_Start (pick : bool) (clk : clock) (s : SimpleDBService) : go (SimpleDBService * option error) :=
  '(sys, r) ← NewService pick "SIMPLEDB" (sds_db s) DefaultActorOptions clk [] NewActorSystem;
  Ret (match r with
       | Err e => (mkSimpleDBService (sds_db s) (sds_handle s) (Some sys), Some ("failed to create SimpleDB service: " +:+ e))
       | Ok h => (mkSimpleDBService (sds_db s) h (Some sys), None)
       end).
Definition sds_Stop (s : SimpleDBService) : SimpleDBService * option error := (s, None).
Definition sds_Health (s : SimpleDBService) : HealthStatus :=
  match sds_handle s with
  | None => mkHealthStatus "stopped" "SimpleDB not running" zero_time
  | Some _ => mkHealthStatus "healthy" "SimpleDB operational" zero_time
  end.

(** ** The database as a map

    What a client asks for, the JSON it sends for it, and what a map answers. *)
Inductive db_op :=
| OGet (k : string)
| OSet (k v : string)
| ODelete (k : string)
| OExists (k : string)
| OKeys (prefix suffix : string)
| OClear
| OSize
| OPing (s : string).

(** The names of the command, in any case of their letters, and its arguments. *)
Definition op_names (op : db_op) : list string :=
  match op with
  | OGet _ => ["GET"]
  | OSet _ _ => ["SET"]
  | ODelete _ => ["DELETE"; "DEL"]
  | OExists _ => ["EXISTS"]
  | OKeys _ _ => ["KEYS"]
  | OClear => ["CLEAR"]
  | OSize => ["SIZE"; "COUNT"]
  | OPing _ => ["PING"]
  end.
Definition op_args (op : db_op) : list string :=
  match op with
  | OGet k | ODelete k | OExists k | OPing k => [k]
  | OSet k v => [k; v]
  | OKeys prefix suffix => [prefix +:+ "*" +:+ suffix]
  | OClear | OSize => []
  end.
Definition op_ok (name : string) (op : db_op) : Prop :=
  is_text name = true /\ ToUpper name ∈ op_names op /\ Forall (fun s => is_text s = true) (op_args op) /\
  match op with OKeys prefix suffix => no_char "*" prefix = true /\ no_char "*" suffix = true | _ => True end.
Definition request (name : string) (op : db_op) (now : time) : Message :=
  mkMessage 0 MessageTypeRequest 0 0 0 (marshal_Command name (Some (map JStr (op_args op)))) now.

(** A map answers: the old value of a key, the empty string for none; for a pattern
    the keys that start and end with its two sides. *)
Definition fits_sides (prefix suffix k : string) : bool := HasPrefix k prefix && HasSuffix k suffix.
Definition map_answer (op : db_op) (order : list string) (m : gmap string string) : gmap string string * json Z :=
  match op with
  | OGet k => (m, JStr (default "" (m !! k)))
  | OSet k v => (<[k := v]> m, JStr (default "" (m !! k)))
  | ODelete k => (delete k m, JStr (default "" (m !! k)))
  | OExists k => (m, JBool (bool_decide (k ∈ dom m)))
  | OKeys prefix suffix => (m, JArr (map JStr (List.filter (fits_sides prefix suffix) order)))
  | OClear => (∅, JNum (Z.of_nat (size m)))
  | OSize => (m, JNum (Z.of_nat (size m)))
  | OPing s => (m, JStr s)
  end.

Lemma Split_star prefix suffix :
  no_char "*" prefix = true -> no_char "*" suffix = true -> Split "*" (prefix +:+ "*" +:+ suffix) = [prefix; suffix].
Proof.
  intros Hp Hs. change (prefix +:+ "*" +:+ suffix) with (prefix +:+ String "*" suffix). by rewrite Split_app // Split_no_char.
Qed.

Lemma HasPrefix_empty s : HasPrefix s "" = true.
Proof. by destruct s. Qed.
Lemma HasSuffix_empty s : HasSuffix s "" = true.
Proof. apply bool_decide_eq_true. apply suffix_nil. Qed.

Lemma match_sides k prefix suffix :
  no_char "*" prefix = true -> no_char "*" suffix = true ->
  (eqs (prefix +:+ "*" +:+ suffix) "*" || matchPattern k (prefix +:+ "*" +:+ suffix)) = fits_sides prefix suffix k.
Proof.
  intros Hp Hs. unfold matchPattern. rewrite (Split_star _ _ Hp Hs). destruct (eqs _ "*") eqn:E; [|done]. apply eqs_true in E.
  destruct prefix as [|c p].
  - destruct suffix as [|c s]; [|done]. unfold fits_sides. by rewrite HasPrefix_empty HasSuffix_empty.
  - injection E as -> E. by destruct p.
Qed.

(** What is stored is UTF-8 and can be counted by a float64. *)
Definition db_wf (m : gmap string string) : Prop :=
  (forall k v, m !! k = Some v -> is_text k = true /\ is_text v = true) /\ Z.of_nat (size m) < 2 ^ 53 - 1.

Lemma map_answer_text op order m : db_wf m -> Forall (fun s => is_text s = true) (op_args op) -> range_order m order ->
  fits 100 (map_answer op order m).2 = true /\ small (map_answer op order m).2 = true.
Proof.
  intros [Hm Hs] Ha Ho. assert (forall k, is_text (default "" (m !! k)) = true) as Hg.
  { intros k. destruct (m !! k) as [v|] eqn:E; [|done]. by apply (Hm k v). }
  assert ((- 2 ^ 53 <? Z.of_nat (size m)) && (Z.of_nat (size m) <? 2 ^ 53) = true) as Hn by (apply andb_true_intro; rewrite !Z.ltb_lt; lia).
  destruct op as [k|k v|k|k|p s| | |s]; cbn [map_answer snd fits small]; try by (split; [apply Hg || done|done]).
  - rewrite !forallb_forall. split; intros x Hx; apply in_map_iff in Hx as (k & <- & [Hk _]%filter_In); [|done].
    apply list_elem_of_In, (elem_of_range_order _ _ k Ho) in Hk as [v Hv]. by apply (Hm k v).
  - split; [|done]. by inversion Ha.
Qed.

Lemma handleRequest_answer name op order m :
  op_ok name op -> range_order m order ->
  handleRequest (mkCommand name (map JStr (op_args op))) order (mkSimpleDB m)
    = (mkSimpleDB (map_answer op order m).1, db_ok (map_answer op order m).2).
Proof.
  intros (_ & Hname & _ & Hop) Ho. unfold handleRequest. cbn [cmd_Command cmd_Args].
  destruct op as [k|k w|k|k|p s| | |s]; cbn [op_names op_args map map_answer fst snd] in *; rewrite ?elem_of_cons elem_of_nil in Hname.
  - by destruct Hname as [->|[]].
  - by destruct Hname as [->|[]].
  - by destruct Hname as [->|[->|[]]].
  - destruct Hname as [->|[]]. cbn. unfold db_exists. by rewrite (bool_decide_ext _ _ (elem_of_dom (M := gmap string) m k)).
  - destruct Hname as [->|[]]. cbn. do 4 f_equal. unfold db_keys. cbn [db_data]. apply filter_ext_in. intros x Hx.
    destruct Hop as [Hp Hs]. rewrite (match_sides x p s Hp Hs) bool_decide_true //.
    by apply (elem_of_range_order _ _ x Ho), list_elem_of_In.
  - by destruct Hname as [->|[]].
  - by destruct Hname as [->|[->|[]]].
  - by destruct Hname as [->|[]].
Qed.

(** A request in JSON is answered as the map answers it. *)
Lemma db_answers name op order now m :
  op_ok name op -> db_wf m -> range_order m order ->
  exists log, db_HandleMessage order (request name op now) (mkSimpleDB m) = (mkSimpleDB (map_answer op order m).1, None, Some log) /\
    Unmarshal log = Some (JObj [("result", json_map float64_of_int (map_answer op order m).2)]).
Proof.
  intros Hok Hwf Ho. pose proof Hok as (Hn & _ & Ha & _). destruct (map_answer_text op order m Hwf Ha Ho) as [Hf Hs].
  exists (marshal_DBResponse (db_ok (map_answer op order m).2)). split.
  - unfold db_HandleMessage, request, parse_request. cbn [m_Type m_Data]. rewrite Z.eqb_refl Command_roundtrip //.
    { cbn [default from_option id]. rewrite forallb_forall. intros x (s & <- & Hx)%in_map_iff. rewrite Forall_forall in Ha.
      unfold plain_value. cbn [fits small]. by rewrite (Ha s); [apply list_elem_of_In|]. }
    cbn [default from_option id]. rewrite map_map. by rewrite (handleRequest_answer name op order m Hok Ho).
  - unfold marshal_DBResponse. cbn [db_ok dr_Error dr_Result]. change (nonempty "") with false. rewrite json_roundtrip.
    + apply (fits_mono _ 101); [unfold maxNestingDepth; lia|]. cbn [fits forallb fst snd]. by rewrite Hf.
    + cbn [small forallb snd]. by rewrite Hs.
    + done.
Qed.

(** Runs: of the database on the messages, and of the map. [order_of]: the order in
    which a map is visited. *)
Section runs.
Context (order_of : gmap string string -> list string).

Fixpoint db_run (msgs : list Message) (db : SimpleDB) : SimpleDB * list (option error * option bytes) :=
  match msgs with
  | [] => (db, [])
  | msg :: msgs' =>
      let '(db1, e, log) := db_HandleMessage (order_of (db_data db)) msg db in
      let '(db2, out) := db_run msgs' db1 in (db2, (e, log) :: out)
  end.

Fixpoint map_run (ops : list db_op) (m : gmap string string) : gmap string string * list (json Z) :=
  match ops with
  | [] => (m, [])
  | op :: ops' =>
      let '(m1, v) := map_answer op (order_of m) m in
      let '(m2, out) := map_run ops' m1 in (m2, v :: out)
  end.

(** A logged line that says [v]. *)
Definition says (v : json Z) (out : option error * option bytes) : Prop :=
  out.1 = None /\ exists text, out.2 = Some text /\ Unmarshal text = Some (JObj [("result", json_map float64_of_int v)]).

Definition texts (m : gmap string string) : Prop := forall k v, m !! k = Some v -> is_text k = true /\ is_text v = true.

Lemma map_answer_keeps op order m :
  texts m -> Forall (fun s => is_text s = true) (op_args op) ->
  texts (map_answer op order m).1 /\ (size (map_answer op order m).1 <= S (size m))%nat.
Proof.
  intros Hm Ha. destruct op as [k|k v|k|k|p s| | |s]; cbn [map_answer fst op_args] in *; try (split; [done|lia]).
  - inversion Ha as [|? ? Hk Hv]; subst. inversion Hv; subst. split.
    + intros k' v' [[<- <-]|[_ Hk']]%lookup_insert_Some; [done|by apply Hm].
    + destruct (m !! k) as [w|] eqn:E; [rewrite (map_size_insert_Some k v m (mk_is_Some _ _ E))|rewrite map_size_insert_None //]; lia.
  - split; [by intros k' v' [_ Hk]%lookup_delete_Some; apply Hm|]. rewrite map_size_delete. destruct (m !! k); cbn; lia.
  - split; [by intros k v ?%lookup_empty_Some|]. rewrite map_size_empty. lia.
Qed.

End runs.

(** ** Requests as text *)

(** A word: visible ASCII characters. *)
Definition is_word (s : string) : bool := nonempty s && forallb plain (bytes_of_string s).

Lemma fields_word w rest acc n :
  forallb plain w = true -> (length w + length rest <= n)%nat ->
  fields_loop n acc (w ++ rest) = fields_loop (n - length w) (rev w ++ acc) rest.
Proof.
  revert acc n. induction w as [|z w IH]; intros acc n Hw Hn; [by rewrite Nat.sub_0_r|]. cbn [forallb] in Hw.
  apply andb_prop in Hw as [Hz Hw]. destruct n as [|n]; [cbn in Hn; lia|]. cbn [app fields_loop].
  rewrite (strip_space_plain spaces z (w ++ rest) spaces_left Hz). rewrite IH //; [cbn in Hn; lia|]. cbn [rev length Nat.sub]. by rewrite -assoc_L.
Qed.

Fixpoint join_words (l : list string) : string :=
  match l with
  | [] => ""
  | [w] => w
  | w :: l' => w +:+ " " +:+ join_words l'
  end.

Lemma fields_words l n :
  Forall (fun w => is_word w = true) l -> (length (bytes_of_string (join_words l)) <= n)%nat ->
  map string_of_bytes (fields_loop n [] (bytes_of_string (join_words l))) = l.
Proof.
  revert n. induction l as [|w l IH]; intros n Hl Hn; [by destruct n|]. inversion Hl as [|? ? Hw Hl']; subst.
  unfold is_word in Hw. apply andb_prop in Hw as [Hne Hw].
  assert (forall x, rev (rev (bytes_of_string w) ++ []) = x -> string_of_bytes x = w) as Hrev.
  { intros x <-. by rewrite app_nil_r rev_involutive string_of_bytes_of_string. }
  assert (exists z t, rev (bytes_of_string w) ++ [] = z :: t) as (z & t & Ez).
  { rewrite app_nil_r. destruct (rev (bytes_of_string w)) eqn:E; [|by eexists _, _]. apply (f_equal length) in E. rewrite length_rev in E.
    destruct w; done. }
  destruct l as [|w2 l]; cbn [join_words] in *.
  - rewrite -(app_nil_r (bytes_of_string w)) fields_word //; [cbn; lia|]. rewrite Ez. destruct (n - _)%nat; cbn [fields_loop map]; by rewrite (Hrev (rev (z :: t))) // -Ez.
  - rewrite bytes_of_string_app length_app in Hn. rewrite bytes_of_string_app fields_word //.
    change (bytes_of_string (" " +:+ ?x)) with (32 :: bytes_of_string x) in *. cbn [length] in Hn.
    destruct (n - length (bytes_of_string w))%nat as [|k] eqn:Ek; [lia|]. rewrite Ez. cbn [fields_loop].
    change (strip_space spaces (32 :: ?b)) with (Some b). cbn [map]. rewrite (Hrev (rev (z :: t))); [by rewrite -Ez|]. f_equal. apply IH; [done|lia].
Qed.

(** A line of words that starts with a capital is a command with those arguments. *)
Lemma text_request name args :
  Forall (fun w => is_word w = true) (name :: args) -> (exists c t, name = String c t /\ within 65 90 (Z.of_N (N_of_ascii c)) = true) ->
  parse_request (bytes_of_string (join_words (name :: args))) = Some (mkCommand name (map JStr args)).
Proof.
  intros Hw (c & t & -> & Hc). unfold parse_request.
  assert (exists b, bytes_of_string (join_words (String c t :: args)) = Z.of_N (N_of_ascii c) :: b) as [b Hb] by (destruct args; by eexists).
  assert (Unmarshal_Command (bytes_of_string (join_words (String c t :: args))) = None) as ->.
  { rewrite Hb. unfold Unmarshal_Command, Unmarshal_struct, parse. set (z := Z.of_N _) in *. unfold within in Hc.
    cbn [length Nat.mul Nat.add parse_value]. rewrite skip_head; [unfold is_space; lia|]. unfold quote.
    repeat match goal with |- context [z =? ?k] => destruct (Z.eqb_spec z k); [lia|] end. unfold number.
    destruct (Z.eqb_spec z 45); [lia|]. unfold unsigned. cbn [digits]. assert (within 48 57 z = false) as -> by (unfold within; lia). done. }
  rewrite string_of_bytes_of_string. unfold Fields. rewrite fields_words //.
Qed.

(** ** The service *)

(** The database behind its actor: the service starts, and a request sent to its name
    is taken by its message loop and answered by the map. *)
Lemma service_started pick clk data now :
  exists sv h sys sys1 a, sds_Start pick clk NewSimpleDBService = Ret (sv, None) /\ sds_handle sv = Some h /\
    sds_system sv = Some sys /\ sy_starting sys = [0%nat] /\
    SendByName pick "" "SIMPLEDB" MessageTypeRequest data now (start_goroutine 0 sys) = Ret (sys1, Ok tt) /\
    sy_actors sys1 !! 0%nat = Some a /\ a_handler a = NewSimpleDB /\
    ch_buf (a_mailbox a) = [Some (mkMessage 0 MessageTypeRequest 0 1 0 data now)].
Proof.
  pose (served := fun sys => match SendByName pick "" "SIMPLEDB" MessageTypeRequest data now (start_goroutine 0 sys) with
    | Ret (sys1, Ok tt) => match sy_actors sys1 !! 0%nat with
        | Some a => a_handler a = NewSimpleDB /\ ch_buf (a_mailbox a) = [Some (mkMessage 0 MessageTypeRequest 0 1 0 data now)]
        | None => False end
    | _ => False end).
  assert (match sds_Start pick clk NewSimpleDBService with
    | Ret (mkSimpleDBService _ (Some _) (Some sys), None) => sy_starting sys = [0%nat] /\ served sys
    | _ => False end) as H by (destruct pick; vm_compute; done).
  destruct (sds_Start _ _ _) as [[[d [h|] [sys|]] [e|]]| |]; try done. destruct H as [H1 H]. unfold served in H.
  destruct (SendByName _ _ _ _ _ _ _) as [[sys1 [[]|]]| |] eqn:E; try done. destruct (sy_actors sys1 !! 0%nat) as [a|] eqn:Ea; [|done].
  exists (mkSimpleDBService d (Some h) (Some sys)), h, sys, sys1, a. by destruct H.
Qed.

Lemma db_HandleMessage_ext order msg msg' db :
  m_Type msg = m_Type msg' -> m_Data msg = m_Data msg' -> db_HandleMessage order msg db = db_HandleMessage order msg' db.
Proof. unfold db_HandleMessage. by intros -> ->. Qed.

Lemma db_handler_answers name op m msg :
  op_ok name op -> db_wf m -> m_Type msg = MessageTypeRequest -> m_Data msg = marshal_Command name (Some (map JStr (op_args op))) ->
  db_handler (mkSimpleDB m) msg = (mkSimpleDB (map_answer op (keys m) m).1, msg, None).
Proof.
  intros Hop Hm Ht Hd. destruct (db_answers name op (keys m) 0 m Hop Hm) as (log & H & _); [apply range_order_keys|].
  unfold db_handler. by rewrite (db_HandleMessage_ext _ msg (request name op 0)) // H.
Qed.

(** The loop of an actor whose mailbox holds one message that asks for no answer. *)
Lemma loop_takes_one {S} (handle : S -> Message -> S * Message * option error) clk a msg st msg' :
  ch_buf (a_mailbox a) = [Some msg] -> handle (a_handler a) msg = (st, msg', None) -> m_Session msg' = 0 ->
  exists a', loop_takes handle 1 clk a = Ret a' /\ a_handler a' = st /\ ch_buf (a_mailbox a') = [].
Proof.
  intros Hb Hh Hs. cbn [loop_takes]. unfold try_recv. rewrite Hb. cbn [loop_takes]. unfold processMessage, process_handle, process_respond.
  cbn [a_handler with_mailbox process_enter with_state]. rewrite Hh Hs. eexists. split; [reflexivity|]. by split.
Qed.

(** A request sent to the service's name is answered by the map, starting empty. *)
Theorem simpledb_service_serves pick clk clk' name op now :
  op_ok name op ->
  exists sv sys sys1 a a', sds_Start pick clk NewSimpleDBService = Ret (sv, None) /\ sds_system sv = Some sys /\
    SendByName pick "" "SIMPLEDB" MessageTypeRequest (marshal_Command name (Some (map JStr (op_args op)))) now (start_goroutine 0 sys)
      = Ret (sys1, Ok tt) /\
    sy_actors sys1 !! 0%nat = Some a /\ loop_takes db_handler 1 clk' a = Ret a' /\
    a_handler a' = mkSimpleDB (map_answer op (keys (∅ : gmap string string)) ∅).1 /\ ch_buf (a_mailbox a') = [].
Proof.
  intros Hop. destruct (service_started pick clk (marshal_Command name (Some (map JStr (op_args op)))) now)
    as (sv & h & sys & sys1 & a & H1 & _ & H2 & _ & H3 & H4 & H5 & H6).
  destruct (loop_takes_one db_handler clk' a _ (mkSimpleDB (map_answer op (keys (∅ : gmap string string)) ∅).1) (mkMessage 0 MessageTypeRequest 0 1 0 (marshal_Command name (Some (map JStr (op_args op)))) now) H6) as (a' & Ha & Hst & Hb').
  - rewrite H5. apply (db_handler_answers name op ∅); [done| |done|done].
    split; [by intros k v ?%lookup_empty_Some|by rewrite map_size_empty].
  - done.
  - exists sv, sys, sys1, a, a'. exact (conj H1 (conj H2 (conj H3 (conj H4 (conj Ha (conj Hst Hb')))))).
Qed.

(** The two sides of a pattern may overlap in the text, and a second star is a
    character like another. *)
Example overlapping_sides : matchPattern "aba" "ab*ba" = true /\ matchPattern "axbxc" "a*b*c" = false /\ matchPattern "a*b*c" "a*b*c" = true.
Proof. by vm_compute. Qed.

(** ** A run the refinement applies to *)

Definition demo_db_ops : list (string * db_op * time) :=
  [("set", OSet "a1" "x", 0); ("SET", OSet "b1" "y", 1); ("Get", OGet "a1", 2); ("keys", OKeys "" "1", 3); ("DEL", ODelete "a1", 4); ("count", OSize, 5)].


(** ** src/examples/simpledb/test_client.go *)

(** The handlers in the test's system: the client, which only logs, and the database. *)
Inductive test_party := TClient | TDatabase (db : SimpleDB).
Definition TestClient_HandleMessage (msg : Message) : option error := None.
Definition test_handler (p : test_party) (msg : Message) : test_party * Message * option error :=
  match p with
  | TClient => (TClient, msg, TestClient_HandleMessage msg)
  | TDatabase db => let '(db', msg', e) := db_handler db msg in (TDatabase db', msg', e)
  end.

(** The requests, in order; a request without arguments has a nil slice. *)
Definition test_requests : list bytes :=
  [marshal_Command "SET" (Some [JStr "test_key"; JStr "test_value"]); marshal_Command "GET" (Some [JStr "test_key"]);
   marshal_Command "PING" (Some [JStr "hello"]); marshal_Command "KEYS" (Some [JStr "*"]); marshal_Command "SIZE" None].
(** An error of a send is only logged. *)
Fixpoint send_requests (pick : bool) (from to : ActorID) (clk : clock) (l : list bytes) (s : system test_party) : go (system test_party) :=
  match l with
  | [] => Ret s
  | data :: l' => '(s', _) ← sys_Send pick from to MessageTypeRequest data (clk (length l)) s; send_requests pick from to clk l' s'
  end.
(** The failures that end the process are errors here. *)
Definition testSimpleDB (pick : bool) (clk : clock) (s : system test_party) : go (system test_party * option error) :=
  '(s1, r) ← sys_NewActor pick TClient DefaultActorOptions clk s;
  match r with
  | Err e => Ret (s1, Some ("Failed to create test client: " +:+ e))
  | Ok ref =>
      match GetService "SIMPLEDB" s1, sy_actors s1 !! ref with
      | None, _ => Ret (s1, Some "SimpleDB service not found")
      | Some (Some dbHandle), Some clientActor =>
          s2 ← send_requests pick (a_id clientActor) (h_ActorID dbHandle) clk test_requests s1; Ret (s2, None)
      | _, _ => nil_deref
      end
  end.
(** [runTest] up to its shutdown. *)
Definition runTest (pick : bool) (clk : clock) : go (system test_party * option error) :=
  '(s, r) ← NewService pick "SIMPLEDB" (TDatabase NewSimpleDB) DefaultActorOptions clk [] NewActorSystem;
  match r with
  | Err e => Ret (s, Some ("Failed to create SimpleDB service: " +:+ e))
  | Ok _ => testSimpleDB pick clk s
  end.

(** The test works: all five requests reach the database's actor, which, once it has
    taken them, holds the one key that was set. *)
Theorem runTest_stores pick clk clk' :
  exists s a a', runTest pick clk = Ret (s, None) /\ sy_actors s !! 0%nat = Some a /\ length (ch_buf (a_mailbox a)) = 5%nat /\
    loop_takes test_handler 5 clk' a = Ret a' /\ a_handler a' = TDatabase (mkSimpleDB {["test_key" := "test_value"]}).
Proof.
  assert (match runTest pick clk with
    | Ret (s, None) => match sy_actors s !! 0%nat with
        | Some a => length (ch_buf (a_mailbox a)) = 5%nat /\ match loop_takes test_handler 5 clk' a with
            | Ret a' => a_handler a' = TDatabase (mkSimpleDB {["test_key" := "test_value"]}) | _ => False end
        | None => False end
    | _ => False end) as Hrun by (destruct pick; vm_compute; split; reflexivity).
  destruct (runTest pick clk) as [[s [e|]]| |]; try done. destruct (sy_actors s !! 0%nat) as [a|] eqn:Ea; [|done]. destruct Hrun as [Hlen Hrun].
  destruct (loop_takes test_handler 5 clk' a) as [a'| |] eqn:El; try done.
  exists s, a, a'. exact (conj eq_refl (conj Ea (conj Hlen (conj El Hrun)))).
Qed.
