(* ===== verification/Agent.v ===== *)
(** src/examples/agent/agent.go: the actor that stands for one client.

    Commands come as JSON requests; text messages are tried as commands too, and are
    data of the client when they are not JSON. Values of a decoded command have the
    types of encoding/json, so an assertion to a type of the program does not hold. *)

From S2P Require Import Prelude CoreTypes Handle NetMessage GoText LoadBalancer GoJson.

(** ** Assertions on decoded values *)

Definition as_float64 (v : json float64) : option float64 := match v with JNum f => Some f | _ => None end.
Definition as_object (v : json float64) : option (list (string * json float64)) :=
  match v with JObj l => Some l | _ => None end.
(** [v.( *core.Handle)] and [v.(int)] of a decoded value. *)
Definition as_Handle (v : json float64) : option Handle := None.
Definition as_int (v : json float64) : option Z := None.

(** [config[k]] of the map an object is decoded to: of two members of one name the
    last one counts. *)
Definition config_get (k : string) (config : list (string * json float64)) : option (json float64) :=
  fold_left (fun acc kv => if eqs kv.1 k then Some kv.2 else acc) config None.

(** ** The agent *)

Record Agent := mkAgent { ag_gate : option Handle; ag_client : Z; ag_watchdog : option Handle }.
Definition NewAgent : Agent := mkAgent None 0 None.

Section agent.
(** [int(f)] of a float out of range, and the text of the errors of [json.Unmarshal]. *)
Context (oob : float64 -> Z) (json_error : bytes -> error).

Definition agent_start (config : list (string * json float64)) (a : Agent) : Agent :=
  let a := match config_get "gate" config with
    | Some gateValue => match as_Handle gateValue with
        | Some gate => mkAgent (Some gate) (ag_client a) (ag_watchdog a)
        | None => a
        end
    | None => a
    end in
  let a := match config_get "client" config with
    | Some clientValue => match as_float64 clientValue with
        | Some client => mkAgent (ag_gate a) (int_of_float64 oob client) (ag_watchdog a)
        | None => match as_int clientValue with
            | Some client => mkAgent (ag_gate a) client (ag_watchdog a)
            | None => a
            end
        end
    | None => a
    end in
  match config_get "watchdog" config with
  | Some watchdogValue => match as_Handle watchdogValue with
      | Some watchdog => mkAgent (ag_gate a) (ag_client a) (Some watchdog)
      | None => a
      end
  | None => a
  end.

(** It only writes to the log. *)
Definition agent_disconnect (a : Agent) : Agent * option error := (a, None).

Definition agent_handleCommand (msg : Message) (a : Agent) : Agent * option error :=
  match Unmarshal_Command (m_Data msg) with
  | None => (a, Some ("failed to parse command: " +:+ json_error (m_Data msg)))
  | Some cmd =>
      if eqs (cmd_Command cmd) "start" then
        match cmd_Args cmd with
        | arg :: _ => match as_object arg with
            | Some config => (agent_start config a, None)
            | None => (a, Some "start command requires configuration")
            end
        | [] => (a, Some "start command requires configuration")
        end
      else if eqs (cmd_Command cmd) "disconnect" then agent_disconnect a
      else (a, Some ("unknown command: " +:+ cmd_Command cmd))
  end.

Definition agent_handleMessage (msg : Message) (a : Agent) : Agent * option error :=
  match Unmarshal_Command (m_Data msg) with
  | None => (a, None)
  | Some _ => agent_handleCommand msg a
  end.

Definition agent_HandleMessage (msg : Message) (a : Agent) : Agent * option error :=
  if m_Type msg =? MessageTypeRequest then agent_handleCommand msg a
  else if m_Type msg =? MessageTypeText then agent_handleMessage msg a
  else (a, Some ("unsupported message type: " +:+ pretty (m_Type msg))).

(** As the handler of an actor. *)
Definition agent_handler (a : Agent) (msg : Message) : Agent * Message * option error :=
  let '(a', e) := agent_HandleMessage msg a in (a', msg, e).

(** ** What it does *)

(** An agent never has a gate or a watchdog: no message sets them. *)
Lemma agent_start_client config a :
  exists z, agent_start config a = mkAgent (ag_gate a) z (ag_watchdog a).
Proof.
  unfold agent_start, as_Handle, as_int. exists (match config_get "client" config with
    | Some v => match as_float64 v with Some f => int_of_float64 oob f | None => ag_client a end | None => ag_client a end).
  destruct a as [g c w]. destruct (config_get "gate" config), (config_get "watchdog" config), (config_get "client" config) as [v|];
    try destruct (as_float64 v); done.
Qed.

Lemma agent_step_keeps msg a :
  ag_gate (agent_HandleMessage msg a).1 = ag_gate a /\ ag_watchdog (agent_HandleMessage msg a).1 = ag_watchdog a.
Proof.
  assert (ag_gate (agent_handleCommand msg a).1 = ag_gate a /\ ag_watchdog (agent_handleCommand msg a).1 = ag_watchdog a) as Hc.
  { unfold agent_handleCommand. destruct (Unmarshal_Command _) as [[name [|v args]]|]; [| |done]; cbn [cmd_Command cmd_Args].
    - destruct (eqs name "start"); [done|]. by destruct (eqs name "disconnect").
    - destruct (eqs name "start"); [|by destruct (eqs name "disconnect")].
      destruct (as_object v) as [config|]; [|done]. cbn [fst]. by destruct (agent_start_client config a) as [z ->]. }
  unfold agent_HandleMessage, agent_handleMessage. destruct (_ =? _); [done|]. destruct (_ =? _); [|done]. by destruct (Unmarshal_Command _).
Qed.

(** The command that starts an agent for [fd], as the watchdog writes it. *)
Definition json_of_Handle (h : Handle) : json Z :=
  JObj [("ID", JNum (h_ID h)); ("ActorID", JNum (h_ActorID h)); ("Name", JStr (h_Name h)); ("Node", JNum (h_Node h));
        ("IsLocal", JBool (h_IsLocal h))].
Definition start_config (gate : option Handle) (fd : Z) : json Z :=
  JObj [("client", JNum fd); ("gate", match gate with Some h => json_of_Handle h | None => JNull end); ("watchdog", JStr "self")].

(** A handle that can be written: its numbers are uint32 and its name is UTF-8. *)
Definition handle_ok (h : Handle) : bool :=
  is_text (h_Name h) && forallb (fun z => (0 <=? z) && (z <? 2 ^ 32)) [h_ID h; h_ActorID h; h_Node h].

Definition fd_ok (fd : Z) : Prop := - 2 ^ 53 < fd < 2 ^ 53.

Lemma small_num z : fd_ok z -> small (JNum z) = true.
Proof. unfold fd_ok. intros []. cbn [small]. apply andb_true_intro. by rewrite !Z.ltb_lt. Qed.

Lemma small_u32 z : (0 <=? z) && (z <? 2 ^ 32) = true -> small (JNum z) = true.
Proof. intros [?%Z.leb_le ?%Z.ltb_lt]%andb_prop. apply small_num. unfold fd_ok. lia. Qed.

Lemma start_config_plain gate fd :
  match gate with Some h => handle_ok h = true | None => True end -> fd_ok fd -> plain_value (start_config gate fd) = true.
Proof.
  intros Hg Hfd%small_num. unfold plain_value, start_config. cbn [fits small forallb fst snd].
  change (is_text "client") with true. change (is_text "gate") with true. change (is_text "watchdog") with true. change (is_text "self") with true.
  cbn [small] in Hfd. rewrite Hfd. destruct gate as [h|]; [|done]. unfold handle_ok in Hg. cbn [forallb] in Hg.
  apply andb_prop in Hg as [Hn [H1 [H2 [H3 _]%andb_prop]%andb_prop]%andb_prop]. cbn [json_of_Handle fits small forallb fst snd]. rewrite Hn.
  apply small_u32 in H1, H2, H3. cbn [small] in H1, H2, H3. by rewrite H1 H2 H3.
Qed.

(** The start command gives the agent its client; the gate in it is not read. *)
Lemma agent_starts gate fd msg a :
  match gate with Some h => handle_ok h = true | None => True end -> fd_ok fd ->
  m_Type msg = MessageTypeRequest -> m_Data msg = marshal_Command "start" (Some [start_config gate fd]) ->
  agent_HandleMessage msg a = (mkAgent (ag_gate a) fd (ag_watchdog a), None).
Proof.
  intros Hg Hfd Ht Hd. unfold agent_HandleMessage. rewrite Ht Z.eqb_refl. unfold agent_handleCommand. rewrite Hd Command_roundtrip //.
  { cbn [default from_option id forallb]. by rewrite (start_config_plain gate fd Hg Hfd). }
  cbn [default from_option id map cmd_Command cmd_Args]. change (eqs "start" "start") with true. cbv iota.
  cbn [start_config json_map map as_object fst snd]. unfold agent_start, as_Handle, as_int, config_get. cbn [fold_left fst snd].
  change (eqs "client" "client") with true. change (eqs "gate" "client") with false. change (eqs "watchdog" "client") with false.
  cbv iota. cbn [as_float64]. rewrite (int_of_float64_of_int oob fd Hfd). by destruct a.
Qed.

(** The disconnect command, as text. *)
Lemma agent_disconnects msg a :
  m_Type msg = MessageTypeText -> m_Data msg = marshal_Command "disconnect" None -> agent_HandleMessage msg a = (a, None).
Proof.
  intros Ht Hd. unfold agent_HandleMessage. rewrite Ht. change (MessageTypeText =? MessageTypeRequest) with false. rewrite Z.eqb_refl.
  unfold agent_handleMessage, agent_handleCommand. by rewrite Hd (Command_roundtrip "disconnect" None).
Qed.

(** What a client sends is a text message to its agent: a client that sends a start
    command is taken for the client it names. *)
Theorem client_renames_itself fd msg a :
  fd_ok fd -> m_Type msg = MessageTypeText -> m_Data msg = marshal_Command "start" (Some [JObj [("client", JNum fd)]]) ->
  agent_HandleMessage msg a = (mkAgent (ag_gate a) fd (ag_watchdog a), None).
Proof.
  intros Hfd Ht Hd. unfold agent_HandleMessage. rewrite Ht. change (MessageTypeText =? MessageTypeRequest) with false. rewrite Z.eqb_refl.
  assert (Unmarshal_Command (m_Data msg) = Some (mkCommand "start" [JObj [("client", JNum (float64_of_int fd))]])) as Hu.
  { rewrite Hd Command_roundtrip //. cbn [default from_option id forallb]. unfold plain_value. cbn [fits small forallb fst snd].
    change (is_text "client") with true. apply small_num in Hfd. cbn [small] in Hfd. by rewrite Hfd. }
  unfold agent_handleMessage, agent_handleCommand. rewrite Hu. cbn [cmd_Command cmd_Args as_object]. change (eqs "start" "start") with true.
  cbv iota. unfold agent_start, as_Handle, config_get. cbn [fold_left fst snd]. change (eqs "client" "gate") with false.
  change (eqs "client" "client") with true. change (eqs "client" "watchdog") with false. cbv iota. cbn [as_float64].
  by rewrite (int_of_float64_of_int oob fd Hfd).
Qed.

(** Whatever a client sends that is not JSON is data: it changes nothing. *)
Lemma client_data_kept msg a :
  m_Type msg = MessageTypeText -> Unmarshal_Command (m_Data msg) = None -> agent_HandleMessage msg a = (a, None).
Proof.
  intros Ht Hd. unfold agent_HandleMessage. rewrite Ht. change (MessageTypeText =? MessageTypeRequest) with false. rewrite Z.eqb_refl.
  unfold agent_handleMessage. by rewrite Hd.
Qed.
End agent.
