(* ===== verification/Hosting.v ===== *)
(** Actors whose handler acts on the system it runs in (the services of
    src/examples): [NewActor] and [Send] of src/core/system.go for one actor and one
    message, and the turn of a message loop split around its handler. *)

From S2P Require Import Prelude CoreTypes Handle Actor Router Session Registry LoadBalancer Discovery System.

(** ** One actor and one message

    What [NewActor] and [Send] do when nothing stands in their way. *)
Section one_actor.
Context {H : Type}.
Context (pick : bool).
#[local] Hint Extern 0 (ActorIface _ _) => exact (world pick) : typeclass_instances.

Lemma ar_Register_ok (w : gmap nat (actor H)) ref (ar : advancedRouter nat) :
  ar_inv (w, ar) -> r_actors (ar_router ar) !! act_ID w ref = None ->
  exists ar', ar_Register w (Some ref) ar = (ar', Ok tt) /\
    ar_router ar' = mkRouter (<[act_ID w ref := ref]> (r_actors (ar_router ar))) (r_idCounter (ar_router ar)).
Proof.
  intros Hinv Hn. destruct (register_anonymous w ref ar Hinv Hn) as (ar' & h & Hr & _).
  pose proof (RegisterService_table pick w ref "" ar Hn) as Ht. rewrite Hr in Ht. cbn [fst] in Ht. exists ar'. split; [|done].
  unfold RegisterService in Hr. unfold ar_Register. destruct (Register _ _ _) as [r' [u|e]]; [|done].
  destruct (AllocateHandle _ _ _) as [hm' [h'|e]]; [|done]. by injection Hr as -> _.
Qed.

(** The actor [NewActor] makes: the next id, an empty mailbox, about to be started. *)
Definition fresh_actor (handler : H) (opts : ActorOptions) (clk : clock) (s : system H) : actor H :=
  mkActor (r_idCounter (ar_router (sy_router s)) + 1) (o_Name opts) handler (make_chan (Z.to_nat (o_MailboxSize opts)))
    false 0 ActorStateIdle 0 (clk 0%nat) 0 ∅ ∅ 0 opts.

Lemma sys_NewActor_ok handler opts clk (s : system H) :
  sys_inv pick s -> room s -> sy_ctxDone s = false -> 0 <= o_MailboxSize opts ->
  let ref := fresh (dom (sy_actors s)) in
  let a := fresh_actor handler (apply_defaults opts) clk s in
  exists s', sys_NewActor pick handler opts clk s = Ret (s', Ok ref) /\ sy_actors s' = <[ref := a]> (sy_actors s) /\
    (forall id, GetActor id s' = if decide (id = a_id a) then Some ref else GetActor id s) /\
    sy_starting s' = sy_starting s ++ [ref] /\ sy_ctxDone s' = false /\ sys_inv pick s' /\ grown s s'.
Proof.
  intros Hinv Hroom Hctx Hsz%apply_defaults_size ref a.
  destruct (make_actor_spec pick handler (apply_defaults opts) clk s Hinv (proj1 Hroom) Hsz) as (a' & Hm & Hnew & Haid & Har & Hid & Hfree).
  assert (a' = a) as ->. { unfold NewActor in Hnew. destruct (_ <? 0); [done|]. by injection Hnew as <-. }
  fold ref in Hm, Har, Hid. destruct (ar_Register_ok _ ref _ Har) as (ar2 & Hreg & Hrt); [by rewrite Hid|].
  assert (sys_NewActor pick handler opts clk s = Ret (with_goroutine ref (with_table ar2 (<[ref := a]> (sy_actors s)) s), Ok ref)) as E.
  { unfold sys_NewActor. rewrite Hctx Hm. cbn [mbind go_bind]. by rewrite Hreg. }
  eexists. split; [exact E|]. destruct (sys_NewActor_inv pick _ _ _ _ _ _ Hinv Hroom E) as [Hinv' Hg].
  split_and!; try done. intros id. unfold GetActor, Lookup. cbn [sy_router with_goroutine with_table]. rewrite Hrt Hid. cbn [r_actors].
  destruct (decide (id = a_id a)) as [->|Hne]; [by rewrite Haid lookup_insert_eq|]. rewrite lookup_insert_ne; [congruence|done].
Qed.

Lemma sys_Send_queued from id ty data now (s : system H) ref a :
  GetActor id s = Some ref -> sy_actors s !! ref = Some a -> Send_check a = None -> a_ctxDone a = false ->
  ch_closed (a_mailbox a) = false -> (length (ch_buf (a_mailbox a)) < ch_cap (a_mailbox a))%nat ->
  let mb := mkChan (ch_buf (a_mailbox a) ++ [Some (mkMessage 0 ty from id 0 data now)]) (ch_cap (a_mailbox a)) false in
  sys_Send pick from id ty data now s = Ret (with_table (sy_router s) (<[ref := with_mailbox mb a]> (sy_actors s)) s, Ok tt).
Proof.
  intros Hg Ha Hchk Hctx Hcl Hroom mb. unfold sys_Send, Route. cbn [m_Target]. unfold GetActor, Lookup in Hg. rewrite Hg.
  cbn [act_Send world actor_world]. rewrite Ha. unfold actor_Send. rewrite Hchk.
  unfold Send_select. rewrite Hctx Hcl bool_decide_true //. cbn [orb andb negb]. rewrite orb_true_r.
  rewrite (try_send_open _ _ Hcl) decide_True //.
Qed.

(** A send changes at most the mailbox of its target. *)
Lemma sys_Send_frame from id ty data now (s s' : system H) r :
  sys_Send pick from id ty data now s = Ret (s', r) ->
  exists w, s' = with_table (sy_router s) w s /\
    forall ref, match sy_actors s !! ref, w !! ref with
      | Some a, Some a' => exists mb, a' = with_mailbox mb a
      | None, None => True
      | _, _ => False end.
Proof.
  assert (forall (a : actor H), with_mailbox (a_mailbox a) a = a) as Hsame by by intros [].
  unfold sys_Send, Route. cbn [m_Target]. destruct (r_actors _ !! id) as [ref|] eqn:Hr.
  2:{ cbn [mbind go_bind]. intros [= <- <-]. eexists. split; [done|]. intros ref. destruct (sy_actors s !! ref) as [a|]; [|done]. by exists (a_mailbox a). }
  cbn [act_Send world actor_world]. destruct (sy_actors s !! ref) as [a|] eqn:Ha; [|done].
  destruct (actor_Send pick _ a) as [[a' e]| |] eqn:Es; [|done..]. cbn [mbind go_bind]. intros [= <- <-]. eexists. split; [done|].
  assert (exists mb, a' = with_mailbox mb a) as [mb ->].
  { unfold actor_Send, Send_select in Es. destruct (Send_check a); [injection Es as <- _; by exists (a_mailbox a)|].
    destruct (_ && _); [|destruct (a_ctxDone a); injection Es as <- _; by exists (a_mailbox a)].
    destruct (try_send _ _) as [[b mb]| |]; [|done..]. injection Es as <- _. by exists mb. }
  intros ref'. destruct (decide (ref' = ref)) as [->|Hne]; [rewrite Ha lookup_insert_eq; by exists mb|].
  rewrite lookup_insert_ne; [congruence|]. destruct (sy_actors s !! ref') as [b|]; [|done]. by exists (a_mailbox b).
Qed.
End one_actor.

(** ** A turn of the message loop

    The loop of the actor at [ref] takes a message and calls the handler; when the
    handler has returned, having done what it does to the system, the turn is
    counted and answered. *)
Section turn.
Context {H : Type}.

Definition put_actor (ref : nat) (a : actor H) (s : system H) : system H :=
  with_table (sy_router s) (<[ref := a]> (sy_actors s)) s.

Definition turn_takes (ref : nat) (s : system H) : option (Message * system H) :=
  a ← sy_actors s !! ref;
  match try_recv (a_mailbox a) with
  | Got (Some m) mb => Some (m, put_actor ref (process_enter (with_mailbox mb a)) s)
  | _ => None
  end.

Definition turn_ends (clk : clock) (ref : nat) (msg : Message) (err : option error) (s : system H) : go (system H) :=
  match sy_actors s !! ref with
  | None => nil_deref
  | Some a =>
      a' ← process_respond (clk 1%nat) msg err
             (with_handler (a_handler a) (u64 (a_messagesProcessed a + 1)) (Unix (clk 0%nat)) a);
      Ret (put_actor ref (process_exit a') s)
  end.

(** For a handler that only changes its own state the two halves make the turn of
    the actor's own loop. *)
Lemma turn_halves HandleMessage clk ref (s : system H) a m mb :
  sy_actors s !! ref = Some a -> try_recv (a_mailbox a) = Got (Some m) mb ->
  (a' ← loop_takes HandleMessage 1 clk a; Ret (put_actor ref a' s)) =
  (let '(h, m', err) := HandleMessage (a_handler a) m in
   match turn_takes ref s with
   | Some (_, s1) =>
       match sy_actors s1 !! ref with
       | Some a1 => turn_ends clk ref m' err (put_actor ref (with_handler h (a_messagesProcessed a1) (a_lastMessageAt a1) a1) s1)
       | None => nil_deref
       end
   | None => nil_deref
   end).
Proof.
  intros Ha Hr. cbn [loop_takes]. unfold turn_takes. rewrite Ha. cbn [mbind option_bind]. rewrite Hr.
  unfold processMessage, process_handle. cbn [a_handler process_enter with_state with_mailbox].
  destruct (HandleMessage (a_handler a) m) as [[h m'] err]. unfold put_actor, turn_ends.
  cbn [sy_actors with_table]. rewrite lookup_insert_eq. cbn [sy_actors with_table]. rewrite lookup_insert_eq.
  set (a2 := with_handler h _ _ _). match goal with |- _ = mbind _ (process_respond _ _ _ ?a3) => change a3 with a2 end.
  destruct (process_respond (clk 1%nat) m' err a2) as [a4| |]; [|done..]. cbn [mbind go_bind]. f_equal. unfold put_actor, with_table.
  cbn [sy_router sy_sessionManager sy_serviceDiscovery sy_nodeID sy_ctxDone sy_wg sy_starting sy_actors]. f_equal. by rewrite !insert_insert_eq.
Qed.
End turn.
