(* ===== verification/Watchdog.v ===== *)
(** src/examples/watchdog/watchdog.go: the actor that makes an agent for every client
    of the gate, and its bootstrap service.

    The watchdog and its agents are actors of one system, the service's own. A stored
    agent is only asked for its id, which never changes: [wd_agents] holds the ids. *)

From S2P Require Import Prelude CoreTypes Handle Actor Router Session Registry LoadBalancer Discovery System.
From S2P Require Import NetMessage GoText GoJson Lifecycle Hosting Agent.

Record Watchdog := mkWatchdog { wd_gate : option Handle; wd_agents : gmap Z ActorID }.
Definition NewWatchdog : Watchdog := mkWatchdog None ∅.

(** The handlers in the system: the watchdog, whose state is beside the system, and
    agents. *)
Inductive party := PWatchdog | PAgent (a : Agent).

Record SocketEvent := mkSocketEvent {
  se_Type : string; se_FD : Z; se_Address : string; se_Message : string; se_Size : Z
}.
Definition assign_SocketEvent (k : string) (v : json literal) (e : SocketEvent) : option SocketEvent :=
  let '(mkSocketEvent t fd addr m size) := e in
  if same_field k "type" then (fun x => mkSocketEvent x fd addr m size) <$> field_string v t
  else if same_field k "fd" then (fun x => mkSocketEvent t x addr m size) <$> field_int v fd
  else if same_field k "address" then (fun x => mkSocketEvent t fd x m size) <$> field_string v addr
  else if same_field k "message" then (fun x => mkSocketEvent t fd addr x size) <$> field_string v m
  else if same_field k "size" then (fun x => mkSocketEvent t fd addr m x) <$> field_int v size
  else Some e.
Definition Unmarshal_SocketEvent : bytes -> option SocketEvent :=
  Unmarshal_struct assign_SocketEvent (mkSocketEvent "" 0 "" "" 0).

Section watchdog.
Context (oob : float64 -> Z) (json_error : bytes -> error) (pick : bool).

Notation world := (Watchdog * system party)%type.

(** The command is read by the gate as one with no arguments (Gate.v). *)
Definition kick_command (fd : Z) : bytes := Marshal (JObj [("command", JStr "kick"); ("fd", JNum fd)]).

(** The results of the two sends are dropped. *)
Definition closeAgent (clk : clock) (fd : Z) (ws : world) : go world :=
  let '(w, s) := ws in
  match wd_agents w !! fd with
  | None => Ret (w, s)
  | Some id =>
      s1 ← match wd_gate w with
           | None => Ret s
           | Some h =>
               '(s1, _) ← sys_Send pick (h_ActorID h) (h_ActorID h) MessageTypeRequest (kick_command fd) (clk 0%nat) s;
               Ret s1
           end;
      '(s2, _) ← sys_Send pick id id MessageTypeText (marshal_Command "disconnect" None) (clk 1%nat) s1;
      Ret (mkWatchdog (wd_gate w) (delete fd (wd_agents w)), s2)
  end.

(** It only writes to the log. *)
Definition startGate (config : list (string * json float64)) (ws : world) : world * option error := (ws, None).

Definition handleSocketOpen (clk : clock) (fd : Z) (addr : string) (ws : world) : go (world * option error) :=
  let '(w, s) := ws in
  '(s1, r) ← sys_NewActor pick (PAgent NewAgent) DefaultActorOptions clk s;
  match r with
  | Err e => Ret ((w, s1), Some ("failed to create agent: " +:+ e))
  | Ok ref =>
      match sy_actors s1 !! ref with
      | None => nil_deref
      | Some a =>
          let w' := mkWatchdog (wd_gate w) (<[fd := a_id a]> (wd_agents w)) in
          let startData := marshal_Command "start" (Some [start_config (wd_gate w) fd]) in
          '(s2, e) ← sys_Send pick (a_id a) (a_id a) MessageTypeRequest startData (clk 1%nat) s1;
          Ret ((w', s2), match e with Ok _ => None | Err e => Some e end)
      end
  end.

Definition close_quietly (clk : clock) (fd : Z) (ws : world) : go (world * option error) :=
  ws' ← closeAgent clk fd ws; Ret (ws', None).
Definition handleSocketClose := close_quietly.
Definition handleSocketError (clk : clock) (fd : Z) (errorMsg : string) := close_quietly clk fd.
Definition handleSocketWarning (fd size : Z) (ws : world) : go (world * option error) := Ret (ws, None).
Definition handleSocketData (fd : Z) (data : string) (ws : world) : go (world * option error) := Ret (ws, None).

Definition handleSocketEvent (clk : clock) (msg : Message) (ws : world) : go (world * option error) :=
  match Unmarshal_SocketEvent (m_Data msg) with
  | None => Ret (ws, Some ("failed to parse socket event: " +:+ json_error (m_Data msg)))
  | Some event =>
      if eqs (se_Type event) "open" then handleSocketOpen clk (se_FD event) (se_Address event) ws
      else if eqs (se_Type event) "close" then handleSocketClose clk (se_FD event) ws
      else if eqs (se_Type event) "error" then handleSocketError clk (se_FD event) (se_Message event) ws
      else if eqs (se_Type event) "warning" then handleSocketWarning (se_FD event) (se_Size event) ws
      else if eqs (se_Type event) "data" then handleSocketData (se_FD event) (se_Message event) ws
      else Ret (ws, Some ("unknown socket event type: " +:+ se_Type event))
  end.

Definition wd_handleCommand (clk : clock) (msg : Message) (ws : world) : go (world * option error) :=
  match Unmarshal_Command (m_Data msg) with
  | None => Ret (ws, Some ("failed to parse command: " +:+ json_error (m_Data msg)))
  | Some cmd =>
      if eqs (cmd_Command cmd) "start" then
        match cmd_Args cmd with
        | arg :: _ => match as_object arg with
            | Some config => Ret (startGate config ws)
            | None => Ret (ws, Some "start command requires configuration")
            end
        | [] => Ret (ws, Some "start command requires configuration")
        end
      else if eqs (cmd_Command cmd) "close" then
        match cmd_Args cmd with
        | arg :: _ => match as_float64 arg with
            | Some fd => close_quietly clk (int_of_float64 oob fd) ws
            | None => Ret (ws, Some "close command requires fd")
            end
        | [] => Ret (ws, Some "close command requires fd")
        end
      else Ret (ws, Some ("unknown command: " +:+ cmd_Command cmd))
  end.

Definition wd_HandleMessage (clk : clock) (msg : Message) (ws : world) : go (world * option error) :=
  if m_Type msg =? MessageTypeRequest then wd_handleCommand clk msg ws
  else if m_Type msg =? MessageTypeText then handleSocketEvent clk msg ws
  else Ret (ws, Some ("unsupported message type: " +:+ pretty (m_Type msg))).

(** ** The service *)

Record WatchdogService := mkWatchdogService {
  wds_watchdog : Watchdog;
  wds_handle : option Handle;
  wds_system : option (system party);
}.
Definition NewWatchdogService : WatchdogService := mkWatchdogService NewWatchdog None None.

Definition wds_Start (clk : clock) (sv : WatchdogService) : go (WatchdogService * option error) :=
  '(sys, r) ← NewService pick "WATCHDOG" PWatchdog DefaultActorOptions clk [] NewActorSystem;
  Ret (match r with
       | Err e => (mkWatchdogService (wds_watchdog sv) (wds_handle sv) (Some sys), Some ("failed to create Watchdog service: " +:+ e))
       | Ok h => (mkWatchdogService (wds_watchdog sv) h (Some sys), None)
       end).

(** [order]: the order in which the agents are visited. *)
Fixpoint close_all (clk : clock) (order : list Z) (ws : world) : go world :=
  match order with
  | [] => Ret ws
  | fd :: order' => ws' ← closeAgent clk fd ws; close_all (fun n => clk (n + 2)%nat) order' ws'
  end.
Definition wds_Stop (clk : clock) (order : list Z) (sv : WatchdogService) : go (WatchdogService * option error) :=
  match wds_handle sv, wds_system sv with
  | Some _, Some s =>
      '(w, s') ← close_all clk order (wds_watchdog sv, s); Ret (mkWatchdogService w (wds_handle sv) (Some s'), None)
  | _, _ => Ret (sv, None)
  end.
Definition wds_Health (sv : WatchdogService) : HealthStatus :=
  match wds_handle sv with
  | None => mkHealthStatus "stopped" "Watchdog not running" zero_time
  | Some _ => mkHealthStatus "healthy" "Watchdog operational" zero_time
  end.
Definition wds_GetHandle (sv : WatchdogService) : option Handle := wds_handle sv.

(** The watchdog's message loop takes a message. *)
Definition watchdog_turn (clk : clock) (ref : nat) (ws : world) : go world :=
  match turn_takes ref ws.2 with
  | None => Ret ws
  | Some (msg, s1) =>
      '((w, s2), e) ← wd_HandleMessage clk msg (ws.1, s1);
      s3 ← turn_ends (fun n => clk (n + 2)%nat) ref msg e s2; Ret (w, s3)
  end.

(** An agent's loop takes a message. *)
Definition party_handler (p : party) (msg : Message) : party * Message * option error :=
  match p with
  | PWatchdog => (p, msg, None)
  | PAgent a => let '(a', msg', e) := agent_handler oob json_error a msg in (PAgent a', msg', e)
  end.
Definition agent_turn (clk : clock) (ref : nat) (s : system party) : go (system party) :=
  match sy_actors s !! ref with
  | None => Ret s
  | Some a => a' ← loop_takes party_handler 1 clk a; Ret (put_actor ref a' s)
  end.
End watchdog.

(** ** Sockets as a set

    What the gate reports of its sockets, in the texts it writes (Gate.v), and which
    sockets are open after it. *)
Inductive sock :=
| SkOpen (fd : Z) (addr : string)
| SkClose (fd : Z)
| SkError (fd : Z) (text : string)
| SkWarning (fd size : Z)
| SkData (fd : Z) (text : string).

Definition sock_fd (k : sock) : Z :=
  match k with SkOpen fd _ | SkClose fd | SkError fd _ | SkWarning fd _ | SkData fd _ => fd end.
Definition sock_text (k : sock) : string :=
  match k with SkOpen _ t | SkError _ t | SkData _ t => t | _ => "" end.
Definition sock_json (k : sock) : json Z :=
  match k with
  | SkOpen fd addr => JObj [("address", JStr addr); ("fd", JNum fd); ("type", JStr "open")]
  | SkClose fd => JObj [("fd", JNum fd); ("type", JStr "close")]
  | SkError fd t => JObj [("fd", JNum fd); ("message", JStr t); ("type", JStr "error")]
  | SkWarning fd size => JObj [("fd", JNum fd); ("size", JNum size); ("type", JStr "warning")]
  | SkData fd t => JObj [("fd", JNum fd); ("message", JStr t); ("type", JStr "data")]
  end.
Definition sock_event (k : sock) : SocketEvent :=
  match k with
  | SkOpen fd addr => mkSocketEvent "open" fd addr "" 0
  | SkClose fd => mkSocketEvent "close" fd "" "" 0
  | SkError fd t => mkSocketEvent "error" fd "" t 0
  | SkWarning fd size => mkSocketEvent "warning" fd "" "" size
  | SkData fd t => mkSocketEvent "data" fd "" t 0
  end.
Definition sock_ok (k : sock) : Prop :=
  fd_ok (sock_fd k) /\ is_text (sock_text k) = true /\ match k with SkWarning _ size => is_i64 size | _ => True end.

Definition open_fds1 (fds : gset Z) (k : sock) : gset Z :=
  match k with
  | SkOpen fd _ => {[fd]} ∪ fds
  | SkClose fd | SkError fd _ => fds ∖ {[fd]}
  | SkWarning _ _ | SkData _ _ => fds
  end.

(** The struct reads what was written. *)
Lemma SocketEvent_roundtrip k : sock_ok k -> Unmarshal_SocketEvent (Marshal (sock_json k)) = Some (sock_event k).
Proof.
  intros (Hfd & Ht & Hsz). assert (is_i64 (sock_fd k)) as Hi by (unfold fd_ok in Hfd; unfold is_i64, min_int64, max_int64; lia).
  unfold Unmarshal_SocketEvent, Unmarshal_struct. rewrite parse_Marshal.
  - apply (fits_mono _ 1); [unfold maxNestingDepth; lia|]. destruct k; cbn [sock_json fits forallb fst snd sock_text] in *; rewrite ?Ht; done.
  - destruct k; cbn [sock_json json_map map fst snd fold_left mbind option_bind sock_fd sock_event] in *; unfold assign_SocketEvent;
      match_fields; cbn [field_string fmap option_fmap option_map mbind option_bind field_int]; rewrite ?lit_int_int //.
Qed.

Section runs.
Context (oob : float64 -> Z) (json_error : bytes -> error) (pick : bool).

(** The messages an agent is sent. *)
Definition is_start (fd : Z) (m : option Message) : Prop :=
  exists x, m = Some x /\ m_Type x = MessageTypeRequest /\ m_Session x = 0 /\
    m_Data x = marshal_Command "start" (Some [start_config None fd]).
Definition is_disconnect (m : option Message) : Prop :=
  exists x, m = Some x /\ m_Type x = MessageTypeText /\ m_Session x = 0 /\ m_Data x = marshal_Command "disconnect" None.

(** The agent of socket [fd]: it knows its client once it has taken its first message. *)
Definition serves (fd : Z) (ag : Agent) (queue : list (option Message)) : Prop :=
  exists rest, Forall is_disconnect rest /\
    ((exists m, ag = NewAgent /\ is_start fd m /\ queue = m :: rest) \/ (ag = mkAgent None fd None /\ queue = rest)).

Record agent_actor (fd : Z) (a : actor party) : Prop := {
  aa_state : a_state a = ActorStateIdle;
  aa_ctx : a_ctxDone a = false;
  aa_open : ch_closed (a_mailbox a) = false;
  aa_fd : fd_ok fd;
  aa_serves : exists ag, a_handler a = PAgent ag /\ serves fd ag (ch_buf (a_mailbox a));
}.

(** [n] actors and handles were made. *)
Record wd_inv (n : nat) (ws : Watchdog * system party) : Prop := {
  wv_sys : sys_inv pick ws.2;
  wv_ctx : sy_ctxDone ws.2 = false;
  wv_used : (used ws.2).1 <= Z.of_nat n /\ (used ws.2).2 <= hm_handleCounter (NewHandleManager 1) + Z.of_nat n;
  wv_gate : wd_gate ws.1 = None;
  wv_actors ref a : sy_actors ws.2 !! ref = Some a -> a_handler a = PWatchdog \/ exists fd, agent_actor fd a;
  wv_table fd id : wd_agents ws.1 !! fd = Some id ->
    exists ref a, GetActor id ws.2 = Some ref /\ sy_actors ws.2 !! ref = Some a /\ a_id a = id /\ agent_actor fd a;
  wv_inj fd fd' id : wd_agents ws.1 !! fd = Some id -> wd_agents ws.1 !! fd' = Some id -> fd = fd';
  wv_count : size (sy_actors ws.2) = n;
}.

Lemma serves_more fd ag queue m : serves fd ag queue -> is_disconnect m -> serves fd ag (queue ++ [m]).
Proof.
  intros (rest & Hr & Hq) Hm. exists (rest ++ [m]). split; [apply Forall_app; split; [done|by constructor]|].
  destruct Hq as [(x & Hag & Hx & ->)|[Hag ->]]; [left; by exists x|by right].
Qed.

(** An actor changed by its goroutines. *)
Lemma wd_inv_put n w s ref a a' :
  wd_inv n (w, s) -> sy_actors s !! ref = Some a -> a_id a' = a_id a ->
  (a_handler a = PWatchdog -> a_handler a' = PWatchdog) -> (forall fd, agent_actor fd a -> agent_actor fd a') ->
  wd_inv n (w, put_actor ref a' s).
Proof.
  intros [Hs Hc Hu Hg Ha Ht Hi Hn] Hr Hid Hw Hf. cbn [fst snd] in *. constructor; cbn [fst snd]; try done.
  - by apply (sys_inv_upd pick s _ ref a a').
  - intros ref' b. cbn [put_actor sy_actors with_table]. intros [[<- <-]|[_ Hb]]%lookup_insert_Some; [|by apply (Ha ref')].
    destruct (Ha ref a Hr) as [H|[fd H]]; [left; by apply Hw|right; exists fd; by apply Hf].
  - intros fd id Hfd. destruct (Ht fd id Hfd) as (ref' & b & Hget & Hb & Hbid & Hag). exists ref'.
    cbn [put_actor sy_actors with_table]. destruct (decide (ref = ref')) as [<-|Hne].
    + rewrite lookup_insert_eq. exists a'. assert (b = a) as -> by congruence. split_and!; [done|done|congruence|by apply Hf].
    + rewrite lookup_insert_ne //. by exists b.
  - cbn [put_actor sy_actors with_table]. by rewrite (map_size_insert_Some ref a' _ (mk_is_Some _ _ Hr)).
Qed.

(** A disconnect message to an agent: queued, or dropped by a full mailbox. *)
Lemma disconnect_sent n w s fd id now :
  wd_inv n (w, s) -> wd_agents w !! fd = Some id ->
  exists s' r, sys_Send pick id id MessageTypeText (marshal_Command "disconnect" None) now s = Ret (s', r) /\ wd_inv n (w, s').
Proof.
  intros Hinv Hfd. destruct (wv_table _ _ Hinv fd id Hfd) as (ref & a & Hget & Ha & Hid & [Hst Hctx Hop Hok (ag & Hag & Hsv)]). cbn [fst snd] in *.
  assert (Send_check a = None) as Hchk by (unfold Send_check; by rewrite Hst).
  destruct (decide (length (ch_buf (a_mailbox a)) < ch_cap (a_mailbox a))%nat) as [Hroom|Hfull].
  - eexists _, _. split; [by apply (sys_Send_queued pick id id _ _ now s ref a)|]. apply (wd_inv_put n w s ref a); try done.
    intros fd' [? ? ? ? (ag' & Hag' & Hsv')]. constructor; try done. exists ag'. split; [done|]. cbn [a_mailbox with_mailbox ch_buf].
    apply serves_more; [done|]. by eexists.
  - exists (put_actor ref a s), (Err ("actor " +:+ pretty (a_id a) +:+ " mailbox is full")). split.
    + unfold sys_Send, Route. cbn [m_Target]. unfold GetActor, Lookup in Hget. rewrite Hget. cbn [act_Send System.world actor_world]. rewrite Ha.
      unfold actor_Send. rewrite Hchk. unfold Send_select. by rewrite Hop Hctx bool_decide_false.
    + by apply (wd_inv_put n w s ref a).
Qed.

Lemma closed n clk w s fd :
  wd_inv n (w, s) ->
  exists s', closeAgent pick clk fd (w, s) = Ret (mkWatchdog None (delete fd (wd_agents w)), s') /\
    wd_inv n (mkWatchdog None (delete fd (wd_agents w)), s').
Proof.
  intros Hinv. pose proof (wv_gate _ _ Hinv) as Hg. cbn [fst] in Hg.
  assert (forall s', wd_inv n (w, s') -> wd_inv n (mkWatchdog None (delete fd (wd_agents w)), s')) as Hdel.
  { intros s' [? ? ? ? ? Ht Hi ?]. cbn [fst snd] in *. constructor; cbn [fst snd wd_gate wd_agents]; try done.
    - intros fd' id [_ H]%lookup_delete_Some. by apply Ht.
    - intros fd1 fd2 id [_ H1]%lookup_delete_Some [_ H2]%lookup_delete_Some. by apply (Hi fd1 fd2 id). }
  unfold closeAgent. destruct (wd_agents w !! fd) as [id|] eqn:E.
  - rewrite Hg. cbn [mbind go_bind]. destruct (disconnect_sent n w s fd id (clk 1%nat) Hinv E) as (s' & r & -> & Hinv').
    cbn [mbind go_bind]. exists s'. split; [done|by apply Hdel].
  - exists s. specialize (Hdel s Hinv). rewrite (delete_id _ _ E) in Hdel |- *. split; [|done]. destruct w as [g ags]. cbn in *. by subst g.
Qed.
End runs.

Section tracking.
Context (oob : float64 -> Z) (json_error : bytes -> error) (pick : bool).

Definition wd_room (n : nat) : Prop := hm_handleCounter (NewHandleManager 1) + Z.of_nat n + 1 < 2 ^ 32.

Lemma wd_inv_room n ws : wd_inv pick n ws -> wd_room n -> room ws.2.
Proof.
  intros Hinv Hn. destruct (wv_used pick n ws Hinv) as [H1 H2]. unfold wd_room in Hn. pose proof (first_id 1). pose proof (Z.mod_pos_bound 1 256).
  unfold room. lia.
Qed.

(** A new agent: the table has it, and its start command waits for it. *)
Lemma opened n clk w s fd addr :
  wd_inv pick n (w, s) -> wd_room n -> fd_ok fd ->
  exists id s', handleSocketOpen pick clk fd addr (w, s) = Ret ((mkWatchdog None (<[fd := id]> (wd_agents w)), s'), None) /\
    wd_inv pick (S n) (mkWatchdog None (<[fd := id]> (wd_agents w)), s').
Proof.
  intros Hinv Hn Hfd. pose proof (wd_inv_room n _ Hinv Hn) as Hroom. destruct Hinv as [Hs Hc [Hu1 Hu2] Hg Ha Ht Hi Hsz]. cbn [fst snd] in *.
  destruct (sys_NewActor_ok pick (PAgent NewAgent) DefaultActorOptions clk s Hs Hroom Hc) as (s1 & Hnew & Hheap & Hget & _ & Hc1 & Hs1 & [Hg1 Hg2]); [done|].
  set (ref := fresh (dom (sy_actors s))) in *. set (a := fresh_actor _ _ _ _) in *.
  assert (sy_actors s !! ref = None) as Hnone by apply not_elem_of_dom, is_fresh.
  assert (sy_actors s1 !! ref = Some a) as Ha1 by (rewrite Hheap; apply lookup_insert_eq).
  assert (GetActor (a_id a) s1 = Some ref) as Hga by (rewrite Hget; by rewrite decide_True).
  assert (forall fd' id, wd_agents w !! fd' = Some id -> id <> a_id a) as Hold.
  { intros fd' id H. destruct (Ht fd' id H) as (ref' & b & Hb & _). unfold GetActor, Lookup in Hb. apply (y_ids _ s Hs) in Hb as [Hb _].
    subst a. cbn [fresh_actor a_id]. lia. }
  unfold handleSocketOpen. rewrite Hnew. cbn [mbind go_bind]. rewrite Ha1 Hg.
  rewrite (sys_Send_queued pick (a_id a) (a_id a) _ _ _ s1 ref a Hga Ha1); [done..|cbn; lia|]. cbn [mbind go_bind].
  eexists (a_id a), _. split; [reflexivity|]. set (a' := with_mailbox _ a).
  assert (agent_actor fd a') as Haa.
  { constructor; try done. exists NewAgent. split; [done|]. exists []. split; [done|]. left. eexists. split_and!; [done| |reflexivity]. by eexists. }
  constructor; cbn [fst snd wd_gate wd_agents]; try done.
  - by apply (sys_inv_upd pick s1 _ ref a a').
  - unfold used in *. cbn [sy_router with_table]. lia.
  - intros ref' b. cbn [sy_actors with_table]. rewrite Hheap insert_insert_eq. intros [[<- <-]|[_ Hb]]%lookup_insert_Some; [right; by exists fd|by apply (Ha ref')].
  - intros fd' id Hf. cbn [sy_actors with_table]. destruct (decide (fd' = fd)) as [->|Hne].
    + rewrite lookup_insert_eq in Hf. injection Hf as <-. exists ref, a'. split_and!; [exact Hga|apply lookup_insert_eq|done|done].
    + rewrite lookup_insert_ne in Hf; [congruence|]. destruct (Ht fd' id Hf) as (ref' & b & Hb & Hb' & Hbid & Hag). exists ref', b. split_and!; [| |done|done].
      * change (GetActor id s1 = Some ref'). rewrite Hget decide_False //. by apply (Hold fd').
      * rewrite Hheap insert_insert_eq lookup_insert_ne //. congruence.
  - intros f1 f2 id [[<- <-]|[Hn1 H1]]%lookup_insert_Some [[<- H2]|[Hn2 H2]]%lookup_insert_Some; try done.
    + by apply Hold in H2.
    + subst id. by apply Hold in H1.
    + by apply (Hi f1 f2 id).
  - cbn [sy_actors with_table]. rewrite Hheap insert_insert_eq map_size_insert_None //. by rewrite Hsz.
Qed.

(** An agent takes a message. *)
Lemma agent_takes clk a :
  (exists fd, agent_actor fd a) ->
  exists a', loop_takes (party_handler oob json_error) 1 clk a = Ret a' /\ a_id a' = a_id a /\ a_handler a' <> PWatchdog /\
    forall fd, agent_actor fd a -> agent_actor fd a'.
Proof.
  intros [fd0 Haa]. pose proof Haa as [Hst Hctx Hop Hfd (ag & Hag & rest & Hrest & Hq)].
  destruct (ch_buf (a_mailbox a)) as [|m buf] eqn:Hb.
  { exists a. assert (loop_takes (party_handler oob json_error) 1 clk a = Ret a) as ->; [|split_and!; congruence || done].
    cbn [loop_takes]. unfold try_recv. by rewrite Hb Hop. }
  assert (exists x, m = Some x /\ m_Session x = 0) as (x & -> & Hx).
  { destruct Hq as [(y & _ & (z & -> & _ & Hz & _) & [= -> _])|[_ <-]]; [by exists z|]. apply Forall_inv in Hrest as (z & -> & _ & Hz & _). by exists z. }
  cbn [loop_takes]. unfold try_recv. rewrite Hb. unfold processMessage, process_handle, party_handler. cbn [a_handler with_mailbox process_enter with_state].
  rewrite Hag. unfold agent_handler. destruct (agent_HandleMessage oob json_error x ag) as [ag' e] eqn:Eh.
  unfold process_respond. rewrite Hx. cbn [Z.eqb mbind go_bind]. eexists. split; [reflexivity|]. split_and!; [done|done|].
  intros fd [_ _ _ Hfd' (ag2 & Hag2 & rest2 & Hrest2 & Hq2)]. assert (ag2 = ag) as -> by congruence.
  constructor; try done. exists ag'. split; [done|]. cbn. rewrite Hb in Hq2.
  destruct Hq2 as [(y & -> & (z & Hy & Hz1 & _ & Hz3) & [= <- ->])|[-> Heq]].
  - injection Hy as <-. rewrite (agent_starts oob json_error None fd x NewAgent I Hfd' Hz1 Hz3) in Eh. injection Eh as <- _.
    exists rest2. split; [done|]. by right.
  - rewrite -Heq in Hrest2. apply Forall_cons in Hrest2 as [(z & [= <-] & Hz1 & _ & Hz3) Hr].
    rewrite (agent_disconnects oob json_error x _ Hz1 Hz3) in Eh. injection Eh as <- _. exists buf. split; [done|]. by right.
Qed.
End tracking.

Section watching.
Context (oob : float64 -> Z) (json_error : bytes -> error) (pick : bool).

(** What happens in the service's system: the gate reports a socket, someone asks to
    close one, a goroutine starts its actor, an agent takes a message. *)
Inductive wd_input :=
| ISock (k : sock)
| IClose (fd : Z)
| IGoroutine (ref : nat)
| ITurn (ref : nat).

Definition input_ok (i : wd_input) : Prop :=
  match i with ISock k => sock_ok k | IClose fd => fd_ok fd | _ => True end.

Definition wd_exec1 (clk : clock) (i : wd_input) (ws : Watchdog * system party) : go ((Watchdog * system party) * option error) :=
  match i with
  | ISock k => wd_HandleMessage oob json_error pick clk (mkMessage 0 MessageTypeText 0 1 0 (Marshal (sock_json k)) (clk 0%nat)) ws
  | IClose fd =>
      wd_HandleMessage oob json_error pick clk
        (mkMessage 0 MessageTypeRequest 0 1 0 (marshal_Command "close" (Some [JNum fd])) (clk 0%nat)) ws
  | IGoroutine ref => Ret (if bool_decide (ref ∈ sy_starting ws.2) then (ws.1, start_goroutine ref ws.2) else ws, None)
  | ITurn ref =>
      match sy_actors ws.2 !! ref with
      | Some a => match a_handler a with
          | PAgent _ => s ← agent_turn oob json_error clk ref ws.2; Ret ((ws.1, s), None)
          | PWatchdog => Ret (ws, None)
          end
      | None => Ret (ws, None)
      end
  end.
Fixpoint wd_exec (clk : nat -> clock) (l : list wd_input) (ws : Watchdog * system party)
    : go ((Watchdog * system party) * list (option error)) :=
  match l with
  | [] => Ret (ws, [])
  | i :: l' =>
      '(ws1, e) ← wd_exec1 (clk (length l)) i ws;
      '(ws2, es) ← wd_exec clk l' ws1; Ret (ws2, e :: es)
  end.

(** The set of open sockets and how many were ever opened. *)
Definition open_after (fds : gset Z) (i : wd_input) : gset Z :=
  match i with ISock k => open_fds1 fds k | IClose fd => fds ∖ {[fd]} | _ => fds end.
Definition opens (i : wd_input) : nat := match i with ISock (SkOpen _ _) => 1 | _ => 0 end.

Lemma socket_handled clk k w s :
  sock_ok k ->
  wd_exec1 clk (ISock k) (w, s) =
    match k with
    | SkOpen fd addr => handleSocketOpen pick clk fd addr (w, s)
    | SkClose fd | SkError fd _ => close_quietly pick clk fd (w, s)
    | SkWarning _ _ | SkData _ _ => Ret ((w, s), None)
    end.
Proof.
  intros Hk. cbn [wd_exec1]. unfold wd_HandleMessage. cbn [m_Type]. change (MessageTypeText =? MessageTypeRequest) with false.
  rewrite Z.eqb_refl. unfold handleSocketEvent. cbn [m_Data]. rewrite (SocketEvent_roundtrip k Hk). by destruct k.
Qed.

Lemma close_handled clk fd w s : fd_ok fd -> wd_exec1 clk (IClose fd) (w, s) = close_quietly pick clk fd (w, s).
Proof.
  intros Hfd. cbn [wd_exec1]. unfold wd_HandleMessage. cbn [m_Type]. rewrite Z.eqb_refl. unfold wd_handleCommand. cbn [m_Data].
  rewrite Command_roundtrip //.
  { cbn [default from_option id forallb]. unfold plain_value. rewrite (small_num fd Hfd). done. }
  cbn [default from_option id map json_map cmd_Command cmd_Args as_float64]. change (eqs "close" "start") with false.
  change (eqs "close" "close") with true. cbv iota. by rewrite (int_of_float64_of_int oob fd Hfd).
Qed.

Lemma closed_quietly n clk fd w s :
  wd_inv pick n (w, s) -> exists s', let w' := mkWatchdog None (delete fd (wd_agents w)) in
    close_quietly pick clk fd (w, s) = Ret ((w', s'), None) /\ wd_inv pick n (w', s').
Proof. intros Hinv. destruct (closed pick n clk w s fd Hinv) as (s' & Hc & Hinv'). exists s'. unfold close_quietly. by rewrite Hc. Qed.

(** The goroutine that starts an actor changes nothing an agent depends on. *)
Lemma goroutine_ran n w s ref : wd_inv pick n (w, s) -> wd_inv pick n (w, start_goroutine ref s).
Proof.
  intros Hinv. assert (exists s', wd_inv pick n (w, s') /\ sy_router s' = sy_router s /\ reg_of s' = reg_of s /\
    sy_ctxDone s' = sy_ctxDone s /\ sy_actors (start_goroutine ref s) = sy_actors s') as (s' & Hs' & Er & Eg & Ec & Eact).
  { cbn [start_goroutine sy_actors]. destruct (sy_actors s !! ref) as [a|] eqn:Ha; [|by exists s].
    exists (put_actor ref (actor_Start a).1 s). split; [|done]. apply (wd_inv_put pick n w s ref a); [done|done|apply actor_Start_id| |].
    - unfold actor_Start. by destruct (decide _).
    - intros fd [? ? ? ? ?]. unfold actor_Start. rewrite decide_True //. }
  destruct Hs' as [H1 H2 H3 H4 H5 H6 H7 H8]. cbn [fst snd] in *.
  assert (sys_inv pick (start_goroutine ref s) /\ grown s' (start_goroutine ref s)) as [Hi' _].
  { apply sys_inv_heap; [done|by rewrite Er|by rewrite Eg| |]; intros r; by rewrite Eact. }
  constructor; cbn [fst snd]; try done; unfold used, GetActor in *; rewrite ?Er ?Eact ?Ec //; cbn [start_goroutine sy_router sy_ctxDone] in *;
    rewrite -?Er -?Ec //.
Qed.

Lemma wd_step n clk i w s :
  wd_inv pick n (w, s) -> wd_room n -> input_ok i ->
  exists w' s', wd_exec1 clk i (w, s) = Ret ((w', s'), None) /\ wd_inv pick (opens i + n) (w', s') /\
    dom (wd_agents w') = open_after (dom (wd_agents w)) i.
Proof.
  intros Hinv Hn Hi. destruct i as [k|fd|ref|ref].
  - rewrite (socket_handled clk k w s Hi). pose proof Hi as [Hfd _]. destruct k as [fd addr|fd|fd t|fd size|fd t]; cbn [opens open_after open_fds1].
    + destruct (opened pick n clk w s fd addr Hinv Hn Hfd) as (id & s' & H1 & H2). eexists _, s'. split; [exact H1|]. split; [exact H2|]. apply dom_insert_L.
    + destruct (closed_quietly n clk fd w s Hinv) as (s' & H1 & H2). eexists _, s'. split; [exact H1|]. split; [exact H2|]. apply dom_delete_L.
    + destruct (closed_quietly n clk fd w s Hinv) as (s' & H1 & H2). eexists _, s'. split; [exact H1|]. split; [exact H2|]. apply dom_delete_L.
    + by exists w, s.
    + by exists w, s.
  - rewrite (close_handled clk fd w s Hi). cbn [opens open_after Nat.add]. destruct (closed_quietly n clk fd w s Hinv) as (s' & H1 & H2). eexists _, s'.
    split; [exact H1|]. split; [exact H2|]. apply dom_delete_L.
  - exists w. cbn [wd_exec1 fst snd]. destruct (bool_decide _); [|by exists s]. exists (start_goroutine ref s). split; [done|]. split; [|done].
    by apply goroutine_ran.
  - cbn [wd_exec1 fst snd]. destruct (sy_actors s !! ref) as [a|] eqn:Ha; [|by exists w, s]. destruct (a_handler a) as [|ag] eqn:Hag; [by exists w, s|].
    destruct (wv_actors _ _ _ Hinv ref a Ha) as [?|Hfd]; [congruence|].
    destruct (agent_takes oob json_error clk a Hfd) as (a' & Ht & Hid & _ & Hkeep). unfold agent_turn. rewrite Ha Ht. cbn [mbind go_bind].
    exists w, (put_actor ref a' s). split; [done|]. split; [|done]. apply (wd_inv_put pick n w s ref a); try done. congruence.
Qed.
End watching.

Section service.
Context (oob : float64 -> Z) (json_error : bytes -> error) (pick : bool).

Lemma watchdog_starts clk :
  exists h s, wds_Start pick clk NewWatchdogService = Ret (mkWatchdogService NewWatchdog (Some h) (Some s), None) /\
    wd_inv pick 1 (NewWatchdog, s).
Proof.
  assert (match NewService pick "WATCHDOG" PWatchdog DefaultActorOptions clk [] NewActorSystem with
    | Ret (s, Ok (Some _)) => sy_ctxDone s = false /\ match map_to_list (sy_actors s) with [(_, a)] => a_handler a = PWatchdog | _ => False end
    | _ => False end) as H by (destruct pick; vm_compute; done).
  destruct (NewService _ _ _ _ _ _ _) as [[s [[h|]|]]| |] eqn:E; try done. destruct H as [Hctx Hone].
  exists h, s. unfold wds_Start. rewrite E. split; [done|]. pose proof (NewActorSystem_inv pick (H := party) 1) as H0.
  destruct (NewService_inv pick "WATCHDOG" PWatchdog DefaultActorOptions clk [] NewActorSystem s (Ok (Some h)) H0) as [Hinv [Hu1 Hu2]]; [done|done|exact E|].
  destruct (map_to_list (sy_actors s)) as [|[r a] [|]] eqn:El; try done.
  constructor; cbn [fst snd NewWatchdog wd_gate wd_agents]; try done.
  - intros ref b Hb. apply elem_of_map_to_list in Hb. rewrite El in Hb. apply list_elem_of_singleton in Hb as [= -> ->]. by left.
  - by rewrite -length_map_to_list El.
Qed.

Lemma wd_exec_tracks clk l : forall n w s,
  wd_inv pick n (w, s) -> Forall input_ok l -> wd_room (length l + n) ->
  exists w' s' es, wd_exec oob json_error pick clk l (w, s) = Ret ((w', s'), es) /\ Forall (fun e => e = None) es /\
    wd_inv pick (sum_list (map opens l) + n) (w', s') /\ dom (wd_agents w') = fold_left open_after l (dom (wd_agents w)).
Proof.
  induction l as [|i l IH]; intros n w s Hinv Hl Hn; [by exists w, s, []|]. inversion Hl as [|? ? Hi Hl']; subst. cbn [length] in Hn.
  assert (wd_room n) as Hn0 by (unfold wd_room in *; lia).
  destruct (wd_step oob json_error pick n (clk (S (length l))) i w s Hinv Hn0 Hi) as (w1 & s1 & H1 & H2 & H3).
  destruct (IH (opens i + n)%nat w1 s1 H2 Hl') as (w2 & s2 & es & H4 & H5 & H6 & H7).
  { assert (opens i <= 1)%nat by (destruct i as [[]| | |]; cbn; lia). unfold wd_room in *. lia. }
  exists w2, s2, (None :: es). cbn [wd_exec length]. rewrite H1. cbn [mbind go_bind]. rewrite H4. cbn [mbind go_bind]. split; [done|].
  split; [by constructor|]. split; [|by rewrite H7 H3]. replace (sum_list (map opens (i :: l)) + n)%nat with (sum_list (map opens l) + (opens i + n))%nat; [done|]. cbn. lia.
Qed.

(** C13. The watchdog keeps one agent for every open socket. Whatever the gate reports
    (at most 2^31 things, in JSON), whatever closes are asked for and whichever
    agents and starting goroutines run in between: every message is handled without
    an error; the sockets in the table are those opened and not closed, each with an
    agent of its own that is registered in the system, takes the socket for its client
    with its first message and is otherwise only told to disconnect; and no agent
    ever leaves the system, also when its socket is closed. *)
Theorem watchdog_tracks_sockets clk0 clk l :
  Forall input_ok l -> Z.of_nat (length l) < 2 ^ 31 ->
  exists h s0 w s es, wds_Start pick clk0 NewWatchdogService = Ret (mkWatchdogService NewWatchdog (Some h) (Some s0), None) /\
    wd_exec oob json_error pick clk l (NewWatchdog, s0) = Ret ((w, s), es) /\ Forall (fun e => e = None) es /\
    dom (wd_agents w) = fold_left open_after l ∅ /\
    (forall fd id, wd_agents w !! fd = Some id -> exists ref a ag, GetActor id s = Some ref /\ sy_actors s !! ref = Some a /\
       a_id a = id /\ a_handler a = PAgent ag /\ serves fd ag (ch_buf (a_mailbox a))) /\
    (forall fd fd' id, wd_agents w !! fd = Some id -> wd_agents w !! fd' = Some id -> fd = fd') /\
    size (sy_actors s) = S (sum_list (map opens l)).
Proof.
  intros Hl Hn. destruct (watchdog_starts clk0) as (h & s0 & H0 & Hinv).
  destruct (wd_exec_tracks clk l 1 NewWatchdog s0 Hinv Hl) as (w & s & es & H1 & H2 & [? ? ? ? ? Ht Hi Hs] & Hd).
  { unfold wd_room. change (hm_handleCounter (NewHandleManager 1)) with 16777217. lia. }
  exists h, s0, w, s, es. cbn [fst snd] in *. split_and!; try done; [|by rewrite Hs Nat.add_comm].
  intros fd id Hf. destruct (Ht fd id Hf) as (ref & a & Hr & Ha & Hid & [? ? ? ? (ag & Hag & Hsv)]). by exists ref, a, ag.
Qed.
End service.

Definition demo_inputs : list wd_input :=
  [ISock (SkOpen 1 "10.0.0.1:4000"); IGoroutine 1; ISock (SkOpen 2 "10.0.0.2:4000"); ITurn 1; ISock (SkData 1 "hello");
   ISock (SkClose 2); ISock (SkError 3 "EOF"); IClose 7].

Lemma watchdog_tracks_sockets_witness :
  exists h s0 w s es, wds_Start true (fun _ => 0) NewWatchdogService = Ret (mkWatchdogService NewWatchdog (Some h) (Some s0), None) /\
    wd_exec (fun _ => 0) (fun _ => "") true (fun _ _ => 0) demo_inputs (NewWatchdog, s0) = Ret ((w, s), es) /\
    dom (wd_agents w) = fold_left open_after demo_inputs ∅ /\ size (sy_actors s) = 3%nat.
Proof.
  destruct (watchdog_tracks_sockets (fun _ => 0) (fun _ => "") true (fun _ => 0) (fun _ _ => 0) demo_inputs)
    as (h & s0 & w & s & es & H1 & H2 & _ & H3 & _ & _ & H4).
  - repeat constructor; done.
  - done.
  - exists h, s0, w, s, es. exact (conj H1 (conj H2 (conj H3 H4))).
Defined.
