(* ===== verification/Gate.v ===== *)
(** src/examples/gate/gate.go: the actor that owns the network connections, and its
    bootstrap service.

    The handlers of the actor, the accept loops, the set-up of an accepted connection
    and the readers are goroutines: their turns are the functions below, on one world.
    A [*Connection] is shared by the table and by its reader: it lives in [gw_conns].
    A reader reads into one buffer again and again and forwards slices of it:
    [gw_forwarded] lists the slices sent to actors (the messages queued in the system
    show the bytes as they were sent). What the network gives (the result of [Listen],
    accepted connections, what [Read] returns) are arguments. *)

From S2P Require Import Prelude CoreTypes Handle Actor Router Session Registry LoadBalancer Discovery System.
From S2P Require Import NetMessage GoText GoJson Lifecycle Hosting Agent Watchdog.

Record Connection := mkConnection {
  cn_FD : Z;
  cn_IP : string;
  cn_Client : Z;
  cn_Agent : ActorID;
  cn_Mode : string;
  cn_Conn : nat;
}.

(** [g_listener] and [cn_Conn]: numbers of the network's own objects. [g_connections]
    maps an fd to the address of its record. *)
Record Gate := mkGate {
  g_watchdog : ActorID;
  g_listener : option nat;
  g_connections : gmap Z nat;
  g_nextFD : Z;
  g_system : option (system unit);
  g_running : bool;
}.
Definition NewGate : Gate := mkGate 0 None ∅ 1 None false.

Definition with_connections (t : gmap Z nat) (g : Gate) : Gate :=
  mkGate (g_watchdog g) (g_listener g) t (g_nextFD g) (g_system g) (g_running g).
Definition with_system (s : option (system unit)) (g : Gate) : Gate :=
  mkGate (g_watchdog g) (g_listener g) (g_connections g) (g_nextFD g) s (g_running g).

(** A slice of the buffer of the reader of [sl_conn], sent to the actor [sl_to]. *)
Record slice := mkSlice { sl_to : ActorID; sl_conn : nat; sl_len : nat }.

(** [gw_accepts]: the accept loops, each waiting in [Accept] on a listener or about to
    look at [running]; [gw_pending]: accepted connections with their remote address,
    not set up yet; [gw_buffers]: the readers that run, with their buffers. *)
Record gate_world := mkGateWorld {
  gw_gate : Gate;
  gw_conns : gmap nat Connection;
  gw_closed : gset nat;
  gw_lclosed : gset nat;
  gw_accepts : list (option nat);
  gw_pending : list (nat * string);
  gw_buffers : gmap nat bytes;
  gw_forwarded : list slice;
}.
Definition idle_world (g : Gate) : gate_world := mkGateWorld g ∅ ∅ ∅ [] [] ∅ [].

Definition with_gate (g : Gate) (w : gate_world) : gate_world :=
  mkGateWorld g (gw_conns w) (gw_closed w) (gw_lclosed w) (gw_accepts w) (gw_pending w) (gw_buffers w) (gw_forwarded w).
Definition with_conns (c : gmap nat Connection) (w : gate_world) : gate_world :=
  mkGateWorld (gw_gate w) c (gw_closed w) (gw_lclosed w) (gw_accepts w) (gw_pending w) (gw_buffers w) (gw_forwarded w).
Definition with_closed (c : gset nat) (w : gate_world) : gate_world :=
  mkGateWorld (gw_gate w) (gw_conns w) c (gw_lclosed w) (gw_accepts w) (gw_pending w) (gw_buffers w) (gw_forwarded w).
Definition with_accepts (l : list (option nat)) (p : list (nat * string)) (w : gate_world) : gate_world :=
  mkGateWorld (gw_gate w) (gw_conns w) (gw_closed w) (gw_lclosed w) l p (gw_buffers w) (gw_forwarded w).
Definition with_buffers (b : gmap nat bytes) (w : gate_world) : gate_world :=
  mkGateWorld (gw_gate w) (gw_conns w) (gw_closed w) (gw_lclosed w) (gw_accepts w) (gw_pending w) b (gw_forwarded w).
Definition with_forwarded (l : list slice) (w : gate_world) : gate_world :=
  mkGateWorld (gw_gate w) (gw_conns w) (gw_closed w) (gw_lclosed w) (gw_accepts w) (gw_pending w) (gw_buffers w) l.

(** ** Assertions that panic *)

Definition go_type {A} (v : json A) : string :=
  match v with
  | JNull => "nil" | JBool _ => "bool" | JNum _ => "float64" | JStr _ => "string" | JArr _ => "[]interface {}"
  | JObj _ => "map[string]interface {}"
  end.
(** [v.(float64)] *)
Definition must_float64 (v : json float64) : go float64 :=
  match as_float64 v with
  | Some f => Ret f
  | None => Panic ("interface conversion: interface {} is " +:+ go_type v +:+ ", not float64")
  end.
Definition as_string (v : json float64) : option string := match v with JStr s => Some s | _ => None end.

Section gate.
(** [oob], [oob_id]: [int(f)] and [core.ActorID(f)] of a float out of range. *)
Context (oob oob_id : float64 -> Z) (json_error : bytes -> error) (pick : bool).

Definition id_of_float64 (f : float64) : ActorID :=
  let z := int_of_float64 (fun _ => -1) f in if (0 <=? z) && (z <? 2 ^ 32) then z else oob_id f.

(** ** Reports to the watchdog *)

(** The map [notifyWatchdog] writes, its members in the order of their keys. *)
Definition event_json (eventType : string) (fd : Z) (data : string) : json Z :=
  if eqs eventType "open" then JObj [("address", JStr data); ("fd", JNum fd); ("type", JStr eventType)]
  else if eqs eventType "error" || eqs eventType "data"
  then JObj [("fd", JNum fd); ("message", JStr data); ("type", JStr eventType)]
  else JObj [("fd", JNum fd); ("type", JStr eventType)].

Definition notifyWatchdog (now : time) (eventType : string) (fd : Z) (data : string) (w : gate_world) : go gate_world :=
  let g := gw_gate w in
  if g_watchdog g =? 0 then Ret w
  else match g_system g with
  | None => Ret w
  | Some s =>
      '(s', _) ← sys_Send pick (g_watchdog g) (g_watchdog g) MessageTypeText (Marshal (event_json eventType fd data)) now s;
      Ret (with_gate (with_system (Some s') g) w)
  end.

(** [data] is [buffer[:n]] of the reader of [ref]. *)
Definition forwardToAgent (now : time) (ref : nat) (conn : Connection) (data : bytes) (w : gate_world) : go gate_world :=
  match g_system (gw_gate w) with
  | None => Ret w
  | Some s =>
      '(s', r) ← sys_Send pick (cn_Agent conn) (cn_Agent conn) MessageTypeText data now s;
      let w' := with_gate (with_system (Some s') (gw_gate w)) w in
      Ret (match r with
           | Ok _ => with_forwarded (gw_forwarded w ++ [mkSlice (cn_Agent conn) ref (length data)]) w'
           | Err _ => w'
           end)
  end.

(** ** Connections *)

Definition not_found (fd : Z) : error := "connection " +:+ pretty fd +:+ " not found".

Definition on_connection (fd : Z) (f : Connection -> Connection) (w : gate_world) : go (gate_world * option error) :=
  match g_connections (gw_gate w) !! fd with
  | None => Ret (w, Some (not_found fd))
  | Some ref =>
      match gw_conns w !! ref with
      | None => nil_deref
      | Some conn => Ret (with_conns (<[ref := f conn]> (gw_conns w)) w, None)
      end
  end.
Definition g_forward (fd client : Z) (agentID : ActorID) : gate_world -> go (gate_world * option error) :=
  on_connection fd (fun c => mkConnection (cn_FD c) (cn_IP c) client agentID (cn_Mode c) (cn_Conn c)).
Definition g_accept (fd : Z) : gate_world -> go (gate_world * option error) :=
  on_connection fd (fun c => mkConnection (cn_FD c) (cn_IP c) (cn_Client c) (cn_Agent c) "accepted" (cn_Conn c)).
Definition g_kick (fd : Z) (w : gate_world) : go (gate_world * option error) :=
  match g_connections (gw_gate w) !! fd with
  | None => Ret (w, Some (not_found fd))
  | Some ref =>
      match gw_conns w !! ref with
      | None => nil_deref
      | Some conn =>
          Ret (with_closed ({[cn_Conn conn]} ∪ gw_closed w)
                 (with_gate (with_connections (delete fd (g_connections (gw_gate w))) (gw_gate w)) w), None)
      end
  end.

(** ** Opening and closing *)

Definition listen_address (config : list (string * json float64)) : string :=
  let address := match config_get "address" config ≫= as_string with Some addr => addr | None => "127.0.0.1" end in
  let port := match config_get "port" config ≫= as_float64 with Some p => int_of_float64 oob p | None => 8888 end in
  let port := match config_get "port" config ≫= as_int with Some p => p | None => port end in
  address +:+ ":" +:+ pretty port.

(** [listen]: what [net.Listen] gives for an address. *)
Definition g_open (listen : string -> res nat) (config : list (string * json float64)) (w : gate_world)
    : gate_world * option error :=
  let g := gw_gate w in
  if g_running g then (w, Some "gate already running")
  else
    let listenAddr := listen_address config in
    match listen listenAddr with
    | Err e => (w, Some ("failed to listen on " +:+ listenAddr +:+ ": " +:+ e))
    | Ok l =>
        (with_accepts (gw_accepts w ++ [None]) (gw_pending w)
           (with_gate (mkGate (g_watchdog g) (Some l) (g_connections g) (g_nextFD g) (g_system g) true) w), None)
    end.

(** The records stay in the table: their readers take them out when [Read] fails. *)
Definition g_close (w : gate_world) : gate_world * option error :=
  let g := gw_gate w in
  if g_running g then
    let conns := omap (fun kv => cn_Conn <$> gw_conns w !! kv.2) (map_to_list (g_connections g)) in
    (mkGateWorld (mkGate (g_watchdog g) (g_listener g) (g_connections g) (g_nextFD g) (g_system g) false)
       (gw_conns w) (list_to_set conns ∪ gw_closed w)
       (match g_listener g with Some l => {[l]} ∪ gw_lclosed w | None => gw_lclosed w end)
       (gw_accepts w) (gw_pending w) (gw_buffers w) (gw_forwarded w), None)
  else (w, None).

(** ** Commands *)

Definition gate_handleCommand (listen : string -> res nat) (msg : Message) (w : gate_world) : go (gate_world * option error) :=
  match Unmarshal_Command (m_Data msg) with
  | None => Ret (w, Some ("failed to parse command: " +:+ json_error (m_Data msg)))
  | Some cmd =>
      let name := cmd_Command cmd in
      if eqs name "open" then
        match cmd_Args cmd with
        | arg :: _ => match as_object arg with
            | Some config => Ret (g_open listen config w)
            | None => Ret (w, Some "open command requires configuration")
            end
        | [] => Ret (w, Some "open command requires configuration")
        end
      else if eqs name "forward" then
        match cmd_Args cmd with
        | a0 :: a1 :: a2 :: _ =>
            fd ← must_float64 a0; client ← must_float64 a1; agentID ← must_float64 a2;
            g_forward (int_of_float64 oob fd) (int_of_float64 oob client) (id_of_float64 agentID) w
        | _ => Ret (w, Some "forward command requires fd, client, agent")
        end
      else if eqs name "accept" then
        match cmd_Args cmd with
        | a0 :: _ => fd ← must_float64 a0; g_accept (int_of_float64 oob fd) w
        | [] => Ret (w, Some "accept command requires fd")
        end
      else if eqs name "kick" then
        match cmd_Args cmd with
        | a0 :: _ => fd ← must_float64 a0; g_kick (int_of_float64 oob fd) w
        | [] => Ret (w, Some "kick command requires fd")
        end
      else Ret (w, Some ("unknown command: " +:+ name))
  end.

(** It only writes to the log. *)
Definition handleClientData (msg : Message) (w : gate_world) : go (gate_world * option error) := Ret (w, None).

Definition gate_HandleMessage (listen : string -> res nat) (msg : Message) (w : gate_world) : go (gate_world * option error) :=
  if m_Type msg =? MessageTypeRequest then gate_handleCommand listen msg w
  else if m_Type msg =? MessageTypeText then handleClientData msg w
  else Ret (w, Some ("unsupported message type: " +:+ pretty (m_Type msg))).

(** ** The accept loops *)

(** The loop [i] looks at [running] and waits on the listener of the moment, or ends. *)
Definition accept_check (i : nat) (w : gate_world) : gate_world :=
  match gw_accepts w !! i with
  | Some None =>
      if g_running (gw_gate w) then with_accepts (<[i := g_listener (gw_gate w)]> (gw_accepts w)) (gw_pending w) w
      else with_accepts (delete i (gw_accepts w)) (gw_pending w) w
  | _ => w
  end.

(** [Accept] of the loop [i] returns: a connection with its remote address, whose
    set-up is a goroutine of its own, or an error. A closed listener gives an error. *)
Definition accept_returns (i : nat) (r : option (nat * string)) (w : gate_world) : gate_world :=
  match gw_accepts w !! i with
  | Some (Some l) =>
      let next := <[i := None]> (gw_accepts w) in
      match (if bool_decide (l ∈ gw_lclosed w) then None else r) with
      | Some c => with_accepts next (gw_pending w ++ [c]) w
      | None => with_accepts next (gw_pending w) w
      end
  | _ => w
  end.

(** The accepted connection at place [k] is set up; its reader starts. *)
Definition handleNewConnection (now : time) (k : nat) (w : gate_world) : go gate_world :=
  match gw_pending w !! k with
  | None => Ret w
  | Some (conn, ip) =>
      let g := gw_gate w in
      let fd := g_nextFD g in
      let ref := fresh (dom (gw_conns w)) in
      let g' := mkGate (g_watchdog g) (g_listener g) (<[fd := ref]> (g_connections g)) (i64 (g_nextFD g + 1)) (g_system g) (g_running g) in
      w' ← notifyWatchdog now "open" fd ip
             (with_accepts (gw_accepts w) (delete k (gw_pending w))
                (with_conns (<[ref := mkConnection fd ip 0 0 "" conn]> (gw_conns w)) (with_gate g' w)));
      Ret (with_buffers (<[ref := replicate 4096 0]> (gw_buffers w')) w')
  end.

(** ** The readers *)

(** What [Read] returns: bytes written to the front of the buffer, at most its length,
    or an error, which may be [net.ErrClosed] itself. *)
Inductive read_result :=
| RData (b : bytes)
| RErrClosed
| RError (text : error).

(** A reader ends: the deferred function. *)
Definition reader_ends (now : time) (ref : nat) (conn : Connection) (w : gate_world) : go gate_world :=
  let w1 := with_closed ({[cn_Conn conn]} ∪ gw_closed w)
              (with_gate (with_connections (delete (cn_FD conn) (g_connections (gw_gate w))) (gw_gate w))
                 (with_buffers (delete ref (gw_buffers w)) w)) in
  notifyWatchdog now "close" (cn_FD conn) "" w1.

(** One turn of the loop in [readFromConnection]. A closed connection gives an error. *)
Definition reader_turn (clk : clock) (ref : nat) (r : read_result) (w : gate_world) : go gate_world :=
  match gw_buffers w !! ref, gw_conns w !! ref with
  | Some buffer, Some conn =>
      match r with
      | RErrClosed => reader_ends (clk 1%nat) ref conn w
      | RError e => w1 ← notifyWatchdog (clk 0%nat) "error" (cn_FD conn) e w; reader_ends (clk 1%nat) ref conn w1
      | RData b =>
          if bool_decide (cn_Conn conn ∈ gw_closed w) then Ret w
          else
            let b := take 4096 b in
            let w1 := with_buffers (<[ref := b ++ drop (length b) buffer]> (gw_buffers w)) w in
            if cn_Agent conn =? 0 then notifyWatchdog (clk 0%nat) "data" (cn_FD conn) (string_of_bytes b) w1
            else forwardToAgent (clk 0%nat) ref conn b w1
      end
  | _, _ => Ret w
  end.

(** ** The service *)

Record GateService := mkGateService { gs_world : gate_world; gs_handle : option Handle }.
Definition NewGateService : GateService := mkGateService (idle_world NewGate) None.

Definition gs_Start (clk : clock) (sv : GateService) : go (GateService * option error) :=
  let w := gs_world sv in
  '(sys, r) ← NewService pick "GATE" tt DefaultActorOptions clk [] NewActorSystem;
  let w' := with_gate (with_system (Some sys) (gw_gate w)) w in
  Ret (match r with
       | Err e => (mkGateService w' (gs_handle sv), Some ("failed to create Gate service: " +:+ e))
       | Ok h => (mkGateService w' h, None)
       end).
Definition gs_Stop (sv : GateService) : GateService * option error :=
  let '(w, e) := g_close (gs_world sv) in (mkGateService w (gs_handle sv), e).
Definition gs_Health (sv : GateService) : HealthStatus :=
  match gs_handle sv with
  | None => mkHealthStatus "stopped" "Gate not running" zero_time
  | Some _ => mkHealthStatus "healthy" "Gate operational" zero_time
  end.
Definition gs_GetHandle (sv : GateService) : option Handle := gs_handle sv.
End gate.

(** ** Gate and watchdog

    The texts of the reports are those the watchdog reads back (Watchdog.v). *)
Definition report_type (k : sock) : string :=
  match k with SkOpen _ _ => "open" | SkClose _ => "close" | SkError _ _ => "error" | SkWarning _ _ => "warning" | SkData _ _ => "data" end.

Lemma report_json k : match k with SkWarning _ _ => False | _ => True end ->
  event_json (report_type k) (sock_fd k) (sock_text k) = sock_json k.
Proof. by destruct k. Qed.

Section wired.
Context (oob oob_id : float64 -> Z) (json_error : bytes -> error) (pick : bool).

(** Gate and watchdog agree on the reports: a gate that has a watchdog with room in
    its mailbox queues there, for every report (an opened socket with its address, a
    closed one, an error, data), one text message that the watchdog's decoder reads as
    exactly that event; fds up to 2^53 and UTF-8 texts. *)
Theorem report_reaches_watchdog now k w s ref a :
  sock_ok k -> match k with SkWarning _ _ => False | _ => True end ->
  g_watchdog (gw_gate w) <> 0 -> g_system (gw_gate w) = Some s -> GetActor (g_watchdog (gw_gate w)) s = Some ref ->
  sy_actors s !! ref = Some a -> Send_check a = None -> a_ctxDone a = false -> ch_closed (a_mailbox a) = false ->
  (length (ch_buf (a_mailbox a)) < ch_cap (a_mailbox a))%nat ->
  exists w' s' msg, notifyWatchdog pick now (report_type k) (sock_fd k) (sock_text k) w = Ret w' /\ g_system (gw_gate w') = Some s' /\
    queue_of ref s' = Some (ch_buf (a_mailbox a) ++ [Some msg]) /\ m_Type msg = MessageTypeText /\
    Unmarshal_SocketEvent (m_Data msg) = Some (sock_event k).
Proof.
  intros Hk Hw Hd Hs Hg Ha Hchk Hctx Hop Hroom. unfold notifyWatchdog. rewrite (proj2 (Z.eqb_neq _ _) Hd) Hs (report_json k Hw).
  rewrite (sys_Send_queued pick _ _ _ _ now s ref a Hg Ha Hchk Hctx Hop Hroom). cbn [mbind go_bind].
  eexists _, _, _. split; [reflexivity|]. split; [reflexivity|]. unfold queue_of. cbn [sy_actors System.with_table]. rewrite lookup_insert_eq.
  split; [reflexivity|]. split; [done|]. by apply SocketEvent_roundtrip.
Qed.

(** The kick command of the watchdog has no arguments: the gate refuses it. *)
Theorem kick_is_refused listen fd msg w :
  m_Type msg = MessageTypeRequest -> m_Data msg = kick_command fd ->
  gate_HandleMessage oob oob_id json_error listen msg w = Ret (w, Some "kick command requires fd").
Proof.
  intros Ht Hd. unfold gate_HandleMessage. rewrite Ht Z.eqb_refl. unfold gate_handleCommand.
  assert (Unmarshal_Command (m_Data msg) = Some (mkCommand "kick" [])) as ->; [|done].
  rewrite Hd. unfold kick_command, Unmarshal_Command, Unmarshal_struct. rewrite parse_Marshal.
  { apply (fits_mono _ 1); [unfold maxNestingDepth; lia|done]. }
  cbn [json_map map fst snd fold_left mbind option_bind]. unfold assign_Command. match_fields. done.
Qed.

(** ... while one with the fd as its argument works. *)
Lemma kick_with_args listen fd msg w :
  fd_ok fd -> m_Type msg = MessageTypeRequest -> m_Data msg = marshal_Command "kick" (Some [JNum fd]) ->
  gate_HandleMessage oob oob_id json_error listen msg w = g_kick fd w.
Proof.
  intros Hfd Ht Hd. unfold gate_HandleMessage. rewrite Ht Z.eqb_refl. unfold gate_handleCommand. rewrite Hd Command_roundtrip //.
  { cbn [default from_option id forallb]. unfold plain_value. by rewrite (small_num fd Hfd). }
  cbn [default from_option id map json_map cmd_Command cmd_Args]. change (eqs "kick" "open") with false. change (eqs "kick" "forward") with false.
  change (eqs "kick" "accept") with false. change (eqs "kick" "kick") with true. cbv iota. unfold must_float64. cbn [as_float64 mbind go_bind].
  by rewrite (int_of_float64_of_int oob fd Hfd).
Qed.

(** A fd that is no number takes the process down. *)
Theorem kick_by_name_panics listen name msg w :
  is_text name = true -> m_Type msg = MessageTypeRequest -> m_Data msg = marshal_Command "kick" (Some [JStr name]) ->
  gate_HandleMessage oob oob_id json_error listen msg w = Panic "interface conversion: interface {} is string, not float64".
Proof.
  intros Hn Ht Hd. unfold gate_HandleMessage. rewrite Ht Z.eqb_refl. unfold gate_handleCommand. rewrite Hd Command_roundtrip //.
  cbn [default from_option id forallb]. unfold plain_value. cbn [fits small]. by rewrite Hn.
Qed.
End wired.

(** ** One buffer for all reads *)
Section buffers.
Context (pick : bool).

(** What a forwarded slice shows now. *)
Definition slice_bytes (w : gate_world) (sl : slice) : bytes := take (sl_len sl) (default [] (gw_buffers w !! sl_conn sl)).

(** The reader's turn on data for an agent with room in its mailbox. *)
Lemma reader_forwards clk ref b w s buffer conn r a :
  gw_buffers w !! ref = Some buffer -> gw_conns w !! ref = Some conn -> cn_Conn conn ∉ gw_closed w -> cn_Agent conn <> 0 ->
  (length b <= 4096)%nat -> g_system (gw_gate w) = Some s -> GetActor (cn_Agent conn) s = Some r -> sy_actors s !! r = Some a ->
  Send_check a = None -> a_ctxDone a = false -> ch_closed (a_mailbox a) = false ->
  (length (ch_buf (a_mailbox a)) < ch_cap (a_mailbox a))%nat ->
  let msg := mkMessage 0 MessageTypeText (cn_Agent conn) (cn_Agent conn) 0 b (clk 0%nat) in
  let mb := mkChan (ch_buf (a_mailbox a) ++ [Some msg]) (ch_cap (a_mailbox a)) false in
  reader_turn pick clk ref (RData b) w =
    Ret (with_forwarded (gw_forwarded w ++ [mkSlice (cn_Agent conn) ref (length b)])
           (with_gate (with_system (Some (put_actor r (with_mailbox mb a) s)) (gw_gate w))
              (with_buffers (<[ref := b ++ drop (length b) buffer]> (gw_buffers w)) w))).
Proof.
  intros Hb Hc Hcl Hag Hlen Hs Hg Ha Hchk Hctx Hop Hroom msg mb. unfold reader_turn. rewrite Hb Hc bool_decide_false //.
  rewrite (take_ge b 4096 Hlen) (proj2 (Z.eqb_neq _ _) Hag). unfold forwardToAgent. cbn [gw_gate with_buffers]. rewrite Hs.
  by rewrite (sys_Send_queued pick _ _ _ _ _ s r a Hg Ha Hchk Hctx Hop Hroom).
Qed.

(** Forwarded data is overwritten: a reader that has forwarded what it read and reads
    again, at least as much, before the agent has taken the first message, forwards
    both, but the slice in the first message then shows the bytes of the second read:
    all reads of a connection use one buffer. *)
Theorem forwarded_data_overwritten clk clk' ref b1 b2 w s buffer conn r a :
  gw_buffers w !! ref = Some buffer -> gw_conns w !! ref = Some conn -> cn_Conn conn ∉ gw_closed w -> cn_Agent conn <> 0 ->
  (length b1 <= length b2 <= 4096)%nat -> g_system (gw_gate w) = Some s -> GetActor (cn_Agent conn) s = Some r ->
  sy_actors s !! r = Some a -> Send_check a = None -> a_ctxDone a = false -> ch_closed (a_mailbox a) = false ->
  (S (length (ch_buf (a_mailbox a))) < ch_cap (a_mailbox a))%nat ->
  let s1 := mkSlice (cn_Agent conn) ref (length b1) in
  let s2 := mkSlice (cn_Agent conn) ref (length b2) in
  exists w1 w2, reader_turn pick clk ref (RData b1) w = Ret w1 /\ reader_turn pick clk' ref (RData b2) w1 = Ret w2 /\
    gw_forwarded w2 = gw_forwarded w ++ [s1; s2] /\
    slice_bytes w1 s1 = b1 /\ slice_bytes w2 s1 = take (length b1) b2 /\ slice_bytes w2 s2 = b2.
Proof.
  intros Hb Hc Hcl Hag [Hl1 Hl2] Hs Hg Ha Hchk Hctx Hop Hroom s1 s2.
  pose proof (reader_forwards clk ref b1 w s buffer conn r a Hb Hc Hcl Hag ltac:(lia) Hs Hg Ha Hchk Hctx Hop ltac:(lia)) as H1. cbv zeta in H1.
  set (mb := mkChan _ _ _) in H1. set (w1 := with_forwarded _ _) in H1.
  assert (gw_buffers w1 !! ref = Some (b1 ++ drop (length b1) buffer)) as Hb1 by apply lookup_insert_eq.
  assert (sy_actors (put_actor r (with_mailbox mb a) s) !! r = Some (with_mailbox mb a)) as Ha1 by apply lookup_insert_eq.
  pose proof (reader_forwards clk' ref b2 w1 _ _ conn r _ Hb1 Hc Hcl Hag Hl2 eq_refl Hg Ha1 Hchk Hctx eq_refl) as H2. cbv zeta in H2.
  specialize (H2 ltac:(cbn [with_mailbox a_mailbox mb ch_buf ch_cap]; rewrite length_app; cbn; lia)).
  eexists w1, _. split; [exact H1|]. split; [exact H2|]. split; [cbn; by rewrite -assoc_L|].
  unfold slice_bytes. cbn [sl_conn sl_len s1 s2]. rewrite Hb1. split; [cbn [default from_option id]; apply take_app_length|].
  cbn [gw_buffers with_forwarded with_gate with_buffers]. rewrite lookup_insert_eq. cbn [default from_option id].
  split; [by apply take_app_le|apply take_app_length].
Qed.
End buffers.

(** ** Runs of the gate *)
Section runs.
Context (oob oob_id : float64 -> Z) (json_error : bytes -> error) (pick : bool).

(** A message is handled, an accept loop looks at [running] or comes back from
    [Accept], an accepted connection is set up, a reader reads, the service stops. *)
Inductive gate_input :=
| GMessage (listen : string -> res nat) (msg : Message)
| GCheck (i : nat)
| GAccepted (i : nat) (r : option (nat * string))
| GSetup (k : nat)
| GRead (ref : nat) (r : read_result)
| GStop.

Definition gate_exec1 (clk : clock) (i : gate_input) (w : gate_world) : go gate_world :=
  match i with
  | GMessage listen msg => '(w', _) ← gate_HandleMessage oob oob_id json_error listen msg w; Ret w'
  | GCheck i => Ret (accept_check i w)
  | GAccepted i r => Ret (accept_returns i r w)
  | GSetup k => handleNewConnection pick (clk 0%nat) k w
  | GRead ref r => reader_turn pick clk ref r w
  | GStop => Ret (g_close w).1
  end.
Fixpoint gate_exec (clk : nat -> clock) (l : list gate_input) (w : gate_world) : go gate_world :=
  match l with
  | [] => Ret w
  | i :: l' => w' ← gate_exec1 (clk (length l)) i w; gate_exec clk l' w'
  end.

(** [n] connections were set up. *)
Record gate_inv (n : nat) (w : gate_world) : Prop := {
  gi_watchdog : g_watchdog (gw_gate w) = 0;
  gi_next : g_nextFD (gw_gate w) = 1 + Z.of_nat n;
  gi_table fd ref : g_connections (gw_gate w) !! fd = Some ref ->
    exists c, gw_conns w !! ref = Some c /\ cn_FD c = fd /\ is_Some (gw_buffers w !! ref);
  gi_fds ref c : gw_conns w !! ref = Some c -> 1 <= cn_FD c <= Z.of_nat n;
  gi_own ref ref' c c' : gw_conns w !! ref = Some c -> gw_conns w !! ref' = Some c' -> cn_FD c = cn_FD c' -> ref = ref';
  gi_reading ref : is_Some (gw_buffers w !! ref) -> is_Some (gw_conns w !! ref);
  gi_listed ref c : is_Some (gw_buffers w !! ref) -> gw_conns w !! ref = Some c ->
    g_connections (gw_gate w) !! cn_FD c = Some ref \/ cn_Conn c ∈ gw_closed w;
  gi_alone s id ref : g_system (gw_gate w) = Some s -> GetActor id s = Some ref ->
    id = 1 /\ exists a, sy_actors s !! ref = Some a /\ ch_closed (a_mailbox a) = false;
  gi_forwarded sl : sl ∈ gw_forwarded w -> sl_to sl = 1;
}.

Lemma on_connection_inv n fd f w w' e :
  (forall c, cn_FD (f c) = cn_FD c /\ cn_Conn (f c) = cn_Conn c) ->
  gate_inv n w -> on_connection fd f w = Ret (w', e) -> gate_inv n w'.
Proof.
  intros Hf Hinv. unfold on_connection. destruct (g_connections _ !! fd) as [ref|]; [|by intros [= <- <-]].
  destruct (gw_conns w !! ref) as [c|] eqn:Hc; [|done]. intros [= <- <-]. destruct Hinv as [H1 H2 H3 H4 H5 H6 H7 H8 H9].
  assert (forall r x, <[ref := f c]> (gw_conns w) !! r = Some x -> exists y, gw_conns w !! r = Some y /\ cn_FD x = cn_FD y /\ cn_Conn x = cn_Conn y) as Hold.
  { intros r x [[<- <-]|[_ Hx]]%lookup_insert_Some; [exists c; by destruct (Hf c)|by exists x]. }
  constructor; cbn [gw_gate gw_conns gw_closed gw_buffers gw_forwarded with_conns]; try done.
  - intros fd' r Hr. destruct (H3 fd' r Hr) as (y & Hy & Hfd & Hb). destruct (decide (ref = r)) as [<-|Hne].
    + rewrite lookup_insert_eq. exists (f c). split_and!; [done| |done]. destruct (Hf c) as [-> _]. congruence.
    + rewrite lookup_insert_ne //. by exists y.
  - intros r x (y & Hy & -> & _)%Hold. by apply (H4 r).
  - intros r r' x x' (y & Hy & -> & _)%Hold (y' & Hy' & -> & _)%Hold. by apply H5.
  - intros r Hr. apply lookup_insert_is_Some'. right. by apply H6.
  - intros r x Hr (y & Hy & -> & ->)%Hold. by apply H7.
Qed.

Lemma g_kick_inv n fd w w' e : gate_inv n w -> g_kick fd w = Ret (w', e) -> gate_inv n w'.
Proof.
  intros Hinv. unfold g_kick. destruct (g_connections _ !! fd) as [ref|] eqn:Hr; [|by intros [= <- <-]].
  destruct (gw_conns w !! ref) as [c|] eqn:Hc; [|done]. intros [= <- <-]. destruct Hinv as [H1 H2 H3 H4 H5 H6 H7 H8 H9].
  constructor; cbn [gw_gate gw_conns gw_closed gw_buffers gw_forwarded with_closed with_gate g_watchdog g_nextFD g_connections g_system with_connections]; try done.
  - intros fd' r [_ H]%lookup_delete_Some. by apply H3.
  - intros r x Hb Hx. destruct (H7 r x Hb Hx) as [H|H]; [|right; set_solver].
    destruct (H3 fd ref Hr) as (c' & Hc' & Hfd & _). assert (c' = c) as -> by congruence.
    destruct (decide (cn_FD x = fd)) as [E|Hne]; [|left; rewrite lookup_delete_ne; congruence]. right.
    assert (r = ref) as -> by (apply (H5 r ref x c Hx Hc); congruence). assert (x = c) as -> by congruence. set_solver.
Qed.

Lemma g_open_inv n listen config w : gate_inv n w -> gate_inv n (g_open oob listen config w).1.
Proof.
  intros Hinv. unfold g_open. destruct (g_running _); [done|]. destruct (listen _); [|done]. by destruct Hinv; constructor.
Qed.

Lemma gate_message_inv n listen msg w w' e : gate_inv n w -> gate_HandleMessage oob oob_id json_error listen msg w = Ret (w', e) -> gate_inv n w'.
Proof.
  intros Hinv. unfold gate_HandleMessage, handleClientData. destruct (_ =? _); [|destruct (_ =? _); by intros [= <- <-]].
  unfold gate_handleCommand. destruct (Unmarshal_Command _) as [[name args]|]; [|by intros [= <- <-]]. cbn [cmd_Command cmd_Args].
  destruct (eqs name "open").
  { destruct args as [|v args]; [by intros [= <- <-]|]. destruct (as_object v) as [config|]; [|by intros [= <- <-]]. intros [= E].
    pose proof (g_open_inv n listen config w Hinv) as Ho. by rewrite E in Ho. }
  destruct (eqs name "forward").
  { destruct args as [|v0 [|v1 [|v2 args]]]; try by intros [= <- <-]. destruct (must_float64 v0) as [f0| |]; [|done..]. destruct (must_float64 v1) as [f1| |]; [|done..].
    destruct (must_float64 v2) as [f2| |]; [|done..]. cbn [mbind go_bind]. intros E. unfold g_forward, g_accept in E. eapply on_connection_inv; [|exact Hinv|exact E]; by intros []. }
  destruct (eqs name "accept").
  { destruct args as [|v0 args]; [by intros [= <- <-]|]. destruct (must_float64 v0) as [f0| |]; [|done..]. cbn [mbind go_bind]. intros E. unfold g_forward, g_accept in E. eapply on_connection_inv; [|exact Hinv|exact E]; by intros []. }
  destruct (eqs name "kick"); [|by intros [= <- <-]].
  destruct args as [|v0 args]; [by intros [= <- <-]|]. destruct (must_float64 v0) as [f0| |]; [|done..]. cbn [mbind go_bind]. by apply g_kick_inv.
Qed.

Lemma notify_nobody now t fd d w : g_watchdog (gw_gate w) = 0 -> notifyWatchdog pick now t fd d w = Ret w.
Proof. unfold notifyWatchdog. by intros ->. Qed.
End runs.

Section owning.
Context (pick : bool).

(** Changes of the accept loops alone. *)
Lemma with_accepts_inv n l p w : gate_inv n w -> gate_inv n (with_accepts l p w).
Proof. intros []. by constructor. Qed.

Lemma g_close_inv n w : gate_inv n w -> gate_inv n (g_close w).1.
Proof.
  intros [H1 H2 H3 H4 H5 H6 H7 H8 H9]. unfold g_close. destruct (g_running _); [|by constructor]. constructor; cbn; try done.
  intros ref c Hb Hc. destruct (H7 ref c Hb Hc) as [H|H]; [by left|right; set_solver].
Qed.

Lemma set_up n now k w :
  gate_inv n w -> Z.of_nat n < 2 ^ 62 -> exists w', handleNewConnection pick now k w = Ret w' /\
    (gate_inv (S n) w' /\ g_connections (gw_gate w') !! (1 + Z.of_nat n) = Some (fresh (dom (gw_conns w))) \/ w' = w /\ gw_pending w !! k = None).
Proof.
  intros [H1 H2 H3 H4 H5 H6 H7 H8 H9] Hn. unfold handleNewConnection. destruct (gw_pending w !! k) as [[conn ip]|]; [|exists w; split; [done|by right]].
  rewrite notify_nobody //. cbn [mbind go_bind]. eexists. split; [reflexivity|]. left.
  set (ref := fresh (dom (gw_conns w))). assert (gw_conns w !! ref = None) as Hfr by apply not_elem_of_dom, is_fresh.
  assert (gw_buffers w !! ref = None) as Hfb by (destruct (gw_buffers w !! ref) eqn:E; [|done]; destruct (H6 ref (mk_is_Some _ _ E)); congruence).
  split; [|cbn; rewrite H2; apply lookup_insert_eq].
  constructor; cbn [gw_gate gw_conns gw_closed gw_buffers gw_forwarded with_buffers with_accepts with_conns with_gate g_watchdog g_nextFD g_connections g_system]; try done.
  - rewrite H2 i64_id; [unfold is_i64; lia|lia].
  - intros fd r [[<- <-]|[Hne Hr]]%lookup_insert_Some.
    + rewrite !lookup_insert_eq. eexists. split_and!; [done|done|done].
    + destruct (H3 fd r Hr) as (c & Hc & Hfd & Hb). rewrite !lookup_insert_ne; [congruence|congruence|]. by exists c.
  - intros r c [[<- <-]|[_ Hc]]%lookup_insert_Some; [cbn; lia|]. apply H4 in Hc. lia.
  - intros r r' c c' [[<- <-]|[_ Hc]]%lookup_insert_Some [[<- <-]|[_ Hc']]%lookup_insert_Some; try done; cbn [cn_FD].
    + apply H4 in Hc'. lia.
    + apply H4 in Hc. lia.
    + by apply H5.
  - intros r [<-|[_ Hb]]%lookup_insert_is_Some; [rewrite lookup_insert_eq; by eexists|]. apply lookup_insert_is_Some'. right. by apply H6.
  - intros r c Hb [[<- <-]|[Hne Hc]]%lookup_insert_Some; [left; apply lookup_insert_eq|].
    rewrite lookup_insert_ne in Hb; [done|]. destruct (H7 r c Hb Hc) as [H|H]; [left|by right].
    apply H4 in Hc. rewrite lookup_insert_ne; [lia|done].
Qed.

Lemma reader_ends_inv n now ref c w :
  gate_inv n w -> gw_conns w !! ref = Some c -> is_Some (gw_buffers w !! ref) ->
  exists w', reader_ends pick now ref c w = Ret w' /\ gate_inv n w'.
Proof.
  intros [H1 H2 H3 H4 H5 H6 H7 H8 H9] Hc Hb. unfold reader_ends. rewrite notify_nobody //. eexists. split; [reflexivity|].
  constructor; cbn [gw_gate gw_conns gw_closed gw_buffers gw_forwarded with_buffers with_closed with_gate g_watchdog g_nextFD g_connections g_system with_connections]; try done.
  - intros fd r [Hne Hr]%lookup_delete_Some. destruct (H3 fd r Hr) as (x & Hx & Hfd & Hxb). exists x. split_and!; [done|done|].
    rewrite lookup_delete_ne; [congruence|done].
  - intros r [x [_ Hx]%lookup_delete_Some]. apply H6. exact (mk_is_Some _ _ Hx).
  - intros r x [y [Hne Hy]%lookup_delete_Some] Hx. destruct (H7 r x (mk_is_Some _ _ Hy) Hx) as [H|H]; [left|right; set_solver].
    rewrite lookup_delete_ne; [|done]. intros E. apply Hne. by apply (H5 ref r c x).
Qed.

(** A message to an open mailbox: the send returns, and mailboxes stay open. *)
Lemma sys_Send_open from id ty data now (s : system unit) :
  (forall id ref, GetActor id s = Some ref -> exists a, sy_actors s !! ref = Some a /\ ch_closed (a_mailbox a) = false) ->
  exists w r, sys_Send pick from id ty data now s = Ret (with_table (sy_router s) w s, r) /\
    (is_Some (GetActor id s) \/ exists e, r = Err e) /\
    forall id ref, GetActor id s = Some ref -> exists a, w !! ref = Some a /\ ch_closed (a_mailbox a) = false.
Proof.
  intros Hop. unfold sys_Send, Route. cbn [m_Target]. destruct (r_actors _ !! id) as [ref|] eqn:Hr.
  2:{ eexists _, _. split; [reflexivity|]. split; [right; by eexists|done]. }
  destruct (Hop id ref Hr) as (a & Ha & Hcl). cbn [act_Send System.world actor_world]. rewrite Ha.
  assert (exists a' r, actor_Send pick (Some (mkMessage 0 ty from id 0 data now)) a = Ret (a', r) /\ ch_closed (a_mailbox a') = false) as (a' & r & -> & Hcl').
  { unfold actor_Send, Send_select. destruct (Send_check a); [by eexists _, _|]. destruct (_ && _); [|destruct (a_ctxDone a); by eexists _, _].
    rewrite (try_send_open _ _ Hcl). case_decide; by eexists _, _. }
  cbn [mbind go_bind]. eexists _, r. split; [reflexivity|]. split; [left; exact (mk_is_Some _ _ Hr)|]. intros id' ref' Hr'.
  destruct (decide (ref = ref')) as [<-|Hne]; [rewrite lookup_insert_eq; by exists a'|]. rewrite lookup_insert_ne; [done|]. by apply (Hop id').
Qed.

Lemma sent_inv n w s ws fwd :
  gate_inv n w -> g_system (gw_gate w) = Some s -> (forall sl, sl ∈ fwd -> sl_to sl = 1) ->
  (forall id ref, GetActor id s = Some ref -> exists a, ws !! ref = Some a /\ ch_closed (a_mailbox a) = false) ->
  gate_inv n (with_forwarded (gw_forwarded w ++ fwd) (with_gate (with_system (Some (with_table (sy_router s) ws s)) (gw_gate w)) w)).
Proof.
  intros [H1 H2 H3 H4 H5 H6 H7 H8 H9] Hs Hf Hop. constructor; cbn [gw_gate gw_conns gw_closed gw_buffers gw_forwarded with_forwarded with_gate with_system g_watchdog g_nextFD g_connections g_system]; try done.
  - intros s2 id ref [= <-] Hg. split; [by apply (H8 s id ref)|by apply (Hop id ref)].
  - intros sl [H|H]%elem_of_app; [by apply H9|by apply Hf].
Qed.

(** A turn of a reader. *)
Lemma reader_turn_inv n clk ref r w : gate_inv n w -> exists w', reader_turn pick clk ref r w = Ret w' /\ gate_inv n w'.
Proof.
  intros Hinv. pose proof (gi_watchdog n w Hinv) as H0. unfold reader_turn. destruct (gw_buffers w !! ref) as [buffer|] eqn:Hb; [|by exists w].
  destruct (gw_conns w !! ref) as [c|] eqn:Hc; [|by exists w].
  pose proof (fun now => reader_ends_inv n now ref c w Hinv Hc (mk_is_Some _ _ Hb)) as Hend.
  destruct r as [b| |e]; [|by apply Hend|rewrite notify_nobody //; by apply Hend].
  destruct (bool_decide _); [by exists w|]. set (w1 := with_buffers _ w). assert (gate_inv n w1) as Hw1.
  { destruct Hinv as [H1 H2 H3 H4 H5 H6 H7 H8 H9]. constructor; cbn [w1 gw_gate gw_conns gw_closed gw_buffers gw_forwarded with_buffers]; try done.
    - intros fd r Hr. destruct (H3 fd r Hr) as (x & Hx & Hfd & Hxb). exists x. split_and!; [done|done|]. apply lookup_insert_is_Some'. by right.
    - intros r [<-|[_ Hr]]%lookup_insert_is_Some; [exact (mk_is_Some _ _ Hc)|by apply H6].
    - intros r x [<-|[_ Hr]]%lookup_insert_is_Some Hx; by apply H7. }
  destruct (cn_Agent c =? 0); [rewrite notify_nobody //; by exists w1|]. unfold forwardToAgent.
  destruct (g_system (gw_gate w1)) as [s|] eqn:Hs; [|by exists w1].
  destruct (sys_Send_open (cn_Agent c) (cn_Agent c) MessageTypeText (take 4096 b) (clk 0%nat) s) as (ws & r & -> & Hr & Hop).
  { intros id r Hg. by apply (gi_alone n w1 Hw1 s id r). }
  cbn [mbind go_bind]. eexists. split; [reflexivity|]. destruct r as [u|e].
  - apply (sent_inv n w1 s); [done|done| |done]. intros sl ->%list_elem_of_singleton. destruct Hr as [[r Hg]|[e [=]]].
    by apply (gi_alone n w1 Hw1 s (cn_Agent c) r).
  - pose proof (sent_inv n w1 s ws [] Hw1 Hs) as H. rewrite app_nil_r in H.
    assert (forall x l, l = gw_forwarded x -> with_forwarded l x = x) as Hsame by by intros [] ? ->. rewrite Hsame in H; [done|]. apply H; [|done].
    by intros sl ?%elem_of_nil.
Qed.
End owning.

Section deployed.
Context (oob oob_id : float64 -> Z) (json_error : bytes -> error) (pick : bool).

(** Messages whose arguments have the types the gate asserts: numbers, except for the
    configuration of an open command. *)
Definition is_number (v : json float64) : bool := match v with JNum _ => true | _ => false end.
Definition tame (msg : Message) : bool :=
  match Unmarshal_Command (m_Data msg) with
  | Some cmd => eqs (cmd_Command cmd) "open" || forallb is_number (cmd_Args cmd)
  | None => true
  end.
Definition tame_input (i : gate_input) : Prop := match i with GMessage _ msg => tame msg = true | _ => True end.

Lemma must_number v : is_number v = true -> exists f, must_float64 v = Ret f.
Proof. destruct v; [done..| |done|done|done]; by eexists. Qed.

Lemma on_connection_ret n fd f w : gate_inv n w -> exists x, on_connection fd f w = Ret x.
Proof.
  intros Hinv. unfold on_connection. destruct (_ !! fd) as [ref|] eqn:E; [|by eexists].
  destruct (gi_table n w Hinv fd ref E) as (c & -> & _). by eexists.
Qed.

Lemma tame_returns n listen msg w : gate_inv n w -> tame msg = true ->
  exists w' e, gate_HandleMessage oob oob_id json_error listen msg w = Ret (w', e).
Proof.
  intros Hinv. assert (forall (r : go (gate_world * option error)), (exists x, r = Ret x) -> exists w' e, r = Ret (w', e)) as Hpair.
  { intros r [[w' e] ->]. by eexists _, _. }
  unfold tame, gate_HandleMessage, handleClientData. destruct (_ =? _); [|destruct (_ =? _); by eexists _, _].
  unfold gate_handleCommand. destruct (Unmarshal_Command _) as [[name args]|]; [|by eexists _, _]. cbn [cmd_Command cmd_Args].
  destruct (eqs name "open") eqn:Eo.
  { destruct args as [|v args]; [by eexists _, _|]. destruct (as_object v) as [config|]; [|by eexists _, _].
    destruct (g_open oob listen config w) as [w' e]. by eexists _, _. }
  cbn [orb]. intros Hnum. apply Hpair.
  destruct (eqs name "forward").
  { destruct args as [|v0 [|v1 [|v2 args]]]; try by eexists. cbn [forallb] in Hnum. apply andb_prop in Hnum as [N0 [N1 [N2 _]%andb_prop]%andb_prop].
    apply must_number in N0 as [f0 ->]. apply must_number in N1 as [f1 ->]. apply must_number in N2 as [f2 ->]. by apply (on_connection_ret n). }
  destruct (eqs name "accept").
  { destruct args as [|v0 args]; [by eexists|]. cbn [forallb] in Hnum. apply andb_prop in Hnum as [[f0 ->]%must_number _]. by apply (on_connection_ret n). }
  destruct (eqs name "kick"); [|by eexists]. destruct args as [|v0 args]; [by eexists|]. cbn [forallb] in Hnum.
  apply andb_prop in Hnum as [[f0 ->]%must_number _]. cbn [mbind go_bind]. unfold g_kick. destruct (_ !! _) as [ref|] eqn:E; [|by eexists].
  destruct (gi_table n w Hinv _ ref E) as (c & -> & _). by eexists.
Qed.

Lemma gate_step n clk i w :
  gate_inv n w -> Z.of_nat n < 2 ^ 62 -> tame_input i ->
  exists w' n', gate_exec1 oob oob_id json_error pick clk i w = Ret w' /\ gate_inv n' w' /\ (n <= n' <= S n)%nat.
Proof.
  intros Hinv Hn Hi. destruct i as [listen msg|i|i r|k|ref r|]; cbn [gate_exec1].
  - destruct (tame_returns n listen msg w Hinv Hi) as (w' & e & E). rewrite E. exists w', n. split_and!; [done| |lia|lia].
    by apply (gate_message_inv oob oob_id json_error n listen msg w w' e).
  - exists (accept_check i w), n. split_and!; [done| |lia|lia]. unfold accept_check. destruct (gw_accepts w !! i) as [[l|]|]; [done| |done].
    destruct (g_running _); by apply with_accepts_inv.
  - exists (accept_returns i r w), n. split_and!; [done| |lia|lia]. unfold accept_returns. destruct (gw_accepts w !! i) as [[l|]|]; [|done|done].
    cbv zeta. destruct (if bool_decide _ then None else r); by apply with_accepts_inv.
  - destruct (set_up pick n (clk 0%nat) k w Hinv Hn) as (w' & E & [[Hw' _]|[-> _]]).
    + exists w', (S n). split_and!; [done|done|lia|lia].
    + exists w, n. split_and!; [done|done|lia|lia].
  - destruct (reader_turn_inv pick n clk ref r w Hinv) as (w' & E & Hw'). exists w', n. split_and!; [done|done|lia|lia].
  - exists (g_close w).1, n. split_and!; [done|by apply g_close_inv|lia|lia].
Qed.

Lemma gate_exec_inv clk l : forall n w,
  gate_inv n w -> Z.of_nat (n + length l) < 2 ^ 62 -> Forall tame_input l ->
  exists w' n', gate_exec oob oob_id json_error pick clk l w = Ret w' /\ gate_inv n' w'.
Proof.
  induction l as [|i l IH]; intros n w Hinv Hn Hl; [by exists w, n|]. inversion Hl as [|? ? Hi Hl']; subst. cbn [length gate_exec] in *.
  destruct (gate_step n (clk (S (length l))) i w Hinv ltac:(lia) Hi) as (w1 & n1 & -> & H1 & Hb). cbn [mbind go_bind]. apply (IH n1 w1 H1); [lia|done].
Qed.

Lemma gate_starts clk :
  exists h s, gs_Start pick clk NewGateService = Ret (mkGateService (idle_world (with_system (Some s) NewGate)) (Some h), None) /\
    gate_inv 0 (idle_world (with_system (Some s) NewGate)).
Proof.
  assert (match NewService pick "GATE" tt DefaultActorOptions clk [] NewActorSystem with
    | Ret (s, Ok (Some _)) => match map_to_list (r_actors (ar_router (sy_router s))) with
        | [(id, ref)] => id = 1 /\ match sy_actors s !! ref with Some a => ch_closed (a_mailbox a) = false | None => False end
        | _ => False end
    | _ => False end) as H by (destruct pick; vm_compute; done).
  unfold gs_Start. destruct (NewService _ _ _ _ _ _ _) as [[s [[h|]|]]| |]; try done. exists h, s. split; [done|].
  destruct (map_to_list (r_actors (ar_router (sy_router s)))) as [|[id ref] [|]] eqn:El; try done. destruct H as [-> Ha].
  constructor; cbn [idle_world gw_gate gw_conns gw_closed gw_buffers gw_forwarded g_system with_system]; try done.
  - by intros r [x Hx].
  - intros s' id r [= <-] Hg. unfold GetActor, Lookup in Hg. apply elem_of_map_to_list in Hg. rewrite El in Hg.
    apply list_elem_of_singleton in Hg as [= -> ->]. split; [done|]. destruct (sy_actors s !! ref) as [a|]; [by exists a|done].
  - by intros sl ?%elem_of_nil.
Qed.

(** C14. The gate owns its connections. From the start of the service, whatever messages
    with numbers for arguments it handles, however its accept loops, set-ups and
    readers run and whatever the network gives them: nothing panics; a fd in the table
    is that of one connection record, which a reader reads; no two records have one
    fd; a connection that is read is in the table under its fd, or it is closed. But
    the gate talks to nobody: its watchdog is never set, so no event is ever sent, and
    data is only ever forwarded to actor 1, the gate itself, whatever agent a
    connection was forwarded to. *)
Theorem gate_owns_connections clk0 clk l :
  Forall tame_input l -> Z.of_nat (length l) < 2 ^ 62 ->
  exists h s w, gs_Start pick clk0 NewGateService = Ret (mkGateService (idle_world (with_system (Some s) NewGate)) (Some h), None) /\
    gate_exec oob oob_id json_error pick clk l (idle_world (with_system (Some s) NewGate)) = Ret w /\
    (forall fd ref, g_connections (gw_gate w) !! fd = Some ref ->
       exists c, gw_conns w !! ref = Some c /\ cn_FD c = fd /\ is_Some (gw_buffers w !! ref)) /\
    (forall ref ref' c c', gw_conns w !! ref = Some c -> gw_conns w !! ref' = Some c' -> cn_FD c = cn_FD c' -> ref = ref') /\
    (forall ref c, is_Some (gw_buffers w !! ref) -> gw_conns w !! ref = Some c ->
       g_connections (gw_gate w) !! cn_FD c = Some ref \/ cn_Conn c ∈ gw_closed w) /\
    g_watchdog (gw_gate w) = 0 /\ (forall sl, sl ∈ gw_forwarded w -> sl_to sl = 1).
Proof.
  intros Hl Hn. destruct (gate_starts clk0) as (h & s & Hs & Hinv). destruct (gate_exec_inv clk l 0 _ Hinv Hn Hl) as (w & n' & Hw & [H1 H2 H3 H4 H5 H6 H7 H8 H9]).
  exists h, s, w. exact (conj Hs (conj Hw (conj H3 (conj H5 (conj H7 (conj H1 H9)))))).
Qed.
End deployed.

(** ** Runs the properties apply to *)

Definition demo_clk : clock := fun _ => 0.
Definition demo_message (name : string) (args : list (json Z)) : Message :=
  mkMessage 0 MessageTypeRequest 0 1 0 (marshal_Command name (Some args)) 0.
Definition demo_listen (addr : string) : res nat := Ok (if eqs addr "127.0.0.1:8888" then 3%nat else 4%nat).
(** The gate opens, a client connects, is forwarded to actor 1 and sends. *)
Definition demo_gate_inputs : list gate_input :=
  [GMessage demo_listen (demo_message "open" [JObj []]); GCheck 0; GAccepted 0 (Some (7%nat, "10.0.0.1:5000")); GCheck 0;
   GSetup 0; GMessage demo_listen (demo_message "accept" [JNum 1]);
   GMessage demo_listen (demo_message "forward" [JNum 1; JNum 1; JNum 1])].
Definition demo_gate_ends : list gate_input :=
  [GRead 0 (RData [104; 105]); GMessage demo_listen (demo_message "kick" [JNum 1]); GRead 0 (RError "use of closed network connection"); GStop].

Definition run_gate (l : list gate_input) : gate_world :=
  match gs_Start true demo_clk NewGateService with
  | Ret (sv, _) => match gate_exec (fun _ => 0) (fun _ => 0) (fun _ => "") true (fun _ => demo_clk) l (gs_world sv) with
      | Ret w => w | _ => idle_world NewGate end
  | _ => idle_world NewGate
  end.

Lemma gate_owns_connections_witness :
  exists h s w, gs_Start true demo_clk NewGateService = Ret (mkGateService (idle_world (with_system (Some s) NewGate)) (Some h), None) /\
    gate_exec (fun _ => 0) (fun _ => 0) (fun _ => "") true (fun _ => demo_clk) (demo_gate_inputs ++ demo_gate_ends)
      (idle_world (with_system (Some s) NewGate)) = Ret w /\ g_watchdog (gw_gate w) = 0.
Proof.
  destruct (gate_owns_connections (fun _ => 0) (fun _ => 0) (fun _ => "") true demo_clk (fun _ => demo_clk) (demo_gate_inputs ++ demo_gate_ends))
    as (h & s & w & H1 & H2 & _ & _ & _ & H3 & _).
  - repeat (constructor; [vm_compute; exact I || reflexivity|]). constructor.
  - done.
  - exists h, s, w. exact (conj H1 (conj H2 H3)).
Defined.

Definition demo_world : gate_world := run_gate demo_gate_inputs.
Definition demo_buffer : bytes := default [] (gw_buffers demo_world !! 0%nat).
Definition demo_conn : Connection := mkConnection 1 "10.0.0.1:5000" 1 1 "accepted" 7.
Definition demo_gate_sys : system unit := default NewActorSystem (g_system (gw_gate demo_world)).
Definition demo_gate_actor : actor unit := default (fresh_actor tt DefaultActorOptions demo_clk NewActorSystem) (sy_actors demo_gate_sys !! 0%nat).

Lemma forwarded_data_overwritten_witness :
  exists w1 w2, reader_turn true demo_clk 0 (RData [104; 105]) demo_world = Ret w1 /\ reader_turn true demo_clk 0 (RData [121; 111; 33]) w1 = Ret w2 /\
    gw_forwarded w2 = [] ++ [mkSlice 1 0 2; mkSlice 1 0 3] /\ slice_bytes w1 (mkSlice 1 0 2) = [104; 105] /\
    slice_bytes w2 (mkSlice 1 0 2) = [121; 111] /\ slice_bytes w2 (mkSlice 1 0 3) = [121; 111; 33].
Proof.
  exact (forwarded_data_overwritten true demo_clk demo_clk 0 [104; 105] [121; 111; 33] demo_world demo_gate_sys demo_buffer demo_conn 0 demo_gate_actor
    ltac:(vm_compute; reflexivity) ltac:(vm_compute; reflexivity) ltac:(vm_compute; by intros ?) ltac:(vm_compute; by intros ?)
    ltac:(vm_compute; lia) ltac:(vm_compute; reflexivity) ltac:(vm_compute; reflexivity) ltac:(vm_compute; reflexivity)
    ltac:(vm_compute; reflexivity) ltac:(vm_compute; reflexivity) ltac:(vm_compute; reflexivity) ltac:(vm_compute; lia)).
Defined.

(** A gate that has a watchdog: itself, the only actor it can reach. *)
Definition demo_wired : gate_world :=
  let g := gw_gate demo_world in
  with_gate (mkGate 1 (g_listener g) (g_connections g) (g_nextFD g) (g_system g) (g_running g)) demo_world.

Lemma report_reaches_watchdog_witness :
  exists w' s' msg, notifyWatchdog true 0 "open" 1 "10.0.0.1:5000" demo_wired = Ret w' /\ g_system (gw_gate w') = Some s' /\
    queue_of 0 s' = Some (ch_buf (a_mailbox demo_gate_actor) ++ [Some msg]) /\ m_Type msg = MessageTypeText /\
    Unmarshal_SocketEvent (m_Data msg) = Some (mkSocketEvent "open" 1 "10.0.0.1:5000" "" 0).
Proof.
  exact (report_reaches_watchdog true 0 (SkOpen 1 "10.0.0.1:5000") demo_wired demo_gate_sys 0 demo_gate_actor
    ltac:(split; [unfold fd_ok; cbn; lia|by split]) I ltac:(by vm_compute) ltac:(vm_compute; reflexivity) ltac:(vm_compute; reflexivity)
    ltac:(vm_compute; reflexivity) ltac:(vm_compute; reflexivity) ltac:(vm_compute; reflexivity) ltac:(vm_compute; reflexivity) ltac:(vm_compute; lia)).
Defined.

(** A gate that is closed and opened again before its accept loop has come back
    accepts with two loops. *)
Example reopened_gate_accepts_twice :
  gw_accepts (run_gate [GMessage demo_listen (demo_message "open" [JObj []]); GCheck 0; GStop;
    GMessage demo_listen (demo_message "open" [JObj [("port", JNum 9999)]]); GCheck 1; GAccepted 0 None; GCheck 0]) = [Some 4%nat; Some 4%nat].
Proof. vm_compute. reflexivity. Qed.

(** A connection that is set up after the gate was closed stays: it is in the table,
    open, with a reader. *)
Example close_misses_accepted :
  let w := run_gate [GMessage demo_listen (demo_message "open" [JObj []]); GCheck 0; GAccepted 0 (Some (7%nat, "10.0.0.1:5000")); GStop; GSetup 0; GCheck 0] in
  g_running (gw_gate w) = false /\ g_connections (gw_gate w) !! 1 = Some 0%nat /\ is_Some (gw_buffers w !! 0%nat) /\ gw_closed w = ∅ /\ gw_accepts w = [].
Proof. vm_compute. split_and!; [done|done|by eexists|done|done]. Qed.
