(* ===== verification/EchoExample.v ===== *)
(** src/examples/echo_server/main.go and src/examples/echo_client/main.go: the handlers
    of an echo server on the connections of TcpConn.v and the manager of
    ConnManager.v, and the client that talks to it.

    What the example prints is left out, and so are the results it drops. *)

From S2P Require Import Prelude CoreTypes NetMessage TcpConn ConnManager GoText.

Section echo.
Context {U : Type}.
Notation tcp := (tcpConnection U).
(** What the sockets return, the address of the peer, and [Format] with the layout
    RFC3339 in the local time zone. *)
Context (setErr writeErr closeErr : option error) (addr : string) (fmt_RFC3339 : time -> string).

(** [conn.SendMessage(m)] *)
Definition reply (now : time) (m : Net.Message U) (tc : tcp) : go tcp :=
  '(tc', _, _) ← SendMessage setErr writeErr now (Some m) tc; Ret tc'.

Definition rpc_response (now : time) (rpcCall : bytes) (tc : tcp) : go bytes :=
  if bool_decide (rpcCall = bytes_of_string "ping") then Ret (bytes_of_string "pong")
  else if bool_decide (rpcCall = bytes_of_string "time") then Ret (bytes_of_string (fmt_RFC3339 now))
  else if bool_decide (rpcCall = bytes_of_string "stats") then
    stats ← GetStatistics addr addr tc;
    Ret (bytes_of_string ("Bytes: R/W=" +:+ pretty (cs_BytesRead stats) +:+ "/" +:+ pretty (cs_BytesWritten stats)
           +:+ ", Messages: R/S=" +:+ pretty (cs_MessagesRead stats) +:+ "/" +:+ pretty (cs_MessagesSent stats)))
  else Ret (bytes_of_string "Unknown RPC call: " ++ rpcCall).
Definition handleRPC (clk : clock) (msg : Net.Message U) (tc : tcp) : go tcp :=
  response ← rpc_response (clk 0%nat) (Net.nm_Data msg) tc;
  reply (clk 2%nat) (Net.NewRPCMessage (Net.nm_Destination msg) (Net.nm_Source msg) response (clk 1%nat)) tc.

Definition echo_OnMessage (clk : clock) (msg : Net.Message U) (tc : tcp) : go tcp :=
  let t := Net.nm_Type msg in
  if t =? Net.MessageTypeHeartbeat then reply (clk 1%nat) (Net.NewAckMessage (Net.nm_Sequence msg) (clk 0%nat)) tc
  else if t =? Net.MessageTypeData then
    reply (clk 1%nat) (Net.NewMessage Net.MessageTypeData (bytes_of_string "Echo: " ++ Net.nm_Data msg) (clk 0%nat)) tc
  else if t =? Net.MessageTypeRPC then handleRPC clk msg tc
  else Ret tc.

(** ** Connections that come and go

    In whatever world the connections live; the instance is that of the moment. *)
Section handler.
Context {W : Type} (conns : time -> ConnIface W nat (Net.Message U)).
Notation manager := (connectionManager nat).

Definition welcome (now : time) : Net.Message U :=
  Net.NewMessage Net.MessageTypeData (bytes_of_string "Welcome to SNGO Echo Server!") now.
Definition echo_OnConnect (clk : clock) (ref : nat) (cm : manager) (w : W) : go (manager * W) :=
  let '(cm', _) := AddConnection (ConnIface0 := conns (clk 0%nat)) (Some ref) w cm in
  '(w', _) ← cn_SendMessage (ConnIface := conns (clk 1%nat)) ref (Some (welcome (clk 0%nat))) w;
  Ret (cm', w').
Definition echo_OnDisconnect (now : time) (ref : nat) (cm : manager) (w : W) : go (manager * W) :=
  '(cm', w', _) ← RemoveConnection (ConnIface0 := conns now) (cn_ID (ConnIface := conns now) w ref) cm w; Ret (cm', w').
End handler.

(** The factory's connection managers (src/network/factory.go). *)
Definition nf_CreateConnectionManager (now : time) : connectionManager nat := NewConnectionManager now.
Definition CreateConnectionManager (now : time) : connectionManager nat := nf_CreateConnectionManager now.

(** ** The client *)

(** What the client prints of a message. *)
Definition client_prints (msg : Net.Message U) : string :=
  let t := Net.nm_Type msg in
  let text := string_of_bytes (Net.nm_Data msg) in
  if t =? Net.MessageTypeData then
    if String.prefix "Welcome" text then "Server: " +:+ text else "Server echo: " +:+ text
  else if t =? Net.MessageTypeRPC then "RPC response: " +:+ text
  else if t =? Net.MessageTypeAck then "Server acknowledged sequence " +:+ pretty (Net.nm_Sequence msg)
  else "Received message type " +:+ Net.MessageType_String t +:+ ": " +:+ text.
End echo.

(** ** What is echoed *)

Section round_trip.
Context {U : Type}.
Notation tcp := (tcpConnection U).
Context (closeErr : option error) (addr : string) (fmt_RFC3339 : time -> string).

Lemma data_message_wf data now :
  is_i64 (Unix now) -> Z.of_nat (length data) <= Net.MaxDataSize -> Net.msg_wf (U := U) (Net.NewMessage Net.MessageTypeData data now).
Proof. intros. constructor; try done; unfold is_u32, is_u64; cbn; unfold Net.MessageTypeData, Net.MessageFlagNone; lia. Qed.

(** Reading touches neither the state of the connection, nor its queue, nor what was
    written. *)
Definition core (tc : tcp) := (tc_id tc, tc_conn tc, tc_state tc, tc_closed tc, tc_sendChan tc, tc_out tc).

Lemma read_loop_keeps fuel need (tc tc' : tcp) r : read_loop fuel need tc = Ret (tc', r) -> core tc' = core tc.
Proof.
  revert need tc tc' r. induction fuel as [|fuel IH]; intros [|need] tc tc' r; cbn [read_loop]; try done; try by intros [= <- _].
  destruct (conn_Read _ _) as [[got|e] inp]; [|by intros [= <- _]].
  destruct (read_loop fuel _ _) as [[tc1 r1]| |] eqn:E; [|done..]. cbn [mbind go_bind]. intros [= <- _]. by apply IH in E.
Qed.

Lemma ReadMessage_keeps setErr now (tc tc' : tcp) r : ReadMessage setErr now tc = Ret (tc', r) -> core tc' = core tc.
Proof.
  unfold ReadMessage. destruct (tc_closed tc) eqn:Hc; [by intros [= <- _]|]. destruct (negb (tc_conn tc)); [done|].
  destruct (if 0 <? tc_readTimeout tc then setErr else None); [by intros [= <- _]|].
  destruct (readFull 32 tc) as [[tc1 h]| |] eqn:E1; [|done..]. apply read_loop_keeps in E1. cbn [mbind go_bind].
  destruct h as [hb|e]; [|by intros [= <- _]]. destruct (Net.DecodeHeader hb) as [[hd size]|e]; [|by intros [= <- _]].
  destruct (if (0 <? size)%nat then readFull size tc1 else Ret (tc1, Ok [])) as [[tc2 d]| |] eqn:E2; [|done..]. cbn [mbind go_bind].
  assert (core tc2 = core tc) as H2.
  { rewrite -E1. destruct (0 <? size)%nat; [by apply read_loop_keeps in E2|by injection E2 as <- _]. }
  destruct d as [db|e]; intros [= <- _]; exact H2.
Qed.

(** A message sent on an open connection whose queue is empty, and the turn of the
    send loop after it: its encoding is on the socket. *)
Lemma reply_written now (m : Net.Message U) (tc : tcp) b :
  Net.Encode (Some m) = Ok b -> tc_closed tc = false -> tc_conn tc = true -> ch_closed (tc_sendChan tc) = false ->
  ch_buf (tc_sendChan tc) = [] -> (0 < ch_cap (tc_sendChan tc))%nat ->
  exists tc1, reply None None now m tc = Ret tc1 /\
    forall now', exists tc2, sendLoop1 None None closeErr now' tc1 = Some (Ret (tc2, true)) /\ tc_out tc2 = tc_out tc ++ b.
Proof.
  intros He Hc Hn Hop Hbuf Hcap. pose proof (Net.Encode_ok _ _ He) as [Hb _].
  assert (Net.Encode (Some (Net.with_body (Net.nm_Data m) (tc_id tc) m)) = Ok b) as He' by by destruct m.
  assert (length b <> 0%nat) as Hlen by (rewrite Hb length_app Net.length_header; lia).
  unfold reply, SendMessage. rewrite Hc He'. unfold Send, Send_queue. rewrite Hc (proj2 (Nat.eqb_neq _ _) Hlen) (try_send_open _ _ Hop) Hbuf.
  rewrite decide_True //. cbn [mbind go_bind is_ok]. eexists. split; [reflexivity|]. intros now'. unfold sendLoop1, try_recv.
  cbn [tc_sendChan with_counts with_sendChan ch_buf app tc_closed]. rewrite Hc. unfold sendDirect.
  cbn [tc_conn with_counts with_sendChan tc_writeTimeout]. rewrite Hn. cbn [negb].
  replace (if 0 <? tc_writeTimeout tc then None else None) with (@None error) by by destruct (0 <? _).
  eexists. split; [reflexivity|]. done.
Qed.

(** Echo end to end: a data message of a client arrives at the server, cut into
    segments in any way; the server's handler runs on what it reads and the send loop
    writes; then any connection on which those bytes arrive, again in any segments,
    reads one data message with [Echo: ] before the client's bytes. *)
Theorem echo_round_trip clk now1 now2 now3 data (server : tcp) rest :
  tc_closed server = false -> tc_conn server = true -> ch_closed (tc_sendChan server) = false ->
  ch_buf (tc_sendChan server) = [] -> (0 < ch_cap (tc_sendChan server))%nat -> tc_out server = [] ->
  Z.of_nat (length data) + 6 <= Net.MaxDataSize -> is_i64 (Unix now1) -> is_i64 (Unix (clk 0%nat)) ->
  (exists b, Net.Encode (Some (Net.NewMessage (U := U) Net.MessageTypeData data now1)) = Ok b /\ arriving (tc_in server) (b ++ rest)) ->
  exists msg s1 s2 s3, ReadMessage None now2 server = Ret (s1, Ok msg) /\
    echo_OnMessage None None addr fmt_RFC3339 clk msg s1 = Ret s2 /\ sendLoop1 None None closeErr now2 s2 = Some (Ret (s3, true)) /\
    forall client : tcp, tc_closed client = false -> tc_conn client = true -> arriving (tc_in client) (tc_out s3) ->
      exists c1 answer, ReadMessage None now3 client = Ret (c1, Ok answer) /\
        Net.nm_Type answer = Net.MessageTypeData /\ Net.nm_Data answer = bytes_of_string "Echo: " ++ data.
Proof.
  intros Hc Hn Hop Hbuf Hcap Hout Hlen Hn1 Hn2 (b & Hb & Harr).
  destruct (ReadMessage_arriving now2 server _ b rest Hc Hn (data_message_wf data now1 Hn1 ltac:(lia)) Hb Harr)
    as (s1 & Hread & _ & Hc1 & Hnil1 & Hid).
  assert (tc_sendChan s1 = tc_sendChan server /\ tc_out s1 = tc_out server) as [Hch Hout1] by (pose proof (ReadMessage_keeps None now2 server s1 _ Hread) as [=]; split; congruence).
  set (e := Net.NewMessage (U := U) Net.MessageTypeData (bytes_of_string "Echo: " ++ data) (clk 0%nat)).
  assert (Z.of_nat (length (bytes_of_string "Echo: " ++ data)) <= Net.MaxDataSize) as Hel by (rewrite length_app; change (length (bytes_of_string "Echo: ")) with 6%nat; lia).
  destruct (Net.Encode (Some e)) as [eb|err] eqn:He; [|unfold Net.Encode in He; rewrite (proj2 (Z.ltb_ge _ _) Hel) in He; done].
  destruct (reply_written (clk 1%nat) e s1 eb He Hc1 Hnil1) as (s2 & Hreply & Hloop); [by rewrite Hch|by rewrite Hch|by rewrite Hch|].
  destruct (Hloop now2) as (s3 & Hs3 & Hout3). eexists _, s1, s2, s3. split; [exact Hread|]. split; [exact Hreply|]. split; [exact Hs3|].
  intros client Hcc Hcn Hca. rewrite Hout3 Hout1 Hout in Hca. cbn [app] in Hca.
  destruct (ReadMessage_arriving now3 client e eb [] Hcc Hcn (data_message_wf _ _ Hn2 Hel) He) as (c1 & Hr & _); [by rewrite app_nil_r|].
  eexists c1, _. split; [exact Hr|]. by split.
Qed.
End round_trip.

Definition demo_echo_server : tcpConnection unit :=
  (NewTCPConnection 0 (Some [match Net.Encode (Some (Net.NewMessage (U := unit) Net.MessageTypeData [104; 105] 0)) with Ok b => Ok b | Err e => Err e end]) 0).2.

Lemma echo_round_trip_witness :
  exists msg s1 s2 s3, ReadMessage None 0 demo_echo_server = Ret (s1, Ok msg) /\
    echo_OnMessage None None "" (fun _ => "") (fun _ => 0) msg s1 = Ret s2 /\ sendLoop1 None None None 0 s2 = Some (Ret (s3, true)) /\
    forall client : tcpConnection unit, tc_closed client = false -> tc_conn client = true -> arriving (tc_in client) (tc_out s3) ->
      exists c1 answer, ReadMessage None 0 client = Ret (c1, Ok answer) /\
        Net.nm_Type answer = Net.MessageTypeData /\ Net.nm_Data answer = bytes_of_string "Echo: " ++ [104; 105].
Proof.
  apply (echo_round_trip None "" (fun _ => "") (fun _ => 0) 0 0 0 [104; 105] demo_echo_server []); try done; try (vm_compute; lia).
  eexists. split; [vm_compute; reflexivity|]. eexists [_]. split; [vm_compute; reflexivity|]. by rewrite app_nil_r.
Defined.
