(* ===== verification/SimpleClient.v ===== *)
(** src/examples/client/client.go: the test client's framing, a big-endian uint16 with
    the length and then the bytes.

    A connection is what will arrive on it and what was written to it, as in
    TcpConn.v; [Dial], [Write] and [Close] return what their arguments say. *)

From S2P Require Import Prelude CoreTypes NetMessage TcpConn GoText GoJson.
From Stdlib Require Import Ascii.

Record stream := mkStream { st_in : list (res bytes); st_out : bytes }.
Record SimpleClient := mkSimpleClient { sc_conn : option stream; sc_addr : string; sc_port : Z }.
Definition NewSimpleClient (addr : string) (port : Z) : SimpleClient := mkSimpleClient None addr port.

Definition with_conn (st : option stream) (c : SimpleClient) : SimpleClient := mkSimpleClient st (sc_addr c) (sc_port c).

(** net.JoinHostPort: an address with a colon is put in brackets. *)
Definition JoinHostPort (host port : string) : string :=
  if no_char ":" host then host +:+ ":" +:+ port else "[" +:+ host +:+ "]:" +:+ port.

(** [dial]: what [net.Dial] gives for an address. *)
Definition sc_Connect (dial : string -> res stream) (c : SimpleClient) : SimpleClient * option error :=
  let address := JoinHostPort (sc_addr c) (pretty (sc_port c)) in
  match dial address with
  | Err e => (c, Some ("failed to connect to " +:+ address +:+ ": " +:+ e))
  | Ok conn => (with_conn (Some conn) c, None)
  end.

(** [lengthErr], [writeErr]: what the two writes return. *)
Definition sc_SendMessage (lengthErr writeErr : option error) (message : bytes) (c : SimpleClient) : SimpleClient * option error :=
  match sc_conn c with
  | None => (c, Some "not connected")
  | Some st =>
      let length := Z.of_nat (length message) mod 2 ^ 16 in
      match lengthErr with
      | Some e => (c, Some ("failed to send length: " +:+ e))
      | None =>
          let st1 := mkStream (st_in st) (st_out st ++ Net.be_put 2 length) in
          match writeErr with
          | Some e => (with_conn (Some st1) c, Some ("failed to send message: " +:+ e))
          | None => (with_conn (Some (mkStream (st_in st1) (st_out st1 ++ message))) c, None)
          end
      end
  end.

Definition sc_SendJSON (lengthErr writeErr : option error) (data : json Z) (c : SimpleClient) : SimpleClient * option error :=
  sc_SendMessage lengthErr writeErr (Marshal data) c.

(** io.ReadFull: [got] was read, [need] bytes are missing. The end of the stream is EOF
    before the first byte and an unexpected EOF after it. A read takes a byte or uses
    up a segment: the bytes missing and the segments bound the turns. *)
Fixpoint ReadFull (fuel need : nat) (got : bytes) (inp : list (res bytes)) : go (list (res bytes) * res bytes) :=
  match need with
  | O => Ret (inp, Ok got)
  | _ =>
      match fuel with
      | O => Hang
      | S fuel' =>
          match conn_Read need inp with
          | (Err e, inp') => Ret (inp', Err (if eqs e "EOF" && (0 <? length got)%nat then "unexpected EOF" else e))
          | (Ok b, inp') => ReadFull fuel' (need - length b) (got ++ b) inp'
          end
      end
  end.
Definition io_ReadFull (n : nat) (inp : list (res bytes)) : go (list (res bytes) * res bytes) := ReadFull (n + length inp) n [] inp.

Definition sc_ReceiveMessage (c : SimpleClient) : go (SimpleClient * res bytes) :=
  match sc_conn c with
  | None => Ret (c, Err "not connected")
  | Some st =>
      '(in1, l) ← io_ReadFull 2 (st_in st);
      match l with
      | Err e => Ret (with_conn (Some (mkStream in1 (st_out st))) c, Err ("failed to read length: " +:+ e))
      | Ok lb =>
          '(in2, m) ← io_ReadFull (Z.to_nat (Net.be_get lb)) in1;
          Ret (with_conn (Some (mkStream in2 (st_out st))) c,
               match m with Ok b => Ok b | Err e => Err ("failed to read message: " +:+ e) end)
      end
  end.

Definition sc_Close (closeErr : option error) (c : SimpleClient) : SimpleClient * option error :=
  match sc_conn c with
  | Some _ => (with_conn None c, closeErr)
  | None => (c, None)
  end.

(** ** What is received *)

Lemma ReadFull_arriving fuel need got inp b rest :
  (need + length inp <= fuel)%nat -> length b = need -> arriving inp (b ++ rest) ->
  exists inp', ReadFull fuel need got inp = Ret (inp', Ok (got ++ b)) /\ arriving inp' rest.
Proof.
  revert need got inp b. induction fuel as [|fuel IH]; intros need got inp b Hf Hb Harr.
  { assert (need = 0%nat) as -> by lia. destruct b; [|done]. exists inp. by rewrite app_nil_r. }
  destruct need as [|need]; [destruct b; [|done]; exists inp; by rewrite app_nil_r|]. cbn [ReadFull].
  assert (inp <> []) as Hne. { intros ->. destruct Harr as (segs & Hs & Hc). destruct segs; [|done]. destruct b; done. }
  destruct (conn_Read_arriving (S need) inp (b ++ rest) Harr Hne) as (g & inp' & tl & -> & Heq & Harr' & Hle & Hprog).
  assert (g = take (length g) b) as Hg. { rewrite -(take_app_le b rest); [unfold bytes in *; lia|]. by rewrite Heq take_app_length. }
  assert (tl = drop (length g) b ++ rest) as Htl.
  { apply (f_equal (drop (length g))) in Heq. rewrite drop_app_length in Heq. rewrite drop_app_le in Heq; [unfold bytes in *; lia|]. done. }
  destruct (IH (S need - length g)%nat (got ++ g) inp' (drop (length g) b)) as (inp2 & -> & Ha).
  - lia.
  - rewrite length_drop. lia.
  - by rewrite -Htl.
  - exists inp2. split; [|done]. by rewrite -assoc_L {1}Hg take_drop.
Qed.

(** What one client sends, another receives the first [length mod 65536] bytes of, and
    the rest stays on the stream. *)
Lemma received m (a c : SimpleClient) sa sc rest :
  sc_conn a = Some sa -> st_out sa = [] -> sc_conn c = Some sc ->
  let n := Z.to_nat (Z.of_nat (length m) mod 2 ^ 16) in
  exists a' sa', sc_SendMessage None None m a = (a', None) /\ sc_conn a' = Some sa' /\
    (arriving (st_in sc) (st_out sa' ++ rest) ->
     exists c' sc', sc_ReceiveMessage c = Ret (c', Ok (take n m)) /\ sc_conn c' = Some sc' /\ arriving (st_in sc') (drop n m ++ rest)).
Proof.
  intros Ha Hout Hc n. unfold sc_SendMessage. rewrite Ha. eexists _, _. split; [reflexivity|]. split; [reflexivity|].
  cbn [st_out]. rewrite Hout. cbn [app]. set (k := Z.of_nat (length m) mod 2 ^ 16) in *.
  assert (0 <= k < 2 ^ 16) as Hk by (apply Z.mod_pos_bound; lia).
  assert (n <= length m)%nat as Hn. { unfold n. pose proof (Z.mod_le (Z.of_nat (length m)) (2 ^ 16)). unfold k. lia. }
  rewrite -!assoc_L. intros Harr. unfold sc_ReceiveMessage. rewrite Hc.
  destruct (ReadFull_arriving (2 + length (st_in sc)) 2 [] (st_in sc) (Net.be_put 2 k) (m ++ rest)) as (in1 & Hr1 & Harr1);
    [lia|apply Net.length_be_put|done|].
  unfold io_ReadFull. rewrite Hr1. cbn [mbind go_bind app]. rewrite Net.be_get_put. change (256 ^ Z.of_nat 2) with (2 ^ 16). rewrite (Z.mod_small k _ Hk). fold n.
  rewrite -(take_drop n m) -assoc_L in Harr1.
  destruct (ReadFull_arriving (n + length in1) n [] in1 (take n m) (drop n m ++ rest)) as (in2 & Hr2 & Harr2);
    [lia|rewrite length_take; lia|done|].
  rewrite Hr2. cbn [mbind go_bind app]. eexists _, _. split; [reflexivity|]. by split.
Qed.

(** The client's framing: a message of fewer than 65536 bytes, sent on one connection
    and arriving on another in any segments, is received whole and leaves what came
    after it. *)
Theorem client_framing_roundtrip m (a c : SimpleClient) sa sc rest :
  Z.of_nat (length m) < 2 ^ 16 -> sc_conn a = Some sa -> st_out sa = [] -> sc_conn c = Some sc ->
  exists a' sa', sc_SendMessage None None m a = (a', None) /\ sc_conn a' = Some sa' /\
    (arriving (st_in sc) (st_out sa' ++ rest) ->
     exists c' sc', sc_ReceiveMessage c = Ret (c', Ok m) /\ sc_conn c' = Some sc' /\ arriving (st_in sc') rest).
Proof.
  intros Hm Ha Hout Hc. destruct (received m a c sa sc rest Ha Hout Hc) as (a' & sa' & H1 & H2 & H3). exists a', sa'. split; [done|]. split; [done|].
  intros Harr. destruct (H3 Harr) as (c' & sc' & H4 & H5 & H6). rewrite (Z.mod_small _ _ (conj (Nat2Z.is_nonneg _) Hm)) Nat2Z.id in H4, H6.
  rewrite firstn_all in H4. rewrite drop_all in H6. by exists c', sc'.
Qed.

(** A longer message is cut: the length is sent modulo 65536, and what follows is read
    as the next message. *)
Theorem long_message_is_cut m (a c : SimpleClient) sa sc rest :
  Z.of_nat (length m) = 2 ^ 16 -> sc_conn a = Some sa -> st_out sa = [] -> sc_conn c = Some sc ->
  exists a' sa', sc_SendMessage None None m a = (a', None) /\ sc_conn a' = Some sa' /\
    (arriving (st_in sc) (st_out sa' ++ rest) ->
     exists c' sc', sc_ReceiveMessage c = Ret (c', Ok []) /\ sc_conn c' = Some sc' /\ arriving (st_in sc') (m ++ rest)).
Proof.
  intros Hm Ha Hout Hc. pose proof (received m a c sa sc rest Ha Hout Hc) as H. rewrite Hm in H.
  change (Z.to_nat (2 ^ 16 mod 2 ^ 16)) with 0%nat in H. exact H.
Qed.

Definition demo_sender : SimpleClient := mkSimpleClient (Some (mkStream [] [])) "127.0.0.1" 8888.
Definition demo_receiver : SimpleClient := mkSimpleClient (Some (mkStream [Ok [0]; Ok [2; 104]; Ok [105; 7]] [])) "127.0.0.1" 8888.

Lemma client_framing_roundtrip_witness :
  exists c' sc', sc_ReceiveMessage demo_receiver = Ret (c', Ok [104; 105]) /\ sc_conn c' = Some sc' /\ arriving (st_in sc') [7].
Proof.
  destruct (client_framing_roundtrip [104; 105] demo_sender demo_receiver (mkStream [] []) (mkStream [Ok [0]; Ok [2; 104]; Ok [105; 7]] []) [7])
    as (a' & sa' & H1 & H2 & H3); [done|done|done|done|].
  apply H3. vm_compute in H1. injection H1 as <-. injection H2 as <-. by exists [[0]; [2; 104]; [105; 7]].
Defined.

(** ** The test program *)

Definition loginMsg : json Z := JObj [("password", JStr "testpass"); ("type", JStr "login"); ("username", JStr "testuser")].
Definition chatMsg : json Z := JObj [("message", JStr "Hello, SNGO!"); ("type", JStr "chat")].
Definition pingMsg (now : time) : json Z := JObj [("timestamp", JNum (Unix now)); ("type", JStr "ping")].

(** Messages one after the other, until one fails. *)
Fixpoint send_each (msgs : list (json Z)) (errs : list (option error * option error)) (c : SimpleClient) : SimpleClient :=
  match msgs with
  | [] => c
  | m :: msgs' =>
      let '(e1, e2) := default (None, None) (head errs) in
      match sc_SendJSON e1 e2 m c with
      | (c', None) => send_each msgs' (tail errs) c'
      | (c', Some _) => c'
      end
  end.

(** [RunTest], with what the writes return; the client before the deferred [Close]. *)
Definition RunTest (dial : string -> res stream) (errs : list (option error * option error)) (now : time) : SimpleClient :=
  let '(client, err) := sc_Connect dial (NewSimpleClient "127.0.0.1" 8888) in
  match err with
  | Some _ => client
  | None => send_each [loginMsg; chatMsg; pingMsg now] errs client
  end.

(** The three messages are on the wire, each in its frame. *)
Lemma RunTest_sends conn now :
  st_out conn = [] ->
  exists c st, RunTest (fun _ => Ok conn) [] now = c /\ sc_conn c = Some st /\
    st_out st = concat (map (fun m => Net.be_put 2 (Z.of_nat (length (Marshal m)) mod 2 ^ 16) ++ Marshal m) [loginMsg; chatMsg; pingMsg now]).
Proof.
  intros Ho. unfold RunTest, sc_Connect. cbn [send_each head default from_option id tail sc_SendJSON sc_SendMessage sc_conn with_conn].
  unfold sc_SendJSON, sc_SendMessage. cbn [sc_conn with_conn]. eexists _, _. split; [reflexivity|]. split; [reflexivity|].
  cbn [st_out st_in]. rewrite Ho. cbn [map concat app]. by rewrite -!assoc_L app_nil_r.
Qed.
