(* ===== verification/ExamplesApp.v ===== *)
(** src/examples/main.go: the three example services in one application. *)

From S2P Require Import Prelude CoreTypes Handle Actor Router Session Registry LoadBalancer Discovery System.
From S2P Require Import NetMessage TcpConn TcpServer GoText GoJson Lifecycle Container Application.
From S2P Require Import SimpleDB Hosting Agent Watchdog Gate.

Inductive example_service := ExSimpleDB | ExWatchdog | ExGate.
Record example_services := mkExampleServices {
  ex_simpledb : SimpleDBService;
  ex_watchdog : WatchdogService;
  ex_gate : GateService;
}.

Section examples.
Context {H L T P : Type} (HandleMessage : H -> Message -> H * Message * option error).
Context (pick : bool) (service_clock : clock) (agents : list Z).
Notation world := (@Application.world H example_services example_service T P).
Notation app_t := (@DefaultApplication H example_services example_service L T P).

Definition put_services (x : example_services) (w : world) : world :=
  mkWorld (aw_config w) (aw_container w) (aw_actorSystem w) (aw_networkServer w) (aw_systems w) (aw_servers w) x.

(** The services as the lifecycle manager calls them. [agents]: the order in which the
    watchdog visits its agents. *)
Definition example_Start (u : example_service) (w : world) : go (world * option error) :=
  let '(mkExampleServices db dog gate) := aw_user w in
  match u with
  | ExSimpleDB => '(sv, e) ← sds_Start pick service_clock db; Ret (put_services (mkExampleServices sv dog gate) w, e)
  | ExWatchdog => '(sv, e) ← wds_Start pick service_clock dog; Ret (put_services (mkExampleServices db sv gate) w, e)
  | ExGate => '(sv, e) ← gs_Start pick service_clock gate; Ret (put_services (mkExampleServices db dog sv) w, e)
  end.
Definition example_Stop (u : example_service) (w : world) : go (world * option error) :=
  let '(mkExampleServices db dog gate) := aw_user w in
  match u with
  | ExSimpleDB => let '(sv, e) := sds_Stop db in Ret (put_services (mkExampleServices sv dog gate) w, e)
  | ExWatchdog => '(sv, e) ← wds_Stop pick service_clock agents dog; Ret (put_services (mkExampleServices db sv gate) w, e)
  | ExGate => let '(sv, e) := gs_Stop gate in Ret (put_services (mkExampleServices db dog sv) w, e)
  end.
Definition example_Health (u : example_service) (w : world) : HealthStatus * option error :=
  (match u with
   | ExSimpleDB => sds_Health (ex_simpledb (aw_user w))
   | ExWatchdog => wds_Health (ex_watchdog (aw_user w))
   | ExGate => gs_Health (ex_gate (aw_user w))
   end, None).

(** [lifecycleManager.Register(name, service)]; a failure is fatal. *)
Definition register_example (name : string) (u : example_service) (now : time) (app : app_t) : res app_t :=
  let '(lm, r) := Lifecycle.Register name (Some (UserService u)) [] now (app_lifecycleManager app) in
  match r with
  | Ok _ => Ok (mkApplication (app_world app) lm (app_running app) (app_shutdownChan app))
  | Err e => Err e
  end.
Definition and_then (r : res app_t) (what : string) (f : app_t -> res app_t) : res app_t :=
  match r with
  | Err e => Err e
  | Ok app => match f app with
      | Ok app' => Ok app'
      | Err e => Err ("Failed to register " +:+ what +:+ " service: " +:+ e)
      end
  end.
(** [main] up to [app.Run]. *)
Definition examples_app (clk : clock) : res app_t :=
  let app := NewApplication (mkExampleServices NewSimpleDBService NewWatchdogService NewGateService) clk in
  let r1 := and_then (Ok app) "SimpleDB" (register_example "simpledb" ExSimpleDB (clk 2%nat)) in
  let r2 := and_then r1 "Watchdog" (register_example "watchdog" ExWatchdog (clk 3%nat)) in
  and_then r2 "Gate" (register_example "gate" ExGate (clk 4%nat)).

(** ** Starting it *)

Definition example_names : list string := ["actor-system"; "network-server"; "simpledb"; "watchdog"; "gate"].
Definition example_table : gmap string (@Application.service example_service) :=
  <["gate" := UserService ExGate]> (<["watchdog" := UserService ExWatchdog]> (<["simpledb" := UserService ExSimpleDB]>
    (<["network-server" := NetworkServerService]> (<["actor-system" := ActorSystemService]> ∅)))).
Definition example_deps : gmap string (list string) :=
  <["gate" := []]> (<["watchdog" := []]> (<["simpledb" := []]> (<["network-server" := ["actor-system"]]> (<["actor-system" := []]> ∅)))).

(** What each service is before and after its start. *)
Definition db_started (db : SimpleDBService) : Prop :=
  exists h s, sds_handle db = Some h /\ sds_system db = Some s /\ sds_db db = NewSimpleDB.
Definition dog_started (dog : WatchdogService) : Prop :=
  exists h s, dog = mkWatchdogService NewWatchdog (Some h) (Some s) /\ wd_inv pick 1 (NewWatchdog, s).
Definition gate_started (gate : GateService) : Prop :=
  exists h s, gate = mkGateService (idle_world (with_system (Some s) NewGate)) (Some h) /\
    gate_inv 0 (idle_world (with_system (Some s) NewGate)).
Definition started_when {A} (dn : gset string) (name : string) (started : A -> Prop) (init a : A) : Prop :=
  if decide (name ∈ dn) then started a else a = init.

Definition system_started (w : world) : Prop :=
  aw_actorSystem w = Some 0%nat /\ aw_systems w = [NewActorSystem] /\
  aw_container w = mkDefaultContainer ∅ {["actor-system" := Some (ISystem 0)]} false.
Definition started (dn : gset string) (w : world) : Prop :=
  (if decide ("actor-system" ∈ dn) then system_started w
   else aw_actorSystem w = None /\ aw_systems w = [] /\ aw_container w = NewContainer) /\
  aw_networkServer w = None /\
  started_when dn "simpledb" db_started NewSimpleDBService (ex_simpledb (aw_user w)) /\
  started_when dn "watchdog" dog_started NewWatchdogService (ex_watchdog (aw_user w)) /\
  started_when dn "gate" gate_started NewGateService (ex_gate (aw_user w)).

Lemma started_when_other {A} dn name name' (Q : A -> Prop) init a :
  name <> name' -> started_when dn name Q init a -> started_when ({[name']} ∪ dn) name Q init a.
Proof.
  intros Hne. unfold started_when. intros Ha. destruct (decide (name ∈ dn)) as [Hin|Hin].
  - rewrite decide_True //. set_solver.
  - rewrite decide_False //. set_solver.
Qed.
Lemma started_when_self {A} dn name (Q : A -> Prop) init a : Q a -> started_when ({[name]} ∪ dn) name Q init a.
Proof. intros Ha. unfold started_when. rewrite decide_True //. set_solver. Qed.

Lemma db_starts : exists db, sds_Start pick service_clock NewSimpleDBService = Ret (db, None) /\ db_started db.
Proof.
  destruct (service_started pick service_clock [] 0) as (sv & h & sys & _ & _ & H1 & H2 & H3 & _). exists sv. split; [done|]. exists h, sys. split; [done|].
  split; [done|]. unfold sds_Start in H1. destruct (NewService _ _ _ _ _ _ _) as [[s [h'|e]]| |]; try done; by injection H1 as <-.
Qed.
End examples.

Section running.
Context {H L T P : Type} (HandleMessage : H -> Message -> H * Message * option error).
Context (pick : bool) (service_clock : clock) (agents : list Z).
Notation world := (@Application.world H example_services example_service T P).
Notation app_t := (@DefaultApplication H example_services example_service L T P).
Notation services := (app_services HandleMessage (example_Start pick service_clock) (example_Stop pick service_clock agents) example_Health).
Notation run := (Run_start HandleMessage (example_Start pick service_clock) (example_Stop pick service_clock agents) example_Health).

(** One service more. *)
Lemma example_starts su dn name svc (w : world) :
  name ∉ dn -> example_table !! name = Some svc -> started pick dn w ->
  exists w', svc_Start (ServiceIface := services su) svc (Ret w) = (Ret w', None) /\ started pick ({[name]} ∪ dn) w'.
Proof.
  intros Hnew Hsvc (Hsys & Hnet & Hdb & Hdog & Hgate). unfold example_table in Hsvc.
  assert (forall n, n ∉ dn -> n <> name -> n ∉ {[name]} ∪ dn) as Hout by set_solver.
  assert (name <> "actor-system" -> if decide ("actor-system" ∈ {[name]} ∪ dn) then system_started w
    else aw_actorSystem w = None /\ aw_systems w = [] /\ aw_container w = NewContainer) as Hkeep.
  { intros Hne. destruct (decide ("actor-system" ∈ dn)) as [Hi|Hi]; [rewrite decide_True //; set_solver|rewrite decide_False //; set_solver]. }
  apply lookup_insert_Some in Hsvc as [[<- <-]|[N1 Hsvc]].
  { unfold started_when in Hgate. rewrite decide_False // in Hgate. destruct w as [c ct a n ss sv [db dog gate]]. cbn in Hgate. subst gate.
    destruct (gate_starts pick service_clock) as (h & s & Hg & Hi). cbn [svc_Start app_services lift]. unfold example_Start. cbn [aw_user]. rewrite Hg. cbn [mbind go_bind lift]. eexists. split; [reflexivity|].
    split; [by apply Hkeep|]. split; [done|]. split; [by apply started_when_other|]. split; [by apply started_when_other|].
    apply started_when_self. by exists h, s. }
  apply lookup_insert_Some in Hsvc as [[<- <-]|[N2 Hsvc]].
  { unfold started_when in Hdog. rewrite decide_False // in Hdog. destruct w as [c ct a n ss sv [db dog gate]]. cbn in Hdog. subst dog.
    destruct (watchdog_starts pick service_clock) as (h & s & Hg & Hi). cbn [svc_Start app_services lift]. unfold example_Start. cbn [aw_user]. rewrite Hg. cbn [mbind go_bind lift]. eexists. split; [reflexivity|].
    split; [by apply Hkeep|]. split; [done|]. split; [by apply started_when_other|]. split; [|by apply started_when_other].
    apply started_when_self. by exists h, s. }
  apply lookup_insert_Some in Hsvc as [[<- <-]|[N3 Hsvc]].
  { unfold started_when in Hdb. rewrite decide_False // in Hdb. destruct w as [c ct a n ss sv [db dog gate]]. cbn in Hdb. subst db.
    destruct (db_starts pick service_clock) as (db & Hg & Hi). cbn [svc_Start app_services lift]. unfold example_Start. cbn [aw_user]. rewrite Hg. cbn [mbind go_bind lift]. eexists. split; [reflexivity|].
    split; [by apply Hkeep|]. split; [done|]. split; [by apply started_when_self|]. split; by apply started_when_other. }
  apply lookup_insert_Some in Hsvc as [[<- <-]|[N4 Hsvc]].
  { exists w. cbn. unfold nss_Start. rewrite Hnet. split; [done|]. split; [by apply Hkeep|]. split; [done|]. split_and!; by apply started_when_other. }
  apply lookup_insert_Some in Hsvc as [[<- <-]|[_ Hsvc]]; [|done].
  rewrite decide_False // in Hsys. destruct Hsys as (Ha & Hs & Hc). cbn. unfold ass_Start, new_system. rewrite Ha provide_exact //; [by rewrite /= Hc|].
  cbn. rewrite Hc Hs /= lookup_empty. eexists. split; [reflexivity|]. split; [rewrite decide_True; [set_solver|by split]|]. split; [done|].
  split_and!; by apply started_when_other.
Qed.

(** The manager of an application before it runs. *)
Record registered (t : gmap string (@Application.service example_service)) (ds : gmap string (list string)) (app : app_t) : Prop := {
  rg_services : lm_services (app_lifecycleManager app) = t;
  rg_deps : lm_dependencies (app_lifecycleManager app) = ds;
  rg_started : lm_started (app_lifecycleManager app) = false;
  rg_order : lm_startOrder (app_lifecycleManager app) = [];
  rg_running : app_running app = false;
}.

Lemma register_example_ok name u now (app : app_t) t ds :
  registered t ds app -> nonempty name = true -> t !! name = None ->
  exists app', register_example name u now app = Ok app' /\ app_world app' = app_world app /\
    registered (<[name := UserService u]> t) (<[name := []]> ds) app'.
Proof.
  intros [<- <- H3 H4 H5] Hn Hf. unfold register_example, Lifecycle.Register. rewrite Hn H3 Hf. cbn [negb].
  eexists. split; [reflexivity|]. split; [done|]. by constructor.
Qed.

Lemma example_built clk : exists app : app_t, examples_app clk = Ok app /\ registered example_table example_deps app /\ started pick ∅ (app_world app).
Proof.
  unfold examples_app. cbv zeta. set (app0 := NewApplication _ clk).
  assert (registered (<["network-server" := NetworkServerService]> (<["actor-system" := ActorSystemService]> ∅))
    (<["network-server" := ["actor-system"]]> (<["actor-system" := []]> ∅)) app0) as H0 by by constructor.
  assert (started pick ∅ (app_world app0)) as Hw by by split.
  destruct (register_example_ok "simpledb" ExSimpleDB (clk 2%nat) app0 _ _ H0 eq_refl) as (app1 & E1 & W1 & H1); [by rewrite !lookup_insert_ne|].
  destruct (register_example_ok "watchdog" ExWatchdog (clk 3%nat) app1 _ _ H1 eq_refl) as (app2 & E2 & W2 & H2); [by rewrite !lookup_insert_ne|].
  destruct (register_example_ok "gate" ExGate (clk 4%nat) app2 _ _ H2 eq_refl) as (app3 & E3 & W3 & H3); [by rewrite !lookup_insert_ne|].
  exists app3. split; [unfold and_then; by rewrite E1 E2 E3|]. split; [exact H3|]. by rewrite W3 W2 W1.
Qed.

Lemma example_deps_of s x (lm : DefaultLifecycleManager (Svc := @Application.service example_service) (L := L)) :
  lm_dependencies lm = example_deps -> x ∈ deps_of lm s -> s = "network-server" /\ x = "actor-system".
Proof.
  intros Hd. unfold deps_of. rewrite Hd. destruct (example_deps !! s) as [ds|] eqn:E; [|by intros ?%elem_of_nil]. cbn. unfold example_deps in E.
  repeat (apply lookup_insert_Some in E as [[<- <-]|[_ E]]; [try by intros ?%elem_of_nil|]); [|done..]. by intros ->%list_elem_of_singleton.
Qed.
End running.

Section theorem.
Context {H L T P : Type} (HandleMessage : H -> Message -> H * Message * option error).
Context (pick : bool) (service_clock : clock) (agents : list Z).
Notation world := (@Application.world H example_services example_service T P).
Notation app_t := (@DefaultApplication H example_services example_service L T P).
Notation run := (Run_start HandleMessage (example_Start pick service_clock) (example_Stop pick service_clock agents) example_Health).

Lemma example_table_dom name : is_Some (example_table !! name) <-> name ∈ example_names.
Proof.
  unfold example_table, example_names. rewrite !lookup_insert_is_Some' lookup_empty !elem_of_cons elem_of_nil.
  split; [intros [<-|[<-|[<-|[<-|[<-|[x [=]]]]]]]; tauto|]. intros [->|[->|[->|[->|[->|[]]]]]]; tauto.
Qed.

Lemma example_keys : example_names ≡ₚ keys example_table.
Proof. apply listed_keys; [apply (bool_decide_unpack _); by vm_compute|]. intros x. by rewrite example_table_dom. Qed.

Lemma example_manager_wf (app : app_t) : registered example_table example_deps app -> lm_wf (app_lifecycleManager app).
Proof.
  intros [Hs Hd _ Ho _]. split; [|rewrite Ho; by intros n ?%elem_of_nil]. intros n. rewrite Hs Hd. unfold example_table, example_deps.
  rewrite !lookup_insert_is_Some' !lookup_empty. split; intros [|[|[|[|[|[x [=]]]]]]]; tauto.
Qed.

(** C35. The example application starts: whatever orders the runtime visits its maps in,
    [main] registers the three services and [Run] starts all five; afterwards the
    application runs with its own actor system and no server, and the database, the
    watchdog and the gate are each up in an actor system of their own, the watchdog
    without a gate and the gate without a watchdog and without a listener. *)
Theorem examples_application_starts clk0 :
  exists app : app_t, examples_app clk0 = Ok app /\
  forall su orders clk, orders_ok orders app ->
  exists app', run su orders clk app = Ret (app', None) /\ app_running app' = true /\
    lm_startOrder (app_lifecycleManager app') ≡ₚ example_names /\
    system_started (app_world app') /\ aw_networkServer (app_world app') = None /\
    db_started (ex_simpledb (aw_user (app_world app'))) /\
    dog_started pick (ex_watchdog (aw_user (app_world app'))) /\
    gate_started (ex_gate (aw_user (app_world app'))).
Proof.
  destruct (example_built (H := H) (L := L) (T := T) (P := P) pick clk0) as (app & Hb & Hreg & Hw). exists app. split; [exact Hb|].
  intros su orders clk [Ho2 Ho3]. destruct orders as [[o1 o2] o3]. cbn [fst snd] in Ho2, Ho3.
  pose proof (example_manager_wf app Hreg) as Hwf. pose proof Hreg as [Hs Hd Hst Ho Hr].
  destruct (Start_all_ok (ServiceIface0 := app_services HandleMessage (example_Start pick service_clock) (example_Stop pick service_clock agents) example_Health su)
    (fun dn gw => exists w, gw = Ret w /\ started pick dn w) o1 o2 o3 clk (app_lifecycleManager app) (Ret (app_world app)) example_names Hwf Ho2 Ho3 Hst Ho)
    as (lm' & gw & E & (w & -> & Hfin) & Hst' & _ & Hord & _).
  - rewrite Hs. apply example_keys.
  - intros i s x Hi [-> ->]%(example_deps_of s x _ Hd). exists 0%nat. split; [|done]. by destruct i as [|i]; [|lia].
  - intros s x [-> ->]%(example_deps_of s x _ Hd). rewrite Hs. apply example_table_dom. by left.
  - intros dn name svc gw Hnew Hsvc _ (w & -> & Hdn). rewrite Hs in Hsvc.
    destruct (example_starts HandleMessage pick service_clock agents su dn name svc w Hnew Hsvc Hdn) as (w' & E & Hw'). exists (Ret w'). split; [exact E|by exists w'].
  - exists (app_world app). by split.
  - unfold Run_start. rewrite Hr E. cbn [mbind go_bind]. eexists. split; [reflexivity|]. split; [done|].
    assert (forall name, name ∈ example_names -> name ∈ dom (lm_services (app_lifecycleManager app))) as Hall.
    { intros name Hname. rewrite Hs elem_of_dom. by apply example_table_dom. }
    destruct Hfin as (H1 & H2 & H3 & H4 & H5). unfold started_when in *. rewrite !decide_True in H1 H3 H4 H5; try (apply Hall; unfold example_names; set_solver).
    split; [cbn; rewrite Hord Hs; symmetry; apply example_keys|]. exact (conj H1 (conj H2 (conj H3 (conj H4 H5)))).
Qed.
End theorem.
