(* ===== verification/ClusterApp.v ===== *)
(** The rest of src/cluster/integration.go, applications with a cluster service, and
    src/examples/cluster_example/main.go, a program built on one.

    The cluster service is the user's service of Application.v; its state is
    [aw_user]. Requests and results of the remote services are JSON values. *)

From S2P Require Import Prelude CoreTypes Handle Actor Router Session Registry LoadBalancer Discovery System.
From S2P Require Import NetMessage TcpConn TcpServer GoText GoJson GoTime Lifecycle Container Application.
From S2P Require Import ClusterNode ClusterRemote Agent.
From Corelib Require Import SpecFloat.

(** ** The services of the example *)

Record EchoService := mkEchoService { es_nodeID : string }.
Definition EchoService_Handle (es : EchoService) (request : json float64) : res (json float64) :=
  match request with
  | JStr message => Ok (JStr ("Echo from node " +:+ es_nodeID es +:+ ": " +:+ message))
  | _ => Err "invalid request type"
  end.

Record CounterService := mkCounterService { cs_nodeID : string; cs_count : Z }.
Definition counter_response (cs : CounterService) : json Z :=
  JObj [("count", JNum (cs_count cs)); ("node", JStr (cs_nodeID cs))].
(** [action == name] of an [interface{}] and a string. *)
Definition action_is (name : string) (action : json float64) : bool := match action with JStr s => eqs s name | _ => false end.
(** [fmt_v]: a value as [%v] writes it. *)
Definition CounterService_Handle (fmt_v : json float64 -> string) (request : json float64) (cs : CounterService)
    : CounterService * res (json Z) :=
  match as_object request with
  | None => (cs, Err "invalid request format")
  | Some cmd =>
      match config_get "action" cmd with
      | None => (cs, Err "missing action")
      | Some action =>
          if action_is "increment" action then
            let cs' := mkCounterService (cs_nodeID cs) (i64 (cs_count cs + 1)) in (cs', Ok (counter_response cs'))
          else if action_is "get" action then (cs, Ok (counter_response cs))
          else (cs, Err ("unknown action: " +:+ fmt_v action))
      end
  end.

(** [exampleHandler] of integration.go. *)
Definition exampleHandler_Handle (fmt_v : json float64 -> string) (request : json float64) : res (json float64) :=
  Ok (JStr ("Hello from " +:+ fmt_v request)).

(** ** Applications with a cluster *)

Section cluster_app.
Context {H L T P : Type} (HandleMessage : H -> Message -> H * Message * option error).
(** What the network and the runtime give when the service starts and stops. *)
Context (resolved : res addr) (rnd : nat -> Z) (transport stopped : option error) (now : time).
Context (order : list NodeID).
Notation world := (@Application.world H ClusterService unit T P).
Notation app_t := (@DefaultApplication H ClusterService unit L T P).

Definition put_cluster (x : ClusterService) (w : world) : world :=
  mkWorld (aw_config w) (aw_container w) (aw_actorSystem w) (aw_networkServer w) (aw_systems w) (aw_servers w) x.

Definition cluster_Start (u : unit) (w : world) : go (world * option error) :=
  '(cs, e) ← csv_Start resolved rnd transport now (aw_user w); Ret (put_cluster cs w, e).
Definition cluster_Stop (u : unit) (w : world) : go (world * option error) :=
  '(cs, e) ← csv_Stop stopped now (aw_user w); Ret (put_cluster cs w, e).
Definition cluster_Health (u : unit) (w : world) : HealthStatus * option error := (csv_Health order now (aw_user w), None).

(** The application: its service is [aw_user] of its world. The instance in the
    container stands for the same object. *)
Definition ClusterApp := app_t.

(** The path of the configuration is not used. *)
Definition NewClusterApp (configPath : string) (clk : clock) : go (res ClusterApp) :=
  let clusterService := NewClusterService (Some DefaultClusterConfig) in
  let app := NewApplication clusterService clk in
  let '(lm, r) := Lifecycle.Register "cluster" (Some (UserService tt)) [] (clk 2%nat) (app_lifecycleManager app) in
  match r with
  | Err e => Ret (Err ("failed to register cluster service: " +:+ e))
  | Ok _ =>
      '(c, e) ← Container.RegisterInstance "cluster_service" (Some (IUser clusterService)) (aw_container (app_world app));
      let w := app_world app in
      Ret (match e with
           | Some e => Err ("failed to register cluster service in container: " +:+ e)
           | None =>
               Ok (mkApplication (mkWorld (aw_config w) c (aw_actorSystem w) (aw_networkServer w) (aw_systems w) (aw_servers w) (aw_user w))
                     lm (app_running app) (app_shutdownChan app))
           end)
  end.

(** [Run] up to its wait, and [Shutdown]. *)
Definition ca_Start := Run_start (L := L) HandleMessage cluster_Start cluster_Stop cluster_Health.
Definition ca_Stop := app_Shutdown (L := L) HandleMessage cluster_Start cluster_Stop cluster_Health.
Definition ca_GetContainer (ca : ClusterApp) := app_Container ca.
Definition ca_GetClusterManager (ca : ClusterApp) : option clusterManager := csv_GetManager (aw_user (app_world ca)).
Definition ca_GetRemoteService (ca : ClusterApp) : bool := csv_GetRemoteService (aw_user (app_world ca)).
Definition ca_GetServiceRegistry (ca : ClusterApp) : bool := csv_GetServiceRegistry (aw_user (app_world ca)).

(** ** The two programs *)

(** How far a [main] gets: it ends the process, or it goes on with an application, the
    services it registered, and whether it listens for events. *)
Inductive progress :=
| Fatal (why : string)
| Ready (app : ClusterApp) (services : list string) (listening : bool).

(** [ExampleClusterApp] up to the start of the application. *)
Definition ExampleClusterApp (clk : clock) : go (res ClusterApp * list string * bool) :=
  r ← NewClusterApp "config.yaml" clk;
  Ret (match r with
       | Err e => (Err ("failed to create cluster app: " +:+ e), [], false)
       | Ok app =>
           (Ok app, if ca_GetRemoteService app then ["example_service"] else [],
            match ca_GetClusterManager app with Some _ => true | None => false end)
       end).

(** [main] of the example up to the start of the application; [args] are the arguments
    of the command line and [portStr] the variable CLUSTER_PORT. The configuration is
    built and not used. [register]: what [Register] of the remote service gives. *)
Definition example_config (args : list string) (portStr : string) : ClusterConfig :=
  let c := DefaultClusterConfig in
  let port := if nonempty portStr then default 7946 (Atoi portStr) else 7946 in
  mkClusterConfig (default "" (head args)) (cc_BindAddr c) port "sngo-example-cluster" (tail args) (cc_HeartbeatInterval c) (cc_ElectionTimeout c)
    (cc_JoinTimeout c) (cc_LeaveTimeout c) (cc_SuspicionTimeout c) (cc_SuspicionMultiplier c) (cc_MessageTimeout c) (cc_MaxMessageSize c)
    (cc_CompressionEnabled c) (cc_EncryptionEnabled c) (cc_GossipFanout c) (cc_GossipInterval c) (cc_PushPullInterval c)
    (<["version" := "1.0.0"]> (<["role" := "worker"]> {["region" := "local"]})).

Definition cluster_main (register : string -> option error) (args : list string) (portStr : string) (clk : clock) : go progress :=
  match args with
  | [] => Ret (Fatal "Usage: cluster_example <node_id> [seed_nodes...]")
  | _ =>
      let config := example_config args portStr in
      r ← NewClusterApp "" clk;
      Ret (match r with
           | Err e => Fatal ("Failed to create cluster app: " +:+ e)
           | Ok app =>
               if negb (ca_GetRemoteService app) then Fatal "Remote service not available"
               else match ca_GetClusterManager app with
                    | None => Fatal "Cluster manager not available"
                    | Some _ =>
                        match register "echo" with
                        | Some e => Fatal ("Failed to register echo service: " +:+ e)
                        | None =>
                            match register "counter" with
                            | Some e => Fatal ("Failed to register counter service: " +:+ e)
                            | None => Ready app ["echo"; "counter"] true
                            end
                        end
                    end
           end)
  end.

(** What the example asks of the active nodes: two calls and a message for every one but
    the local node. [true]: a call. An address that does not resolve reads [<nil>]. *)
Definition remote_requests (resolve : string -> option addr) (localNodeID : NodeID) (n : node) : list (RemoteActorRef * json Z * bool) :=
  let address := match nd_Address resolve n with Some a => ad_String a | None => "<nil>" end in
  let echoRef := mkRemoteActorRef (nd_ID n) "echo" address in
  let counterRef := mkRemoteActorRef (nd_ID n) "counter" address in
  [(echoRef, JStr ("Hello from " +:+ localNodeID), true); (counterRef, JObj [("action", JStr "increment")], true);
   (echoRef, JStr "Fire and forget message", false)].
Definition demonstrateRemoteCalls (resolve : string -> option addr) (ks : list NodeID) (cm : clusterManager)
    : list (RemoteActorRef * json Z * bool) :=
  let localNodeID := local_id cm in
  GetActiveNodes ks cm ≫= fun n => if eqs (nd_ID n) localNodeID then [] else remote_requests resolve localNodeID n.
End cluster_app.

(** ** What the program prints of the cluster *)

(** [%.2f]: the hundredths of the exact value, rounded to even. *)
Definition hundredths (m e : Z) : Z :=
  if 0 <=? e then 100 * m * 2 ^ e
  else let d := 2 ^ (- e) in
       let q := 100 * m / d in
       let r := 100 * m mod d in
       if (d <? 2 * r) || ((2 * r =? d) && Z.odd q) then q + 1 else q.
Definition fixed2 (f : float64) : string :=
  match f with
  | S754_nan => "NaN"
  | S754_infinity s => if s then "-Inf" else "+Inf"
  | S754_zero s => if s then "-0.00" else "0.00"
  | S754_finite s m e =>
      let h := hundredths (Z.pos m) e in
      (if s then "-" else "") +:+ pretty (h / 100) +:+ "." +:+ string_of_bytes (appendInt 2 (h mod 100))
  end.

Definition printClusterStatus (ks : list NodeID) (now : time) (cm : clusterManager) : list string :=
  let health := GetClusterHealth ks now cm in
  ["=== Cluster Status ==="; "Healthy: " +:+ show_bool (chl_IsHealthy health);
   "Nodes: " +:+ pretty (chl_TotalNodes health) +:+ " total, " +:+ pretty (chl_ActiveNodes health) +:+ " active, " +:+
     pretty (chl_SuspectedNodes health) +:+ " suspected, " +:+ pretty (chl_FailedNodes health) +:+ " failed";
   "Leader: " +:+ show_bool (chl_HasLeader health) +:+ " (ID: " +:+ chl_LeaderID health +:+ ")";
   "Partitions: " +:+ pretty (chl_PartitionCount health); "All nodes:"]
  ++ ((fun n => let info := nd_info n in
         "  - " +:+ ni_ID info +:+ ": " +:+ ni_Address info +:+ " (" +:+ NodeState_String (ni_State info) +:+ ") - Load: " +:+ fixed2 (ni_Load info))
      <$> GetAllNodes ks cm)
  ++ ["====================="].

Definition ClusterEventType_text (t : ClusterEventType) : string :=
  match t with
  | EventNodeJoined => "node_joined" | EventNodeLeft => "node_left" | EventNodeFailed => "node_failed"
  | EventNodeRecovered => "node_recovered" | EventLeaderElected => "leader_elected" | EventPartition => "partition_detected"
  | EventMerge => "partition_healed"
  end.
(** [Format(time.RFC3339)], which writes no fraction. *)
Definition FormatRFC3339 (offset : Z) (t : time) : string := string_of_bytes (FormatRFC3339Nano offset (t - t mod Second)).
Definition cluster_event_line (offset : Z) (event : ClusterEvent) : string :=
  "Cluster event: " +:+ ClusterEventType_text (ce_Type event) +:+ " - Node: " +:+ ce_NodeID event +:+ " at " +:+ FormatRFC3339 offset (ce_Timestamp event).

(** What is printed of a load is the hundredth nearest to it, exactly. *)
Lemma hundredths_nearest m e : 0 < m ->
  if 0 <=? e then hundredths m e = 100 * (m * 2 ^ e) else 2 * Z.abs (100 * m - hundredths m e * 2 ^ (- e)) <= 2 ^ (- e).
Proof.
  intros Hm. unfold hundredths. destruct (Z.leb_spec 0 e); [ring|]. assert (0 < 2 ^ (- e)) as Hd by (apply Z.pow_pos_nonneg; lia).
  set (d := 2 ^ (- e)) in *. clearbody d. pose proof (Z.div_mod (100 * m) d ltac:(lia)) as Hq. pose proof (Z.mod_pos_bound (100 * m) d Hd) as Hr.
  set (q := 100 * m / d) in *. set (r := 100 * m mod d) in *. clearbody q r. rewrite Hq.
  destruct (Z.ltb_spec d (2 * r)); [cbn [orb]; nia|]. destruct (Z.eqb_spec (2 * r) d); cbn [orb andb]; [destruct (Z.odd q); nia|nia].
Qed.
Example loads_printed : fixed2 <$> [S754_zero false; S754_finite false 3 (-2); S754_finite false 1 (-3); S754_finite false 3 (-3); S754_finite true 5 1]
  = ["0.00"; "0.75"; "0.12"; "0.38"; "-10.00"].
Proof. vm_compute. reflexivity. Qed.

(** ** What they do *)

(** The counter counts the increments, whatever else is asked of it. *)
Definition is_increment (request : json float64) : bool :=
  match as_object request with
  | Some cmd => match config_get "action" cmd with Some action => action_is "increment" action | None => false end
  | None => false
  end.
Fixpoint counter_run (fmt_v : json float64 -> string) (requests : list (json float64)) (cs : CounterService) : CounterService * list (res (json Z)) :=
  match requests with
  | [] => (cs, [])
  | q :: requests' =>
      let '(cs1, r) := CounterService_Handle fmt_v q cs in
      let '(cs2, rs) := counter_run fmt_v requests' cs1 in (cs2, r :: rs)
  end.

Lemma counter_step fmt_v q cs :
  (CounterService_Handle fmt_v q cs).1 = if is_increment q then mkCounterService (cs_nodeID cs) (i64 (cs_count cs + 1)) else cs.
Proof.
  unfold CounterService_Handle, is_increment. destruct (as_object q) as [cmd|]; [|done]. destruct (config_get "action" cmd) as [action|]; [|done].
  destruct (action_is "increment" action); [done|]. by destruct (action_is "get" action).
Qed.

Lemma i64_add_l a b : i64 (i64 a + b) = i64 (a + b).
Proof.
  unfold i64. f_equal. replace (_ - 2 ^ 63 + b + 2 ^ 63) with ((a + 2 ^ 63) mod 2 ^ 64 + b) by lia.
  rewrite Zplus_mod_idemp_l. f_equal. lia.
Qed.

Lemma counter_counts fmt_v requests cs :
  is_i64 (cs_count cs) ->
  cs_count (counter_run fmt_v requests cs).1 = i64 (cs_count cs + Z.of_nat (length (List.filter is_increment requests))).
Proof.
  revert cs. induction requests as [|q requests IH]; intros cs Hc; [by rewrite /= Z.add_0_r i64_id|]. cbn [counter_run List.filter].
  pose proof (counter_step fmt_v q cs) as Hs. destruct (CounterService_Handle fmt_v q cs) as [cs1 r]. cbn [fst] in Hs.
  specialize (IH cs1). destruct (counter_run fmt_v requests cs1) as [cs2 rs]. cbn [fst] in *. destruct (is_increment q); subst cs1; cbn [cs_count] in *.
  - rewrite IH; [apply i64_range|]. rewrite i64_add_l. f_equal. cbn [length]. lia.
  - by apply IH.
Qed.

(** ** The application *)

Section running.
Context {H L T P : Type} (HandleMessage : H -> Message -> H * Message * option error).
Notation world := (@Application.world H ClusterService unit T P).
Notation app_t := (@DefaultApplication H ClusterService unit L T P).

Definition cluster_names : list string := ["actor-system"; "network-server"; "cluster"].
Definition cluster_table : gmap string (@Application.service unit) :=
  <["cluster" := UserService tt]> (<["network-server" := NetworkServerService]> (<["actor-system" := ActorSystemService]> ∅)).
Definition cluster_deps : gmap string (list string) :=
  <["cluster" := []]> (<["network-server" := ["actor-system"]]> (<["actor-system" := []]> ∅)).
Definition cluster_container : @DefaultContainer ClusterService (@instance ClusterService unit) T :=
  mkDefaultContainer ∅ {["cluster_service" := Some (IUser (NewClusterService (Some DefaultClusterConfig)))]} false.

Lemma cluster_app_built path clk :
  exists app : app_t, NewClusterApp path clk = Ret (Ok app) /\
    lm_services (app_lifecycleManager app) = cluster_table /\ lm_dependencies (app_lifecycleManager app) = cluster_deps /\
    lm_started (app_lifecycleManager app) = false /\ lm_startOrder (app_lifecycleManager app) = [] /\ app_running app = false /\
    app_world app = mkWorld None cluster_container None None [] [] (NewClusterService (Some DefaultClusterConfig)).
Proof.
  unfold NewClusterApp, Lifecycle.Register. cbn [nonempty negb lm_started app_lifecycleManager NewApplication].
  change (nonempty "cluster") with true. cbn [negb]. set (lm := registerCoreServices clk NewLifecycleManager).
  assert (lm_services lm = <["network-server" := NetworkServerService]> (<["actor-system" := ActorSystemService]> ∅)) as Hs by reflexivity.
  assert (lm_dependencies lm = <["network-server" := ["actor-system"]]> (<["actor-system" := []]> ∅)) as Hd by reflexivity.
  change (lm_started lm) with false. cbv iota. rewrite Hs !lookup_insert_ne // lookup_empty.
  unfold Container.RegisterInstance. change (nonempty "cluster_service") with true. unfold Lock. cbn [negb app_world aw_container NewApplication NewContainer dc_locked mbind go_bind dc_instances].
  rewrite lookup_empty. cbn [mbind go_bind]. eexists. split; [reflexivity|]. cbn [app_lifecycleManager lm_services broadcastEvent lm_dependencies].
  rewrite Hd. done.
Qed.

(** C40. The cluster example never runs: given at least one argument, [main] always ends the
    process with the message that the remote service is not available, because the
    service only exists once the application was started; and the configuration built
    from the arguments is never used. *)
Theorem cluster_example_never_runs register nodeID seeds portStr clk :
  cluster_main (H := H) (L := L) (T := T) (P := P) register (nodeID :: seeds) portStr clk = Ret (Fatal "Remote service not available").
Proof.
  unfold cluster_main. destruct (cluster_app_built "" clk) as (app & -> & _ & _ & _ & _ & _ & Hw). cbn [mbind go_bind].
  unfold ca_GetRemoteService. by rewrite Hw.
Qed.

(** ... and the example in the package registers no service and hears no event. *)
Theorem ExampleClusterApp_registers_nothing clk :
  exists app : app_t, ExampleClusterApp clk = Ret (Ok app, [], false).
Proof.
  unfold ExampleClusterApp. destruct (cluster_app_built "config.yaml" clk) as (app & -> & _ & _ & _ & _ & _ & Hw). cbn [mbind go_bind].
  unfold ca_GetRemoteService, ca_GetClusterManager. rewrite Hw. by exists app.
Qed.
End running.

(** A cluster service without seeds starts: its node is active and the leader. *)
Definition leads_alone (cs : ClusterService) : Prop :=
  exists cm n, csv_manager cs = Some cm /\ csv_started cs = true /\ cm_heap cm = [n] /\ nd_IsActive n = true /\
    cm_leader cm = nd_ID n /\ cm_transport cm = true.

Lemma unseeded_service_starts config a rnd now :
  cc_SeedNodes config = [] -> tickers_ok config = true ->
  exists cs, csv_Start (Ok a) rnd None now (NewClusterService (Some config)) = Ret (cs, None) /\ leads_alone cs.
Proof.
  intros Hs Ht. unfold csv_Start, NewClusterService. cbn [csv_started csv_config NewClusterManager mbind go_bind]. set (n := NewLocalNode _ _ _ _ _). clearbody n.
  change (mkClusterManager config 0 ∅ (make_chan 100) 0 "" false false false [n] []) with (lone config ∅ [] false "" false false false n).
  rewrite lone_Start //. cbn [mbind go_bind]. rewrite Hs. eexists. split; [reflexivity|]. eexists _, _. cbn [csv_manager].
  split; [reflexivity|]. by split_and!.
Qed.

Lemma cluster_service_starts a rnd now :
  exists cs, csv_Start (Ok a) rnd None now (NewClusterService (Some DefaultClusterConfig)) = Ret (cs, None) /\ leads_alone cs.
Proof. by apply unseeded_service_starts. Qed.

Section started.
Context {H L T P : Type} (HandleMessage : H -> Message -> H * Message * option error).
Context (a : addr) (rnd : nat -> Z) (stopped : option error) (now : time) (order : list NodeID).
Notation world := (@Application.world H ClusterService unit T P).
Notation app_t := (@DefaultApplication H ClusterService unit L T P).
Notation run := (ca_Start HandleMessage (Ok a) rnd None stopped now order).

Lemma cluster_table_dom name : is_Some (cluster_table !! name) <-> name ∈ cluster_names.
Proof.
  unfold cluster_table, cluster_names. rewrite !lookup_insert_is_Some' lookup_empty !elem_of_cons elem_of_nil.
  split; [intros [<-|[<-|[<-|[x [=]]]]]; tauto|]. intros [->|[->|[->|[]]]]; tauto.
Qed.
Lemma cluster_keys : cluster_names ≡ₚ keys cluster_table.
Proof. apply listed_keys; [apply (bool_decide_unpack _); by vm_compute|]. intros x. by rewrite cluster_table_dom. Qed.
Lemma cluster_deps_of s x (lm : DefaultLifecycleManager (Svc := @Application.service unit) (L := L)) :
  lm_dependencies lm = cluster_deps -> x ∈ deps_of lm s -> s = "network-server" /\ x = "actor-system".
Proof.
  intros Hd. unfold deps_of. rewrite Hd. destruct (cluster_deps !! s) as [ds|] eqn:E; [|by intros ?%elem_of_nil]. cbn. unfold cluster_deps in E.
  repeat (apply lookup_insert_Some in E as [[<- <-]|[_ E]]; [try by intros ?%elem_of_nil|]); [|done..]. by intros ->%list_elem_of_singleton.
Qed.

Definition cluster_up (dn : gset string) (w : world) : Prop :=
  aw_networkServer w = None /\ dc_locked (aw_container w) = false /\
  (if decide ("cluster" ∈ dn) then leads_alone (aw_user w) else aw_user w = NewClusterService (Some DefaultClusterConfig)) /\
  ("actor-system" ∈ dn -> is_Some (aw_actorSystem w)).

Lemma cluster_starts su dn name svc (w : world) :
  name ∉ dn -> cluster_table !! name = Some svc -> cluster_up dn w ->
  exists w', svc_Start (ServiceIface := app_services HandleMessage (cluster_Start (Ok a) rnd None now) (cluster_Stop stopped now) (cluster_Health now order) su)
      svc (Ret w) = (Ret w', None) /\ cluster_up ({[name]} ∪ dn) w'.
Proof.
  intros Hnew Hsvc (Hnet & Hlk & Hcl & Has). unfold cluster_table in Hsvc.
  assert (name <> "cluster" -> forall u, u = aw_user w -> if decide ("cluster" ∈ {[name]} ∪ dn) then leads_alone u else u = NewClusterService (Some DefaultClusterConfig)) as Hkeep.
  { intros Hne u ->. destruct (decide ("cluster" ∈ dn)) as [Hi|Hi]; [rewrite decide_True //; set_solver|rewrite decide_False //; set_solver]. }
  apply lookup_insert_Some in Hsvc as [[<- <-]|[N1 Hsvc]].
  { rewrite decide_False // in Hcl. destruct (cluster_service_starts a rnd now) as (cs & E & Hl).
    cbn [svc_Start app_services lift]. unfold cluster_Start. rewrite Hcl E. cbn [mbind go_bind lift]. eexists. split; [reflexivity|].
    split; [done|]. split; [done|]. split; [rewrite decide_True //; set_solver|]. intros Hin. apply Has. set_solver. }
  apply lookup_insert_Some in Hsvc as [[<- <-]|[N2 Hsvc]].
  { exists w. cbn [svc_Start app_services lift]. unfold nss_Start. rewrite Hnet. split; [done|]. split; [done|]. split; [done|]. split; [by apply Hkeep|].
    intros Hin. apply Has. set_solver. }
  apply lookup_insert_Some in Hsvc as [[<- <-]|[_ Hsvc]]; [|done]. cbn [svc_Start app_services lift]. unfold ass_Start, new_system.
  destruct (aw_actorSystem w) as [i|] eqn:Ei.
  - exists w. split; [done|]. split; [done|]. split; [done|]. split; [by apply Hkeep|]. intros _. rewrite Ei. by eexists.
  - rewrite provide_exact //. cbn [mbind go_bind lift]. eexists. split; [reflexivity|]. split; [done|].
    split; [cbn; by destruct (dc_instances _ !! _)|]. split; [by apply Hkeep|]. intros _. by eexists.
Qed.

(** The cluster application runs: started with its default configuration on an address
    that resolves and a transport that starts, in whatever order the runtime visits
    the maps, it is up with an actor system, the local node is active and the leader,
    and from then on the remote service is there. *)
Theorem cluster_application_starts path clk0 :
  exists app : app_t, NewClusterApp path clk0 = Ret (Ok app) /\ ca_GetRemoteService app = false /\ ca_GetClusterManager app = None /\
  forall su orders clk, orders_ok orders app ->
  exists app', run su orders clk app = Ret (app', None) /\ app_running app' = true /\
    is_Some (aw_actorSystem (app_world app')) /\ leads_alone (aw_user (app_world app')) /\
    ca_GetRemoteService app' = true /\ is_Some (ca_GetClusterManager app').
Proof.
  destruct (cluster_app_built (H := H) (L := L) (T := T) (P := P) path clk0) as (app & Hb & Hs & Hd & Hst & Ho & Hr & Hw). exists app. split; [exact Hb|].
  unfold ca_GetRemoteService, ca_GetClusterManager. rewrite Hw. split; [done|]. split; [done|].
  intros su orders clk [Ho2 Ho3]. destruct orders as [[o1 o2] o3]. cbn [fst snd] in Ho2, Ho3.
  assert (lm_wf (app_lifecycleManager app)) as Hwf.
  { split; [|rewrite Ho; by intros n ?%elem_of_nil]. intros n. rewrite Hs Hd. unfold cluster_table, cluster_deps.
    rewrite !lookup_insert_is_Some' !lookup_empty. split; intros [|[|[|[x [=]]]]]; tauto. }
  destruct (Start_all_ok (ServiceIface0 := app_services HandleMessage (cluster_Start (Ok a) rnd None now) (cluster_Stop stopped now) (cluster_Health now order) su)
    (fun dn gw => exists w, gw = Ret w /\ cluster_up dn w) o1 o2 o3 clk (app_lifecycleManager app) (Ret (app_world app)) cluster_names Hwf Ho2 Ho3 Hst Ho)
    as (lm' & gw & E & (w & -> & Hfin) & _ & _ & _ & _).
  - rewrite Hs. apply cluster_keys.
  - intros i s x Hi [-> ->]%(cluster_deps_of s x _ Hd). exists 0%nat. split; [|done]. by destruct i as [|i]; [|lia].
  - intros s x [-> ->]%(cluster_deps_of s x _ Hd). rewrite Hs. apply cluster_table_dom. by left.
  - intros dn name svc gw Hnew Hsvc _ (w & -> & Hdn). rewrite Hs in Hsvc.
    destruct (cluster_starts su dn name svc w Hnew Hsvc Hdn) as (w' & E & Hw'). exists (Ret w'). split; [exact E|by exists w'].
  - exists (app_world app). split; [done|]. rewrite Hw. by split_and!.
  - unfold ca_Start, Run_start. rewrite Hr E. cbn [mbind go_bind]. eexists. split; [reflexivity|]. split; [done|].
    assert (forall name, name ∈ cluster_names -> name ∈ dom (lm_services (app_lifecycleManager app))) as Hall.
    { intros name Hname. rewrite Hs elem_of_dom. by apply cluster_table_dom. }
    destruct Hfin as (_ & _ & H3 & H4). rewrite decide_True in H3; [apply Hall; unfold cluster_names; set_solver|].
    split; [apply H4, Hall; unfold cluster_names; set_solver|]. split; [exact H3|]. cbn [app_world].
    destruct H3 as (cm & n & Hm & _ & _ & _ & _ & Ht). unfold csv_GetRemoteService, csv_GetManager. rewrite Hm Ht. split; [done|by eexists].
Qed.
End started.
