(* ===== verification/BootstrapExample.v ===== *)
(** src/bootstrap/example/main.go: the demonstration of the bootstrap layer, an
    application made with the builder and driven by hand. What the program and its
    services print is the state they share; what the goroutines of the lifecycle
    listener print comes at no fixed place and is kept apart: the manager records the
    events they were launched with. *)

From S2P Require Import Prelude CoreTypes Handle Actor Router Session Registry LoadBalancer Discovery System.
From S2P Require Import NetMessage TcpConn GoText TcpServer Lifecycle Container Application.

(** ** ExampleService *)

(** The configuration is stored and never read. *)
Record ExampleService := mkExampleService { es_name : string; es_config : option (gmap string value) }.

Section demo.
Context {H T P : Type} (HandleMessage : H -> Message -> H * Message * option error).
(** The types of Go's reflection, which the container asks for. *)
Context (type_of : @instance (list string) ExampleService -> T) (type_name : T -> string) (assignable : T -> T -> bool).
(** The state of the user is what was printed. *)
Notation world := (@Application.world H (list string) ExampleService T P).
Notation app_t := (@DefaultApplication H (list string) ExampleService unit T P).

Definition put_user (lines : list string) (w : world) : world :=
  mkWorld (aw_config w) (aw_container w) (aw_actorSystem w) (aw_networkServer w) (aw_systems w) (aw_servers w) lines.
Definition say (lines : list string) (w : world) : world := put_user (aw_user w ++ lines) w.

Definition es_Name (s : ExampleService) : string := es_name s.
Definition start_lines (s : ExampleService) : list string :=
  ["Starting " +:+ es_name s +:+ " service..."; es_name s +:+ " service started successfully"].
Definition stop_lines (s : ExampleService) : list string :=
  ["Stopping " +:+ es_name s +:+ " service..."; es_name s +:+ " service stopped successfully"].
Definition es_Start (s : ExampleService) (w : world) : go (world * option error) := Ret (say (start_lines s) w, None).
Definition es_Stop (s : ExampleService) (w : world) : go (world * option error) := Ret (say (stop_lines s) w, None).
Definition es_Health (s : ExampleService) (w : world) : HealthStatus * option error :=
  (mkHealthStatus "healthy" (es_name s +:+ " service is healthy") zero_time, None).

#[local] Notation services su := (app_services HandleMessage es_Start es_Stop es_Health su).

(** ** The application *)

Definition database : ExampleService :=
  mkExampleService "database" (Some (<["port" := VOther 5432]> {["host" := VString "localhost"]})).
Definition api : ExampleService := mkExampleService "api" None.
Definition cache : ExampleService := mkExampleService "cache" None.

Definition cache_factory : ServiceFactory (W := list string) (V := instance (X := list string)) (T := T) :=
  FWork (fun lines => lines ++ ["Creating cache service via factory..."]) (fun _ => FReturn (Some (IService cache)) None).

(** The chain of the builder. *)
Definition demo_build (clk : clock) : go (res app_t) :=
  let b := WithNetworkConfig "localhost:8080" (WithActorSystemConfig (NewApplicationBuilder ["=== SNGO Bootstrap System Demo ==="] clk)) in
  let b := ab_WithService "database" (Some database) [] (clk 2%nat) b in
  let b := ab_WithService "api" (Some api) ["database"; "actor-system"] (clk 3%nat) b in
  b ← WithServiceFactory "cache" (Some cache_factory) b;
  ab_Build (clk 4%nat) b.

Definition say_app (lines : list string) (app : app_t) : app_t := set_world (say lines (app_world app)) app.

(** [container.Resolve] on the container of the application; the factories work on
    what was printed. *)
Definition resolve_cache (app : app_t) : go app_t :=
  let w := app_world app in
  '(c, lines, (_, err)) ← Resolve (default_container type_of type_name assignable 1) "cache" (aw_container w) (aw_user w);
  let w' := mkWorld (aw_config w) c (aw_actorSystem w) (aw_networkServer w) (aw_systems w) (aw_servers w) lines in
  Ret (set_world (say [match err with
                       | Some e => "Failed to resolve cache service: " +:+ e
                       | None => "Resolved cache service: *main.ExampleService"
                       end] w') app).

(** What the listener prints, in a goroutine of its own, on an event. *)
Definition event_line (e : LifecycleEvent) : string :=
  "Event: " +:+ le_Type e +:+ (if nonempty (le_Service e) then " (service: " +:+ le_Service e +:+ ")" else "").

(** The lines of the health report, in the order in which the map is visited. *)
Definition health_lines (order : list string) (health : gmap string HealthStatus) : list string :=
  omap (fun name => (fun st => "  " +:+ name +:+ ": " +:+ hs_State st +:+ " - " +:+ hs_Message st) <$> health !! name) order.

(** How the program ends. *)
Inductive demo_end := DemoFatal (message : string) | DemoDone (app : app_t).

(** [main]: the application is started through its lifecycle manager, not with [Run].
    [orders]: in which the manager visits its maps; [o_health]: in which the report
    does; [su], [su']: the surroundings of the start and of the shutdown. *)
Definition demo_main (su su' : surroundings) (orders : list string * list string * list string) (o_health : list string)
    (clk clk1 clk2 : clock) : go demo_end :=
  r ← demo_build clk;
  match r with
  | Err e => Ret (DemoFatal ("Failed to build application: " +:+ e))
  | Ok app =>
      let n := length (Services orders.2 (app_lifecycleManager app)) in
      let app1 := say_app ["Application configured with " +:+ pretty (Z.of_nat n) +:+ " services"] app in
      let app2 := mkApplication (app_world app1) (AddListener tt (app_lifecycleManager app1)) (app_running app1) (app_shutdownChan app1) in
      app3 ← resolve_cache (say_app [""; "=== Dependency Injection Demo ==="] app2);
      let app4 := say_app [""; "=== Service Lifecycle Demo ==="; "Starting all services..."] app3 in
      '(lm, gw, r) ← Lifecycle.Start (ServiceIface0 := services su) orders.1.1 orders.1.2 orders.2 clk1
                       (app_lifecycleManager app4) (Ret (app_world app4));
      w ← gw;
      match r with
      | Err e => Ret (DemoFatal ("Failed to start services: " +:+ e))
      | Ok _ =>
          let health := Lifecycle.Health (ServiceIface0 := services su) lm (Ret w) in
          let w1 := say ([""; "=== Health Check Demo ==="; "Service Health Status:"] ++ health_lines o_health health
                         ++ [""; "=== Running Demo ==="; "Application running... (simulating 2 seconds of work)";
                             ""; "=== Graceful Shutdown Demo ==="; "Shutting down application..."]) w in
          let app5 := mkApplication w1 lm (app_running app4) (app_shutdownChan app4) in
          '(app6, e) ← app_Shutdown HandleMessage es_Start es_Stop es_Health su' clk2 app5;
          Ret (DemoDone (say_app [match e with
                                  | Some e => "Error during shutdown: " +:+ e
                                  | None => "Application shut down successfully"
                                  end; ""; "=== Demo Complete ==="] app6))
      end
  end.

(** ** What it prints and leaves *)

Definition demo_names : list string := ["actor-system"; "network-server"; "database"; "api"].
Definition demo_table : gmap string (@Application.service ExampleService) :=
  <["api" := UserService api]> (<["database" := UserService database]>
    (<["network-server" := NetworkServerService]> (<["actor-system" := ActorSystemService]> ∅))).
Definition demo_deps : gmap string (list string) :=
  <["api" := ["database"; "actor-system"]]> (<["database" := []]> (<["network-server" := ["actor-system"]]> (<["actor-system" := []]> ∅))).

Lemma demo_table_dom name : is_Some (demo_table !! name) <-> name ∈ demo_names.
Proof.
  unfold demo_table, demo_names. rewrite !lookup_insert_is_Some' lookup_empty !elem_of_cons elem_of_nil.
  split; [intros [<-|[<-|[<-|[<-|[x [=]]]]]]; tauto|]. intros [->|[->|[->|[->|[]]]]]; tauto.
Qed.
Lemma demo_keys : demo_names ≡ₚ keys demo_table.
Proof. apply listed_keys; [apply (bool_decide_unpack _); by vm_compute|]. intros x. by rewrite demo_table_dom. Qed.
Lemma demo_deps_keys : demo_names ≡ₚ keys demo_deps.
Proof.
  apply listed_keys; [apply (bool_decide_unpack _); by vm_compute|]. intros x. rewrite -demo_table_dom. unfold demo_table, demo_deps. rewrite !lookup_insert_is_Some' !lookup_empty. split; intros [|[|[|[|[y [=]]]]]]; tauto.
Qed.

(** The world as it is built, with the lines printed so far and the server. *)
Definition demo_config : option value :=
  Some (VMap (<["network" := VMap {["address" := VString "localhost:8080"]}]> (<["actor_system" := VMap {["enabled" := VBool true]}]> ∅))).
Definition demo_container (cached : bool) : @DefaultContainer (list string) (@instance (list string) ExampleService) T :=
  let core := <["network-server" := Some (IServer 0)]> (<["actor-system" := Some (ISystem 0)]> ∅) in
  mkDefaultContainer (<["cache" := cache_factory]> ∅) (if cached then <["cache" := Some (IService cache)]> core else core) false.
Definition demo_config_address : NetworkConfig := parse_address "localhost:8080".
Definition demo_world (cached : bool) (sv : @tcpServer P) (lines : list string) : world :=
  mkWorld demo_config (demo_container cached) (Some 0%nat) (Some 0%nat) [NewActorSystem] [sv] lines.

(** The manager of the demonstration before it starts. *)
Record demo_manager (lm : @DefaultLifecycleManager (@Application.service ExampleService) unit) : Prop := {
  dm_services : lm_services lm = demo_table;
  dm_deps : lm_dependencies lm = demo_deps;
  dm_started : lm_started lm = false;
  dm_order : lm_startOrder lm = [];
}.

Lemma factory_registered name f lm ch old (c : @DefaultContainer (list string) (@instance (list string) ExampleService) T) lines cfg :
  nonempty name = true -> dc_locked c = false -> dc_services c !! name = None ->
  WithServiceFactory name (Some f) (mkBuilder (mkApplication (mkWorld old c None None [] [] lines : world) lm false ch : app_t) cfg)
  = Ret (mkBuilder (mkApplication (mkWorld old (mkDefaultContainer (<[name := f]> (dc_services c)) (dc_instances c) false) None None [] [] lines) lm false ch) cfg).
Proof.
  intros Hn Hl Hf. unfold WithServiceFactory, Container.Register, Lock. rewrite Hn. cbn [negb ab_app app_world aw_container]. rewrite Hl.
  cbn [mbind go_bind dc_services]. by rewrite Hf.
Qed.

Lemma demo_built clk :
  exists app, demo_build clk = Ret (Ok app) /\ demo_manager (app_lifecycleManager app) /\ app_running app = false /\
    app_world app = demo_world false (new_server demo_config_address (clk 4%nat)) ["=== SNGO Bootstrap System Demo ==="].
Proof.
  unfold demo_build. cbv zeta. set (b := ab_WithService "api" _ _ _ _). set (lm := app_lifecycleManager (ab_app b)).
  assert (demo_manager lm) as Hlm by by split.
  assert (b = mkBuilder (mkApplication (mkWorld None NewContainer None None [] [] ["=== SNGO Bootstrap System Demo ==="]) lm false (make_chan 1))
    (<["network" := VMap {["address" := VString "localhost:8080"]}]> (<["actor_system" := VMap {["enabled" := VBool true]}]> ∅))) as E by reflexivity.
  rewrite E. clear E. clearbody lm. clear b. rewrite factory_registered //. cbn [mbind go_bind].
  rewrite (build_configured _ "localhost:8080"); [apply lookup_insert_eq|done..|].
  eexists. split; [reflexivity|]. split; [exact Hlm|split; reflexivity].
Qed.

(** The world while the services in [dn] are started. *)
Definition demo_server (now : time) (up : bool) : @tcpServer P :=
  if up then started_server demo_config_address now else new_server demo_config_address now.
Definition said (dn : gset string) (s : ExampleService) : list string :=
  if decide (es_name s ∈ dn) then start_lines s else [].
Definition demo_up (now : time) (lines : list string) (dn : gset string) (gw : go world) : Prop :=
  gw = Ret (demo_world true (demo_server now (bool_decide ("network-server" ∈ dn))) (lines ++ said dn database ++ said dn api)) /\
  ("api" ∈ dn -> "database" ∈ dn).

Lemma said_in dn s : es_name s ∈ dn -> said dn s = start_lines s.
Proof. intros Hin. unfold said. by rewrite decide_True. Qed.
Lemma said_out dn s : es_name s ∉ dn -> said dn s = [].
Proof. intros Hin. unfold said. by rewrite decide_False. Qed.
Lemma said_other dn name s : name <> es_name s -> said ({[name]} ∪ dn) s = said dn s.
Proof. intros Hne. unfold said. assert (es_name s ∈ {[name]} ∪ dn <-> es_name s ∈ dn) as E by set_solver. by rewrite (decide_ext _ _ _ _ E). Qed.
Lemma server_other now (dn : gset string) name : name <> "network-server" ->
  demo_server now (bool_decide ("network-server" ∈ {[name]} ∪ dn)) = demo_server now (bool_decide ("network-server" ∈ dn)).
Proof. intros Hne. f_equal. apply bool_decide_ext. set_solver. Qed.

Lemma demo_starts su now lines dn name svc gw :
  su_listen su = None -> name ∉ dn -> demo_table !! name = Some svc -> (forall x, x ∈ default [] (demo_deps !! name) -> x ∈ dn) ->
  demo_up now lines dn gw ->
  exists gw', svc_Start (ServiceIface := services su) svc gw = (gw', None) /\ demo_up now lines ({[name]} ∪ dn) gw'.
Proof.
  intros Hl Hnew Hsvc Hdeps [-> Hapi]. unfold demo_table in Hsvc.
  apply lookup_insert_Some in Hsvc as [[<- <-]|[N1 Hsvc]].
  { assert ("database" ∈ dn) as Hdb by (apply Hdeps; unfold demo_deps; rewrite lookup_insert_eq; by left).
    eexists. split; [reflexivity|]. split; [|set_solver]. rewrite said_other // server_other //. unfold say, put_user. cbn [aw_user demo_world].
    unfold demo_world. do 2 f_equal. rewrite -!assoc_L. do 2 f_equal. rewrite said_out // said_in //. set_solver. }
  apply lookup_insert_Some in Hsvc as [[<- <-]|[N2 Hsvc]].
  { assert ("api" ∉ dn) as Ha by (intros ?; by apply Hnew, Hapi).
    eexists. split; [reflexivity|]. split; [|set_solver]. rewrite server_other // (said_other _ _ api) //. unfold say, put_user. cbn [aw_user demo_world].
    unfold demo_world. do 2 f_equal. rewrite -!assoc_L. f_equal. rewrite (said_out dn database) // (said_out dn api) // said_in; [set_solver|]. by rewrite app_nil_r. }
  apply lookup_insert_Some in Hsvc as [[<- <-]|[N3 Hsvc]].
  { rewrite bool_decide_false //. eexists. split; [cbn [svc_Start app_services lift nss_Start aw_networkServer demo_world aw_servers lookup list_lookup]; rewrite Hl; reflexivity|].
    split; [|set_solver]. rewrite !said_other //. rewrite bool_decide_true; [set_solver|]. reflexivity. }
  apply lookup_insert_Some in Hsvc as [[<- <-]|[_ Hsvc]]; [|done].
  eexists. split; [reflexivity|]. split; [|set_solver]. by rewrite !said_other // server_other.
Qed.

(** The health of the four services, and all that is printed. *)
Definition demo_health : gmap string HealthStatus :=
  <["api" := mkHealthStatus "healthy" "api service is healthy" zero_time]>
  (<["database" := mkHealthStatus "healthy" "database service is healthy" zero_time]>
  (<["network-server" := mkHealthStatus "healthy" "Network server running" zero_time]>
  (<["actor-system" := mkHealthStatus "healthy" "Actor system running" zero_time]> ∅))).
Definition demo_intro : list string :=
  ["=== SNGO Bootstrap System Demo ==="; "Application configured with 4 services"; ""; "=== Dependency Injection Demo ===";
   "Creating cache service via factory..."; "Resolved cache service: *main.ExampleService"; ""; "=== Service Lifecycle Demo ===";
   "Starting all services..."].
Definition demo_output (o_health : list string) : list string :=
  demo_intro ++ start_lines database ++ start_lines api
  ++ [""; "=== Health Check Demo ==="; "Service Health Status:"] ++ health_lines o_health demo_health
  ++ [""; "=== Running Demo ==="; "Application running... (simulating 2 seconds of work)"; ""; "=== Graceful Shutdown Demo ===";
      "Shutting down application..."; "Application shut down successfully"; ""; "=== Demo Complete ==="].

Lemma demo_deps_of lm s : demo_manager lm -> deps_of lm s = default [] (demo_deps !! s).
Proof. intros [_ Hd _ _]. unfold deps_of. by rewrite Hd. Qed.

Lemma demo_topological lm : demo_manager lm -> topological (deps_of lm) demo_names.
Proof.
  intros Hlm i s x Hi. rewrite (demo_deps_of lm s Hlm).
  destruct i as [|[|[|[|i]]]]; [injection Hi as <-; cbn; rewrite ?elem_of_cons elem_of_nil..|done]; [tauto| |tauto|].
  - intros [->|[]]. exists 0%nat. split; [lia|done].
  - intros [->|[->|[]]]; [exists 2%nat|exists 0%nat]; (split; [lia|done]).
Qed.

Lemma bootstrap_wf lm : demo_manager lm -> lm_wf lm.
Proof.
  intros [Hs Hd _ Ho]. split; [|rewrite Ho; by intros n ?%elem_of_nil]. intros n. rewrite Hs Hd demo_table_dom.
  by rewrite -(elem_of_range_order demo_deps demo_names n demo_deps_keys).
Qed.

Lemma demo_deps_known lm s x : demo_manager lm -> x ∈ deps_of lm s -> is_Some (lm_services lm !! x).
Proof.
  intros Hlm. rewrite (demo_deps_of lm s Hlm) (dm_services lm Hlm) demo_table_dom. destruct (demo_deps !! s) as [ds|] eqn:E; [|by intros ?%elem_of_nil].
  unfold demo_deps in E. cbn [default from_option id]. unfold demo_names.
  repeat (apply lookup_insert_Some in E as [[<- <-]|[_ E]]; [set_solver|]). done.
Qed.

Lemma cache_resolved sv lines app :
  app_world app = demo_world false sv lines ->
  resolve_cache app = Ret (set_world (demo_world true sv
    (lines ++ ["Creating cache service via factory..."; "Resolved cache service: *main.ExampleService"])) app).
Proof.
  intros Hw. unfold resolve_cache. rewrite Hw. unfold demo_world at 1. cbn [aw_container aw_user]. unfold demo_world. cbn [aw_container aw_user].
  unfold Resolve, Lock, demo_container. cbn [dc_locked mbind go_bind dc_instances dc_services]. rewrite (lookup_insert_ne _ "network-server") // (lookup_insert_ne _ "actor-system") // lookup_empty lookup_insert_eq.
  cbn [Container.run cache_factory mbind go_bind Unlock put_instance dc_services dc_instances dc_locked]. unfold say, put_user.
  cbn [aw_user aw_config aw_container aw_actorSystem aw_networkServer aw_systems aw_servers]. by rewrite -assoc_L.
Qed.

Lemma demo_health_ok su (lm : @DefaultLifecycleManager (@Application.service ExampleService) unit) sv lines :
  lm_services lm = demo_table -> Lifecycle.Health (ServiceIface0 := services su) lm (Ret (demo_world true sv lines)) = demo_health.
Proof. intros Hs. unfold Lifecycle.Health. rewrite Hs. unfold demo_table. by rewrite !fmap_insert fmap_empty. Qed.

Lemma demo_all_up now lines gw : demo_up now lines (dom demo_table) gw ->
  gw = Ret (demo_world true (started_server demo_config_address now) (lines ++ start_lines database ++ start_lines api)).
Proof.
  assert (forall name, name ∈ demo_names -> name ∈ dom demo_table) as Hin by (intros name; by rewrite elem_of_dom demo_table_dom).
  intros [-> _]. rewrite bool_decide_true; [apply Hin; unfold demo_names; set_solver|].
  by rewrite !said_in; [apply Hin; unfold demo_names, es_name; set_solver..|].
Qed.

(** The manager starts the four services, whatever orders it visits its maps in. *)
Lemma bootstrap_started su o1 o2 o3 clk lm now lines :
  demo_manager lm -> su_listen su = None -> o2 ≡ₚ demo_names -> o3 ≡ₚ demo_names ->
  exists lm', Lifecycle.Start (ServiceIface0 := services su) o1 o2 o3 clk lm (Ret (demo_world true (new_server demo_config_address now) lines))
    = Ret (lm', Ret (demo_world true (started_server demo_config_address now) (lines ++ start_lines database ++ start_lines api)), Ok tt) /\
    lm_services lm' = demo_table /\ lm_started lm' = true /\ lm_startOrder lm' ≡ₚ demo_names.
Proof.
  intros Hlm Hl Ho2 Ho3.
  destruct (Start_all_ok (ServiceIface0 := services su) (demo_up now lines) o1 o2 o3 clk lm
    (Ret (demo_world true (new_server demo_config_address now) lines)) demo_names (bootstrap_wf lm Hlm))
    as (lm' & gw & Estart & Hup & Hst & _ & Hord & [Hsame _]).
  - unfold range_order. by rewrite (dm_deps lm Hlm) Ho2 demo_deps_keys.
  - unfold range_order. by rewrite (dm_services lm Hlm) Ho3 demo_keys.
  - apply Hlm.
  - apply Hlm.
  - by rewrite (dm_services lm Hlm) -demo_keys.
  - by apply demo_topological.
  - intros s x. by apply demo_deps_known.
  - intros dn name svc gw Hnew Hsvc Hdeps. rewrite (dm_services lm Hlm) in Hsvc. apply demo_starts; [done..|].
    intros x Hx. apply Hdeps. by rewrite (demo_deps_of lm name Hlm).
  - split; [|set_solver]. unfold said. by rewrite app_nil_r.
  - exists lm'. rewrite (dm_services lm Hlm) in Hup, Hord, Hsame. rewrite Estart (demo_all_up _ _ _ Hup). by rewrite Hord -demo_keys.
Qed.

End demo.

(** ** A run the property applies to *)

Definition demo_surroundings : @surroundings unit := mkSurroundings None [] [] (fun _ => 0%nat) (fun _ => 0) [] None false.


(** None of the lines it prints is that of a stop. *)
Lemma demo_prints_no_stop : Forall (fun line => line ∉ stop_lines database ++ stop_lines api) (demo_output demo_names).
Proof. apply (bool_decide_unpack _). vm_compute. exact I. Qed.

(** What the listener prints in that run, in the order in which its goroutines are
    launched: no event of a stop either. *)
Example demo_events :
  match demo_main (H := unit) (T := unit) (P := unit) (fun h m => (h, m, None)) (fun _ => tt) (fun _ => "") (fun _ _ => true)
          demo_surroundings demo_surroundings ([], demo_names, demo_names) demo_names (fun _ => 0) (fun _ => 0) (fun _ => 0) with
  | Ret (DemoDone app) => event_line <$> (lm_launched (app_lifecycleManager app)).*2
  | _ => []
  end = ["Event: lifecycle.starting";
         "Event: service.starting (service: actor-system)"; "Event: service.started (service: actor-system)";
         "Event: service.starting (service: database)"; "Event: service.started (service: database)";
         "Event: service.starting (service: network-server)"; "Event: service.started (service: network-server)";
         "Event: service.starting (service: api)"; "Event: service.started (service: api)"; "Event: lifecycle.started"].
Proof. vm_compute. reflexivity. Qed.
