(* ===== verification/ConfigDemo.v ===== *)
(** src/examples/config_demo/main.go: the demonstration of the configuration system.
    It loads a configuration, shows it, and reports the changes of a file until it is
    told to end. What it prints is a list of lines; what the callbacks of the watcher
    print, in goroutines of their own, is read off the calls the watcher records. *)

From S2P Require Import Prelude CoreTypes NetMessage GoText GoPath GoTime Config ConfigLoader ConfigWatcher.

Section demo.
(** [show]: what [%v] makes of a value of the custom fields. *)
Context {V : Type} (show : V -> string).
Notation store := (@ConfigLoader.store V).
Notation outside := (@ConfigWatcher.outside V).
Notation Watcher := (@ConfigWatcher.Watcher V).

(** ** Showing a configuration *)

(** What a pointer to a configuration points to, with its custom fields. *)
Definition deref (st : store) (i : nat) : option (Config V (gmap string V)) :=
  c ← st_configs st !! i;
  match Custom c with
  | None => Some (with_custom None c)
  | Some mp => (fun m => with_custom (Some m) c) <$> st_maps st !! mp
  end.

(** [order]: in which the custom fields are visited. *)
Definition displayConfig (order : list string) (cfg : Config V (gmap string V)) : list string :=
  [""; "Loaded Configuration:"; "  App Name: " +:+ app_Name (App cfg); "  Version: " +:+ app_Version (App cfg);
   "  Environment: " +:+ app_Environment (App cfg); "  Debug Mode: " +:+ show_bool (IsDebugEnabled cfg);
   ""; "Network Settings:";
   "  TCP Address: " +:+ tcp_Address (net_TCP (Network cfg)) +:+ ":" +:+ pretty (tcp_Port (net_TCP (Network cfg)));
   "  Max Connections: " +:+ pretty (lim_MaxConnections (net_Limits (Network cfg)));
   ""; "Logging Settings:"; "  Level: " +:+ log_Level (Log cfg); "  Format: " +:+ log_Format (Log cfg); "  Output: " +:+ log_Output (Log cfg);
   ""; "Actor System:"; "  Max Actors: " +:+ pretty (act_MaxActors (ActorC cfg));
   "  Default Mailbox Size: " +:+ pretty (act_DefaultMailboxSize (ActorC cfg));
   ""; "Service Discovery:"; "  Enabled: " +:+ show_bool (dc_Enabled (Discovery cfg)); "  Type: " +:+ dc_Type (Discovery cfg);
   "  Service Name: " +:+ GetServiceName cfg]
  ++ let custom := default ∅ (Custom cfg) in
     if (0 <? size custom)%nat then
       [""; "Custom Configuration:"] ++ omap (fun key => (fun value => "  " +:+ key +:+ ": " +:+ show value) <$> custom !! key) order
     else [].

(** ** Reporting a change *)

(** [time.Now().Format("15:04:05")]; [offset] is that of the local zone. *)
Definition clock_text (offset : Z) (now : time) : string :=
  let '(hour, min, sec) := clock_of (wall_clock offset now) in
  string_of_bytes (appendInt 2 hour ++ 58 :: appendInt 2 min ++ 58 :: appendInt 2 sec).

Definition change_line {A} `{EqDecision A} (label : string) (text : A -> string) (old new : A) : list string :=
  if decide (old = new) then [] else ["  " +:+ label +:+ ": " +:+ text old +:+ " -> " +:+ text new].

(** The callback given to [Watch]. *)
Definition change_lines {M} (old new : Config V M) : list string :=
  change_line "App Name" id (app_Name (App old)) (app_Name (App new))
  ++ change_line "TCP Port" pretty (tcp_Port (net_TCP (Network old))) (tcp_Port (net_TCP (Network new)))
  ++ change_line "Log Level" (id : LogLevel -> string) (log_Level (Log old)) (log_Level (Log new))
  ++ change_line "Max Actors" pretty (act_MaxActors (ActorC old)) (act_MaxActors (ActorC new)).
Definition change_report {M} (offset : Z) (now : time) (old new : Config V M) : list string :=
  ("[" +:+ clock_text offset now +:+ "] Configuration changed!") :: change_lines old new
  ++ ["  Configuration reloaded successfully!"; ""].

(** What a callback that was given two pointers prints when it runs. *)
Definition report_of (offset : Z) (now : time) (w : Watcher) (call : nat * nat) : option (list string) :=
  old ← st_configs (wt_store w) !! call.1; new ← st_configs (wt_store w) !! call.2; Some (change_report offset now old new).

(** ** Watching *)

Definition configFiles : list string := ["config.yaml"; "config.yml"; "config.json"].
Definition watched_file (Stat : string -> bool) : string := default "" (List.find Stat configFiles).

Definition no_file_lines : list string :=
  [""; "No configuration file found for watching demo."; "To see configuration hot-reload in action:";
   "1. Create a config.yaml file in the current directory"; "2. Run this program again";
   "3. Modify the config file while the program is running"].
Definition watch_lines (configFile : string) : list string :=
  [""; "Starting configuration watcher for: " +:+ configFile; "Modify the config file to see hot-reload in action...";
   "Press Ctrl+C to exit"; ""].

(** How the program ends: it could not load, it had nothing to watch, or it was
    interrupted; then [logged] is what the goroutine of [Watch] logged, and the watcher
    is told to stop. *)
Inductive demo_end :=
| DemoFatal (message : string)
| DemoUnwatched (out : list string)
| DemoWatched (out logged : list string) (w : Watcher).

(** [ops]: what happens between the start of the watch and the signal. Both deferred
    calls, [cancel] and [Close], stop the watcher. *)
Definition demonstrateWatching (Stat : string -> bool) (home : string) (created added : option error) (o : outside) (ops : list wop)
    (out : list string) (st : store) : go demo_end :=
  let configFile := watched_file Stat in
  if negb (nonempty configFile) then Ret (DemoUnwatched (out ++ no_file_lines))
  else
    '(_, r) ← NewFileProvider configFile home created o st;
    match r with
    | Err e => Ret (DemoUnwatched (out ++ watch_lines configFile ++ ["Failed to create file provider: " +:+ e]))
    | Ok provider =>
        let '(provider1, err) := fp_Watch added provider in
        let logged := match err with Some e => ["Configuration watching failed: " +:+ e] | None => [] end in
        match fp_watcher provider1 with
        | None => Ret (DemoUnwatched (out ++ watch_lines configFile))
        | Some w =>
            w' ← w_run w ops;
            Ret (DemoWatched (out ++ watch_lines configFile ++ [""; "Shutting down configuration watcher..."]) logged (wt_Stop w'))
        end
    end.

(** [main]; [o0] is the outside when it loads, [o1] when it makes the provider. *)
Definition config_main (Stat : string -> bool) (home : string) (created added : option error) (o0 o1 : outside) (order : list string)
    (ops : list wop) : go demo_end :=
  let '(st0, loader) := NewLoader home empty_store in
  '(st1, r) ← AutoLoad (o_Getenv o0) (o_ReadFile o0) Stat (o_yaml o0) (o_json o0) loader st0;
  match r with
  | Err e => Ret (DemoFatal ("Failed to load configuration: " +:+ e))
  | Ok i =>
      match deref st1 i with
      | None => Panic "nil pointer"
      | Some cfg =>
          demonstrateWatching Stat home created added o1 ops
            (["SNGO Configuration System Demo"; "=============================="] ++ displayConfig order cfg) st1
      end
  end.

(** ** What it watches is what it showed *)

(** What a file that was decoded to [u] is loaded to: the environment over the file
    over the default. *)
Definition loaded (env : string -> string) (l : Loader) (u : Config V (gmap string V)) : Config V (gmap string V) :=
  env_override env l (merge_fields (DefaultConfig (default ∅ (Custom u))) u).

Lemma deref_grows cs ms cs' ms' i c : deref (mkStore cs ms) i = Some c -> deref (mkStore (cs ++ cs') (ms ++ ms')) i = Some c.
Proof.
  unfold deref. cbn [st_configs st_maps]. intros (k & Hk & E)%bind_Some. apply bind_Some. exists k. split; [by apply lookup_app_l_Some|].
  destruct (Custom k) as [mp|]; [|done]. apply fmap_Some in E as (m & Hm & ->). by rewrite (lookup_app_l_Some _ _ _ _ Hm).
Qed.

(** A load with a loader that was just made, in whatever store. *)
Lemma fresh_load env home u cs ms l st0 :
  NewLoader home (mkStore cs ms) = (st0, l) ->
  exists cs' m', load_parsed env l u st0 = Ret (mkStore (cs ++ cs') (ms ++ [m']),
      match Validate (loaded env l u) with
      | Some e => Err ("configuration validation failed: " +:+ e)
      | None => Ok (S (length cs))
      end) /\ deref (mkStore (cs ++ cs') (ms ++ [m'])) (S (length cs)) = Some (loaded env l u).
Proof.
  intros [= <- <-]. set (l := mkLoader _ _ _). set (D := with_custom (Some (length ms)) (DefaultConfig ∅)).
  set (c := env_override env l (merge_fields D u)). exists [D; c], (default ∅ (Custom u)).
  assert (mergeConfig (length cs) u (mkStore (cs ++ [D]) (ms ++ [∅]))
    = Ret (mkStore ((cs ++ [D]) ++ [merge_fields D u]) (ms ++ [default ∅ (Custom u)]), S (length cs))) as E.
  { unfold mergeConfig. cbn [st_configs st_maps]. rewrite list_lookup_middle //. cbn [Custom merge_fields D with_custom].
    unfold new_config. cbn [st_configs st_maps]. rewrite length_app Nat.add_1_r. destruct (Custom u) as [um|]; [|done].
    rewrite list_lookup_middle //. unfold set_map. cbn [st_configs st_maps]. rewrite insert_app_r_alt // Nat.sub_diag.
    by rewrite map_union_empty. }
  split.
  - unfold load_parsed, default_of. cbn [ld_defaultConfig l]. rewrite E. cbn [mbind go_bind]. unfold finish, loadFromEnv. cbn [st_configs].
    assert (S (length cs) = length (cs ++ [D])) as -> by (rewrite length_app; cbn; lia).
    rewrite list_lookup_middle //. cbn [mbind go_bind]. unfold set_config, validate_at. cbn [st_configs st_maps].
    rewrite insert_app_r_alt // Nat.sub_diag. cbn [insert list_insert]. rewrite list_lookup_middle // -assoc_L. done.
  - unfold deref. cbn [st_configs st_maps]. rewrite lookup_app_r; [lia|]. assert (S (length cs) - length cs = 1)%nat as -> by lia.
    cbn [lookup list_lookup mbind option_bind]. cbn [Custom env_override merge_fields c D with_custom].
    rewrite list_lookup_middle //.
Qed.

(** The files in the current directory that the loader takes before the one the
    demonstration watches. *)
Definition preferred (Stat : string -> bool) : bool :=
  Stat "sngo.yaml" || Stat "sngo.yml" || eqs (watched_file Stat) "config.json" && Stat "sngo.json".

Definition watched_format (f : string) : ConfigFormat := if eqs f "config.json" then FormatJSON else FormatYAML.

(** The file that is watched was loaded, unless a preferred one exists. *)
Lemma watched_is_loaded Stat home (st : store) :
  watched_file Stat <> "" ->
  findConfigFile Stat (NewLoader home st).2 = Ok (watched_file Stat, watched_format (watched_file Stat)) <-> preferred Stat = false.
Proof.
  assert (forall f, f ∈ config_names -> Join "." f = f) as EJ by (unfold config_names; intros f; rewrite !elem_of_cons elem_of_nil;
    intros [->|[->|[->|[->|[->|[->|[]]]]]]]; by vm_compute).
  rewrite findConfigFile_first /NewLoader. cbn [snd ld_searchPaths alloc_default alloc Custom DefaultConfig new_map new_config].
  unfold candidates. cbn [mbind list_bind fmap list_fmap fst snd app List.find]. rewrite !EJ; [unfold config_names; set_solver..|].
  unfold preferred, watched_file, configFiles. cbn [List.find].
  destruct (Stat "sngo.yaml"), (Stat "sngo.yml"), (Stat "config.yaml"), (Stat "config.yml"), (Stat "sngo.json"), (Stat "config.json");
    cbn; intros Hne; try done; split; try done; by intros [=].
Qed.

Lemma watched_file_cases Stat : watched_file Stat <> "" -> watched_file Stat ∈ configFiles.
Proof.
  unfold watched_file. destruct (List.find Stat configFiles) as [f|] eqn:E; [|done]. intros _. apply find_some in E as [E _]. by apply list_elem_of_In.
Qed.

(** For these files the extension gives the format, in whatever case it is compared. *)
Lemma watched_format_ext f : f ∈ configFiles ->
  format_of_ext (Ext f) = Some (watched_format f) /\ format_of_ext (ToLower (Ext f)) = Some (watched_format f) /\ nonempty f = true.
Proof. unfold configFiles. rewrite !elem_of_cons elem_of_nil. intros [->|[->|[->|[]]]]; by vm_compute. Qed.

(** When no preferred file exists and nothing changes in between, the watcher starts
    from exactly the configuration that was shown: the first report is about changes
    of what the user saw. *)
Theorem watch_starts_from_shown Stat home o i st0 l st1 :
  watched_file Stat <> "" -> preferred Stat = false -> NewLoader home empty_store = (st0, l) ->
  AutoLoad (o_Getenv o) (o_ReadFile o) Stat (o_yaml o) (o_json o) l st0 = Ret (st1, Ok i) ->
  exists st2 fp w cfg, NewFileProvider (watched_file Stat) home None o st1 = Ret (st2, Ok fp) /\ fp_watcher fp = Some w /\
    deref st1 i = Some cfg /\ deref (wt_store w) (wt_config w) = Some cfg /\ deref (wt_store w) i = Some cfg.
Proof.
  intros Hf Hp Hl. destruct (watched_format_ext _ (watched_file_cases Stat Hf)) as (X1 & X2 & X3).
  apply (watched_is_loaded Stat home empty_store Hf) in Hp. rewrite Hl in Hp. cbn [snd] in Hp. unfold AutoLoad. rewrite Hp.
  destruct (o_ReadFile o (watched_file Stat)) as [data|] eqn:Hread; [|done].
  destruct (parseConfig (o_yaml o) (o_json o) data _) as [u|] eqn:Hparse; [|done].
  destruct (fresh_load (o_Getenv o) home u [] [] l st0 Hl) as (cs & m & -> & Hi). destruct (Validate _) eqn:Hv; [done|]. intros [= <- <-].
  destruct (NewLoader home (mkStore cs [m])) as [st2 l2] eqn:Hl2.
  destruct (fresh_load (o_Getenv o) home u cs [m] l2 st2 Hl2) as (cs' & m' & Hload & Hi').
  assert (loaded (o_Getenv o) l2 u = loaded (o_Getenv o) l u) as E by by injection Hl2 as <- <-; injection Hl as <- <-. rewrite E Hv in Hload.
  do 2 eexists. exists (mkWatcher (watched_file Stat) (watched_format (watched_file Stat)) l2 (S (length cs)) 0 true true
    (mkStore (cs ++ cs') ([m] ++ [m'])) [] [] [] []). exists (loaded (o_Getenv o) l u). split_and!; [| |exact Hi|rewrite -E; exact Hi'|by apply deref_grows].
  - unfold NewFileProvider. cbn [app]. rewrite Hl2 X3. unfold NewWatcher. rewrite X1. unfold load_now, LoadFromFile, loadFromFile. rewrite X2 Hread Hparse Hload.
    cbn [mbind go_bind]. reflexivity.
  - reflexivity.
Qed.

(** ** It comes to its end, and its reports are about valid configurations *)

Lemma fp_Watch_inv added (fp : @FileProvider V) w : fp_watcher fp = Some w -> w_inv w ->
  exists w', fp_watcher (fp_Watch added fp).1 = Some w' /\ w_inv w' /\ wt_callbacks w' = S (wt_callbacks w).
Proof.
  intros Hw Hi. unfold fp_Watch. rewrite Hw. unfold wt_Start.
  destruct added; (eexists; split; [reflexivity|]); (split; [|done]); [|apply w_inv_loops]; by destruct Hi.
Qed.

Lemma NewLoader_wf home (st : store) : st_wf st -> ld_wf (NewLoader home st).2 (NewLoader home st).1.
Proof.
  intros Hst. destruct (alloc_ok (DefaultConfig ∅) st Hst) as (H1 & _ & H2). unfold NewLoader, alloc_default.
  destruct (alloc _ st) as [st1 k]. split; [done|]. by intros i [= <-].
Qed.

Lemma NewFileProvider_inv f home created (o : outside) st : st_wf st -> nonempty f = true ->
  exists st' r, NewFileProvider f home created o st = Ret (st', r) /\
    match r with Ok fp => exists w, fp_watcher fp = Some w /\ w_inv w /\ wt_callbacks w = 0%nat | Err _ => True end.
Proof.
  intros Hst Hf. unfold NewFileProvider. pose proof (NewLoader_wf home st Hst) as Hl. destruct (NewLoader home st) as [st1 l]. cbn [fst snd] in Hl. rewrite Hf.
  unfold NewWatcher. destruct (format_of_ext _) as [fmt|]; [|do 2 eexists; by split]. destruct created; [do 2 eexists; by split|].
  destruct (load_now_ok o l f st1 Hl) as (st2 & a & -> & Hl2 & _ & Ha). cbn [mbind go_bind].
  destruct a as [i|]; (do 2 eexists; split; [reflexivity|]); [|done]. eexists. split; [reflexivity|]. split; [|done].
  by split; cbn; [| |constructor|constructor].
Qed.

Lemma valid_deref (st : store) i c : st_wf st -> st_configs st !! i = Some c -> is_Some (deref st i).
Proof.
  intros Hw Hi. unfold deref. rewrite Hi. cbn [mbind option_bind]. destruct (Custom c) as [mp|] eqn:Hc; [|done].
  destruct (sw_maps _ Hw _ _ _ Hi Hc) as [m ->]. done.
Qed.

(** A callback prints the same whenever its goroutine gets to run. *)
Lemma report_stable offset now (w w' : Watcher) call r :
  st_configs (wt_store w) `prefix_of` st_configs (wt_store w') -> report_of offset now w call = Some r -> report_of offset now w' call = Some r.
Proof.
  intros Hp (old & Ho & (new & Hn & Hr)%bind_Some)%bind_Some. unfold report_of.
  by rewrite (prefix_lookup_Some _ _ _ _ Ho Hp) /= (prefix_lookup_Some _ _ _ _ Hn Hp) /=.
Qed.

(** Whatever files there are, however the loads and the watch answer and whatever
    happens in between, the demonstration comes to its end without a panic; the watcher
    is told to stop, every pair of configurations its callback was given is reported,
    both valid, and the report does not change however much later the callback runs. *)
Theorem config_demo_reports Stat home created added o0 o1 order ops offset now :
  exists r, config_main Stat home created added o0 o1 order ops = Ret r /\
    match r with
    | DemoWatched _ _ w => wt_ctx w = false /\ wt_fs w = false /\
        Forall (fun call => exists old new, st_configs (wt_store w) !! call.1 = Some old /\ st_configs (wt_store w) !! call.2 = Some new /\
          valid old /\ valid new /\ forall ops' w', w_run w ops' = Ret w' -> report_of offset now w' call = Some (change_report offset now old new))
          (wt_calls w)
    | _ => True
    end.
Proof.
  unfold config_main. assert (st_wf (@empty_store V)) as H0 by by split. pose proof (NewLoader_wf home _ H0) as Hl.
  destruct (NewLoader home empty_store) as [st0 l]. cbn [fst snd] in Hl.
  destruct (AutoLoad_ok (o_Getenv o0) (o_ReadFile o0) Stat (o_yaml o0) (o_json o0) l st0 Hl) as (st1 & a & -> & Hl1 & _ & Ha). cbn [mbind go_bind].
  destruct a as [i|]; [|by eexists]. destruct Ha as (c & Hc & _). destruct (valid_deref st1 i c (lw_store _ _ Hl1) Hc) as [cfg ->].
  unfold demonstrateWatching. destruct (nonempty (watched_file Stat)) eqn:Hf; cbn [negb]; [|by eexists].
  destruct (NewFileProvider_inv (watched_file Stat) home created o1 st1 (lw_store _ _ Hl1) Hf) as (st2 & r & -> & Hr). cbn [mbind go_bind].
  destruct r as [fp|]; [|by eexists]. destruct Hr as (w & Hw & Hi & _). destruct (fp_Watch_inv added fp w Hw Hi) as (w1 & Hw1 & Hi1 & _).
  destruct (fp_Watch added fp) as [fp1 err]. cbn [fst] in Hw1. rewrite Hw1. destruct (w_run_ok ops w1 Hi1) as (w2 & -> & Hi2 & _).
  cbn [mbind go_bind]. eexists. split; [reflexivity|]. split_and!; [done|done|]. assert (w_inv (wt_Stop w2)) as Hi3 by by destruct Hi2.
  eapply Forall_impl; [exact (wi_calls _ Hi3)|]. intros [x y] [(old & Ho & Vo) (new & Hn & Vn)]. exists old, new. split_and!; [done..|].
  intros ops' w' Hrun. destruct (w_run_ok ops' _ Hi3) as (w'' & Hrun' & _ & Hp). rewrite Hrun' in Hrun. injection Hrun as ->.
  apply (report_stable _ _ _ _ _ _ Hp). unfold report_of. cbn [fst snd] in *. by rewrite Ho /= Hn.
Qed.
End demo.

(** ** Runs *)

Definition named_outside (name : string) : @outside string :=
  mkOutside (fun _ => "") (fun _ => Ok (bytes_of_string name)) demo_decode demo_decode.
Definition exists_in (files : list string) (f : string) : bool := bool_decide (f ∈ files).

Definition shown_loader : Loader := (@NewLoader string "/root" empty_store).2.
Definition shown_store : @ConfigLoader.store string :=
  match AutoLoad (o_Getenv (named_outside "game")) (o_ReadFile (named_outside "game")) (exists_in ["config.yml"; "config/sngo.yaml"])
          demo_decode demo_decode shown_loader (NewLoader "/root" empty_store).1 with
  | Ret (st, _) => st
  | _ => empty_store
  end.

Lemma watch_starts_from_shown_witness :
  exists st2 fp w cfg, NewFileProvider "config.yml" "/root" None (named_outside "game") shown_store = Ret (st2, Ok fp) /\ fp_watcher fp = Some w /\
    deref shown_store 1 = Some cfg /\ deref (wt_store w) (wt_config w) = Some cfg /\ deref (wt_store w) 1 = Some cfg.
Proof.
  apply (watch_starts_from_shown (exists_in ["config.yml"; "config/sngo.yaml"]) "/root" (named_outside "game") 1
    (NewLoader "/root" empty_store).1 shown_loader).
  - discriminate.
  - reflexivity.
  - reflexivity.
  - vm_compute. reflexivity.
Defined.

(** With a file of each name in the directory, one is shown and the other watched. *)
Example shows_one_watches_another :
  (findConfigFile (exists_in ["sngo.yaml"; "config.yaml"]) demo_loader, watched_file (exists_in ["sngo.yaml"; "config.yaml"]))
  = (Ok ("sngo.yaml", FormatYAML), "config.yaml").
Proof. vm_compute. reflexivity. Qed.

Definition before : Config unit unit := DefaultConfig tt.
Definition after : Config unit unit :=
  mkConfig (mkAppConfig "game" "1.0.0" EnvDevelopment true "" None) (Log before) (Network before) (mkActorConfig 500 1000 (act_Timeouts (ActorC before)) (act_Routing (ActorC before)))
    (Discovery before) (Monitor before) None.
Example a_report :
  change_report 3600 (45296 * Second) before after
  = ["[13:34:56] Configuration changed!"; "  App Name: sngo-app -> game"; "  Max Actors: 10000 -> 500";
     "  Configuration reloaded successfully!"; ""].
Proof. vm_compute. reflexivity. Qed.
