(* ===== verification/EchoServer.v ===== *)
(** src/examples/echo_server/main.go as a whole: the TCP server of TcpServer.v, the
    connection manager of ConnManager.v and the handlers of EchoExample.v on one heap
    of connections.

    The server calls the handlers from its own goroutines: the connection handler from
    the loop that hands out connections, the message handler and [OnDisconnect] from
    the goroutine that reads a connection. So a call the server makes is pending until
    the handler runs, and pending calls may run in any order. *)

From S2P Require Import Prelude CoreTypes NetMessage TcpConn ConnManager TcpServer TcpClient EchoExample.

Section echo.
Context {U : Type}.
Context (addr : string) (fmt_RFC3339 : time -> string).
Notation tcp := (tcpConnection U).
Notation server := (@tcpServer U).
Notation manager := (connectionManager nat).

(** ** The connections of the server as the manager sees them *)

Definition conn_ok (c : tcp) : Prop :=
  ch_closed (tc_sendChan c) = tc_closed c /\ (tc_closed c = true -> tc_state c = ConnectionStateClosed) /\ tc_conn c = true.

Definition at_conn {A} (i : nat) (f : tcp -> go (tcp * A)) (s : server) : go (server * A) :=
  match sv_conns s !! i with
  | None => nil_conn
  | Some c => '(c', a) ← f c; Ret (sv_set_conns (<[i := c']> (sv_conns s)) (sv_counter s) s, a)
  end.

Definition server_world (now : time) : ConnIface server nat (Net.Message U).
Proof.
  refine {| cn_ID s i := from_option tc_id "" (sv_conns s !! i);
            cn_State s i := from_option tc_state ConnectionStateClosed (sv_conns s !! i);
            cn_GetLastActivity s i := from_option GetLastActivity zero_time (sv_conns s !! i);
            cn_GetStatistics s i := match sv_conns s !! i with Some c => GetStatistics addr addr c | None => nil_conn end;
            cn_Send i data := at_conn i (Send None None now data);
            cn_SendMessage i msg := at_conn i (fun c => '(c', _, e) ← SendMessage None None now msg c; Ret (c', e));
            cn_Close i := at_conn i (Close None);
            cn_live s i := is_Some (sv_conns s !! i);
            cn_ok s := Forall conn_ok (sv_conns s) |}.
  intros r s Hok [c Hc]. destruct (Forall_lookup_1 _ _ _ _ Hok Hc) as (Hch & Hst & Hn).
  destruct (Close_spec None c Hch Hst) as (c' & e & HC & Hst' & Hid & Hcl & Hch').
  assert (tc_conn c' = true) as Hn'.
  { revert HC. unfold Close. destruct (tc_closed c); [by intros [= <- _]|]. destruct (close_chan _); [|done..]. by intros [= <- _]. }
  unfold at_conn. rewrite Hc HC. cbn [mbind go_bind]. eexists _, e. split; [reflexivity|]. cbn [sv_conns sv_set_conns].
  pose proof (lookup_lt_Some _ _ _ Hc) as Hlt. rewrite list_lookup_insert_eq //. split_and!; [|done|].
  - apply Forall_insert; [done|]. split_and!; [congruence|done|done].
  - intros r'. destruct (decide (r' = r)) as [->|Hne].
    + rewrite list_lookup_insert_eq // Hc. cbn. split_and!; [by intros; eexists|done|done].
    + rewrite list_lookup_insert_ne; [congruence|done].
Defined.

(** ** The program *)

(** [ec_pending]: the calls of handlers the server has made and that have not run;
    [ec_handled]: those that have, in the order in which they did. *)
Record echo := mkEcho { ec_server : server; ec_manager : manager; ec_pending : list (@told U); ec_handled : list (@told U) }.

(** What the handlers print is left out, and [OnError] only prints. *)
Definition handle (clk : clock) (t : @told U) (cm : manager) (s : server) : go (manager * server) :=
  match t with
  | OnConnect i => echo_OnConnect server_world clk i cm s
  | OnDisconnect i => echo_OnDisconnect server_world (clk 0%nat) i cm s
  | OnMessage i m =>
      '(s', _) ← at_conn i (fun c => c' ← echo_OnMessage None None addr fmt_RFC3339 clk m c; Ret (c', tt)) s; Ret (cm, s')
  | OnError _ _ | Handed _ => Ret (cm, s)
  end.

(** [sendHeartbeatToAll], whose goroutines run in the order [sched]; [msg] is the
    message the loop made when it started. *)
Definition sendHeartbeatToAll (msg : Net.Message U) (sched : list nat -> list nat) (order : list string) (now : time) (cm : manager) (s : server) : go server :=
  let conns := GetConnectionsByState (ConnIface0 := server_world now) ConnectionStateConnected order cm s in
  '(s', _, _) ← send_all (ConnIface0 := server_world now) (fun c => cn_SendMessage (ConnIface := server_world now) c (Some msg)) (sched conns) s;
  Ret s'.

(** What may happen next: a step of the server, a pending call, a tick of the
    heartbeat. *)
Inductive echo_op :=
| EServer (op : @svop U)
| EHandler (k : nat) (clk : clock)
| EBeat (made : time) (sched : list nat -> list nat) (order : list string) (now : time).

Definition echo_step (e : echo) (op : echo_op) : go echo :=
  match op with
  | EServer op =>
      s' ← sv_step (ec_server e) op;
      Ret (mkEcho s' (ec_manager e) (ec_pending e ++ drop (length (sv_told (ec_server e))) (sv_told s')) (ec_handled e))
  | EHandler k clk =>
      match ec_pending e !! k with
      | None => Ret e
      | Some t => '(cm, s) ← handle clk t (ec_manager e) (ec_server e); Ret (mkEcho s cm (delete k (ec_pending e)) (ec_handled e ++ [t]))
      end
  | EBeat made sched order now =>
      s' ← sendHeartbeatToAll (Net.NewHeartbeatMessage made) sched order now (ec_manager e) (ec_server e); Ret (mkEcho s' (ec_manager e) (ec_pending e) (ec_handled e))
  end.

(** ** main *)

Definition echo_config : TcpServer.NetworkConfig := nc_set_limits 100 (nc_BufferSize DefaultNetworkConfig) (nc_KeepAlive DefaultNetworkConfig)
  (nc_MaxReconnectAttempts DefaultNetworkConfig) (nc_set_listen (nc_Address DefaultNetworkConfig) 8080 DefaultNetworkConfig).

(** Up to the wait for the signal; [listen]: what listening answers. The interval of
    the heartbeat is positive and the manager is new, so its start cannot fail. *)
Definition echo_main_start (fmt_duration : duration -> string) (listen : option error) (now : time) : res echo :=
  match (CreateTCPServer (Some echo_config) now).2 with
  | Err e => Err ("Failed to create server: " +:+ e)
  | Ok s0 =>
      let s1 := sv_SetMessageHandler true (SetConnectionHandler true s0) in
      match sv_Start listen s1 with
      | (_, Some e) => Err ("Failed to start server: " +:+ e)
      | (s2, None) => Ok (mkEcho s2 (StartHeartbeat fmt_duration (30 * Second) (CreateConnectionManager now)).1 [] [])
      end
  end.

(** [StopHeartbeat], when it gets to stop the loop: the fields it leaves. *)
Definition stop_heartbeat (cm : manager) : manager :=
  if cm_heartbeatEnabled cm then with_heartbeat false false None (cm_heartbeatInterval cm) cm else cm.

(** After the signal, up to the wait of [server.Stop]; the results are dropped. *)
Definition echo_main_stop (order : list string) (now : time) (e : echo) : go echo :=
  '(cm, s, _) ← CloseAllConnections (ConnIface0 := server_world now) order (stop_heartbeat (ec_manager e)) (ec_server e);
  Ret (mkEcho (Stop_begin s) cm (ec_pending e) (ec_handled e)).

(** What [reportStatistics] prints at a tick. *)
Definition reportStatistics (fmt_duration : duration -> string) (order : list string) (now : time) (e : echo) : go (list string) :=
  serverStats ← sv_GetStatistics addr now (ec_server e);
  managerStats ← cm_GetStatistics (ConnIface0 := server_world now) now order (ec_manager e) (ec_server e);
  Ret [""; "=== Server Statistics ==="; "Uptime: " +:+ fmt_duration (ss_Uptime serverStats - Z.rem (ss_Uptime serverStats) Second);
       "Total Connections: " +:+ pretty (ss_TotalConnections serverStats);
       "Current Connections: " +:+ pretty (ss_CurrentConnections serverStats);
       "Total Messages: " +:+ pretty (ss_TotalMessages serverStats);
       "Total Bytes: " +:+ pretty (cms_TotalBytes managerStats); "========================"; ""].

(** ** How connections change *)

(** A connection keeps its id, stays in order, and stays closed. *)
Definition evolves (c c' : tcp) : Prop :=
  tc_id c' = tc_id c /\ (conn_ok c -> conn_ok c') /\ (tc_closed c = true -> tc_closed c' = true).

#[local] Instance evolves_po : PreOrder evolves.
Proof.
  split; [by intros c|]. intros a b c (H1 & H2 & H3) (H4 & H5 & H6). split_and!; [congruence|by auto|by auto].
Qed.

Lemma core_evolves (c c' : tcp) : core c' = core c -> evolves c c'.
Proof.
  intros [= E1 E2 E3 E4 E5 _]. unfold evolves, conn_ok. rewrite E1 E2 E3 E4 E5. by split_and!.
Qed.

Lemma Close_evolves e c c' r : Close e c = Ret (c', r) -> evolves c c' /\ tc_closed c' = true.
Proof.
  unfold Close. destruct (tc_closed c) eqn:Hc; [by intros [= <- _]|]. unfold close_chan. destruct (ch_closed (tc_sendChan c)) eqn:Hch; [done|].
  cbn [mbind go_bind]. intros [= <- _]. unfold evolves, conn_ok. split_and!; [done|intros (_ & _ & ?); by split_and!|done|done].
Qed.

Lemma SendMessage_evolves e1 e2 now m c c' m' r : SendMessage e1 e2 now m c = Ret (c', m', r) -> evolves c c'.
Proof.
  unfold SendMessage, Send, Send_queue. destruct (tc_closed c) eqn:Hc; [by intros [= <- _ _]|]. destruct m as [m|]; [|by intros [= <- _ _]].
  destruct (Net.Encode _) as [d|]; [|by intros [= <- _ _]]. destruct (length d =? 0)%nat; [cbn; intros [= <- _ _]; by apply core_evolves|].
  unfold try_send. destruct (ch_closed _) eqn:Hch; [done|]. case_decide; cbn [mbind go_bind is_ok].
  - intros [= <- _ _]. unfold evolves, conn_ok. cbn. split_and!; [done|intros (_ & _ & ?); split_and!; [by rewrite Hc|by rewrite Hc|done]|by rewrite Hc].
  - unfold sendDirect. destruct (negb (tc_conn c)); [by intros [= <- _ _]|]. destruct (if 0 <? _ then _ else _), e2; intros [= <- _ _]; by unfold evolves.
Qed.

(** Sending on a connection in order never panics. *)
Lemma SendMessage_returns now m c : conn_ok c -> exists c' m' r, SendMessage None None now m c = Ret (c', m', r).
Proof.
  intros (Hch & _ & _). unfold SendMessage, Send, Send_queue. destruct (tc_closed c) eqn:Hc; [by do 3 eexists|]. destruct m as [m|]; [|by do 3 eexists].
  destruct (Net.Encode _) as [d|]; [|by do 3 eexists]. destruct (length d =? 0)%nat; [by do 3 eexists|].
  rewrite (try_send_open _ _ Hch). cbn [mbind go_bind]. case_decide; cbn [mbind go_bind]; [by do 3 eexists|]. destruct (sendDirect _ _ _ _ _); by do 3 eexists.
Qed.

(** The heap: what is there changes as connections do, and at most one is added, with
    a new number. *)
Definition conns_evolve (s s' : server) : Prop :=
  sv_counter s <= sv_counter s' <= max_int64 /\
  exists l added, sv_conns s' = l ++ added /\ Forall2 evolves (sv_conns s) l /\ (length added <= 1)%nat /\
    Forall (fun c => conn_ok c /\ tc_id c = "tcp-" +:+ pretty (sv_counter s') /\ sv_counter s < sv_counter s') added.

Lemma evolves_insert (l : list tcp) i c c' : l !! i = Some c -> evolves c c' -> Forall2 evolves l (<[i := c']> l).
Proof.
  intros Hi Hc. rewrite -{1}(list_insert_id l i c Hi). apply Forall2_insert; [|done]. by apply Forall_Forall2_diag, Forall_true.
Qed.

Lemma conns_evolve_same (s s' : server) :
  sv_counter s <= max_int64 -> sv_counter s' = sv_counter s -> Forall2 evolves (sv_conns s) (sv_conns s') -> conns_evolve s s'.
Proof. intros Hm Hc H. split; [lia|]. exists (sv_conns s'), []. rewrite app_nil_r. split_and!; [done|done|cbn; lia|constructor]. Qed.

Lemma close_all_evolves ids : forall l l' : list tcp, TcpServer.close_all ids l = Ret l' -> Forall2 evolves l l'.
Proof.
  induction ids as [|i ids IH]; intros l l'; cbn; [intros [= <-]; by apply Forall_Forall2_diag, Forall_true|].
  destruct (l !! i) as [c|] eqn:Hi; [|done]. destruct (Close None c) as [[c' e]| |] eqn:Hc; cbn [mbind go_bind]; [|done..]. intros H.
  transitivity (<[i := c']> l); [|by apply IH]. apply (evolves_insert _ _ _ _ Hi). by apply Close_evolves in Hc as [].
Qed.

Lemma evolves_refl_list (l : list tcp) : Forall2 evolves l l.
Proof. by apply Forall_Forall2_diag, Forall_true. Qed.
Hint Resolve evolves_refl_list : core.

Lemma set_accept_same k pc (s : server) :
  sv_conns (set_accept k pc s) = sv_conns s /\ sv_counter (set_accept k pc s) = sv_counter s /\ sv_told (set_accept k pc s) = sv_told s /\
  sv_readers (set_accept k pc s) = sv_readers s.
Proof. unfold set_accept. by destruct (sv_accepts s !! k). Qed.

Lemma reader_end_same r rd c (s s' : server) : reader_end r rd c s = Ret s' ->
  sv_conns s' = sv_conns s /\ sv_counter s' = sv_counter s /\
  sv_readers s' = <[r := mkReader (rd_conn rd) (rd_notify rd) false]> (sv_readers s) /\
  exists new, sv_told s' = sv_told s ++ new /\ (new = [] \/ new = [OnDisconnect (rd_conn rd)]).
Proof.
  unfold reader_end, sv_removeConnection. destruct (rd_notify rd) as [[]|]; [destruct (sv_connHandler _); [|done]| |]; intros [= <-];
    match goal with |- context [sv_connections ?x !! ?y] => destruct (sv_connections x !! y) end; cbn;
    (split_and!; [done|done|done|]); eexists; (split; [first [reflexivity|symmetry; apply app_nil_r]|by auto]).
Qed.

Lemma accept1_conns k late inc now (s : server) : 0 <= sv_counter s < max_int64 -> conns_evolve s (accept1 k late inc now s).
Proof.
  intros Hm. pose proof (conns_evolve_same s) as Hsame.
  unfold accept1. assert (forall pc, conns_evolve s (set_accept k pc s)) as Hacc.
  { intros pc. destruct (set_accept_same k pc s) as (E1 & E2 & _). apply Hsame; [lia|done|]. by rewrite E1. }
  destruct (sv_accepts s !! k) as [[early []]|]; try (apply Hsame; by auto with lia). destruct (_ && _); [done|].
  destruct inc as [sock|]; [|destruct (sv_ctx s); [apply Hsame; by auto with lia|done]]. destruct (over_limit s); [apply Hsame; by auto with lia|].
  cbn [NewTCPConnection]. set (c := SetWriteTimeout _ _). set (s2 := if sv_msgHandler s then _ else _).
  assert (sv_conns s2 = sv_conns s ++ [c] /\ sv_counter s2 = i64 (sv_counter s + 1)) as [E1 E2] by (unfold s2; by destruct (sv_msgHandler s)).
  destruct (set_accept_same k (Added (length (sv_conns s))) s2) as (F1 & F2 & _). rewrite i64_small in E2; [unfold max_int64 in *; lia|].
  split; [lia|]. exists (sv_conns s), [c]. rewrite F1 F2 E1 E2. split_and!; [done|done|done|]. constructor; [|constructor].
  split_and!; [by split_and!| |lia]. cbn. rewrite i64_small //. unfold max_int64 in *. lia.
Qed.

Lemma accept2_conns k seen (s s' : server) : 0 <= sv_counter s < max_int64 -> accept2 k seen s = Ret s' -> conns_evolve s s'.
Proof.
  intros Hm. pose proof (conns_evolve_same s) as Hsame.
  unfold accept2. destruct (sv_accepts s !! k) as [[early [|i|]]|]; try (intros [= <-]; apply Hsame; by auto with lia).
  destruct (negb (sv_ctx s) && seen).
  - destruct (sv_conns s !! i) as [c|] eqn:Hi; [|done]. destruct (Close None c) as [[c' e]| |] eqn:Hc; cbn [mbind go_bind]; [|done..]. intros [= <-].
    match goal with |- context [set_accept k Ended ?x] => destruct (set_accept_same k Ended x) as (F1 & F2 & _) end.
    apply Hsame; [lia|by rewrite F2|]. rewrite F1. apply (evolves_insert _ _ _ _ Hi). by apply Close_evolves in Hc as [].
  - destruct (try_send _ _) as [[ok ch]| |]; cbn [mbind go_bind]; [|done..]. intros [= <-].
    match goal with |- context [set_accept k AtTop ?x] => destruct (set_accept_same k AtTop x) as (F1 & F2 & _) end.
    apply Hsame; [lia|rewrite F2|rewrite F1]; destruct ok, (sv_connHandler s); by cbn.
Qed.

Lemma reader_conns r late e now (s s' : server) : 0 <= sv_counter s < max_int64 -> handleConnection1 r late e now s = Ret s' -> conns_evolve s s'.
Proof.
  intros Hm. pose proof (conns_evolve_same s) as Hsame.
  unfold handleConnection1. destruct (sv_readers s !! r) as [[i notify []]|]; try (intros [= <-]; apply Hsame; by auto with lia).
  destruct (sv_conns s !! i) as [c|] eqn:Hi; [|done]. cbn zeta. destruct (negb (sv_ctx s) && negb late).
  { intros (F1 & F2 & _)%reader_end_same. apply Hsame; [lia|done|]. by rewrite F1. }
  destruct (ReadMessage e now c) as [[c' m]| |] eqn:Hr; cbn [mbind go_bind]; [|done..].
  assert (Forall2 evolves (sv_conns s) (<[i := c']> (sv_conns s))) as Hev by (apply (evolves_insert _ _ _ _ Hi), core_evolves, (ReadMessage_keeps _ _ _ _ _ Hr)).
  destruct m as [m|e'].
  - intros [= <-]. apply Hsame; [lia| |]; by destruct (sv_msgHandler s).
  - intros (F1 & F2 & _)%reader_end_same. apply Hsame; [lia|rewrite F2|rewrite F1]; by destruct (sv_connHandler s).
Qed.

Lemma sv_step_conns (s : server) op s' : 0 <= sv_counter s < max_int64 -> sv_step s op = Ret s' -> conns_evolve s s'.
Proof.
  intros Hm. pose proof (conns_evolve_same s) as Hsame. destruct op as [l| | |b|b|k late inc now|k seen|k e| |r late e now|i e|i m now|]; cbn [sv_step].
  - intros [= <-]. unfold sv_Start. destruct (sv_running s); [|destruct l]; apply Hsame; by auto with lia.
  - intros [= <-]. unfold Stop_begin. destruct (sv_running s); apply Hsame; by auto with lia.
  - unfold TcpServer.Stop_finish. destruct (negb (wg_done s)); [intros [= <-]; apply Hsame; by auto with lia|].
    destruct (sv_stopping s) as [|n]; [intros [= <-]; apply Hsame; by auto with lia|]. destruct (close_chan _) as [ch| |]; cbn [mbind go_bind]; [|done..].
    destruct (TcpServer.close_all _ _) as [l| |] eqn:Hc; cbn [mbind go_bind]; [|done..]. intros [= <-]. apply Hsame; [lia|done|]. by apply close_all_evolves in Hc.
  - intros [= <-]. unfold SetConnectionHandler. destruct (sv_running s && b); apply Hsame; by auto with lia.
  - intros [= <-]. apply Hsame; by auto with lia.
  - intros [= <-]. by apply accept1_conns.
  - by apply accept2_conns.
  - intros [= <-]. unfold connectionHandlerLoop1. repeat case_match; apply Hsame; by auto with lia.
  - intros [= <-]. unfold AcceptConnection. repeat case_match; apply Hsame; by auto with lia.
  - by apply reader_conns.
  - unfold TcpServer.on_conn. destruct (sv_conns s !! i) as [c|] eqn:Hi; [|intros [= <-]; apply Hsame; by auto with lia].
    destruct (Close e c) as [[c' e']| |] eqn:Hc; cbn [mbind go_bind]; [|done..]. intros [= <-]. apply Hsame; [lia|done|].
    apply (evolves_insert _ _ _ _ Hi). by apply Close_evolves in Hc as [].
  - unfold TcpServer.on_conn. destruct (sv_conns s !! i) as [c|] eqn:Hi; [|intros [= <-]; apply Hsame; by auto with lia].
    destruct (SendMessage None None now m c) as [[[c' m'] e']| |] eqn:Hc; cbn [mbind go_bind]; [|done..]. intros [= <-]. apply Hsame; [lia|done|].
    apply (evolves_insert _ _ _ _ Hi). by apply SendMessage_evolves in Hc.
  - intros [= <-]. split; [cbn; rewrite i64_small; unfold max_int64 in *; lia|]. exists (sv_conns s), []. rewrite app_nil_r. split_and!; [done|done|cbn; lia|constructor].
Qed.

(** What a step of the server tells, and which connections it reads. *)
Definition reads (s : server) (i : nat) : Prop := exists rd, rd ∈ sv_readers s /\ rd_conn rd = i.
Definition tells (s s' : server) : Prop :=
  (exists new, sv_told s' = sv_told s ++ new /\ forall i m, OnMessage i m ∈ new -> reads s i) /\
  forall i, reads s' i -> reads s i \/ (i < length (sv_conns s'))%nat.

Lemma tells_new new (s s' : server) :
  sv_told s' = sv_told s ++ new -> (forall i m, OnMessage i m ∉ new) -> sv_readers s' = sv_readers s -> tells s s'.
Proof.
  intros Ht Hn Hr. split; [exists new; split; [done|]; by intros i m ?%Hn|]. intros i (rd & Hrd & E). left. exists rd. by rewrite -Hr.
Qed.
Lemma tells_same (s s' : server) : sv_told s' = sv_told s -> sv_readers s' = sv_readers s -> tells s s'.
Proof. intros Ht Hr. apply (tells_new []); [by rewrite app_nil_r|by intros i m ?%elem_of_nil|done]. Qed.

Lemma reads_insert (s : server) r rd0 rd i : sv_readers s !! r = Some rd0 -> rd_conn rd = rd_conn rd0 ->
  (exists x, x ∈ <[r := rd]> (sv_readers s) /\ rd_conn x = i) -> reads s i.
Proof.
  intros Hr E (x & Hx & <-). apply list_elem_of_lookup in Hx as [j Hj]. apply list_lookup_insert_Some in Hj as [(<- & <- & _)|[_ Hj]].
  - exists rd0. split; [exact (list_elem_of_lookup_2 _ _ _ Hr)|done].
  - exists x. split; [exact (list_elem_of_lookup_2 _ _ _ Hj)|done].
Qed.

Lemma reader_tells r late e now (s s' : server) : handleConnection1 r late e now s = Ret s' -> tells s s'.
Proof.
  unfold handleConnection1. destruct (sv_readers s !! r) as [[i notify []]|] eqn:Hrd; try (intros [= <-]; by apply tells_same).
  destruct (sv_conns s !! i) as [c|]; [|done]. cbn zeta. set (rd := mkReader i _ true). set (s0 := sv_set_goroutines _ _ _ s).
  assert (forall s1 : server, sv_told s1 = sv_told s -> sv_readers s1 = sv_readers s0 -> forall x y t, reader_end r rd x (sv_tell t s1) = Ret y -> (forall j m, OnMessage j m ∉ t) -> tells s y) as Hend.
  { intros s1 E1 E2 x y t (_ & _ & F1 & new & F2 & F3)%reader_end_same Ht. split.
    - exists (t ++ new). rewrite F2. cbn. rewrite E1 assoc_L. split; [done|]. intros j m [Hj|Hj]%elem_of_app; [by apply Ht in Hj|].
      destruct F3 as [-> | ->]; [by apply elem_of_nil in Hj|by apply list_elem_of_singleton in Hj].
    - intros j (z & Hz & E). left. rewrite F1 in Hz. cbn in Hz. rewrite E2 in Hz. unfold s0 in Hz. cbn in Hz. rewrite list_insert_insert_eq in Hz.
      apply (reads_insert s r _ (mkReader i (rd_notify rd) false) j Hrd); [done|by exists z]. }
  destruct (negb (sv_ctx s) && negb late).
  { intros H. apply (Hend s0 eq_refl eq_refl c s' []); [|by intros j m ?%elem_of_nil]. rewrite -H. f_equal. unfold sv_tell. rewrite app_nil_r. by destruct s0. }
  destruct (ReadMessage e now c) as [[c' m]| |]; cbn [mbind go_bind]; [|done..]. destruct m as [m|e'].
  - intros [= <-]. split.
    + exists (if sv_msgHandler s then [OnMessage i m] else []). split; [destruct (sv_msgHandler s); cbn; by rewrite ?app_nil_r|].
      intros j m' Hj. destruct (sv_msgHandler s); [|by apply elem_of_nil in Hj]. apply list_elem_of_singleton in Hj as [= -> ->].
      exists (mkReader i notify true). split; [exact (list_elem_of_lookup_2 _ _ _ Hrd)|done].
    + intros j (z & Hz & E). left. apply (reads_insert s r _ rd j Hrd); [done|]. exists z. by destruct (sv_msgHandler s).
  - set (s1 := sv_set_conns _ _ s0). intros H. destruct (sv_connHandler s).
    + apply (Hend s1 eq_refl eq_refl c s' [OnError i e']); [done|]. by intros j m ?%list_elem_of_singleton.
    + apply (Hend s1 eq_refl eq_refl c s' []); [|by intros j m ?%elem_of_nil]. rewrite -H. f_equal. unfold sv_tell. rewrite app_nil_r. by destruct s1.
Qed.

Lemma accept1_tells k late inc now (s : server) : tells s (accept1 k late inc now s).
Proof.
  unfold accept1. destruct (sv_accepts s !! k) as [[early []]|]; try by apply tells_same.
  destruct (_ && _); [destruct (set_accept_same k TcpServer.Ended s) as (_ & _ & ? & ?); by apply tells_same|].
  destruct inc as [sock|]; [|destruct (sv_ctx s); [by apply tells_same|destruct (set_accept_same k TcpServer.Ended s) as (_ & _ & ? & ?); by apply tells_same]].
  destruct (over_limit s); [by apply tells_same|]. cbn [NewTCPConnection]. set (c := SetWriteTimeout _ _). set (s2 := if sv_msgHandler s then _ else _).
  destruct (set_accept_same k (Added (length (sv_conns s))) s2) as (F1 & _ & F3 & F4).
  assert (sv_conns s2 = sv_conns s ++ [c] /\ sv_told s2 = sv_told s /\
    sv_readers s2 = if sv_msgHandler s then sv_readers s ++ [mkReader (length (sv_conns s)) None true] else sv_readers s) as (E1 & E2 & E3)
    by (unfold s2; by destruct (sv_msgHandler s)).
  split; [exists []; rewrite F3 E2 app_nil_r; split; [done|by intros i m ?%elem_of_nil]|]. intros i (rd & Hrd & <-). rewrite F4 E3 in Hrd.
  rewrite F1 E1 length_app. destruct (sv_msgHandler s); [|left; by exists rd]. apply elem_of_app in Hrd as [Hrd|Hrd]; [left; by exists rd|].
  right. apply list_elem_of_singleton in Hrd as ->. cbn. lia.
Qed.

Lemma sv_step_tells (s : server) op s' : sv_step s op = Ret s' -> tells s s'.
Proof.
  destruct op as [l| | |b|b|k late inc now|k seen|k e| |r late e now|i e|i m now|]; cbn [sv_step].
  - intros [= <-]. unfold sv_Start. destruct (sv_running s); [|destruct l]; by apply tells_same.
  - intros [= <-]. unfold Stop_begin. destruct (sv_running s); by apply tells_same.
  - unfold TcpServer.Stop_finish. destruct (negb (wg_done s)); [intros [= <-]; by apply tells_same|].
    destruct (sv_stopping s) as [|n]; [intros [= <-]; by apply tells_same|]. destruct (close_chan _) as [ch| |]; cbn [mbind go_bind]; [|done..].
    destruct (TcpServer.close_all _ _) as [l| |]; cbn [mbind go_bind]; [|done..]. intros [= <-]. by apply tells_same.
  - intros [= <-]. unfold SetConnectionHandler. destruct (sv_running s && b); by apply tells_same.
  - intros [= <-]. by apply tells_same.
  - intros [= <-]. apply accept1_tells.
  - unfold accept2. destruct (sv_accepts s !! k) as [[early [|i|]]|]; try (intros [= <-]; by apply tells_same).
    destruct (negb (sv_ctx s) && seen).
    + destruct (sv_conns s !! i) as [c|]; [|done]. destruct (Close None c) as [[c' e]| |]; cbn [mbind go_bind]; [|done..]. intros [= <-].
      match goal with |- context [set_accept k TcpServer.Ended ?x] => destruct (set_accept_same k TcpServer.Ended x) as (_ & _ & F3 & F4) end.
      by apply tells_same.
    + destruct (try_send _ _) as [[ok ch]| |]; cbn [mbind go_bind]; [|done..]. intros [= <-].
      match goal with |- context [set_accept k AtTop ?x] => destruct (set_accept_same k AtTop x) as (_ & _ & F3 & F4) end.
      apply (tells_new (if ok then [] else if sv_connHandler s then [OnConnect i] else [])).
      * rewrite F3. destruct ok, (sv_connHandler s); cbn; by rewrite ?app_nil_r.
      * intros j m Hj. destruct ok, (sv_connHandler s); by repeat (apply elem_of_cons in Hj as [?|Hj] || apply elem_of_nil in Hj).
      * rewrite F4. by destruct ok, (sv_connHandler s).
  - intros [= <-]. unfold connectionHandlerLoop1. destruct (sv_loops s !! k) as [[]|]; try by apply tells_same.
    destruct e; [destruct (sv_ctx s); by apply tells_same|]. destruct (try_recv _) as [i ch| |]; [|by apply tells_same..].
    destruct (sv_connHandler s); [|by apply tells_same]. apply (tells_new [OnConnect i]); [done| |done]. by intros j m ?%list_elem_of_singleton.
  - intros [= <-]. unfold AcceptConnection. destruct (try_recv _) as [i ch| |]; [|by apply tells_same..].
    apply (tells_new [Handed i]); [done| |done]. by intros j m ?%list_elem_of_singleton.
  - by apply reader_tells.
  - unfold TcpServer.on_conn. destruct (sv_conns s !! i) as [c|]; [|intros [= <-]; by apply tells_same].
    destruct (Close e c) as [[c' e']| |]; cbn [mbind go_bind]; [|done..]. intros [= <-]. by apply tells_same.
  - unfold TcpServer.on_conn. destruct (sv_conns s !! i) as [c|]; [|intros [= <-]; by apply tells_same].
    destruct (SendMessage None None now m c) as [[[c' m'] e']| |]; cbn [mbind go_bind]; [|done..]. intros [= <-]. by apply tells_same.
  - intros [= <-]. by apply tells_same.
Qed.

(** ** What the manager should hold *)

(** The connections whose [OnConnect] has run, and no [OnDisconnect] after it. *)
Definition live1 (l : gset nat) (t : @told U) : gset nat :=
  match t with OnConnect i => {[i]} ∪ l | OnDisconnect i => l ∖ {[i]} | _ => l end.
Definition live (handled : list (@told U)) : gset nat := foldl live1 ∅ handled.
#[local] Arguments live : simpl never.

Lemma live_snoc h t : live (h ++ [t]) = live1 (live h) t.
Proof. unfold live. by rewrite foldl_app. Qed.

(** A call is about a connection of the server. *)
Definition in_range (s : server) (t : @told U) : Prop :=
  match t with OnConnect i | OnMessage i _ => (i < length (sv_conns s))%nat | _ => True end.

Record server_inv (s : server) : Prop := {
  si_ok : Forall conn_ok (sv_conns s);
  si_counter : 0 <= sv_counter s <= max_int64;
  si_num : Forall (fun c => exists k, tc_id c = "tcp-" +:+ pretty k /\ 1 <= k <= sv_counter s) (sv_conns s);
  si_ids : NoDup (tc_id <$> sv_conns s);
  si_deliver : deliver_inv s;
  si_reads : forall i, reads s i -> (i < length (sv_conns s))%nat;
}.
Record echo_inv (e : echo) : Prop := {
  ei_server : server_inv (ec_server e);
  ei_pending : Forall (in_range (ec_server e)) (ec_pending e);
  ei_table : forall id i, cm_connections (ec_manager e) !! id = Some i <->
    i ∈ live (ec_handled e) /\ (tc_id <$> sv_conns (ec_server e)) !! i = Some id;
  ei_live : forall i, i ∈ live (ec_handled e) -> (i < length (sv_conns (ec_server e)))%nat;
  ei_left : forall i, OnConnect i ∈ ec_handled e -> i ∉ live (ec_handled e) ->
    exists c, sv_conns (ec_server e) !! i = Some c /\ tc_closed c = true;
}.

Lemma evolve_lookup s s' i c : conns_evolve s s' -> sv_conns s !! i = Some c -> exists c', sv_conns s' !! i = Some c' /\ evolves c c'.
Proof.
  intros (_ & l & added & -> & Hl & _) Hi. destruct (Forall2_lookup_l _ _ _ _ _ Hl Hi) as (c' & Hc' & Hev). exists c'.
  split; [by apply lookup_app_l_Some|done].
Qed.
Lemma evolve_length s s' : conns_evolve s s' -> (length (sv_conns s) <= length (sv_conns s'))%nat.
Proof. intros (_ & l & added & -> & Hl%Forall2_length & _). rewrite length_app. lia. Qed.
Lemma evolve_ids s s' i : conns_evolve s s' -> (i < length (sv_conns s))%nat -> (tc_id <$> sv_conns s') !! i = (tc_id <$> sv_conns s) !! i.
Proof.
  intros He Hi. apply lookup_lt_is_Some in Hi as [c Hc]. destruct (evolve_lookup _ _ _ _ He Hc) as (c' & Hc' & E & _).
  by rewrite !list_lookup_fmap Hc Hc' /= E.
Qed.

Lemma Forall2_evolves_ids (l l' : list tcp) : Forall2 evolves l l' -> tc_id <$> l' = tc_id <$> l.
Proof. induction 1 as [|c c' l l' (E & _) _ IH]; [done|]. cbn. by rewrite E IH. Qed.
Lemma Forall2_evolves_ok (l l' : list tcp) : Forall2 evolves l l' -> Forall conn_ok l -> Forall conn_ok l'.
Proof. induction 1 as [|c c' l l' (_ & E & _) _ IH]; [done|]. intros [? ?]%Forall_cons. constructor; by auto. Qed.

Lemma Forall_fmap_ids (P : string -> Prop) (l : list tcp) : Forall (fun c => P (tc_id c)) l <-> Forall P (tc_id <$> l).
Proof. by rewrite Forall_fmap. Qed.

(** The server stays in order while its connections change and one may be added. *)
Lemma server_inv_evolve s s' : server_inv s -> conns_evolve s s' -> deliver_inv s' ->
  (forall i, reads s' i -> reads s i \/ (i < length (sv_conns s'))%nat) -> server_inv s'.
Proof.
  intros [Hok Hc Hnum Hids Hd Hr] He Hd' Hr'. pose proof (evolve_length _ _ He) as Hlen. destruct He as (Hcnt & l & added & E & Hl & Hone & Hadd).
  rewrite E in Hlen, Hr' |- *. split; rewrite ?E; [|lia| | |done|].
  - apply Forall_app. split; [exact (Forall2_evolves_ok _ _ Hl Hok)|]. eapply Forall_impl; [exact Hadd|]. by intros c [].
  - apply Forall_app. split.
    + apply (Forall_fmap_ids (fun id => exists k, id = "tcp-" +:+ pretty k /\ 1 <= k <= sv_counter s')). rewrite (Forall2_evolves_ids _ _ Hl) -Forall_fmap_ids. eapply Forall_impl; [exact Hnum|]. intros c (k & ? & ?). exists k. split; [done|lia].
    + eapply Forall_impl; [exact Hadd|]. intros c (_ & ? & ?). exists (sv_counter s'). split; [done|lia].
  - rewrite fmap_app (Forall2_evolves_ids _ _ Hl). apply NoDup_app. split; [done|]. split.
    + intros id Hid Hin. apply list_elem_of_fmap in Hin as (c & -> & Hin). rewrite Forall_forall in Hadd. destruct (Hadd c Hin) as (_ & Hcid & Hlt).
      apply list_elem_of_fmap in Hid as (c0 & E0 & Hid). rewrite Forall_forall in Hnum. destruct (Hnum c0 Hid) as (k & Hk & Hkn).
      rewrite Hcid Hk in E0. apply (inj (String.append "tcp-")) in E0. apply (inj pretty) in E0. lia.
    + destruct added as [|c [|? ?]]; cbn; [constructor|apply NoDup_singleton|cbn in Hone; lia].
  - intros i [Hi|Hi]%Hr'; [|done]. specialize (Hr i Hi). lia.
Qed.

(** What handlers and heartbeats do: connections change, none is added. *)
Definition heap_evolves (s s' : server) : Prop := sv_counter s' = sv_counter s /\ Forall2 evolves (sv_conns s) (sv_conns s').
#[local] Instance heap_evolves_po : PreOrder heap_evolves.
Proof.
  split; [intros s; by split|]. intros a b c [H1 H2] [H3 H4]. split; [congruence|]. by transitivity (sv_conns b).
Qed.
Lemma heap_conns_evolve s s' : server_inv s -> heap_evolves s s' -> conns_evolve s s'.
Proof. intros Hs [Hc He]. apply conns_evolve_same; [apply Hs|done|done]. Qed.

Lemma at_conn_ok {A} i (f : tcp -> go (tcp * A)) s : server_inv s -> (i < length (sv_conns s))%nat ->
  (forall c, conn_ok c -> exists c' a, f c = Ret (c', a) /\ evolves c c') ->
  exists s' a c c', at_conn i f s = Ret (s', a) /\ server_inv s' /\ heap_evolves s s' /\ sv_conns s' !! i = Some c' /\ f c = Ret (c', a).
Proof.
  intros Hs Hi Hf. apply lookup_lt_is_Some in Hi as [c Hc]. destruct (Hf c (Forall_lookup_1 _ _ _ _ (si_ok _ Hs) Hc)) as (c' & a & E & Hev).
  unfold at_conn. rewrite Hc E. cbn [mbind go_bind]. eexists _, a, c, c'. split; [reflexivity|].
  assert (heap_evolves s (sv_set_conns (<[i := c']> (sv_conns s)) (sv_counter s) s)) as He by (split; [done|exact (evolves_insert _ _ _ _ Hc Hev)]).
  split_and!; [|done|cbn; by rewrite list_lookup_insert_eq; [exact (lookup_lt_Some _ _ _ Hc)|]|done].
  apply (server_inv_evolve s); [done|by apply heap_conns_evolve| |by auto]. apply (deliver_same s); [done|cbn; apply length_insert|apply Hs].
Qed.

Lemma send_ok now m i s : server_inv s -> (i < length (sv_conns s))%nat ->
  exists s' r, cn_SendMessage (ConnIface := server_world now) i m s = Ret (s', r) /\ server_inv s' /\ heap_evolves s s'.
Proof.
  intros Hs Hi. destruct (at_conn_ok i (fun c => '(c', _, e) ← SendMessage None None now m c; Ret (c', e)) s Hs Hi) as (s' & r & _ & _ & E & ? & ? & _).
  - intros c Hok. destruct (SendMessage_returns now m c Hok) as (c' & m' & r & E). rewrite E. do 2 eexists. split; [reflexivity|]. by apply SendMessage_evolves in E.
  - by exists s', r.
Qed.

Lemma echo_OnMessage_ok clk m c : conn_ok c -> exists c', echo_OnMessage None None addr fmt_RFC3339 clk m c = Ret c' /\ evolves c c'.
Proof.
  intros Hok. assert (forall now m', exists c', reply None None now m' c = Ret c' /\ evolves c c') as Hreply.
  { intros now m'. unfold reply. destruct (SendMessage_returns now (Some m') c Hok) as (c' & x & r & E). rewrite E. exists c'. split; [done|].
    by apply SendMessage_evolves in E. }
  unfold echo_OnMessage, handleRPC, rpc_response. destruct (_ =? _); [apply Hreply|]. destruct (_ =? _); [apply Hreply|].
  destruct (_ =? _); [|by exists c]. repeat case_bool_decide; cbn [mbind go_bind]; try apply Hreply.
  unfold GetStatistics. destruct Hok as (? & ? & ->). cbn [mbind go_bind]. apply Hreply.
Qed.

(** A change of the server under the manager. *)
Lemma echo_inv_server s s' cm p p' h :
  echo_inv (mkEcho s cm p h) -> server_inv s' -> conns_evolve s s' -> Forall (in_range s') p' -> echo_inv (mkEcho s' cm p' h).
Proof.
  intros [Hs Hp Ht Hl Hx] Hs' He Hp'. cbn in *. split; cbn; [done|done| | |].
  - intros id i. rewrite Ht. split; intros [Hi Hid]; (split; [done|]); rewrite -Hid; [|symmetry]; by apply evolve_ids, Hl.
  - intros i Hi. specialize (Hl i Hi). pose proof (evolve_length _ _ He). lia.
  - intros i H1 H2. destruct (Hx i H1 H2) as (c & Hc & Hcl). destruct (evolve_lookup _ _ _ _ He Hc) as (c' & Hc' & _ & _ & Hev). exists c'. by auto.
Qed.

Lemma in_range_evolve s s' p : conns_evolve s s' -> Forall (in_range s) p -> Forall (in_range s') p.
Proof. intros He Hp. eapply Forall_impl; [exact Hp|]. intros t. pose proof (evolve_length _ _ He). unfold in_range. destruct t; lia || done. Qed.

(** A call that is no longer pending and says nothing about the table. *)
Lemma echo_inv_quiet s cm p p' h t : echo_inv (mkEcho s cm p h) -> Forall (in_range s) p' -> (forall i, t <> OnConnect i) -> live1 (live h) t = live h ->
  echo_inv (mkEcho s cm p' (h ++ [t])).
Proof.
  intros [Hs Hp Ht Hl Hx] Hp' Hn E. cbn in *. split; cbn; rewrite ?live_snoc ?E; [exact Hs|exact Hp'|exact Ht|exact Hl|].
  intros i [Hi|Hi%list_elem_of_singleton]%elem_of_app; [by apply Hx|]. by destruct (Hn i).
Qed.

Lemma echo_inv_connect s cm p p' h i now : echo_inv (mkEcho s cm p h) -> Forall (in_range s) p' -> (i < length (sv_conns s))%nat ->
  echo_inv (mkEcho s (AddConnection (ConnIface0 := server_world now) (Some i) s cm).1 p' (h ++ [OnConnect i])).
Proof.
  intros [Hs Hp Ht Hl Hx] Hp' Hi. cbn in *. pose proof Hi as [c Hc]%lookup_lt_is_Some. assert ((tc_id <$> sv_conns s) !! i = Some (tc_id c)) as Hid by by rewrite list_lookup_fmap Hc.
  assert (forall j, (tc_id <$> sv_conns s) !! j = Some (tc_id c) -> j = i) as Hinj by (intros j Hj; exact (NoDup_lookup _ _ _ _ (si_ids _ Hs) Hj Hid)).
  split; cbn; rewrite ?live_snoc; cbn [live1]; [done|done| | |].
  - rewrite Hc. cbn. intros id j. destruct (cm_connections cm !! tc_id c) as [k|] eqn:Hk; cbn.
    + apply Ht in Hk as [Hk1 Hk2]. rewrite -> (Hinj k Hk2) in *. rewrite Ht. set_solver.
    + rewrite lookup_insert_Some Ht. split.
      * intros [[<- <-]|[Hne [? ?]]]; [split; [set_solver|done]|set_solver].
      * intros [[->%elem_of_singleton|Hj]%elem_of_union Hj']; [left; split; congruence|]. right. split; [|done]. intros <-.
        assert (cm_connections cm !! tc_id c = Some j) by by apply Ht. congruence.
  - intros j [->%elem_of_singleton|Hj]%elem_of_union; [done|by apply Hl].
  - intros j Hj Hnl. apply Hx; [|set_solver]. apply elem_of_app in Hj as [Hj|Hj]; [done|]. apply list_elem_of_singleton in Hj as [= ->]. set_solver.
Qed.

Lemma echo_inv_disconnect s cm p p' h i now : echo_inv (mkEcho s cm p h) -> Forall (in_range s) p' ->
  exists cm' s', echo_OnDisconnect server_world now i cm s = Ret (cm', s') /\ echo_inv (mkEcho s' cm' p' (h ++ [OnDisconnect i])).
Proof.
  intros He Hp'. pose proof He as [Hs Hp Ht Hl Hx]. cbn in *. unfold echo_OnDisconnect, RemoveConnection. cbn [cn_ID server_world].
  set (id := from_option tc_id "" (sv_conns s !! i)). destruct (cm_connections cm !! id) as [j|] eqn:Hj.
  - apply Ht in Hj as [Hj Hid]. assert (j = i) as ->.
    { destruct (sv_conns s !! i) as [c|] eqn:Hc; cbn in id; [apply (NoDup_lookup _ _ _ _ (si_ids _ Hs) Hid); by rewrite list_lookup_fmap Hc|].
      rewrite list_lookup_fmap in Hid. apply fmap_Some in Hid as (c & Hcj & E). pose proof (Forall_lookup_1 _ _ _ _ (si_num _ Hs) Hcj) as (k & Hk & _). by rewrite Hk in E. }
    destruct (at_conn_ok i (Close None) s Hs (Hl i Hj)) as (s' & r & c & c' & E & Hs' & Hev & Hc' & HC).
    { intros c (Hch & Hst & _). destruct (Close_spec None c Hch Hst) as (c' & r & E & _). exists c', r. split; [done|]. by apply Close_evolves in E as []. }
    apply (heap_conns_evolve s s' Hs) in Hev. change (cn_Close i s) with (at_conn i (Close None) s). rewrite E. cbn [mbind go_bind]. eexists _, _. split; [reflexivity|].
    apply (echo_inv_server s s' cm p p' h) in He as [_ Hp1 Ht1 Hl1 Hx1]; [|done|done|by apply (in_range_evolve s)]. cbn in *.
    assert ((tc_id <$> sv_conns s') !! i = Some id) as Hid' by (rewrite (evolve_ids s s') //; by apply Hl).
    split; cbn; rewrite ?live_snoc; cbn [live1]; [done|done| | |].
    + intros x j. rewrite lookup_delete_Some Ht1. split.
      * intros (Hne & Hj1 & Hx2). split; [|done]. apply elem_of_difference. split; [done|]. intros ->%elem_of_singleton. congruence.
      * intros [[Hj1 Hj2%not_elem_of_singleton]%elem_of_difference Hx2]. split_and!; [|done|done]. intros ->. apply Hj2.
        exact (NoDup_lookup _ _ _ _ (si_ids _ Hs') Hx2 Hid').
    + intros j [Hj1 _]%elem_of_difference. by apply Hl1.
    + intros j [Hj1|Hj1%list_elem_of_singleton]%elem_of_app Hj2; [|done]. destruct (decide (j = i)) as [->|Hne]; [|apply Hx1; set_solver].
      exists c'. split; [done|]. by apply Close_evolves in HC as [].
  - cbn [mbind go_bind]. eexists _, _. split; [reflexivity|]. apply (echo_inv_quiet s cm p p'); [done|done|done|]. cbn. apply difference_disjoint_L.
    intros x Hx1 Hx2. apply elem_of_singleton in Hx2 as ->. pose proof (Hl _ Hx1) as [c Hc]%lookup_lt_is_Some.
    assert (cm_connections cm !! id = Some i); [|congruence]. apply Ht. split; [done|]. unfold id. by rewrite list_lookup_fmap Hc.
Qed.

Lemma send_all_ok now m ids s : server_inv s -> Forall (fun i => (i < length (sv_conns s))%nat) ids ->
  exists s' es n, send_all (ConnIface0 := server_world now) (fun c => cn_SendMessage (ConnIface := server_world now) c m) ids s = Ret (s', es, n) /\
    server_inv s' /\ heap_evolves s s'.
Proof.
  revert s. induction ids as [|i ids IH]; intros s Hs Hi.
  - exists s, [], 0%nat. by split_and!.
  - apply Forall_cons in Hi as [Hi Hr]. destruct (send_ok now m i s Hs Hi) as (s1 & r & E & Hs1 & He1). cbn [send_all]. rewrite E. cbn [mbind go_bind].
    destruct (IH s1 Hs1) as (s2 & es & n & -> & Hs2 & He2).
    { eapply Forall_impl; [exact Hr|]. intros j Hj. cbn in Hj. destruct He1 as [_ He1%Forall2_length]. by rewrite -He1. }
    cbn [mbind go_bind]. assert (heap_evolves s s2) by by transitivity s1. destruct r; do 3 eexists; (split; [reflexivity|done]).
Qed.

(** ** Every interleaving *)

Definition allowed (e : echo) (op : echo_op) : Prop :=
  match op with
  | EServer _ => sv_counter (ec_server e) < max_int64
  | EHandler _ _ => True
  | EBeat _ sched _ _ => forall l, sched l ≡ₚ l
  end.

(** From a start that succeeded. *)
Inductive echo_reach (fmt_duration : duration -> string) (now : time) : echo -> Prop :=
| echo_reach_start listen e : echo_main_start fmt_duration listen now = Ok e -> echo_reach fmt_duration now e
| echo_reach_step e op e' : echo_reach fmt_duration now e -> allowed e op -> echo_step e op = Ret e' -> echo_reach fmt_duration now e'.

Lemma echo_start_inv fmt_duration listen now e : echo_main_start fmt_duration listen now = Ok e -> echo_inv e.
Proof.
  unfold echo_main_start. cbn. destruct listen; [done|]. intros [= <-]. split; cbn; [|constructor| | |].
  - split; cbn; [constructor|done|constructor|constructor| |by intros i (rd & ?%elem_of_nil & _)].
    split; cbn; [constructor|by intros i ?%elem_of_nil].
  - intros id i. rewrite lookup_empty. split; [done|]. by intros [?%elem_of_empty _].
  - by intros i ?%elem_of_empty.
  - by intros i ?%elem_of_nil.
Qed.

Lemma server_step_inv e op s' : echo_inv e -> sv_counter (ec_server e) < max_int64 -> sv_step (ec_server e) op = Ret s' ->
  echo_inv (mkEcho s' (ec_manager e) (ec_pending e ++ drop (length (sv_told (ec_server e))) (sv_told s')) (ec_handled e)).
Proof.
  destruct e as [s cm p h]. cbn [ec_server ec_manager ec_pending ec_handled]. intros He Hm Hs. pose proof He as [Hsi Hp _ _ _]. cbn in Hsi, Hp.
  assert (0 <= sv_counter s < max_int64) as Hc by (pose proof (si_counter _ Hsi); lia).
  pose proof (sv_step_conns _ _ _ Hc Hs) as Hev. destruct (sv_step_tells _ _ _ Hs) as [(new & Ht & Hnew) Hreads].
  pose proof (deliver_step _ _ _ (si_deliver _ Hsi) Hs) as Hd. apply (echo_inv_server s s' cm p); [done|by apply (server_inv_evolve s)|done|].
  apply Forall_app. split; [by apply (in_range_evolve s)|]. rewrite Ht drop_app_length. apply Forall_forall. intros t Hin. destruct t as [i|i|i er|i m|i]; cbn; try done.
  - apply (di_range _ Hd). unfold placed. rewrite Ht omap_app !elem_of_app. do 2 right. right. apply list_elem_of_omap. by exists (OnConnect i).
  - pose proof (si_reads _ Hsi i (Hnew _ _ Hin)). pose proof (evolve_length _ _ Hev). lia.
Qed.

Lemma handle_ok clk t cm s p p' h : echo_inv (mkEcho s cm p h) -> in_range s t -> Forall (in_range s) p' ->
  exists cm' s', handle clk t cm s = Ret (cm', s') /\ echo_inv (mkEcho s' cm' p' (h ++ [t])).
Proof.
  intros He Hin Hp'. pose proof (ei_server _ He) as Hs. cbn in Hs. destruct t as [i|i|i er|i m|i]; cbn [handle].
  - pose proof (echo_inv_connect s cm p p' h i (clk 0%nat) He Hp' Hin) as He'. unfold echo_OnConnect.
    destruct (AddConnection (Some i) s cm) as [cm' r]. cbn [fst] in He'. destruct (send_ok (clk 1%nat) (Some (welcome (clk 0%nat))) i s Hs Hin) as (s' & r' & -> & Hs' & Hev).
    apply (heap_conns_evolve s s' Hs) in Hev. cbn [mbind go_bind]. do 2 eexists. split; [reflexivity|].
    apply (echo_inv_server s s' cm' p'); [done|done|done|by apply (in_range_evolve s)].
  - by apply (echo_inv_disconnect s cm p).
  - do 2 eexists. split; [reflexivity|]. by apply (echo_inv_quiet s cm p).
  - destruct (at_conn_ok i (fun c => c' ← echo_OnMessage None None addr fmt_RFC3339 clk m c; Ret (c', tt)) s Hs Hin) as (s' & r & _ & _ & -> & Hs' & Hev & _).
    { intros c Hok. destruct (echo_OnMessage_ok clk m c Hok) as (c' & -> & ?). by exists c', tt. }
    apply (heap_conns_evolve s s' Hs) in Hev. cbn [mbind go_bind]. do 2 eexists. split; [reflexivity|].
    apply (echo_inv_quiet s' cm p'); [|by apply (in_range_evolve s)|done|done]. by apply (echo_inv_server s s' cm p); [| | |apply (in_range_evolve s)].
  - do 2 eexists. split; [reflexivity|]. by apply (echo_inv_quiet s cm p).
Qed.

Lemma beat_ok e msg sched order now : echo_inv e -> (forall l, sched l ≡ₚ l) ->
  exists s', sendHeartbeatToAll msg sched order now (ec_manager e) (ec_server e) = Ret s' /\ echo_inv (mkEcho s' (ec_manager e) (ec_pending e) (ec_handled e)).
Proof.
  destruct e as [s cm p h]. intros He Hsched. pose proof He as [Hs Hp Ht Hl _]. cbn in *. unfold sendHeartbeatToAll.
  match goal with |- context [send_all _ ?ids s] => destruct (send_all_ok now (Some msg) ids s Hs) as (s' & es & n & -> & Hs' & Hev) end.
  - apply Forall_forall. intros i Hi. rewrite Hsched in Hi. apply list_elem_of_In, filter_In in Hi as [Hi _]. apply list_elem_of_In, list_elem_of_omap in Hi as (id & _ & Hid).
    apply Hl. by apply Ht in Hid as [].
  - apply (heap_conns_evolve s s' Hs) in Hev. cbn [mbind go_bind]. exists s'. split; [done|]. apply (echo_inv_server s s' cm p); [done|done|done|by apply (in_range_evolve s)].
Qed.

(** What the program itself does never panics and keeps the invariant; the server's
    own steps keep it when they return. *)
Lemma echo_step_inv e op e' : echo_inv e -> allowed e op -> echo_step e op = Ret e' -> echo_inv e'.
Proof.
  intros He Ha. destruct op as [op|k clk|made sched order now]; cbn [echo_step].
  - destruct (sv_step (ec_server e) op) as [s'| |] eqn:Hs; cbn [mbind go_bind]; [|done..]. intros [= <-]. by apply (server_step_inv e op).
  - destruct (ec_pending e !! k) as [t|] eqn:Hk; [|by intros [= <-]]. destruct e as [s cm p h]. cbn in *. pose proof (ei_pending _ He) as Hp. cbn in Hp.
    destruct (handle_ok clk t cm s p (delete k p) h He (Forall_lookup_1 _ _ _ _ Hp Hk) (Forall_delete _ _ _ Hp)) as (cm' & s' & -> & He').
    cbn [mbind go_bind]. by intros [= <-].
  - destruct (beat_ok e (Net.NewHeartbeatMessage made) sched order now He Ha) as (s' & -> & He'). cbn [mbind go_bind]. by intros [= <-].
Qed.
Lemma echo_reach_inv fmt_duration now e : echo_reach fmt_duration now e -> echo_inv e.
Proof. induction 1 as [listen e Hs|e op e' _ IH Ha Hs]; [exact (echo_start_inv _ _ _ _ Hs)|exact (echo_step_inv _ _ _ IH Ha Hs)]. Qed.


(** ** Shutting down *)

Lemma close_loop_closes now ids cm s errs : server_inv s -> (forall id i, cm_connections cm !! id = Some i -> (i < length (sv_conns s))%nat) ->
  exists s' es, ConnManager.close_loop (ConnIface0 := server_world now) ids cm s errs = Ret (s', es) /\ heap_evolves s s' /\
    forall id i, id ∈ ids -> cm_connections cm !! id = Some i -> exists c, sv_conns s' !! i = Some c /\ tc_closed c = true.
Proof.
  revert s errs. induction ids as [|id ids IH]; intros s errs Hs Hr; cbn [ConnManager.close_loop].
  - exists s, errs. split_and!; [done|done|by intros ?? ?%elem_of_nil].
  - destruct (cm_connections cm !! id) as [i|] eqn:Hid.
    + destruct (at_conn_ok i (Close None) s Hs (Hr _ _ Hid)) as (s1 & r & c & c' & E & Hs1 & Hev & Hc' & HC).
      { intros c (Hch & Hst & _). destruct (Close_spec None c Hch Hst) as (c' & r & E & _). exists c', r. split; [done|]. by apply Close_evolves in E as []. }
      change (cn_Close i s) with (at_conn i (Close None) s). rewrite E. cbn [mbind go_bind].
      match goal with |- context [ConnManager.close_loop ids cm s1 ?x] => destruct (IH s1 x Hs1) as (s2 & es & -> & Hev2 & Hcl) end.
      { intros id' j Hj. destruct Hev as [_ <-%Forall2_length]. exact (Hr _ _ Hj). }
      exists s2, es. split_and!; [done|by transitivity s1|]. intros id' j [->|Hin]%elem_of_cons Hj; [|by apply (Hcl id')].
      rewrite Hid in Hj. injection Hj as <-. destruct Hev2 as [_ Hev2]. destruct (Forall2_lookup_l _ _ _ _ _ Hev2 Hc') as (c2 & Hc2 & _ & _ & Hmono).
      exists c2. split; [done|]. apply Hmono. by apply Close_evolves in HC as [].
    + destruct (IH s errs Hs Hr) as (s2 & es & -> & Hev2 & Hcl). exists s2, es. split_and!; [done|done|].
      intros id' j [->|Hin]%elem_of_cons Hj; [congruence|by apply (Hcl id')].
Qed.

(** On the signal [main] gets as far as the wait of [server.Stop], without a panic:
    the heartbeat is off, the manager is empty, every connection it held is closed, and
    the server no longer listens. *)
Theorem echo_shutdown fmt_duration now e order t :
  echo_reach fmt_duration now e -> range_order (cm_connections (ec_manager e)) order ->
  exists e', echo_main_stop order t e = Ret e' /\ cm_connections (ec_manager e') = ∅ /\ cm_heartbeatEnabled (ec_manager e') = false /\
    sv_running (ec_server e') = false /\
    forall i, i ∈ live (ec_handled e) -> exists c, sv_conns (ec_server e') !! i = Some c /\ tc_closed c = true.
Proof.
  intros He%echo_reach_inv Hord. destruct e as [s cm p h]. pose proof He as [Hs _ Ht Hl _]. cbn in *. unfold echo_main_stop, CloseAllConnections. cbn [ec_manager ec_server].
  set (cm0 := stop_heartbeat cm). assert (cm_connections cm0 = cm_connections cm /\ cm_heartbeatEnabled cm0 = false) as [E1 E2].
  { unfold cm0, stop_heartbeat. destruct (cm_heartbeatEnabled cm) eqn:E; by rewrite ?E. }
  destruct (close_loop_closes t order cm0 s [] Hs) as (s' & es & -> & Hev & Hcl).
  { intros id i Hi. rewrite E1 in Hi. apply Hl. by apply Ht in Hi as []. }
  cbn [mbind go_bind with_connections cm_heartbeatEnabled]. rewrite E2. cbn [mbind go_bind]. eexists. split; [reflexivity|]. cbn. split_and!; [done|done| |].
  - unfold Stop_begin. by destruct (sv_running s') eqn:E.
  - intros i Hi. pose proof (Hl i Hi) as [c Hc]%lookup_lt_is_Some. assert (cm_connections cm !! tc_id c = Some i) as Hid.
    { apply Ht. split; [done|]. by rewrite list_lookup_fmap Hc. }
    destruct (Hcl (tc_id c) i) as (c' & Hc' & Hx); [apply (elem_of_range_order _ _ _ Hord); rewrite Hid; by eexists|by rewrite E1|]. exists c'. split; [|done].
    unfold Stop_begin. by destruct (sv_running s').
Qed.
End echo.

(** ** Runs *)

#[local] Notation step1 := (echo_step (U := unit) "" (fun _ => "")).
#[local] Notation reach1 := (echo_reach (U := unit) "" (fun _ => "") (fun _ => "") 0).

(** A run of steps of the server and calls of handlers. *)
Fixpoint echo_run (e : @echo unit) (ops : list (@echo_op unit)) : option (@echo unit) :=
  match ops with
  | [] => Some e
  | EBeat _ _ _ _ :: _ => None
  | op :: ops' => if sv_counter (ec_server e) <? max_int64 then match step1 e op with Ret e' => echo_run e' ops' | _ => None end else None
  end.

Lemma run_reach e ops e' : reach1 e -> echo_run e ops = Some e' -> reach1 e'.
Proof.
  revert e. induction ops as [|op ops IH]; intros e He; [by intros [= <-]|]. cbn [echo_run].
  destruct op as [op|k clk|]; [| |done]; (destruct (Z.ltb_spec (sv_counter (ec_server e)) max_int64); [|done]);
    (destruct (step1 e _) as [e1| |] eqn:Hs; [|done..]); apply IH; by eapply echo_reach_step; [exact He| |exact Hs].
Qed.

Definition started : option (@echo unit) := match echo_main_start (fun _ => "") None 0 with Ok e => Some e | Err _ => None end.
Definition after (ops : list (@echo_op unit)) : option (@echo unit) := e ← started; echo_run e ops.

Lemma after_reach ops e : after ops = Some e -> reach1 e.
Proof.
  unfold after, started. destruct (echo_main_start (fun _ => "") None 0) as [e0|] eqn:E; [|done]. cbn [mbind option_bind]. apply run_reach.
  by apply (echo_reach_start _ _ _ _ None).
Qed.

(** A connection comes, is announced, and is closed by its peer. *)
Definition comes_and_goes : list (@echo_op unit) :=
  [EServer (SAccept1 0 false (Ok []) 0); EServer (SAccept2 0 false); EServer (SLoop 0 false); EHandler 0 (fun _ => 0);
   EServer (SRead 0 false None 0); EHandler 0 (fun _ => 0); EHandler 0 (fun _ => 0)].


(** The connection is announced from one goroutine and its end from another: when the
    end comes first, the manager takes in a connection that is already gone, and
    nothing is left that would remove it. *)
Definition goes_and_comes : list (@echo_op unit) :=
  [EServer (SAccept1 0 false (Ok []) 0); EServer (SAccept2 0 false); EServer (SRead 0 false None 0); EHandler 0 (fun _ => 0);
   EHandler 0 (fun _ => 0); EServer (SLoop 0 false); EHandler 0 (fun _ => 0)].
Example dead_connection_kept :
  (fun e => (ec_pending e, map_to_list (sv_connections (ec_server e)), rd_running <$> sv_readers (ec_server e), map_to_list (cm_connections (ec_manager e))))
    <$> after goes_and_comes
  = Some ([], [], [false], [("tcp-1", 0%nat)]).
Proof. vm_compute. reflexivity. Qed.
