(* ===== verification/EchoClient.v ===== *)
(** src/examples/echo_client/main.go as a whole, on the client of TcpClient.v: it
    connects, sends a message for every line it is given, and disconnects.

    What each call of [Print] prints is an element of the output. The goroutine that
    writes the queue of the connection to the socket gets its turns between lines:
    a line comes with the number of turns after it. *)

From S2P Require Import Prelude CoreTypes NetMessage GoText TcpConn TcpServer TcpClient EchoExample.

Section client.
Context {U : Type}.
Notation client := (@tcpClient U).
Notation Message := (Net.Message U).

(** ** Lines *)

(** [client.SendMessage], and what is printed when it fails. *)
Definition send_or_say (failed : string) (msg : Message) (now : time) (c : client) : go (client * list string) :=
  '(c', r) ← cl_SendMessage None None (Some msg) now c;
  Ret (c', match r with Ok _ => [] | Err e => [failed +:+ e] end).

(** The answer: whether to leave. *)
Definition handleCommand (command : string) (now : time) (c : client) : go (client * list string * bool) :=
  if eqs command "/quit" then Ret (c, [], true)
  else
    '(c', said) ←
      (if eqs command "/ping" then send_or_say "Failed to send ping: " (Net.NewRPCMessage "client" "server" (bytes_of_string "ping") now) now c
       else if eqs command "/time" then send_or_say "Failed to get time: " (Net.NewRPCMessage "client" "server" (bytes_of_string "time") now) now c
       else if eqs command "/stats" then send_or_say "Failed to get stats: " (Net.NewRPCMessage "client" "server" (bytes_of_string "stats") now) now c
       else Ret (c, ["Unknown command: " +:+ command]));
    Ret (c', said, false).

(** What is done with a line that was read. *)
Definition client_line (line : string) (now : time) (c : client) : go (client * list string * bool) :=
  let input := TrimSpace line in
  if negb (nonempty input) then Ret (c, [], false)
  else if String.prefix "/" input then handleCommand input now c
  else
    '(c', said) ← send_or_say "Failed to send message: " (Net.NewMessage Net.MessageTypeData (bytes_of_string input) now) now c;
    Ret (c', said, false).

(** [n] turns of the goroutine that writes the queue of connection [i]. *)
Fixpoint sender (n i : nat) (now : time) (c : client) : go client :=
  match n with
  | O => Ret c
  | S n' =>
      match cl_conns c !! i with
      | None => Ret c
      | Some t =>
          match sendLoop1 None None None now t with
          | None => Ret c
          | Some turn => '(t', more) ← turn;
                         let c' := cl_set_conns (<[i := t']> (cl_conns c)) (cl_counter c) c in
                         if more : bool then sender n' i now c' else Ret c'
          end
      end
  end.

Definition prompt : string := "Enter message: ".

(** The loop of [main] on connection [i], until the input ends or [/quit]. *)
Fixpoint input_loop (i : nat) (lines : list (string * time * nat)) (c : client) (out : list string) : go (client * list string) :=
  match lines with
  | [] => Ret (c, out ++ [prompt])
  | (line, now, n) :: lines' =>
      '(c1, said, quit) ← client_line line now c;
      let out' := out ++ [prompt] ++ said in
      if quit : bool then Ret (c1, out') else c2 ← sender n i now c1; input_loop i lines' c2 out'
  end.

(** ** main *)

Inductive client_end := ClientFatal (message : string) | ClientDone (out : list string) (c : client).

Definition serverAddr (args : list string) : string := match args with _ :: a :: _ => a | _ => "localhost:8080" end.

Definition banner (id : string) : list string :=
  ["Connected to server! Connection ID: " +:+ id; "Type messages to send to the server. Commands:"; "  /ping - Send ping RPC call";
   "  /time - Get server time"; "  /stats - Get connection statistics"; "  /quit - Disconnect and exit"; ""].

(** Up to the connection; [dialled]: what dialling answers. *)
Definition client_connect (args : list string) (dialled : res (list (res bytes))) (now : time) : go (res (client * nat)) :=
  match (CreateTCPClient None now).2 with
  | Err e => Ret (Err ("Failed to create client: " +:+ e))
  | Ok c0 =>
      let c1 := cl_SetMessageHandler true c0 in
      match connect_begin None (serverAddr args) c1 with
      | (_, Some e) => Ret (Err ("Failed to connect to server: " +:+ e))
      | (c2, None) =>
          '(c3, r) ← connect_end (length (cl_dials c1)) dialled now c2;
          Ret (match r with Err e => Err ("Failed to connect to server: " +:+ e) | Ok i => Ok (c3, i) end)
      end
  end.

(** [ops]: what the goroutines of the client do while [Disconnect] waits for them. *)
Definition client_main (args : list string) (dialled : res (list (res bytes))) (now : time) (lines : list (string * time * nat)) (ops : list (@clop U))
    : go client_end :=
  r ← client_connect args dialled now;
  match r with
  | Err e => Ret (ClientFatal e)
  | Ok (c, i) =>
      '(c1, out) ← input_loop i lines c (["Connecting to echo server at " +:+ serverAddr args +:+ "..."] ++ banner (from_option tc_id "" (cl_conns c !! i)));
      c2 ← Disconnect_close None c1;
      c3 ← cl_run (Disconnect_forget c2) ops;
      if cl_wg_done c3 then Ret (ClientDone (out ++ ["Disconnecting..."; "Disconnected."]) c3) else Hang
  end.

(** ** What is sent *)

(** What a line asks for. *)
Inductive asked := AQuit | ANothing (said : list string) | AMessage (msg : Message).
Definition ask (line : string) (now : time) : asked :=
  let input := TrimSpace line in
  if negb (nonempty input) then ANothing []
  else if negb (String.prefix "/" input) then AMessage (Net.NewMessage Net.MessageTypeData (bytes_of_string input) now)
  else if eqs input "/quit" then AQuit
  else if bool_decide (input ∈ ["/ping"; "/time"; "/stats"])
       then AMessage (Net.NewRPCMessage "client" "server" (bytes_of_string (String.substring 1 5 input)) now)
  else ANothing ["Unknown command: " +:+ input].

(** The encodings of all that the lines ask to send, before the first [/quit]. *)
Fixpoint typed (lines : list (string * time * nat)) : list (res bytes) :=
  match lines with
  | [] => []
  | (line, now, _) :: lines' =>
      match ask line now with AQuit => [] | ANothing _ => typed lines' | AMessage m => Net.Encode (Some m) :: typed lines' end
  end.
(** How many of them the goroutine writes, when [k] of [total] were written. *)
Fixpoint written (lines : list (string * time * nat)) (k total : nat) : nat :=
  match lines with
  | [] => k
  | (line, now, n) :: lines' =>
      match ask line now with
      | AQuit => k
      | ANothing _ => written lines' (Nat.min (k + n) total) total
      | AMessage _ => written lines' (Nat.min (k + n) (S total)) (S total)
      end
  end.
(** What is printed when nothing fails. *)
Fixpoint printed (lines : list (string * time * nat)) : list string :=
  match lines with
  | [] => [prompt]
  | (line, now, _) :: lines' =>
      [prompt] ++ match ask line now with AQuit => [] | ANothing said => said ++ printed lines' | AMessage _ => printed lines' end
  end.

Lemma client_line_ask line now (c : client) : exists failed,
  client_line line now c = match ask line now with
                           | AQuit => Ret (c, [], true)
                           | ANothing said => Ret (c, said, false)
                           | AMessage m => '(c', said) ← send_or_say failed m now c; Ret (c', said, false)
                           end.
Proof.
  unfold client_line, ask, handleCommand. destruct (nonempty (TrimSpace line)); cbn [negb]; [|by exists ""].
  destruct (String.prefix "/" (TrimSpace line)); cbn [negb]; [|by eexists]. unfold eqs. case_bool_decide as Hq; [by exists ""|].
  case_bool_decide as H1; [rewrite H1; by eexists|]. case_bool_decide as H2; [rewrite H2; by eexists|]. case_bool_decide as H3; [rewrite H3; by eexists|].
  rewrite bool_decide_false; [rewrite !elem_of_cons elem_of_nil; naive_solver|]. by exists "".
Qed.

(** The client while it is given lines: [k] of the encodings [sent] are on the socket,
    the others in the queue. *)
Record session (i : nat) (sent : list bytes) (k : nat) (c : client) : Prop := {
  se_conn : cl_conn c = Some i;
  se_tcp : exists t, cl_conns c !! i = Some t /\ tc_closed t = false /\ tc_conn t = true /\
    tc_sendChan t = mkChan (drop k sent) 256 false /\ tc_out t = concat (take k sent);
  se_sent : Forall (fun b => length b <> 0%nat) sent;
  se_k : (k <= length sent)%nat;
  se_loops : cl_msgLoops c = [mkMsgLoop true None true] /\ cl_reLoops c = [];
}.

Lemma session_send i sent k (c : client) failed m now b :
  session i sent k c -> Net.Encode (Some m) = Ok b -> (length sent < 256)%nat ->
  exists c', send_or_say failed m now c = Ret (c', []) /\ session i (sent ++ [b]) k c'.
Proof.
  intros [Hc (t & Ht & Hcl & Hn & Hch & Hout) Hs Hk Hl] He Hroom. pose proof (Net.Encode_ok _ _ He) as [Hb _].
  assert (Net.Encode (Some (Net.with_body (Net.nm_Data m) (tc_id t) m)) = Ok b) as He' by by destruct m.
  assert (length b <> 0%nat) as Hlen by (rewrite Hb length_app Net.length_header; lia).
  unfold send_or_say, cl_SendMessage, cl_GetConnection. rewrite Hc Ht. unfold SendMessage. rewrite Hcl He'. unfold Send, Send_queue.
  rewrite Hcl (proj2 (Nat.eqb_neq _ _) Hlen) Hch (try_send_open (mkChan (drop k sent) 256 false)) //. cbn [ch_buf ch_cap]. rewrite decide_True; [rewrite length_drop; lia|].
  cbn [mbind go_bind is_ok]. eexists. split; [reflexivity|]. split; cbn.
  - done.
  - rewrite list_lookup_insert_eq; [exact (lookup_lt_Some _ _ _ Ht)|]. eexists. split; [reflexivity|]. cbn. split_and!; [done|done| |].
    + by rewrite drop_app_le.
    + by rewrite take_app_le.
  - apply Forall_app. by repeat constructor.
  - rewrite length_app. lia.
  - done.
Qed.

Lemma session_sender i sent now n : forall k (c : client), session i sent k c ->
  exists c', sender n i now c = Ret c' /\ session i sent (Nat.min (k + n) (length sent)) c'.
Proof.
  induction n as [|n IH]; intros k c Hse; cbn [sender].
  - exists c. split; [done|]. pose proof (se_k _ _ _ _ Hse). by replace (Nat.min (k + 0) (length sent)) with k by lia.
  - pose proof Hse as [Hc (t & Ht & Hcl & Hn & Hch & Hout) Hs Hk Hl]. rewrite Ht. unfold sendLoop1, try_recv. rewrite Hch. cbn [ch_buf].
    destruct (drop k sent) as [|b rest] eqn:Hd; cbn [ch_closed].
    + assert (length (drop k sent) = 0%nat) as Hz by by rewrite Hd. rewrite length_drop in Hz. exists c. split; [done|].
      by replace (Nat.min (k + S n) (length sent)) with k by lia.
    + cbn [tc_closed with_sendChan]. rewrite Hcl. unfold sendDirect. cbn [tc_conn with_sendChan tc_writeTimeout]. rewrite Hn. cbn [negb].
      replace (if 0 <? tc_writeTimeout t then None else None) with (@None error) by by destruct (0 <? _). cbn [mbind go_bind].
      assert (sent !! k = Some b) as Hb by (rewrite -(Nat.add_0_r k) -lookup_drop Hd; done). pose proof (lookup_lt_Some _ _ _ Hb) as Hlt.
      destruct (IH (S k) (cl_set_conns (<[i := with_written b now (with_sendChan (mkChan rest 256 false) t)]> (cl_conns c)) (cl_counter c) c)) as (c' & E & Hse').
      { split; cbn; [done| |done|lia|done]. rewrite list_lookup_insert_eq; [exact (lookup_lt_Some _ _ _ Ht)|]. eexists. split; [reflexivity|]. cbn. split_and!; [done|done| |].
        - rewrite -(Nat.add_1_r k) -drop_drop Hd. done.
        - rewrite (take_S_r _ _ _ Hb) concat_app Hout. cbn. by rewrite app_nil_r. }
      exists c'. split; [exact E|]. by replace (k + S n)%nat with (S k + n)%nat by lia.
Qed.

Lemma session_lines i lines : forall (c : client) out sent k bs, session i sent k c -> typed lines = Ok <$> bs -> (length sent + length bs <= 256)%nat ->
  exists c', input_loop i lines c out = Ret (c', out ++ printed lines) /\ session i (sent ++ bs) (written lines k (length sent)) c'.
Proof.
  induction lines as [|[[line now] n] lines IH]; intros c out sent k bs Hse Htyped Hlen; cbn [typed input_loop printed written] in *.
  - destruct bs; [|done]. rewrite app_nil_r. by exists c.
  - destruct (client_line_ask line now c) as [failed ->]. destruct (ask line now) as [|said|m].
    + destruct bs; [|done]. cbn [mbind go_bind]. rewrite !app_nil_r. by exists c.
    + cbn [mbind go_bind]. destruct (session_sender i sent now n k c Hse) as (c1 & -> & Hse1). cbn [mbind go_bind].
      destruct (IH c1 (out ++ [prompt] ++ said) sent _ bs Hse1 Htyped Hlen) as (c' & -> & Hse'). exists c'. split; [by rewrite -!assoc_L|done].
    + destruct bs as [|b bs]; [done|]. injection Htyped as Hb Htyped. cbn [length] in Hlen.
      destruct (session_send i sent k c failed m now b Hse Hb) as (c0 & -> & Hse0); [lia|]. cbn [mbind go_bind].
      destruct (session_sender i (sent ++ [b]) now n k c0 Hse0) as (c1 & -> & Hse1). cbn [mbind go_bind]. rewrite length_app Nat.add_1_r in Hse1.
      destruct (IH c1 (out ++ [prompt] ++ []) (sent ++ [b]) _ bs Hse1 Htyped) as (c' & -> & Hse'); [rewrite length_app; cbn; lia|].
      exists c'. rewrite length_app Nat.add_1_r in Hse'. rewrite -assoc_L in Hse'. split; [by rewrite -!assoc_L|done].
Qed.

(** A closed connection is never written to again. *)
Lemma closed_never_written i now n : forall (c : client) t, cl_conns c !! i = Some t -> tc_closed t = true -> ch_closed (tc_sendChan t) = true ->
  exists c' t', sender n i now c = Ret c' /\ cl_conns c' !! i = Some t' /\ tc_out t' = tc_out t.
Proof.
  destruct n as [|n]; intros c t Ht Hcl Hch; cbn [sender]; [by exists c, t|]. rewrite Ht. unfold sendLoop1, try_recv. destruct (ch_buf (tc_sendChan t)) as [|b rest].
  - rewrite Hch. cbn [mbind go_bind]. eexists _, t. split; [reflexivity|]. split; [|done]. cbn. by rewrite list_lookup_insert_eq; [exact (lookup_lt_Some _ _ _ Ht)|].
  - cbn [tc_closed with_sendChan]. rewrite Hcl. cbn [mbind go_bind]. eexists _, (with_sendChan _ t). split; [reflexivity|].
    split; [|done]. cbn. by rewrite list_lookup_insert_eq; [exact (lookup_lt_Some _ _ _ Ht)|].
Qed.

Lemma client_connected args sock now :
  exists c, client_connect args (Ok sock) now = Ret (Ok (c, 0%nat)) /\ session 0 [] 0 c /\ tc_id <$> cl_conns c !! 0%nat = Some "tcp-1".
Proof.
  unfold client_connect. set (cfg := nc_set_Protocol ProtocolTCP DefaultNetworkConfig).
  assert ((CreateTCPClient (U := U) None now).2 = NewTCPClient (Some cfg) now) as -> by reflexivity. unfold NewTCPClient.
  assert (eqs (nc_Protocol cfg) ProtocolTCP = true) as -> by reflexivity. clearbody cfg. cbn [negb].
  unfold cl_SetMessageHandler, cl_set_options, connect_begin, connect_end, connected_on. cbn -[NewTCPConnection SetWriteTimeout SetReadTimeout i64].
  destruct (NewTCPConnection 0 (Some sock) now) as [n t0] eqn:E. assert (tc_id t0 = "tcp-1") as Hid by by injection E as _ <-.
  assert (tc_closed t0 = false /\ tc_conn t0 = true /\ tc_sendChan t0 = make_chan 256 /\ tc_out t0 = []) as (H1 & H2 & H3 & H4) by by injection E as _ <-.
  clear E. cbn -[i64]. eexists. split; [reflexivity|]. cbn -[i64]. split; [|by rewrite Hid]. split; cbn -[i64]; [done| |constructor|done|done].
  eexists. split; [reflexivity|]. by split_and!.
Qed.

(** What the client promises and what it sends: if at most 256 messages are typed
    before the input ends or [/quit], and they can be encoded, then [main] connects,
    prints the prompts and no failure, disconnects and comes to its end; but on the
    socket is only what the goroutine of the queue had written by then, a prefix of
    the encodings in the order of the lines, and the rest is never written. *)
Theorem client_sends_prefix args sock now lines late e t bs :
  typed lines = Ok <$> bs -> (length bs <= 256)%nat ->
  exists c tc, client_main args (Ok sock) now lines [KMessage 0 late e t]
      = Ret (ClientDone (["Connecting to echo server at " +:+ serverAddr args +:+ "..."] ++ banner "tcp-1" ++ printed lines
                         ++ ["Disconnecting..."; "Disconnected."]) c) /\
    cl_conn c = None /\ cl_conns c !! 0%nat = Some tc /\ tc_closed tc = true /\ tc_out tc = concat (take (written lines 0 0) bs) /\
    forall n now', exists c' tc', sender n 0 now' c = Ret c' /\ cl_conns c' !! 0%nat = Some tc' /\ tc_out tc' = tc_out tc.
Proof.
  intros Htyped Hlen. unfold client_main. destruct (client_connected args sock now) as (c & -> & Hse & Hid). cbn [mbind go_bind].
  apply fmap_Some in Hid as (t0 & Ht0 & Hid). rewrite Ht0. cbn [from_option]. rewrite -Hid. set (out := ["Connecting to echo server at " +:+ _ +:+ "..."] ++ _).
  destruct (session_lines 0 lines c out [] 0 bs Hse Htyped Hlen) as (c1 & -> & [Hc (tc & Ht & Hcl & Hn & Hch & Hout) _ _ [Hml Hrl]]). cbn [mbind go_bind app] in *.
  unfold Disconnect_close. cbn [cl_set_state cl_conn cl_conns]. rewrite Hc Ht. unfold Close. rewrite Hcl Hch. cbn [close_chan ch_closed mbind go_bind].
  match goal with |- context [<[0%nat := ?x]> (cl_conns c1)] => set (tc' := x) end. cbn [cl_run cl_step]. unfold messageLoop1. cbn [Disconnect_forget cl_set_state cl_set_conns cl_msgLoops cl_conn]. rewrite Hml. cbn [lookup list_lookup mbind go_bind].
  unfold cl_wg_done. cbn [cl_msgLoops cl_reLoops set_msg_loop cl_set_goroutines cl_set_state cl_set_conns]. rewrite Hml Hrl. cbn [insert list_insert forallb ml_running negb andb].
  eexists _, tc'. split; [unfold out; by rewrite -!assoc_L|]. cbn [cl_conn cl_conns cl_set_state cl_set_conns cl_set_goroutines set_msg_loop].
  split; [done|]. split; [apply list_lookup_insert_eq; exact (lookup_lt_Some _ _ _ Ht)|]. split_and!; [done|exact Hout|].
  intros n now'. apply (closed_never_written 0 now' n _ tc'); [apply list_lookup_insert_eq; exact (lookup_lt_Some _ _ _ Ht)|done|done].
Qed.

(** Everything arrives when the goroutine gets a turn after each line; without any
    turn, as when the input is piped in, nothing does. *)
Lemma written_all lines total : Forall (fun x => (1 <= x.2)%nat) lines -> written lines total total = (total + length (typed lines))%nat.
Proof.
  intros H. revert total. induction H as [|[[line now] n] lines Hn _ IH]; intros total; cbn [written typed length]; [lia|]. cbn in Hn.
  destruct (ask line now); cbn [length]; [lia| |].
  - replace (Nat.min (total + n) total) with total by lia. apply IH.
  - replace (Nat.min (total + n) (S total)) with (S total) by lia. rewrite IH. lia.
Qed.
Lemma written_none lines k total : (k <= total)%nat -> Forall (fun x => x.2 = 0%nat) lines -> written lines k total = k.
Proof.
  intros Hk H. revert total Hk. induction H as [|[[line now] n] lines Hn _ IH]; intros total Hk; cbn [written]; [done|]. cbn in Hn. subst n.
  rewrite Nat.add_0_r. destruct (ask line now); [done| |]; rewrite Nat.min_l; try lia; apply IH; lia.
Qed.
End client.

(** ** A run *)

Definition some_lines : list (string * time * nat) := [(" hello ", 0, 1%nat); ("", 0, 0%nat); ("/ping", 0, 0%nat); ("/quit", 0, 0%nat); ("lost", 0, 0%nat)].
Definition some_sent : list bytes := omap (fun r => match r with Ok b => Some b | Err _ => None end) (typed (U := unit) some_lines).

Lemma client_sends_prefix_witness :
  exists c tc, client_main (U := unit) ["client"] (Ok []) 0 some_lines [KMessage 0 false None 0]
      = Ret (ClientDone (["Connecting to echo server at localhost:8080..."] ++ banner "tcp-1" ++ [prompt; prompt; prompt; prompt]
                         ++ ["Disconnecting..."; "Disconnected."]) c) /\
    cl_conn c = None /\ cl_conns c !! 0%nat = Some tc /\ tc_closed tc = true /\ tc_out tc = concat (take 1 some_sent) /\
    forall n now', exists c' tc', sender n 0 now' c = Ret c' /\ cl_conns c' !! 0%nat = Some tc' /\ tc_out tc' = tc_out tc.
Proof.
  apply (client_sends_prefix ["client"] [] 0 some_lines false None 0 some_sent).
  - vm_compute. reflexivity.
  - vm_compute. repeat constructor.
Defined.

